(** * Servex back office: trip / shipment lifecycle and billing reconciliation

    A shallow embedding of the request handlers of
    [src/export/src/backend/server.py] (module [Server] below) and of
    [src/backend/routes/trip_routes.py] (module [TripRoutes] below), over an
    explicit model of the document store they share.

    Conventions of the embedding:
    - a collection is the list of its documents in natural (insertion) order;
      [find_one] and [update_one] act on the first match, [to_list n] keeps
      the first [n] documents of a cursor;
    - a handler is a function from the store to the store it leaves behind
      and either its response or the [HTTPException] it raised: writes made
      before an exception stay in the store, as they do in the database;
    - money amounts and weights (Python floats) are exact rationals; a
      statement below that depends on the comparison of a sum with a total
      carries the condition that the amounts are whole numbers
      ([adds_exactly]), on which floating-point addition is exact, and a
      statement on a sum gives it as the additions of the handler, in the
      handler's order;
    - the clock, the random generator and [uuid4] are inputs of the handler;
    - the unique indexes of the store are not part of [insert_one] and
      [update_one]; a statement below on a request that writes an indexed
      field, the barcode of a piece or the number of an invoice, carries the
      condition that no write meets the index ([barcodes_free],
      [numbers_free]); trip numbers are checked by the handlers themselves
      before they write;
    - the audit log is not part of the model. *)

From Stdlib Require Import String Ascii List ZArith QArith Bool Lia Arith.
From Stdlib Require Import DecimalString.
Import ListNotations.

Local Close Scope Q_scope.
Local Open Scope list_scope.
Local Open Scope string_scope.

(** ** Responses and exceptions *)

Inductive result (A : Type) : Type :=
| Ok (a : A)
| HTTPException (status_code : nat) (detail : string).

Arguments Ok {A} a.
Arguments HTTPException {A} status_code detail.

(** A handler over a state [S]: the state is threaded through, an exception
    stops the handler and keeps the state reached so far. *)
Definition handler (S A : Type) : Type := S -> S * result A.

Definition ret {S A : Type} (a : A) : handler S A := fun s => (s, Ok a).

Definition raise {S A : Type} (status_code : nat) (detail : string) : handler S A :=
  fun s => (s, HTTPException status_code detail).

Definition bind {S A B : Type} (m : handler S A) (k : A -> handler S B) : handler S B :=
  fun s =>
    match m s with
    | (s1, Ok a) => k a s1
    | (s1, HTTPException c d) => (s1, HTTPException c d)
    end.

Definition get {S : Type} : handler S S := fun s => (s, Ok s).
Definition modify {S : Type} (f : S -> S) : handler S unit := fun s => (f s, Ok tt).

(** [when_ b m]: Python's [if b: m] for a statement [m]. *)
Definition when_ {S : Type} (b : bool) (m : handler S unit) : handler S unit :=
  if b then m else ret tt.

(** [for x in l: body x]. *)
Fixpoint for_each {S A : Type} (l : list A) (body : A -> handler S unit) : handler S unit :=
  match l with
  | [] => ret tt
  | x :: l' => bind (body x) (fun _ => for_each l' body)
  end.

Declare Scope handler_scope.
Delimit Scope handler_scope with handler.
Notation "x <- m ;; k" := (bind m (fun x => k))
  (at level 100, m at next level, right associativity) : handler_scope.
Notation "m ;;; k" := (bind m (fun _ => k))
  (at level 100, right associativity) : handler_scope.

(** ** Python values *)

(** Truthiness of an optional string ([None] and the empty string are falsy). *)
Definition truthy (o : option string) : bool :=
  match o with
  | Some s => negb (s =? EmptyString)
  | None => false
  end.

Definition opt_eqb (o : option string) (v : string) : bool :=
  match o with
  | Some s => s =? v
  | None => false
  end.

(** [v if v is not None else old]: the effect of [$set] with the request
    fields that survive the [if v is not None] comprehension. *)
Definition set_field {A : Type} (req : option A) (old : A) : A :=
  match req with
  | Some v => v
  | None => old
  end.

(** The same for a stored field that may itself be null. *)
Definition set_opt_field {A : Type} (req : option A) (old : option A) : option A :=
  match req with
  | Some v => Some v
  | None => old
  end.

(** [sum(...)] over floats, starting from [0]. *)
Definition qsum (l : list Q) : Q := fold_left Qplus l 0%Q.

(** Decimal digits of a natural number, [str(n)]. *)
Definition str_nat (n : nat) : string := NilEmpty.string_of_uint (Nat.to_uint n).

Fixpoint repeat_char (c : ascii) (n : nat) : string :=
  match n with
  | O => EmptyString
  | S n' => String c (repeat_char c n')
  end.

(** [s.zfill(width)] for a string of digits without sign. *)
Definition zfill (width : nat) (s : string) : string :=
  repeat_char "0"%char (width - String.length s) ++ s.

(** [f"{z:0{width}d}"]: the sign counts in the width. *)
Definition format_0d (width : nat) (z : Z) : string :=
  if (z <? 0)%Z
  then "-" ++ zfill (width - 1) (str_nat (Z.abs_nat z))
  else zfill width (str_nat (Z.to_nat z)).

(** ** Collections of the document store *)

Section Collection.
Variable D : Type.

Definition find_one (q : D -> bool) (c : list D) : option D := List.find q c.

Definition find (q : D -> bool) (c : list D) : list D := List.filter q c.

Definition to_list (n : nat) (cursor : list D) : list D := firstn n cursor.

Definition count_documents (q : D -> bool) (c : list D) : nat :=
    List.length (List.filter q c).

Definition insert_one (d : D) (c : list D) : list D := (c ++ [d])%list.

Fixpoint update_one (q : D -> bool) (upd : D -> D) (c : list D) : list D :=
    match c with
    | [] => []
    | d :: c' => if q d then upd d :: c' else d :: update_one q upd c'
    end.

Definition matched_count (q : D -> bool) (c : list D) : nat :=
    if existsb q c then 1 else 0.

Definition update_many (q : D -> bool) (upd : D -> D) (c : list D) : list D :=
    List.map (fun d => if q d then upd d else d) c.

Fixpoint delete_one (q : D -> bool) (c : list D) : list D :=
    match c with
    | [] => []
    | d :: c' => if q d then c' else d :: delete_one q c'
    end.

Definition deleted_count (q : D -> bool) (c : list D) : nat :=
    if existsb q c then 1 else 0.

Definition delete_many (q : D -> bool) (c : list D) : list D :=
    List.filter (fun d => negb (q d)) c.

  (** [.sort(key, -1)]: descending on a string key, stable. *)
Fixpoint insert_desc (key : D -> string) (d : D) (sorted : list D) : list D :=
    match sorted with
    | [] => [d]
    | e :: rest =>
        if String.ltb (key d) (key e) then e :: insert_desc key d rest
        else d :: sorted
    end.

Definition sort_desc (key : D -> string) (c : list D) : list D :=
    fold_right (insert_desc key) [] c.

End Collection.

Arguments find_one {D} q c.
Arguments find {D} q c.
Arguments to_list {D} n cursor : simpl never.
Arguments count_documents {D} q c.
Arguments insert_one {D} d c.
Arguments update_one {D} q upd c.
Arguments matched_count {D} q c.
Arguments update_many {D} q upd c.
Arguments delete_one {D} q c.
Arguments deleted_count {D} q c.
Arguments delete_many {D} q c.
Arguments insert_desc {D} key d sorted.
Arguments sort_desc {D} key c.

(** ** Enumerations of the models *)

Module TripStatus.
Inductive t := planning | loading | in_transit | delivered | closed.
Definition eqb (a b : t) : bool :=
    match a, b with
    | planning, planning | loading, loading | in_transit, in_transit
    | delivered, delivered | closed, closed => true
    | _, _ => false
    end.
End TripStatus.

Module ShipmentStatus.
Inductive t := warehouse | staged | loaded | in_transit | delivered.
End ShipmentStatus.

Module InvoiceStatus.
Inductive t := draft | sent | paid | overdue.
Definition eqb (a b : t) : bool :=
    match a, b with
    | draft, draft | sent, sent | paid, paid | overdue, overdue => true
    | _, _ => false
    end.
End InvoiceStatus.

Module ExpenseCategory.
Inductive t := fuel | tolls | border_fees | repairs | food | accommodation | other.
End ExpenseCategory.

Module PaymentMethod.
Inductive t := cash | bank_transfer | mobile_money | other.
End PaymentMethod.

(** ** Documents *)

(** The user document returned by [get_current_user]. *)
Record User := mkUser {
  user_id : string;
  user_tenant_id : option string;
  user_role : option string
}.

(** [user.get("role") != "owner"] is [negb (is_owner user)]. *)
Definition is_owner (user : User) : bool := opt_eqb (user_role user) "owner".

(** [dependencies.get_tenant_id]: the tenant every handler is scoped to. *)
Definition get_tenant_id (user : User) : result string :=
  if truthy (user_tenant_id user) then
    match user_tenant_id user with
    | Some tenant_id => Ok tenant_id
    | None => HTTPException 403 "User not associated with a tenant"
    end
  else HTTPException 403 "User not associated with a tenant".

Record Client := mkClient {
  client_id : string;
  client_tenant_id : string;
  client_name : string;
  client_payment_terms_days : Z
}.

(** A [client_rates] document; [rate_per_kg] is the key
    [generate_trip_invoices] looks up, absent from the [ClientRate] model. *)
Record ClientRate := mkClientRate {
  rate_id : string;
  rate_client_id : string;
  rate_value : Q;
  rate_effective_from : option string;
  rate_per_kg : option Q
}.

Record Shipment := mkShipment {
  shp_id : string;
  shp_tenant_id : string;
  shp_client_id : option string;
  shp_trip_id : option string;
  shp_status : ShipmentStatus.t;
  shp_description : string;
  shp_destination : string;
  shp_total_pieces : Z;
  shp_total_weight : option Q;
  shp_total_cbm : option Q;
  shp_created_by : string;
  shp_created_at : string
}.

Record ShipmentPiece := mkShipmentPiece {
  pc_id : string;
  pc_shipment_id : string;
  pc_piece_number : Z;
  pc_weight : Q;
  pc_barcode : string;
  pc_loaded_at : option string
}.

Record Trip := mkTrip {
  trip_id : string;
  trip_tenant_id : string;
  trip_number : string;
  trip_route : list string;
  trip_departure_date : string;
  trip_vehicle_id : option string;
  trip_driver_id : option string;
  trip_notes : option string;
  trip_status : TripStatus.t;
  trip_locked_at : option string;
  trip_actual_departure : option string;
  trip_actual_arrival : option string;
  trip_created_by : string;
  trip_created_at : string
}.

Record TripExpense := mkTripExpense {
  exp_id : string;
  exp_trip_id : string;
  exp_category : ExpenseCategory.t;
  exp_amount : Q;
  exp_currency : string;
  exp_expense_date : string;
  exp_description : option string;
  exp_receipt_url : option string;
  exp_created_by : string;
  exp_created_at : string
}.

(** An [invoices] document.  The keys written by only one of the two
    producers ([create_invoice] of the server, [generate_trip_invoices] of the
    trip routes) are optional: [adjustments] and [currency] come from the
    first, [shipment_ids], [vat], [issue_date] and [created_by] from the
    second. *)
Record Invoice := mkInvoice {
  inv_id : string;
  inv_tenant_id : string;
  inv_client_id : string;
  inv_trip_id : option string;
  inv_invoice_number : string;
  inv_shipment_ids : option (list string);
  inv_subtotal : Q;
  inv_adjustments : option Q;
  inv_vat : option Q;
  inv_total : Q;
  inv_currency : option string;
  inv_status : InvoiceStatus.t;
  inv_issue_date : option string;
  inv_due_date : string;
  inv_sent_at : option string;
  inv_sent_by : option string;
  inv_paid_at : option string;
  inv_created_by : option string;
  inv_created_at : string
}.

Record InvoiceLineItem := mkInvoiceLineItem {
  item_id : string;
  item_invoice_id : string;
  item_shipment_id : option string;
  item_description : string;
  item_quantity : Z;
  item_weight : option Q;
  item_rate : Q;
  item_amount : Q
}.

Record Payment := mkPayment {
  pay_id : string;
  pay_tenant_id : string;
  pay_client_id : string;
  pay_invoice_id : option string;
  pay_amount : Q;
  pay_payment_date : string;
  pay_payment_method : PaymentMethod.t;
  pay_reference : option string;
  pay_notes : option string;
  pay_created_by : string;
  pay_created_at : string
}.

(** ** The store: the collections of [db] the handlers touch *)

Record Store := mkStore {
  clients : list Client;
  client_rates : list ClientRate;
  shipments : list Shipment;
  shipment_pieces : list ShipmentPiece;
  trips : list Trip;
  trip_expenses : list TripExpense;
  invoices : list Invoice;
  invoice_line_items : list InvoiceLineItem;
  payments : list Payment
}.

Definition with_shipments (f : list Shipment -> list Shipment) (s : Store) : Store :=
  mkStore (clients s) (client_rates s) (f (shipments s)) (shipment_pieces s) (trips s)
          (trip_expenses s) (invoices s) (invoice_line_items s) (payments s).

Definition with_shipment_pieces (f : list ShipmentPiece -> list ShipmentPiece) (s : Store) : Store :=
  mkStore (clients s) (client_rates s) (shipments s) (f (shipment_pieces s)) (trips s)
          (trip_expenses s) (invoices s) (invoice_line_items s) (payments s).

Definition with_trips (f : list Trip -> list Trip) (s : Store) : Store :=
  mkStore (clients s) (client_rates s) (shipments s) (shipment_pieces s) (f (trips s))
          (trip_expenses s) (invoices s) (invoice_line_items s) (payments s).

Definition with_trip_expenses (f : list TripExpense -> list TripExpense) (s : Store) : Store :=
  mkStore (clients s) (client_rates s) (shipments s) (shipment_pieces s) (trips s)
          (f (trip_expenses s)) (invoices s) (invoice_line_items s) (payments s).

Definition with_invoices (f : list Invoice -> list Invoice) (s : Store) : Store :=
  mkStore (clients s) (client_rates s) (shipments s) (shipment_pieces s) (trips s)
          (trip_expenses s) (f (invoices s)) (invoice_line_items s) (payments s).

Definition with_invoice_line_items (f : list InvoiceLineItem -> list InvoiceLineItem)
  (s : Store) : Store :=
  mkStore (clients s) (client_rates s) (shipments s) (shipment_pieces s) (trips s)
          (trip_expenses s) (invoices s) (f (invoice_line_items s)) (payments s).

Definition with_payments (f : list Payment -> list Payment) (s : Store) : Store :=
  mkStore (clients s) (client_rates s) (shipments s) (shipment_pieces s) (trips s)
          (trip_expenses s) (invoices s) (invoice_line_items s) (f (payments s)).

(** The clock of one request: [datetime.now(timezone.utc)] rendered the ways
    the handlers render it. *)
Record Clock := mkClock {
  now_iso : string;          (* datetime.now(timezone.utc).isoformat() *)
  today : string;            (* datetime.now(timezone.utc).strftime("%Y-%m-%d") *)
  year : nat;                (* datetime.now().year *)
  in_30_days_iso : string    (* (datetime.now(timezone.utc) + timedelta(days=30)).isoformat() *)
}.

(** ** Randomness *)

(** The raw draws of the random generator, in the order they are taken. *)
Definition Rng : Type := nat -> nat.

Definition advance (n : nat) (rng : Rng) : Rng := fun j => rng (n + j)%nat.

Definition digits : string := "0123456789".
Definition hexdigits_upper : string := "0123456789ABCDEF".

Definition pick (population : string) (draw : nat) : ascii :=
  match String.get (draw mod String.length population) population with
  | Some c => c
  | None => "0"%char
  end.

(** [''.join(random.choices(population, k=k))]. *)
Fixpoint random_choices (population : string) (k : nat) (rng : Rng) : string :=
  match k with
  | O => EmptyString
  | S k' => String (pick population (rng O)) (random_choices population k' (advance 1 rng))
  end.

(** [uuid.uuid4().hex[:8].upper()]: the first eight digits of a version 4
    UUID are all random. *)
Definition uuid4_hex8_upper (rng : Rng) : string := random_choices hexdigits_upper 8 rng.

(** ** Query filters shared by the handlers *)

Definition by_id_tenant {D : Type} (id_of tenant_of : D -> string) (id tenant_id : string)
  : D -> bool :=
  fun d => (id_of d =? id) && (tenant_of d =? tenant_id).

Definition trip_q (tid tenant_id : string) : Trip -> bool :=
  by_id_tenant trip_id trip_tenant_id tid tenant_id.

Definition shipment_q (sid tenant_id : string) : Shipment -> bool :=
  by_id_tenant shp_id shp_tenant_id sid tenant_id.

Definition invoice_q (iid tenant_id : string) : Invoice -> bool :=
  by_id_tenant inv_id inv_tenant_id iid tenant_id.

Definition invoice_by_id (iid : string) : Invoice -> bool := fun i => inv_id i =? iid.

Definition on_trip (tid tenant_id : string) : Shipment -> bool :=
  fun sh => opt_eqb (shp_trip_id sh) tid && (shp_tenant_id sh =? tenant_id).

Definition expense_of_trip (tid : string) : TripExpense -> bool :=
  fun e => exp_trip_id e =? tid.

Definition expense_q (eid tid : string) : TripExpense -> bool :=
  fun e => (exp_id e =? eid) && (exp_trip_id e =? tid).

Definition piece_of (sid : string) : ShipmentPiece -> bool :=
  fun p => pc_shipment_id p =? sid.

Definition piece_by_id (pid : string) : ShipmentPiece -> bool := fun p => pc_id p =? pid.

Definition item_of (iid : string) : InvoiceLineItem -> bool :=
  fun it => item_invoice_id it =? iid.

Definition payment_of (iid : string) : Payment -> bool :=
  fun p => opt_eqb (pay_invoice_id p) iid.

(** ** Field updates ([$set]) *)

Definition set_shipment_trip (tid : option string) (st : ShipmentStatus.t) (sh : Shipment)
  : Shipment :=
  mkShipment (shp_id sh) (shp_tenant_id sh) (shp_client_id sh) tid st (shp_description sh)
    (shp_destination sh) (shp_total_pieces sh) (shp_total_weight sh) (shp_total_cbm sh)
    (shp_created_by sh) (shp_created_at sh).

Definition set_barcode (barcode : string) (p : ShipmentPiece) : ShipmentPiece :=
  mkShipmentPiece (pc_id p) (pc_shipment_id p) (pc_piece_number p) (pc_weight p) barcode
    (pc_loaded_at p).

Definition set_invoice_status (st : InvoiceStatus.t) (i : Invoice) : Invoice :=
  mkInvoice (inv_id i) (inv_tenant_id i) (inv_client_id i) (inv_trip_id i)
    (inv_invoice_number i) (inv_shipment_ids i) (inv_subtotal i) (inv_adjustments i)
    (inv_vat i) (inv_total i) (inv_currency i) st (inv_issue_date i) (inv_due_date i)
    (inv_sent_at i) (inv_sent_by i) (inv_paid_at i) (inv_created_by i) (inv_created_at i).

Definition set_invoice_status_paid_at (st : InvoiceStatus.t) (paid_at : option string)
  (i : Invoice) : Invoice :=
  mkInvoice (inv_id i) (inv_tenant_id i) (inv_client_id i) (inv_trip_id i)
    (inv_invoice_number i) (inv_shipment_ids i) (inv_subtotal i) (inv_adjustments i)
    (inv_vat i) (inv_total i) (inv_currency i) st (inv_issue_date i) (inv_due_date i)
    (inv_sent_at i) (inv_sent_by i) paid_at (inv_created_by i) (inv_created_at i).

Definition set_invoice_totals (subtotal total : Q) (i : Invoice) : Invoice :=
  mkInvoice (inv_id i) (inv_tenant_id i) (inv_client_id i) (inv_trip_id i)
    (inv_invoice_number i) (inv_shipment_ids i) subtotal (inv_adjustments i)
    (inv_vat i) total (inv_currency i) (inv_status i) (inv_issue_date i) (inv_due_date i)
    (inv_sent_at i) (inv_sent_by i) (inv_paid_at i) (inv_created_by i) (inv_created_at i).

(** [invoice["status"] not in ["paid", "overdue"] and invoice["due_date"] < today] *)
Definition is_past_due (clock : Clock) (invoice : Invoice) : bool :=
  negb (InvoiceStatus.eqb (inv_status invoice) InvoiceStatus.paid
        || InvoiceStatus.eqb (inv_status invoice) InvoiceStatus.overdue)
  && String.ltb (inv_due_date invoice) (today clock).

(** * [server.py] *)

Module Server.

Local Open Scope handler_scope.

(** [generate_barcode]: [trip_number-seq-piece], or [TEMP-] and six random
    decimal digits when there is no trip number. *)
Definition generate_barcode (rng : Rng) (trip_number : option string)
  (shipment_seq piece_number : Z) : string :=
  if truthy trip_number then
    match trip_number with
    | Some n => n ++ "-" ++ format_0d 3 shipment_seq ++ "-" ++ format_0d 2 piece_number
    | None => EmptyString
    end
  else
    let random_digits := random_choices digits 6 rng in
    "TEMP-" ++ random_digits.

(** *** Shipments *)

Record ShipmentUpdate := mkShipmentUpdate {
  su_description : option string;
  su_destination : option string;
  su_total_pieces : option Z;
  su_total_weight : option Q;
  su_total_cbm : option Q;
  su_status : option ShipmentStatus.t;
  su_trip_id : option string
}.

Definition is_some {A : Type} (o : option A) : bool :=
  match o with Some _ => true | None => false end.

(** [bool(update_dict)] for the dictionary of the non-null request fields. *)
Definition shipment_update_nonempty (u : ShipmentUpdate) : bool :=
  is_some (su_description u) || is_some (su_destination u) || is_some (su_total_pieces u)
  || is_some (su_total_weight u) || is_some (su_total_cbm u) || is_some (su_status u)
  || is_some (su_trip_id u).

Definition apply_shipment_update (u : ShipmentUpdate) (sh : Shipment) : Shipment :=
  mkShipment (shp_id sh) (shp_tenant_id sh) (shp_client_id sh)
    (set_opt_field (su_trip_id u) (shp_trip_id sh))
    (set_field (su_status u) (shp_status sh))
    (set_field (su_description u) (shp_description sh))
    (set_field (su_destination u) (shp_destination sh))
    (set_field (su_total_pieces u) (shp_total_pieces sh))
    (set_opt_field (su_total_weight u) (shp_total_weight sh))
    (set_opt_field (su_total_cbm u) (shp_total_cbm sh))
    (shp_created_by sh) (shp_created_at sh).

Definition update_shipment (shipment_id : string) (update_data : ShipmentUpdate)
  (tenant_id : string) : handler Store (option Shipment) :=
  (if shipment_update_nonempty update_data then
     s <- get ;;
     modify (with_shipments
               (update_one (shipment_q shipment_id tenant_id)
                           (apply_shipment_update update_data))) ;;;
     if Nat.eqb (matched_count (shipment_q shipment_id tenant_id) (shipments s)) 0
     then raise 404 "Shipment not found"
     else ret tt
   else ret tt) ;;;
  s <- get ;;
  ret (find_one (shipment_q shipment_id tenant_id) (shipments s)).

(** *** Trips *)

Record TripUpdate := mkTripUpdate {
  tu_trip_number : option string;
  tu_route : option (list string);
  tu_departure_date : option string;
  tu_vehicle_id : option string;
  tu_driver_id : option string;
  tu_notes : option string;
  tu_status : option TripStatus.t
}.

Definition trip_update_nonempty (u : TripUpdate) : bool :=
  is_some (tu_trip_number u) || is_some (tu_route u) || is_some (tu_departure_date u)
  || is_some (tu_vehicle_id u) || is_some (tu_driver_id u) || is_some (tu_notes u)
  || is_some (tu_status u).

(** [update_dict.get("status") == st] *)
Definition status_is (u : TripUpdate) (st : TripStatus.t) : bool :=
  match tu_status u with
  | Some v => TripStatus.eqb v st
  | None => false
  end.

(** [$set] of the request fields together with the timestamps the handler
    added to [update_dict]. *)
Definition apply_trip_update (u : TripUpdate)
  (locked_at actual_departure actual_arrival : option string) (t : Trip) : Trip :=
  mkTrip (trip_id t) (trip_tenant_id t)
    (set_field (tu_trip_number u) (trip_number t))
    (set_field (tu_route u) (trip_route t))
    (set_field (tu_departure_date u) (trip_departure_date t))
    (set_opt_field (tu_vehicle_id u) (trip_vehicle_id t))
    (set_opt_field (tu_driver_id u) (trip_driver_id t))
    (set_opt_field (tu_notes u) (trip_notes t))
    (set_field (tu_status u) (trip_status t))
    (set_opt_field locked_at (trip_locked_at t))
    (set_opt_field actual_departure (trip_actual_departure t))
    (set_opt_field actual_arrival (trip_actual_arrival t))
    (trip_created_by t) (trip_created_at t).

(** The uniqueness check of a changed trip number. *)
Definition trip_number_taken (trip_id0 tenant_id : string) (u : TripUpdate) (trip : Trip)
  (s : Store) : bool :=
  match tu_trip_number u with
  | Some n =>
      if negb (n =? trip_number trip) then
        is_some (find_one (fun t => (trip_tenant_id t =? tenant_id) && (trip_number t =? n)
                                    && negb (trip_id t =? trip_id0)) (trips s))
      else false
  | None => false
  end.

Definition update_trip (clock : Clock) (trip_id0 : string) (update_data : TripUpdate)
  (tenant_id : string) (user : User) : handler Store (option Trip) :=
  s <- get ;;
  match find_one (trip_q trip_id0 tenant_id) (trips s) with
  | None => raise 404 "Trip not found"
  | Some trip =>
      if truthy (trip_locked_at trip) && negb (is_owner user) then
        raise 403 "Trip is locked. Only owner can modify."
      else if trip_number_taken trip_id0 tenant_id update_data trip s then
        raise 400 "Trip number already exists for this tenant"
      else
        let locked_at :=
          if status_is update_data TripStatus.closed
             && negb (TripStatus.eqb (trip_status trip) TripStatus.closed)
          then Some (now_iso clock) else None in
        when_ (trip_update_nonempty update_data)
          (modify (with_trips
                     (update_one (trip_q trip_id0 tenant_id)
                                 (apply_trip_update update_data locked_at None None)))) ;;;
        s' <- get ;;
        ret (find_one (trip_q trip_id0 tenant_id) (trips s'))
  end.

Definition delete_trip (trip_id0 tenant_id : string) (user : User) : handler Store string :=
  s <- get ;;
  match find_one (trip_q trip_id0 tenant_id) (trips s) with
  | None => raise 404 "Trip not found"
  | Some trip =>
      if truthy (trip_locked_at trip) && negb (is_owner user) then
        raise 403 "Cannot delete locked trip"
      else
        modify (with_shipments
                  (update_many (on_trip trip_id0 tenant_id)
                               (set_shipment_trip None ShipmentStatus.warehouse))) ;;;
        modify (with_trip_expenses (delete_many (expense_of_trip trip_id0))) ;;;
        modify (with_trips (delete_one (trip_q trip_id0 tenant_id))) ;;;
        ret "Trip deleted"
  end.

(** *** Invoices *)

Definition status_name (st : InvoiceStatus.t) : string :=
  match st with
  | InvoiceStatus.draft => "draft"
  | InvoiceStatus.sent => "sent"
  | InvoiceStatus.paid => "paid"
  | InvoiceStatus.overdue => "overdue"
  end.

(** [generate_invoice_number]: one more than the sequence number of the
    tenant's highest invoice number of the current year. *)
Fixpoint last_segment (acc : string) (s : string) : string :=
  match s with
  | EmptyString => acc
  | String c s' => if Ascii.eqb c "-"%char then last_segment EmptyString s'
                   else last_segment (acc ++ String c EmptyString) s'
  end.

(** [int(text)] for an unsigned decimal numeral; [None] is [ValueError]. *)
Fixpoint parse_digits (acc : nat) (s : string) : option nat :=
  match s with
  | EmptyString => Some acc
  | String c s' =>
      let n := nat_of_ascii c in
      if (48 <=? n)%nat && (n <=? 57)%nat then parse_digits (10 * acc + (n - 48)) s'
      else None
  end.

Definition int_of_string (s : string) : option nat :=
  match s with
  | EmptyString => None
  | _ => parse_digits 0 s
  end.

Definition generate_invoice_number (current_year : nat) (tenant_id : string)
  : handler Store string :=
  s <- get ;;
  let pattern : string := "INV-" ++ str_nat current_year ++ "-" in
  let last_invoice :=
    find_one (fun _ => true)
      (sort_desc inv_invoice_number
         (find (fun i => (inv_tenant_id i =? tenant_id)
                         && String.prefix pattern (inv_invoice_number i)) (invoices s))) in
  match last_invoice with
  | Some inv =>
      match int_of_string (last_segment EmptyString (inv_invoice_number inv)) with
      | Some last_num => ret (pattern ++ format_0d 3 (Z.of_nat (last_num + 1)))
      | None => raise 500 "Internal Server Error"
      end
  | None => ret (pattern ++ format_0d 3 1)
  end.

Definition client_name_of (cid : string) (s : Store) : string :=
  match find_one (fun c => client_id c =? cid) (clients s) with
  | Some client => client_name client
  | None => "Unknown"
  end.

(** The loop of [list_invoices]: the overdue check on each listed document,
    then the client name. *)
Fixpoint list_invoices_loop (clock : Clock) (listed : list Invoice)
  : handler Store (list (Invoice * string)) :=
  match listed with
  | [] => ret []
  | invoice :: rest =>
      invoice' <- (if is_past_due clock invoice then
                     modify (with_invoices
                               (update_one (invoice_by_id (inv_id invoice))
                                           (set_invoice_status InvoiceStatus.overdue))) ;;;
                     ret (set_invoice_status InvoiceStatus.overdue invoice)
                   else ret invoice) ;;
      s <- get ;;
      let name := client_name_of (inv_client_id invoice') s in
      out <- list_invoices_loop clock rest ;;
      ret ((invoice', name) :: out)
  end.

Definition list_query (status client_id0 : option string) (tenant_id : string)
  : Invoice -> bool :=
  fun i =>
    (inv_tenant_id i =? tenant_id)
    && (match status with
        | Some st => if negb (st =? EmptyString) && negb (st =? "all")
                     then status_name (inv_status i) =? st else true
        | None => true
        end)
    && (if truthy client_id0 then opt_eqb client_id0 (inv_client_id i) else true).

(** The documents a list request reads: the first 500 of the query, newest
    first. *)
Definition listed_invoices (status client_id0 : option string) (tenant_id : string)
  (s : Store) : list Invoice :=
  to_list 500 (sort_desc inv_created_at (find (list_query status client_id0 tenant_id)
                                              (invoices s))).

Definition list_invoices (clock : Clock) (status client_id0 : option string)
  (tenant_id : string) : handler Store (list (Invoice * string)) :=
  s <- get ;;
  list_invoices_loop clock (listed_invoices status client_id0 tenant_id s).

Record InvoiceDetail := mkInvoiceDetail {
  det_invoice : Invoice;
  det_line_items : list InvoiceLineItem;
  det_payments : list Payment;
  det_total_paid : Q;
  det_balance_due : Q;
  det_client : option Client
}.

Definition get_invoice (clock : Clock) (invoice_id tenant_id : string)
  : handler Store InvoiceDetail :=
  s <- get ;;
  match find_one (invoice_q invoice_id tenant_id) (invoices s) with
  | None => raise 404 "Invoice not found"
  | Some invoice =>
      let line_items := to_list 100 (find (item_of invoice_id) (invoice_line_items s)) in
      let payments0 :=
        to_list 100
          (sort_desc pay_payment_date
             (find (fun p => payment_of invoice_id p && (pay_tenant_id p =? tenant_id))
                   (payments s))) in
      let total_paid := qsum (map pay_amount payments0) in
      let client := find_one (fun c => client_id c =? inv_client_id invoice) (clients s) in
      invoice' <- (if is_past_due clock invoice then
                     modify (with_invoices
                               (update_one (invoice_by_id invoice_id)
                                           (set_invoice_status InvoiceStatus.overdue))) ;;;
                     ret (set_invoice_status InvoiceStatus.overdue invoice)
                   else ret invoice) ;;
      ret (mkInvoiceDetail invoice' line_items payments0 total_paid
             (inv_total invoice' - total_paid)%Q client)
  end.

Record InvoiceUpdate := mkInvoiceUpdate {
  iu_status : option InvoiceStatus.t;
  iu_subtotal : option Q;
  iu_adjustments : option Q;
  iu_currency : option string
}.

Definition iu_status_is (u : InvoiceUpdate) (st : InvoiceStatus.t) : bool :=
  match iu_status u with
  | Some v => InvoiceStatus.eqb v st
  | None => false
  end.

Definition apply_invoice_update (u : InvoiceUpdate) (total : Q)
  (sent_at sent_by paid_at : option string) (i : Invoice) : Invoice :=
  mkInvoice (inv_id i) (inv_tenant_id i) (inv_client_id i) (inv_trip_id i)
    (inv_invoice_number i) (inv_shipment_ids i)
    (set_field (iu_subtotal u) (inv_subtotal i))
    (set_opt_field (iu_adjustments u) (inv_adjustments i))
    (inv_vat i) total
    (set_opt_field (iu_currency u) (inv_currency i))
    (set_field (iu_status u) (inv_status i))
    (inv_issue_date i) (inv_due_date i)
    (set_opt_field sent_at (inv_sent_at i))
    (set_opt_field sent_by (inv_sent_by i))
    (set_opt_field paid_at (inv_paid_at i))
    (inv_created_by i) (inv_created_at i).

(** [invoice["adjustments"]] is evaluated before [update_dict.get] looks at
    the request: a document without the key raises [KeyError]. *)
Definition update_invoice (clock : Clock) (invoice_id : string) (update_data : InvoiceUpdate)
  (tenant_id : string) (user : User) : handler Store (option Invoice) :=
  s <- get ;;
  match find_one (invoice_q invoice_id tenant_id) (invoices s) with
  | None => raise 404 "Invoice not found"
  | Some invoice =>
      match inv_adjustments invoice with
      | None => raise 500 "Internal Server Error"
      | Some stored_adjustments =>
          let subtotal := set_field (iu_subtotal update_data) (inv_subtotal invoice) in
          let adjustments := set_field (iu_adjustments update_data) stored_adjustments in
          let total := (subtotal + adjustments)%Q in
          let to_sent := iu_status_is update_data InvoiceStatus.sent
                         && InvoiceStatus.eqb (inv_status invoice) InvoiceStatus.draft in
          let to_paid := negb to_sent
                         && iu_status_is update_data InvoiceStatus.paid
                         && negb (InvoiceStatus.eqb (inv_status invoice) InvoiceStatus.paid) in
          let sent_at := if to_sent then Some (now_iso clock) else None in
          let sent_by := if to_sent then Some (user_id user) else None in
          let paid_at := if to_paid then Some (now_iso clock) else None in
          modify (with_invoices
                    (update_one (invoice_q invoice_id tenant_id)
                       (apply_invoice_update update_data total sent_at sent_by paid_at))) ;;;
          s' <- get ;;
          ret (find_one (invoice_q invoice_id tenant_id) (invoices s'))
      end
  end.

(** *** Invoice line items *)

Record InvoiceLineItemCreate := mkInvoiceLineItemCreate {
  ic_shipment_id : option string;
  ic_description : string;
  ic_quantity : Z;
  ic_weight : option Q;
  ic_rate : Q
}.

(** Truthiness of an optional float ([None] and [0.0] are falsy). *)
Definition q_truthy (o : option Q) : bool :=
  match o with
  | Some w => negb (Qeq_bool w 0)
  | None => false
  end.

Definition item_amount_of (item_data : InvoiceLineItemCreate) : Q :=
  if q_truthy (ic_weight item_data) then
    match ic_weight item_data with
    | Some w => (w * ic_rate item_data)%Q
    | None => 0%Q
    end
  else (inject_Z (ic_quantity item_data) * ic_rate item_data)%Q.

(** The items the subtotal is recomputed from: the first 100 of the invoice. *)
Definition all_items (invoice_id : string) (s : Store) : list InvoiceLineItem :=
  to_list 100 (find (item_of invoice_id) (invoice_line_items s)).

(** The tail shared by the two item handlers: recompute and store the
    subtotal and the total. *)
Definition recompute_totals (invoice_id : string) (invoice : Invoice) : handler Store unit :=
  s <- get ;;
  let new_subtotal := qsum (map item_amount (all_items invoice_id s)) in
  match inv_adjustments invoice with
  | None => raise 500 "Internal Server Error"
  | Some adjustments =>
      let new_total := (new_subtotal + adjustments)%Q in
      modify (with_invoices
                (update_one (invoice_by_id invoice_id)
                            (set_invoice_totals new_subtotal new_total)))
  end.

Definition add_invoice_item (new_id invoice_id : string) (item_data : InvoiceLineItemCreate)
  (tenant_id : string) : handler Store InvoiceLineItem :=
  s <- get ;;
  match find_one (invoice_q invoice_id tenant_id) (invoices s) with
  | None => raise 404 "Invoice not found"
  | Some invoice =>
      if negb (InvoiceStatus.eqb (inv_status invoice) InvoiceStatus.draft) then
        raise 400 "Can only add items to draft invoices"
      else
        let amount := item_amount_of item_data in
        let item :=
          mkInvoiceLineItem new_id invoice_id (ic_shipment_id item_data)
            (ic_description item_data) (ic_quantity item_data) (ic_weight item_data)
            (ic_rate item_data) amount in
        modify (with_invoice_line_items (insert_one item)) ;;;
        recompute_totals invoice_id invoice ;;;
        ret item
  end.

Definition item_q (item_id0 invoice_id : string) : InvoiceLineItem -> bool :=
  fun it => (item_id it =? item_id0) && (item_invoice_id it =? invoice_id).

Definition delete_invoice_item (invoice_id item_id0 tenant_id : string)
  : handler Store string :=
  s <- get ;;
  match find_one (invoice_q invoice_id tenant_id) (invoices s) with
  | None => raise 404 "Invoice not found"
  | Some invoice =>
      if negb (InvoiceStatus.eqb (inv_status invoice) InvoiceStatus.draft) then
        raise 400 "Can only remove items from draft invoices"
      else if Nat.eqb (deleted_count (item_q item_id0 invoice_id) (invoice_line_items s)) 0
      then raise 404 "Item not found"
      else
        modify (with_invoice_line_items (delete_one (item_q item_id0 invoice_id))) ;;;
        recompute_totals invoice_id invoice ;;;
        ret "Item deleted"
  end.

(** *** Payments *)

Record PaymentCreate := mkPaymentCreate {
  pcr_client_id : string;
  pcr_invoice_id : option string;
  pcr_amount : Q;
  pcr_payment_date : string;
  pcr_payment_method : PaymentMethod.t;
  pcr_reference : option string;
  pcr_notes : option string
}.

(** [total_paid]: the sum over the first 100 payments of the invoice. *)
Definition total_paid (invoice_id : string) (s : Store) : Q :=
  qsum (map pay_amount (to_list 100 (find (payment_of invoice_id) (payments s)))).

Definition create_payment (clock : Clock) (new_id : string) (payment_data : PaymentCreate)
  (tenant_id : string) (user : User) : handler Store Payment :=
  s <- get ;;
  match find_one (fun c => (client_id c =? pcr_client_id payment_data)
                           && (client_tenant_id c =? tenant_id)) (clients s) with
  | None => raise 404 "Client not found"
  | Some client =>
      (if truthy (pcr_invoice_id payment_data) then
         match pcr_invoice_id payment_data with
         | Some iid =>
             match find_one (invoice_q iid tenant_id) (invoices s) with
             | None => raise 404 "Invoice not found"
             | Some _ => ret tt
             end
         | None => ret tt
         end
       else ret tt) ;;;
      let payment :=
        mkPayment new_id tenant_id (pcr_client_id payment_data) (pcr_invoice_id payment_data)
          (pcr_amount payment_data) (pcr_payment_date payment_data)
          (pcr_payment_method payment_data) (pcr_reference payment_data)
          (pcr_notes payment_data) (user_id user) (now_iso clock) in
      modify (with_payments (insert_one payment)) ;;;
      (if truthy (pcr_invoice_id payment_data) then
         match pcr_invoice_id payment_data with
         | Some iid =>
             s1 <- get ;;
             match find_one (invoice_by_id iid) (invoices s1) with
             | None => raise 500 "Internal Server Error"
             | Some invoice =>
                 if Qle_bool (inv_total invoice) (total_paid iid s1) then
                   modify (with_invoices
                             (update_one (invoice_by_id iid)
                                (set_invoice_status_paid_at InvoiceStatus.paid
                                   (Some (now_iso clock)))))
                 else ret tt
             end
         | None => ret tt
         end
       else ret tt) ;;;
      ret payment
  end.

Definition payment_q (pid tenant_id : string) : Payment -> bool :=
  by_id_tenant pay_id pay_tenant_id pid tenant_id.

(** [total_paid < invoice["total"]] *)
Definition Qlt_bool (a b : Q) : bool := negb (Qle_bool b a).

Definition delete_payment (clock : Clock) (payment_id tenant_id : string) (user : User)
  : handler Store string :=
  if negb (opt_eqb (user_role user) "owner" || opt_eqb (user_role user) "finance") then
    raise 403 "Only owner/finance can delete payments"
  else
    s <- get ;;
    match find_one (payment_q payment_id tenant_id) (payments s) with
    | None => raise 404 "Payment not found"
    | Some payment =>
        let invoice_id := pay_invoice_id payment in
        modify (with_payments (delete_one (payment_q payment_id tenant_id))) ;;;
        (if truthy invoice_id then
           match invoice_id with
           | Some iid =>
               s1 <- get ;;
               match find_one (invoice_by_id iid) (invoices s1) with
               | Some invoice =>
                   if InvoiceStatus.eqb (inv_status invoice) InvoiceStatus.paid then
                     if Qlt_bool (total_paid iid s1) (inv_total invoice) then
                       let new_status :=
                         if String.ltb (inv_due_date invoice) (today clock)
                         then InvoiceStatus.overdue else InvoiceStatus.sent in
                       modify (with_invoices
                                 (update_one (invoice_by_id iid)
                                    (set_invoice_status_paid_at new_status None)))
                     else ret tt
                   else ret tt
               | None => ret tt
               end
           | None => ret tt
           end
         else ret tt) ;;;
        ret "Payment deleted"
    end.

End Server.

(** * [routes/trip_routes.py] *)

Module TripRoutes.

Local Open Scope handler_scope.

(** [services.barcode_service.generate_barcode] and the request models of
    [models.schemas] are the ones [server.py] defines. *)
Definition generate_barcode := Server.generate_barcode.
Definition TripUpdate := Server.TripUpdate.

(** *** Trips *)

Definition update_trip (clock : Clock) (trip_id0 : string) (update_data : TripUpdate)
  (tenant_id : string) (user : User) : handler Store (option Trip) :=
  s <- get ;;
  match find_one (trip_q trip_id0 tenant_id) (trips s) with
  | None => raise 404 "Trip not found"
  | Some trip =>
      if truthy (trip_locked_at trip) && negb (is_owner user) then
        raise 403 "Trip is locked. Only owner can modify."
      else if Server.trip_number_taken trip_id0 tenant_id update_data trip s then
        raise 400 "Trip number already exists for this tenant"
      else
        let locked_at :=
          if Server.status_is update_data TripStatus.closed
             && negb (TripStatus.eqb (trip_status trip) TripStatus.closed)
          then Some (now_iso clock) else None in
        let actual_departure :=
          if Server.status_is update_data TripStatus.in_transit
             && negb (TripStatus.eqb (trip_status trip) TripStatus.in_transit)
             && negb (truthy (trip_actual_departure trip))
          then Some (now_iso clock) else None in
        let actual_arrival :=
          if Server.status_is update_data TripStatus.delivered
             && negb (TripStatus.eqb (trip_status trip) TripStatus.delivered)
             && negb (truthy (trip_actual_arrival trip))
          then Some (now_iso clock) else None in
        when_ (Server.trip_update_nonempty update_data)
          (modify (with_trips
                     (update_one (trip_q trip_id0 tenant_id)
                        (Server.apply_trip_update update_data locked_at actual_departure
                           actual_arrival)))) ;;;
        s' <- get ;;
        ret (find_one (trip_q trip_id0 tenant_id) (trips s'))
  end.

Definition delete_trip (trip_id0 tenant_id : string) (user : User) : handler Store string :=
  s <- get ;;
  match find_one (trip_q trip_id0 tenant_id) (trips s) with
  | None => raise 404 "Trip not found"
  | Some trip =>
      if truthy (trip_locked_at trip) && negb (is_owner user) then
        raise 403 "Cannot delete locked trip"
      else
        modify (with_shipments
                  (update_many (on_trip trip_id0 tenant_id)
                               (set_shipment_trip None ShipmentStatus.warehouse))) ;;;
        modify (with_trip_expenses (delete_many (expense_of_trip trip_id0))) ;;;
        modify (with_trips (delete_one (trip_q trip_id0 tenant_id))) ;;;
        ret "Trip deleted"
  end.

Definition set_closed (locked_at : string) (t : Trip) : Trip :=
  mkTrip (trip_id t) (trip_tenant_id t) (trip_number t) (trip_route t)
    (trip_departure_date t) (trip_vehicle_id t) (trip_driver_id t) (trip_notes t)
    TripStatus.closed (Some locked_at) (trip_actual_departure t) (trip_actual_arrival t)
    (trip_created_by t) (trip_created_at t).

Definition close_trip (clock : Clock) (trip_id0 tenant_id : string) (user : User)
  : handler Store string :=
  if negb (is_owner user) then raise 403 "Only owner can close trips"
  else
    s <- get ;;
    match find_one (trip_q trip_id0 tenant_id) (trips s) with
    | None => raise 404 "Trip not found"
    | Some trip =>
        if truthy (trip_locked_at trip) then raise 400 "Trip is already closed"
        else
          let locked_at := now_iso clock in
          modify (with_trips (update_one (fun t => trip_id t =? trip_id0)
                                         (set_closed locked_at))) ;;;
          ret locked_at
    end.

(** *** Assignment of shipments *)

(** [for piece in pieces: ... update_one({"id": piece["id"]}, {"$set": {"barcode": ...}})];
    [draws] is the number of random draws one barcode takes. *)
Fixpoint rebarcode (new_barcode : Rng -> ShipmentPiece -> string) (draws : nat) (rng : Rng)
  (pieces : list ShipmentPiece) : handler Store unit :=
  match pieces with
  | [] => ret tt
  | piece :: rest =>
      modify (with_shipment_pieces
                (update_one (piece_by_id (pc_id piece)) (set_barcode (new_barcode rng piece)))) ;;;
      rebarcode new_barcode draws (advance draws rng) rest
  end.

(** The pieces a handler reads: the first 100 of the shipment. *)
Definition pieces_of (shipment_id : string) (s : Store) : list ShipmentPiece :=
  to_list 100 (find (piece_of shipment_id) (shipment_pieces s)).

Definition assign_shipment_to_trip (rng : Rng) (trip_id0 shipment_id tenant_id : string)
  : handler Store string :=
  s <- get ;;
  match find_one (trip_q trip_id0 tenant_id) (trips s) with
  | None => raise 404 "Trip not found"
  | Some trip =>
      if truthy (trip_locked_at trip) then
        raise 403 "Cannot modify shipments on a locked trip"
      else
        modify (with_shipments
                  (update_one (shipment_q shipment_id tenant_id)
                     (set_shipment_trip (Some trip_id0) ShipmentStatus.staged))) ;;;
        if Nat.eqb (matched_count (shipment_q shipment_id tenant_id) (shipments s)) 0 then
          raise 404 "Shipment not found"
        else
          s1 <- get ;;
          let pieces := pieces_of shipment_id s1 in
          let shipment_count := count_documents (on_trip trip_id0 tenant_id) (shipments s1) in
          rebarcode
            (fun r piece => generate_barcode r (Some (trip_number trip))
                              (Z.of_nat shipment_count) (pc_piece_number piece))
            (if truthy (Some (trip_number trip)) then 0 else 6) rng pieces ;;;
          ret "Shipment assigned to trip"
  end.

Definition assigned_q (shipment_id tenant_id trip_id0 : string) : Shipment -> bool :=
  fun sh => shipment_q shipment_id tenant_id sh && opt_eqb (shp_trip_id sh) trip_id0.

Definition unassign_shipment_from_trip (rng : Rng) (trip_id0 shipment_id tenant_id : string)
  : handler Store string :=
  s <- get ;;
  match find_one (trip_q trip_id0 tenant_id) (trips s) with
  | None => raise 404 "Trip not found"
  | Some trip =>
      if truthy (trip_locked_at trip) then
        raise 403 "Cannot modify shipments on a locked trip"
      else
        modify (with_shipments
                  (update_one (assigned_q shipment_id tenant_id trip_id0)
                     (set_shipment_trip None ShipmentStatus.warehouse))) ;;;
        if Nat.eqb (matched_count (assigned_q shipment_id tenant_id trip_id0) (shipments s)) 0
        then raise 404 "Shipment not found or not assigned to this trip"
        else
          s1 <- get ;;
          let pieces := pieces_of shipment_id s1 in
          rebarcode (fun r piece => generate_barcode r None 0 (pc_piece_number piece))
                    6 rng pieces ;;;
          ret "Shipment removed from trip"
  end.

Definition remove_parcel_from_trip (rng : Rng) (trip_id0 parcel_id tenant_id : string)
  (user : User) : handler Store string :=
  s <- get ;;
  match find_one (trip_q trip_id0 tenant_id) (trips s) with
  | None => raise 404 "Trip not found"
  | Some trip =>
      if truthy (trip_locked_at trip) then raise 403 "Cannot modify closed trip"
      else
        match find_one (fun sh => (shp_id sh =? parcel_id) && opt_eqb (shp_trip_id sh) trip_id0)
                       (shipments s) with
        | None => raise 404 "Parcel not found on this trip"
        | Some parcel =>
            modify (with_shipments
                      (update_one (fun sh => shp_id sh =? parcel_id)
                         (set_shipment_trip None ShipmentStatus.warehouse))) ;;;
            s1 <- get ;;
            let pieces := pieces_of parcel_id s1 in
            rebarcode (fun r _ => "TEMP-" ++ uuid4_hex8_upper r) 8 rng pieces ;;;
            ret "Parcel removed from trip"
        end
  end.

(** *** Trip expenses *)

Record TripExpenseCreate := mkTripExpenseCreate {
  ec_category : ExpenseCategory.t;
  ec_amount : Q;
  ec_currency : string;
  ec_expense_date : string;
  ec_description : option string;
  ec_receipt_url : option string
}.

Record TripExpenseUpdate := mkTripExpenseUpdate {
  eu_category : option ExpenseCategory.t;
  eu_amount : option Q;
  eu_currency : option string;
  eu_expense_date : option string;
  eu_description : option string;
  eu_receipt_url : option string
}.

Definition expense_update_nonempty (u : TripExpenseUpdate) : bool :=
  Server.is_some (eu_category u) || Server.is_some (eu_amount u)
  || Server.is_some (eu_currency u) || Server.is_some (eu_expense_date u)
  || Server.is_some (eu_description u) || Server.is_some (eu_receipt_url u).

Definition apply_expense_update (u : TripExpenseUpdate) (e : TripExpense) : TripExpense :=
  mkTripExpense (exp_id e) (exp_trip_id e)
    (set_field (eu_category u) (exp_category e))
    (set_field (eu_amount u) (exp_amount e))
    (set_field (eu_currency u) (exp_currency e))
    (set_field (eu_expense_date u) (exp_expense_date e))
    (set_opt_field (eu_description u) (exp_description e))
    (set_opt_field (eu_receipt_url u) (exp_receipt_url e))
    (exp_created_by e) (exp_created_at e).

Definition create_trip_expense (clock : Clock) (new_id trip_id0 : string)
  (expense_data : TripExpenseCreate) (tenant_id : string) (user : User)
  : handler Store TripExpense :=
  s <- get ;;
  match find_one (trip_q trip_id0 tenant_id) (trips s) with
  | None => raise 404 "Trip not found"
  | Some trip =>
      let expense :=
        mkTripExpense new_id trip_id0 (ec_category expense_data) (ec_amount expense_data)
          (ec_currency expense_data) (ec_expense_date expense_data)
          (ec_description expense_data) (ec_receipt_url expense_data)
          (user_id user) (now_iso clock) in
      modify (with_trip_expenses (insert_one expense)) ;;;
      ret expense
  end.

Definition update_trip_expense (trip_id0 expense_id : string) (update_data : TripExpenseUpdate)
  (tenant_id : string) (user : User) : handler Store (option TripExpense) :=
  s <- get ;;
  match find_one (trip_q trip_id0 tenant_id) (trips s) with
  | None => raise 404 "Trip not found"
  | Some trip =>
      if truthy (trip_locked_at trip) && negb (is_owner user) then
        raise 403 "Trip is locked. Only owner can edit expenses."
      else
        (if expense_update_nonempty update_data then
           modify (with_trip_expenses
                     (update_one (expense_q expense_id trip_id0)
                                 (apply_expense_update update_data))) ;;;
           if Nat.eqb (matched_count (expense_q expense_id trip_id0) (trip_expenses s)) 0
           then raise 404 "Expense not found"
           else ret tt
         else ret tt) ;;;
        s' <- get ;;
        ret (find_one (expense_q expense_id trip_id0) (trip_expenses s'))
  end.

Definition delete_trip_expense (trip_id0 expense_id tenant_id : string) (user : User)
  : handler Store string :=
  s <- get ;;
  match find_one (trip_q trip_id0 tenant_id) (trips s) with
  | None => raise 404 "Trip not found"
  | Some trip =>
      if truthy (trip_locked_at trip) && negb (is_owner user) then
        raise 403 "Trip is locked. Only owner can delete expenses."
      else
        modify (with_trip_expenses (delete_one (expense_q expense_id trip_id0))) ;;;
        if Nat.eqb (deleted_count (expense_q expense_id trip_id0) (trip_expenses s)) 0
        then raise 404 "Expense not found"
        else ret "Expense deleted"
  end.

(** *** Invoice generation *)

(** [client_parcels]: a dictionary in insertion order, as a list of pairs. *)
Fixpoint add_parcel (cid : string) (parcel : Shipment)
  (client_parcels : list (string * list Shipment)) : list (string * list Shipment) :=
  match client_parcels with
  | [] => [(cid, [parcel])]
  | (k, ps) :: rest =>
      if k =? cid then (k, (ps ++ [parcel])%list) :: rest
      else (k, ps) :: add_parcel cid parcel rest
  end.

Definition group_by_client (parcels : list Shipment) : list (string * list Shipment) :=
  fold_left
    (fun client_parcels parcel =>
       if truthy (shp_client_id parcel) then
         match shp_client_id parcel with
         | Some cid => add_parcel cid parcel client_parcels
         | None => client_parcels
         end
       else client_parcels)
    parcels [].

(** The operator [$all]: the stored array holds every queried value; an
    empty query and a document without the array match nothing. *)
Definition all_in (queried : list string) (stored : option (list string)) : bool :=
  match queried, stored with
  | [], _ => false
  | _, None => false
  | _, Some arr => forallb (fun x => existsb (String.eqb x) arr) queried
  end.

Definition existing_q (tenant_id cid : string) (shipment_ids : list string) : Invoice -> bool :=
  fun i => (inv_tenant_id i =? tenant_id) && (inv_client_id i =? cid)
           && all_in shipment_ids (inv_shipment_ids i).

(** [round(x, 2)] on an exact amount: to the nearest hundredth, ties to even. *)
Definition round2 (x : Q) : Q :=
  let n := (Qnum x * 100)%Z in
  let d := Zpos (Qden x) in
  let f := (n / d)%Z in
  let r := (n mod d)%Z in
  let up := if (d <? 2 * r)%Z then true
            else if (2 * r <? d)%Z then false
            else Z.odd f in
  Qmake (if up then f + 1 else f) 100.

(** [f"INV-{year}-{str(count + 1).zfill(4)}"] *)
Definition invoice_number_of (year0 count : nat) : string :=
  "INV-" ++ str_nat year0 ++ "-" ++ zfill 4 (str_nat (count + 1)).

(** [s.get("total_weight", 0) or 0] *)
Definition weight_or_0 (sh : Shipment) : Q :=
  match shp_total_weight sh with
  | Some w => if Qeq_bool w 0 then 0%Q else w
  | None => 0%Q
  end.

Record CreatedInvoice := mkCreatedInvoice {
  ci_invoice_number : string;
  ci_client_name : string;
  ci_total : Q
}.

(** The body of the loop over [client_parcels.items()] for a group that has
    no invoice yet: the document that is inserted and the summary that is
    reported. *)
Definition new_invoice (clock : Clock) (new_id trip_id0 tenant_id : string) (user : User)
  (cid : string) (client_shipments : list Shipment) (s : Store) : Invoice * CreatedInvoice :=
  let shipment_ids := map shp_id client_shipments in
  let client := find_one (fun c => client_id c =? cid) (clients s) in
  let count := count_documents (fun i => inv_tenant_id i =? tenant_id) (invoices s) in
  let invoice_number := invoice_number_of (year clock) count in
  let total_weight := qsum (map weight_or_0 client_shipments) in
  let rate := find_one (fun r => rate_client_id r =? cid) (client_rates s) in
  let rate_per_kg0 :=
    match rate with
    | Some r => match rate_per_kg r with Some v => v | None => 50%Q end
    | None => 50%Q
    end in
  let subtotal := (total_weight * rate_per_kg0)%Q in
  let vat := (subtotal * (15 # 100))%Q in
  let total := (subtotal + vat)%Q in
  (mkInvoice new_id tenant_id cid (Some trip_id0) invoice_number (Some shipment_ids)
     (round2 subtotal) None (Some (round2 vat)) (round2 total) None InvoiceStatus.draft
     (Some (now_iso clock)) (in_30_days_iso clock) None None None
     (Some (user_id user)) (now_iso clock),
   mkCreatedInvoice invoice_number
     (match client with Some c => client_name c | None => "Unknown" end) total).

Arguments new_invoice : simpl never.

(** [uuid4 k] is the identifier drawn for the [k]-th invoice created. *)
Fixpoint generate_loop (clock : Clock) (uuid4 : nat -> string) (trip_id0 tenant_id : string)
  (user : User) (groups : list (string * list Shipment)) (invoices_created : list CreatedInvoice)
  : handler Store (list CreatedInvoice) :=
  match groups with
  | [] => ret invoices_created
  | (cid, client_shipments) :: rest =>
      s <- get ;;
      let shipment_ids := map shp_id client_shipments in
      match find_one (existing_q tenant_id cid shipment_ids) (invoices s) with
      | Some existing =>
          generate_loop clock uuid4 trip_id0 tenant_id user rest invoices_created
      | None =>
          let '(invoice, created) :=
            new_invoice clock (uuid4 (List.length invoices_created)) trip_id0 tenant_id user
              cid client_shipments s in
          modify (with_invoices (insert_one invoice)) ;;;
          generate_loop clock uuid4 trip_id0 tenant_id user rest
            (invoices_created ++ [created])%list
      end
  end.

Definition generate_trip_invoices (clock : Clock) (uuid4 : nat -> string)
  (trip_id0 tenant_id : string) (user : User) : handler Store (list CreatedInvoice) :=
  s <- get ;;
  match find_one (trip_q trip_id0 tenant_id) (trips s) with
  | None => raise 404 "Trip not found"
  | Some trip =>
      let parcels := to_list 500 (find (on_trip trip_id0 tenant_id) (shipments s)) in
      let client_parcels := group_by_client parcels in
      generate_loop clock uuid4 trip_id0 tenant_id user client_parcels []
  end.

End TripRoutes.

(** * Properties of the handlers, as predicates on stores and documents *)

(** ** Frame of an update request *)

(** What a trip update may change on the trip it addresses: a request field
    left out keeps its stored value, no nullable field becomes null, the
    fields outside the request stay, and the three timestamps derived from
    the status either stay or take the time of the request. *)
Definition trip_frame (clock : Clock) (u : Server.TripUpdate) (t t' : Trip) : Prop :=
  (Server.tu_trip_number u = None -> trip_number t' = trip_number t)
  /\ (Server.tu_route u = None -> trip_route t' = trip_route t)
  /\ (Server.tu_departure_date u = None -> trip_departure_date t' = trip_departure_date t)
  /\ (Server.tu_vehicle_id u = None -> trip_vehicle_id t' = trip_vehicle_id t)
  /\ (Server.tu_driver_id u = None -> trip_driver_id t' = trip_driver_id t)
  /\ (Server.tu_notes u = None -> trip_notes t' = trip_notes t)
  /\ (Server.tu_status u = None -> trip_status t' = trip_status t)
  /\ (trip_vehicle_id t' = None -> trip_vehicle_id t = None)
  /\ (trip_driver_id t' = None -> trip_driver_id t = None)
  /\ (trip_notes t' = None -> trip_notes t = None)
  /\ trip_id t' = trip_id t
  /\ trip_tenant_id t' = trip_tenant_id t
  /\ trip_created_by t' = trip_created_by t
  /\ trip_created_at t' = trip_created_at t
  /\ (trip_locked_at t' = trip_locked_at t \/ trip_locked_at t' = Some (now_iso clock))
  /\ (trip_actual_departure t' = trip_actual_departure t
      \/ trip_actual_departure t' = Some (now_iso clock))
  /\ (trip_actual_arrival t' = trip_actual_arrival t
      \/ trip_actual_arrival t' = Some (now_iso clock)).

(** The same for a shipment update, which has no derived timestamps. *)
Definition shipment_frame (u : Server.ShipmentUpdate) (sh sh' : Shipment) : Prop :=
  (Server.su_description u = None -> shp_description sh' = shp_description sh)
  /\ (Server.su_destination u = None -> shp_destination sh' = shp_destination sh)
  /\ (Server.su_total_pieces u = None -> shp_total_pieces sh' = shp_total_pieces sh)
  /\ (Server.su_total_weight u = None -> shp_total_weight sh' = shp_total_weight sh)
  /\ (Server.su_total_cbm u = None -> shp_total_cbm sh' = shp_total_cbm sh)
  /\ (Server.su_status u = None -> shp_status sh' = shp_status sh)
  /\ (Server.su_trip_id u = None -> shp_trip_id sh' = shp_trip_id sh)
  /\ (shp_trip_id sh' = None -> shp_trip_id sh = None)
  /\ (shp_total_weight sh' = None -> shp_total_weight sh = None)
  /\ (shp_total_cbm sh' = None -> shp_total_cbm sh = None)
  /\ shp_id sh' = shp_id sh
  /\ shp_tenant_id sh' = shp_tenant_id sh
  /\ shp_client_id sh' = shp_client_id sh
  /\ shp_created_by sh' = shp_created_by sh
  /\ shp_created_at sh' = shp_created_at sh.

(** ** Example documents *)

Definition clock_2025 : Clock :=
  mkClock "2025-06-01T08:00:00+00:00" "2025-06-01" 2025 "2025-07-01T08:00:00+00:00".

Definition owner_user : User := mkUser "u-owner" (Some "acme") (Some "owner").
Definition manager_user : User := mkUser "u-manager" (Some "acme") (Some "manager").

Definition open_trip : Trip :=
  mkTrip "t1" "acme" "S12" ["Johannesburg"; "Harare"] "2025-06-02" None None None
         TripStatus.planning None None None "u-owner" "2025-05-30T10:00:00+00:00".

Definition closed_trip : Trip :=
  mkTrip "t1" "acme" "S12" ["Johannesburg"; "Harare"] "2025-06-02" None None None
         TripStatus.closed (Some "2025-05-31T18:00:00+00:00") None None
         "u-owner" "2025-05-30T10:00:00+00:00".

Definition parcel_1 : Shipment :=
  mkShipment "s1" "acme" (Some "c1") None ShipmentStatus.warehouse "boxes" "Harare" 2
             (Some 10%Q) None "u-owner" "2025-05-30T11:00:00+00:00".

Definition parcel_1_on_trip : Shipment :=
  mkShipment "s1" "acme" (Some "c1") (Some "t1") ShipmentStatus.staged "boxes" "Harare" 2
             (Some 10%Q) None "u-owner" "2025-05-30T11:00:00+00:00".

Definition piece_1 : ShipmentPiece := mkShipmentPiece "p1" "s1" 1 5%Q "TEMP-000111" None.
Definition piece_2 : ShipmentPiece := mkShipmentPiece "p2" "s1" 2 5%Q "TEMP-000222" None.

Definition fuel_expense : TripExpense :=
  mkTripExpense "e1" "t1" ExpenseCategory.fuel 900%Q "ZAR" "2025-05-31" None None
                "u-owner" "2025-05-31T09:00:00+00:00".

Definition empty_store : Store := mkStore [] [] [] [] [] [] [] [] [].

(** One open trip, one warehouse parcel of two pieces, one expense. *)
Definition open_store : Store :=
  mkStore [] [] [parcel_1] [piece_1; piece_2] [open_trip] [fuel_expense] [] [] [].

(** The same with the trip closed and the parcel on it. *)
Definition locked_store : Store :=
  mkStore [] [] [parcel_1_on_trip] [piece_1; piece_2] [closed_trip] [fuel_expense] [] [] [].

(** A request that sets the vehicle and the status and leaves the rest out. *)
Definition dispatch_request : Server.TripUpdate :=
  Server.mkTripUpdate None None None (Some "v7") None None (Some TripStatus.in_transit).

Definition reweigh_shipment : Server.ShipmentUpdate :=
  Server.mkShipmentUpdate None None None (Some 12%Q) None None None.

Definition close_request : Server.TripUpdate :=
  Server.mkTripUpdate None None None None None None (Some TripStatus.closed).

(** A generator whose every draw is [n]. *)
Definition constant_rng (n : nat) : Rng := fun _ => n.

(** ** Cascade of a trip deletion *)

(** How a shipment [sh] of the store looks after trip [tid] of tenant
    [tenant_id] is deleted.  A shipment of the tenant whose [trip_id] is the
    trip has [trip_id] null and status warehouse and every other field as
    before.  Any other shipment is as it was: also a shipment of another
    tenant whose [trip_id] names the trip. *)
Definition after_trip_deletion (tid tenant_id : string) (sh sh' : Shipment) : Prop :=
  (shp_trip_id sh = Some tid -> shp_tenant_id sh = tenant_id ->
   sh' = mkShipment (shp_id sh) (shp_tenant_id sh) (shp_client_id sh) None
                    ShipmentStatus.warehouse (shp_description sh) (shp_destination sh)
                    (shp_total_pieces sh) (shp_total_weight sh) (shp_total_cbm sh)
                    (shp_created_by sh) (shp_created_at sh))
  /\ (shp_trip_id sh <> Some tid \/ shp_tenant_id sh <> tenant_id -> sh' = sh).

Definition fix_expense : TripRoutes.TripExpenseUpdate :=
  TripRoutes.mkTripExpenseUpdate None (Some 950%Q) None None None None.

Definition toll_expense : TripRoutes.TripExpenseCreate :=
  TripRoutes.mkTripExpenseCreate ExpenseCategory.tolls 120%Q "ZAR" "2025-06-01" None None.

(** ** Totals of an invoice *)

(** The stored total is the stored subtotal plus the stored adjustments. *)
Definition totals_consistent (i : Invoice) : Prop :=
  exists adjustments,
    inv_adjustments i = Some adjustments
    /\ inv_total i = (inv_subtotal i + adjustments)%Q.

(** Every line item of the invoice, without the cap of the query. *)
Definition every_item (invoice_id : string) (s : Store) : list InvoiceLineItem :=
  find (item_of invoice_id) (invoice_line_items s).

(** Every payment of the invoice, without the cap of the query. *)
Definition ledger (invoice_id : string) (s : Store) : list Payment :=
  find (payment_of invoice_id) (payments s).

Definition acme_client : Client := mkClient "c1" "acme" "Acme Retail" 30.

Definition draft_invoice : Invoice :=
  mkInvoice "inv1" "acme" "c1" None "INV-2025-001" None 100%Q (Some 0%Q) None 100%Q
            (Some "ZAR") InvoiceStatus.draft None "2025-06-30" None None None None
            "2025-05-31T09:00:00+00:00".

(** An invoice of 101 that was sent and is not yet due. *)
Definition sent_invoice : Invoice :=
  mkInvoice "inv1" "acme" "c1" None "INV-2025-001" None 101%Q (Some 0%Q) None 101%Q
            (Some "ZAR") InvoiceStatus.sent None "2025-06-30"
            (Some "2025-05-31T10:00:00+00:00") (Some "u-owner") None None
            "2025-05-31T09:00:00+00:00".

Definition unit_item (k : nat) : InvoiceLineItem :=
  mkInvoiceLineItem ("item-" ++ str_nat k) "inv1" None "carton" 1 None 1%Q 1%Q.

Definition unit_payment (k : nat) : Payment :=
  mkPayment ("pay-" ++ str_nat k) "acme" "c1" (Some "inv1") 1%Q "2025-06-01"
            PaymentMethod.cash None None "u-owner" "2025-06-01T07:00:00+00:00".

(** A draft invoice that already has 100 line items of amount 1. *)
Definition crowded_store : Store :=
  mkStore [acme_client] [] [] [] [] [] [draft_invoice] (map unit_item (seq 0 100)) [].

(** A sent invoice of 101 with 100 payments of 1 on it. *)
Definition instalment_store : Store :=
  mkStore [acme_client] [] [] [] [] [] [sent_invoice] [] (map unit_payment (seq 0 100)).

(** A draft invoice with two line items. *)
Definition small_store : Store :=
  mkStore [acme_client] [] [] [] [] [] [draft_invoice] [unit_item 0; unit_item 1] [].

Definition one_carton : Server.InvoiceLineItemCreate :=
  Server.mkInvoiceLineItemCreate None "carton" 1 None 1%Q.

Definition pay_one : Server.PaymentCreate :=
  Server.mkPaymentCreate "c1" (Some "inv1") 1%Q "2025-06-01" PaymentMethod.cash None None.

Definition pay_all : Server.PaymentCreate :=
  Server.mkPaymentCreate "c1" (Some "inv1") 101%Q "2025-06-01" PaymentMethod.cash None None.

(** The sent invoice of 101 with no payment yet. *)
Definition billed_store : Store :=
  mkStore [acme_client] [] [] [] [] [] [sent_invoice] [] [].

Definition paid_invoice : Invoice :=
  mkInvoice "inv1" "acme" "c1" None "INV-2025-001" None 101%Q (Some 0%Q) None 101%Q
            (Some "ZAR") InvoiceStatus.paid None "2025-05-15"
            (Some "2025-05-01T10:00:00+00:00") (Some "u-owner")
            (Some "2025-05-20T10:00:00+00:00") None "2025-05-01T09:00:00+00:00".

Definition full_payment : Payment :=
  mkPayment "pay-full" "acme" "c1" (Some "inv1") 101%Q "2025-05-20"
            PaymentMethod.bank_transfer None None "u-owner" "2025-05-20T10:00:00+00:00".

(** A paid invoice, due on 2025-05-15, settled by one payment. *)
Definition settled_store : Store :=
  mkStore [acme_client] [] [] [] [] [] [paid_invoice] [] [full_payment].

(** [user.get("role") in ["owner", "finance"]] *)
Definition may_delete_payments (user : User) : bool :=
  opt_eqb (user_role user) "owner" || opt_eqb (user_role user) "finance".

Definition client_q (cid tenant_id : string) : Client -> bool :=
  fun c => (client_id c =? cid) && (client_tenant_id c =? tenant_id).

(** ** The overdue check of the read handlers *)

(** One turn of the loop of [list_invoices] on the invoices collection. *)
Definition flip_step (clock : Clock) (c : list Invoice) (listed : Invoice) : list Invoice :=
  if is_past_due clock listed
  then update_one (invoice_by_id (inv_id listed)) (set_invoice_status InvoiceStatus.overdue) c
  else c.

(** What [list_invoices] reports for a listed document. *)
Definition reported (clock : Clock) (s : Store) (listed : Invoice) : Invoice * string :=
  (if is_past_due clock listed
   then set_invoice_status InvoiceStatus.overdue listed else listed,
   Server.client_name_of (inv_client_id listed) s).

(** The invoice of the example of the specification: due on 2025-01-01,
    status sent, no payment, read on 2025-06-01. *)
Definition late_invoice : Invoice :=
  mkInvoice "inv9" "acme" "c1" None "INV-2024-007" None 460%Q (Some 0%Q) None 460%Q
            (Some "ZAR") InvoiceStatus.sent None "2025-01-01"
            (Some "2024-12-02T10:00:00+00:00") (Some "u-owner") None None
            "2024-12-02T09:00:00+00:00".

Definition late_store : Store :=
  mkStore [acme_client] [] [] [] [] [] [draft_invoice; late_invoice] [] [].

(** ** Barcodes *)

Fixpoint string_forallb (p : ascii -> bool) (s : string) : bool :=
  match s with
  | EmptyString => true
  | String c s' => p c && string_forallb p s'
  end.

Definition is_digit (c : ascii) : bool :=
  let n := nat_of_ascii c in (48 <=? n)%nat && (n <=? 57)%nat.

Definition is_upper_hex (c : ascii) : bool :=
  let n := nat_of_ascii c in
  ((48 <=? n)%nat && (n <=? 57)%nat) || ((65 <=? n)%nat && (n <=? 70)%nat).

(** ["TEMP-"] followed by exactly [n] characters, all in the class [p]. *)
Definition temp_with (p : ascii -> bool) (n : nat) (barcode : string) : bool :=
  String.prefix "TEMP-" barcode
  && (String.length barcode =? 5 + n)%nat
  && string_forallb p (substring 5 n barcode).

(** The TEMP form of the barcode allocator: six decimal digits. *)
Definition temp_form (barcode : string) : bool := temp_with is_digit 6 barcode.

(** The TEMP form of the parcel removal: eight upper-case hexadecimal digits. *)
Definition temp_hex_form (barcode : string) : bool := temp_with is_upper_hex 8 barcode.

(** Two versions of a piece that differ at most in the barcode. *)
Definition same_piece (p p' : ShipmentPiece) : Prop :=
  pc_id p' = pc_id p /\ pc_shipment_id p' = pc_shipment_id p
  /\ pc_piece_number p' = pc_piece_number p /\ pc_weight p' = pc_weight p
  /\ pc_loaded_at p' = pc_loaded_at p.

(** The effect of the loop [rebarcode] on the collection of pieces. *)
Fixpoint rebarcode_pieces (new_barcode : Rng -> ShipmentPiece -> string) (draws : nat)
  (rng : Rng) (pieces : list ShipmentPiece) (c : list ShipmentPiece) : list ShipmentPiece :=
  match pieces with
  | [] => c
  | piece :: rest =>
      rebarcode_pieces new_barcode draws (advance draws rng) rest
        (update_one (piece_by_id (pc_id piece)) (set_barcode (new_barcode rng piece)) c)
  end.

(** A generator that draws [start], [start + 1], ... *)
Definition counting_rng (start : nat) : Rng := fun n => (start + n)%nat.

(** ** Invoice generation *)

(** The client groups [generate_trip_invoices] works through. *)
Definition groups_of (tid tenant_id : string) (s : Store) : list (string * list Shipment) :=
  TripRoutes.group_by_client (to_list 500 (find (on_trip tid tenant_id) (shipments s))).

(** The tenant's invoices, of any year: what the handler counts. *)
Definition tenant_count (tenant_id : string) (c : list Invoice) : nat :=
  count_documents (fun i => inv_tenant_id i =? tenant_id) c.

(** The tenant's invoices numbered in a given year. *)
Definition count_for_year (year0 : nat) (tenant_id : string) (c : list Invoice) : nat :=
  count_documents
    (fun i => (inv_tenant_id i =? tenant_id)
              && String.prefix ("INV-" ++ str_nat year0 ++ "-") (inv_invoice_number i)) c.

(** The two lists hold the same values. *)
Definition same_set (a b : list string) : bool :=
  forallb (fun x => existsb (String.eqb x) b) a
  && forallb (fun x => existsb (String.eqb x) a) b.

(** An invoice of the client whose [shipment_ids] are exactly the group's. *)
Definition exact_match (tenant_id cid : string) (shipment_ids : list string) (i : Invoice)
  : bool :=
  (inv_tenant_id i =? tenant_id) && (inv_client_id i =? cid)
  && match inv_shipment_ids i with
     | Some arr => same_set shipment_ids arr
     | None => false
     end.

(** The open trip with the parcel of client c1 on it. *)
Definition loaded_store : Store :=
  mkStore [acme_client] [] [parcel_1_on_trip] [piece_1; piece_2] [open_trip] [] [] [] [].

(** An invoice of last year, for the same tenant. *)
Definition last_year_invoice : Invoice :=
  mkInvoice "inv-old" "acme" "c1" (Some "t0") "INV-2024-0001" (Some ["s-old"]) 500%Q None
            (Some 75%Q) 575%Q None InvoiceStatus.paid (Some "2024-11-01T09:00:00+00:00")
            "2024-12-01T09:00:00+00:00" None None (Some "2024-11-20T09:00:00+00:00")
            (Some "u-owner") "2024-11-01T09:00:00+00:00".

Definition second_year_store : Store :=
  mkStore [acme_client] [] [parcel_1_on_trip] [piece_1; piece_2] [open_trip] []
          [last_year_invoice] [] [].

(** An invoice of client c1 that covers the parcel and one more shipment. *)
Definition wider_invoice : Invoice :=
  mkInvoice "inv-wide" "acme" "c1" (Some "t1") "INV-2025-0001" (Some ["s1"; "s2"]) 1250%Q None
            (Some (1875 # 10)%Q) (14375 # 10)%Q None InvoiceStatus.draft
            (Some "2025-05-31T09:00:00+00:00") "2025-06-30T09:00:00+00:00" None None None
            (Some "u-owner") "2025-05-31T09:00:00+00:00".

Definition covered_store : Store :=
  mkStore [acme_client] [] [parcel_1_on_trip] [piece_1; piece_2] [open_trip] []
          [wider_invoice] [] [].

Definition uuid_supply (k : nat) : string := "uuid-" ++ str_nat k.

(** The worked example of the specification: trip S12 carries 10 kg and
    15 kg for client c1, who has no rate, and 5 kg for client c2 at 80 per kg. *)
Definition s12_store : Store :=
  mkStore
    [acme_client; mkClient "c2" "acme" "Beta Traders" 30]
    [mkClientRate "r1" "c2" 80%Q (Some "2025-01-01") (Some 80%Q)]
    [mkShipment "a" "acme" (Some "c1") (Some "t1") ShipmentStatus.staged "a" "Harare" 1
                (Some 10%Q) None "u-owner" "2025-05-30T11:00:00+00:00";
     mkShipment "b" "acme" (Some "c2") (Some "t1") ShipmentStatus.staged "b" "Harare" 1
                (Some 5%Q) None "u-owner" "2025-05-30T11:01:00+00:00";
     mkShipment "c" "acme" (Some "c1") (Some "t1") ShipmentStatus.staged "c" "Harare" 1
                (Some 15%Q) None "u-owner" "2025-05-30T11:02:00+00:00"]
    [] [open_trip] [] [] [] [].

From Stdlib Require DecimalNat.
From Stdlib Require Import NArith.
From Stdlib Require Import Permutation.

(** * The other handlers of [server.py] *)

Module ServerRest.

Local Open Scope handler_scope.

(** *** Shipments and pieces *)

Definition delete_shipment (shipment_id tenant_id : string) : handler Store string :=
  s <- get ;;
  modify (with_shipments (delete_one (shipment_q shipment_id tenant_id))) ;;;
  if Nat.eqb (deleted_count (shipment_q shipment_id tenant_id) (shipments s)) 0 then
    raise 404 "Shipment not found"
  else
    modify (with_shipment_pieces (delete_many (piece_of shipment_id))) ;;;
    ret "Shipment deleted".

Definition by_barcode (barcode : string) : ShipmentPiece -> bool :=
  fun p => pc_barcode p =? barcode.

Record Scan := mkScan {
  scan_piece : ShipmentPiece;
  scan_shipment : Shipment;
  scan_client : option Client
}.

Definition scan_barcode (barcode tenant_id : string) : handler Store Scan :=
  s <- get ;;
  match find_one (by_barcode barcode) (shipment_pieces s) with
  | None => raise 404 "Barcode not found"
  | Some piece =>
      match find_one (shipment_q (pc_shipment_id piece) tenant_id) (shipments s) with
      | None => raise 404 "Shipment not found"
      | Some shipment =>
          let client :=
            find_one (fun c => opt_eqb (shp_client_id shipment) (client_id c)) (clients s) in
          ret (mkScan piece shipment client)
      end
  end.

Definition set_loaded_at (loaded_at : option string) (p : ShipmentPiece) : ShipmentPiece :=
  mkShipmentPiece (pc_id p) (pc_shipment_id p) (pc_piece_number p) (pc_weight p)
    (pc_barcode p) loaded_at.

Definition mark_piece_loaded (clock : Clock) (piece_id tenant_id : string)
  : handler Store string :=
  s <- get ;;
  match find_one (piece_by_id piece_id) (shipment_pieces s) with
  | None => raise 404 "Piece not found"
  | Some piece =>
      match find_one (shipment_q (pc_shipment_id piece) tenant_id) (shipments s) with
      | None => raise 403 "Access denied"
      | Some shipment =>
          modify (with_shipment_pieces
                    (update_one (piece_by_id piece_id)
                                (set_loaded_at (Some (now_iso clock))))) ;;;
          ret "Piece marked as loaded"
      end
  end.

(** *** Trips *)

Definition category_eqb (a b : ExpenseCategory.t) : bool :=
  match a, b with
  | ExpenseCategory.fuel, ExpenseCategory.fuel
  | ExpenseCategory.tolls, ExpenseCategory.tolls
  | ExpenseCategory.border_fees, ExpenseCategory.border_fees
  | ExpenseCategory.repairs, ExpenseCategory.repairs
  | ExpenseCategory.food, ExpenseCategory.food
  | ExpenseCategory.accommodation, ExpenseCategory.accommodation
  | ExpenseCategory.other, ExpenseCategory.other => true
  | _, _ => false
  end.

(** [expense_totals[category] = expense_totals.get(category, 0) + amount] on
    a dictionary kept as a list of pairs in insertion order. *)
Fixpoint add_amount (category : ExpenseCategory.t) (amount : Q)
  (expense_totals : list (ExpenseCategory.t * Q)) : list (ExpenseCategory.t * Q) :=
  match expense_totals with
  | [] => [(category, (0 + amount)%Q)]
  | (k, v) :: rest =>
      if category_eqb k category then (k, (v + amount)%Q) :: rest
      else (k, v) :: add_amount category amount rest
  end.

Record TripDetail := mkTripDetail {
  td_trip : Trip;
  td_shipments : list Shipment;
  td_expenses : list TripExpense;
  td_expense_totals : list (ExpenseCategory.t * Q);
  td_total_expenses : Q
}.

(** The loop of [get_trip] over the expenses it read. *)
Definition expense_totals_of (expenses : list TripExpense)
  : list (ExpenseCategory.t * Q) * Q :=
  fold_left
    (fun acc expense =>
       (add_amount (exp_category expense) (exp_amount expense) (fst acc),
        (snd acc + exp_amount expense)%Q))
    expenses ([], 0%Q).

Definition get_trip (trip_id0 tenant_id : string) : handler Store TripDetail :=
  s <- get ;;
  match find_one (trip_q trip_id0 tenant_id) (trips s) with
  | None => raise 404 "Trip not found"
  | Some trip =>
      let shipments0 := to_list 100 (find (on_trip trip_id0 tenant_id) (shipments s)) in
      let expenses :=
        to_list 100 (sort_desc exp_expense_date
                       (find (expense_of_trip trip_id0) (trip_expenses s))) in
      let totals := expense_totals_of expenses in
      ret (mkTripDetail trip shipments0 expenses (fst totals) (snd totals))
  end.

Record TripCreate := mkTripCreate {
  tc_trip_number : string;
  tc_route : list string;
  tc_departure_date : string;
  tc_vehicle_id : option string;
  tc_driver_id : option string;
  tc_notes : option string
}.

(** The [Trip] built from the request, the tenant and the user: the status
    defaults to planning and [locked_at] to null. *)
Definition new_trip (clock : Clock) (new_id : string) (trip_data : TripCreate)
  (tenant_id : string) (user : User) : Trip :=
  mkTrip new_id tenant_id (tc_trip_number trip_data) (tc_route trip_data)
    (tc_departure_date trip_data) (tc_vehicle_id trip_data) (tc_driver_id trip_data)
    (tc_notes trip_data) TripStatus.planning None None None (user_id user) (now_iso clock).

Definition number_q (tenant_id number : string) : Trip -> bool :=
  fun t => (trip_tenant_id t =? tenant_id) && (trip_number t =? number).

Definition create_trip (clock : Clock) (new_id : string) (trip_data : TripCreate)
  (tenant_id : string) (user : User) : handler Store Trip :=
  s <- get ;;
  match find_one (number_q tenant_id (tc_trip_number trip_data)) (trips s) with
  | Some existing => raise 400 "Trip number already exists for this tenant"
  | None =>
      let trip := new_trip clock new_id trip_data tenant_id user in
      modify (with_trips (insert_one trip)) ;;;
      ret trip
  end.

(** *** Invoices *)

Definition delete_invoice (invoice_id tenant_id : string) (user : User)
  : handler Store string :=
  s <- get ;;
  match find_one (invoice_q invoice_id tenant_id) (invoices s) with
  | None => raise 404 "Invoice not found"
  | Some invoice =>
      if negb (InvoiceStatus.eqb (inv_status invoice) InvoiceStatus.draft)
         && negb (is_owner user)
      then raise 403 "Only owner can delete non-draft invoices"
      else
        modify (with_invoice_line_items (delete_many (item_of invoice_id))) ;;;
        modify (with_invoices (delete_one (invoice_q invoice_id tenant_id))) ;;;
        ret "Invoice deleted"
  end.

Record InvoiceCreate := mkInvoiceCreate {
  icr_trip_id : option string;
  icr_client_id : string;
  icr_subtotal : Q;
  icr_adjustments : Q;
  icr_currency : string
}.

(** [create_invoice].  [current_year] is [datetime.now(timezone.utc).year]
    and [calculate_due_date days] is today plus [days] days, rendered
    [%Y-%m-%d]: both come from the clock. *)
Definition create_invoice (clock : Clock) (current_year : nat)
  (calculate_due_date : Z -> string) (new_id : string) (invoice_data : InvoiceCreate)
  (tenant_id : string) (user : User) : handler Store Invoice :=
  s <- get ;;
  match find_one (fun c => (client_id c =? icr_client_id invoice_data)
                           && (client_tenant_id c =? tenant_id)) (clients s) with
  | None => raise 404 "Client not found"
  | Some client =>
      invoice_number <- Server.generate_invoice_number current_year tenant_id ;;
      let due_date := calculate_due_date (client_payment_terms_days client) in
      let total := (icr_subtotal invoice_data + icr_adjustments invoice_data)%Q in
      let invoice :=
        mkInvoice new_id tenant_id (icr_client_id invoice_data) (icr_trip_id invoice_data)
          invoice_number None (icr_subtotal invoice_data)
          (Some (icr_adjustments invoice_data)) None total
          (Some (icr_currency invoice_data)) InvoiceStatus.draft None due_date
          None None None None (now_iso clock) in
      modify (with_invoices (insert_one invoice)) ;;;
      ret invoice
  end.

(** *** Financial summary *)

(** The status the summary counts an invoice under: the stored one, or
    overdue when the invoice is past due. *)
Definition effective_status (clock : Clock) (inv : Invoice) : InvoiceStatus.t :=
  if is_past_due clock inv then InvoiceStatus.overdue else inv_status inv.

Record Totals := mkTotals {
  draft_total : Q;
  sent_total : Q;
  paid_total : Q;
  overdue_total : Q
}.

(** One turn of the loop over the invoices. *)
Definition add_total (clock : Clock) (acc : Totals) (inv : Invoice) : Totals :=
  match effective_status clock inv with
  | InvoiceStatus.draft =>
      mkTotals (draft_total acc + inv_total inv)%Q (sent_total acc) (paid_total acc)
               (overdue_total acc)
  | InvoiceStatus.sent =>
      mkTotals (draft_total acc) (sent_total acc + inv_total inv)%Q (paid_total acc)
               (overdue_total acc)
  | InvoiceStatus.paid =>
      mkTotals (draft_total acc) (sent_total acc) (paid_total acc + inv_total inv)%Q
               (overdue_total acc)
  | InvoiceStatus.overdue =>
      mkTotals (draft_total acc) (sent_total acc) (paid_total acc)
               (overdue_total acc + inv_total inv)%Q
  end.

Record Summary := mkSummary {
  invoice_totals : Totals;
  total_outstanding : Q;
  total_received : Q;
  invoice_count : nat;
  recent_invoices : list (Invoice * string)
}.

Definition of_tenant (tenant_id : string) : Invoice -> bool :=
  fun i => inv_tenant_id i =? tenant_id.

Definition get_financial_summary (clock : Clock) (tenant_id : string)
  : handler Store Summary :=
  s <- get ;;
  let invoices0 := to_list 1000 (find (of_tenant tenant_id) (invoices s)) in
  let totals := fold_left (add_total clock) invoices0 (mkTotals 0 0 0 0)%Q in
  let payments0 :=
    to_list 1000 (find (fun p => pay_tenant_id p =? tenant_id) (payments s)) in
  let total_received0 := qsum (map pay_amount payments0) in
  let recent :=
    to_list 5 (to_list 5 (sort_desc inv_created_at
                            (find (of_tenant tenant_id) (invoices s)))) in
  ret (mkSummary totals (sent_total totals + overdue_total totals)%Q total_received0
         (List.length invoices0)
         (map (fun inv => (inv, Server.client_name_of (inv_client_id inv) s)) recent)).

End ServerRest.

(** * The other handlers of [routes/trip_routes.py] *)

Module TripRoutesRest.

Local Open Scope handler_scope.

(** [create_trip] and [get_trip] have the bodies of the server's. *)
Definition create_trip := ServerRest.create_trip.
Definition get_trip := ServerRest.get_trip.

(** The text [\n]. *)
Definition newline : ascii := ascii_of_nat 10.

(** A subject without the newline that [$] lets a match end before. *)
Fixpoint chomp (s : string) : string :=
  match s with
  | EmptyString => EmptyString
  | String c EmptyString => if Ascii.eqb c newline then EmptyString else s
  | String c s' => String c (chomp s')
  end.

(** The regular expression [^S\d{1,4}$]. *)
Definition matches_S_digits (number : string) : bool :=
  match number with
  | String c rest =>
      Ascii.eqb c "S"%char
      && (1 <=? String.length (chomp rest))%nat
      && (String.length (chomp rest) <=? 4)%nat
      && string_forallb is_digit (chomp rest)
  | EmptyString => false
  end.

(** [int(trip["trip_number"][1:])]; [int] ignores the white space around
    the numeral. *)
Definition number_after_S (number : string) : option nat :=
  match number with
  | String _ rest => Server.int_of_string (chomp rest)
  | EmptyString => None
  end.

(** The loop that keeps the largest number. *)
Definition max_num_of (listed : list Trip) : nat :=
  fold_left
    (fun max_num trip =>
       match number_after_S (trip_number trip) with
       | Some num => if (max_num <? num)%nat then num else max_num
       | None => max_num
       end)
    listed 0%nat.

(** The trips the handler reads: the first 1000 of the tenant that match. *)
Definition numbered_trips (tenant_id : string) (s : Store) : list Trip :=
  to_list 1000 (find (fun t => (trip_tenant_id t =? tenant_id)
                               && matches_S_digits (trip_number t)) (trips s)).

Definition get_next_trip_number (tenant_id : string) : handler Store string :=
  s <- get ;;
  let trips0 := numbered_trips tenant_id s in
  let max_num := max_num_of trips0 in
  let next_number := "S" ++ str_nat (max_num + 1) in
  ret next_number.

End TripRoutesRest.

(** * Requests to the trip routes *)

(** The requests that write to the store through [trip_routes.py], deletion
    of a trip apart, each with the inputs of its handler. *)
Inductive request : Type :=
| CreateTrip (clock : Clock) (new_id : string) (trip_data : ServerRest.TripCreate)
    (tenant_id : string) (user : User)
| UpdateTrip (clock : Clock) (trip_id0 : string) (update_data : Server.TripUpdate)
    (tenant_id : string) (user : User)
| CloseTrip (clock : Clock) (trip_id0 tenant_id : string) (user : User)
| AssignShipment (rng : Rng) (trip_id0 shipment_id tenant_id : string)
| UnassignShipment (rng : Rng) (trip_id0 shipment_id tenant_id : string)
| RemoveParcel (rng : Rng) (trip_id0 parcel_id tenant_id : string) (user : User)
| CreateExpense (clock : Clock) (new_id trip_id0 : string)
    (expense_data : TripRoutes.TripExpenseCreate) (tenant_id : string) (user : User)
| UpdateExpense (trip_id0 expense_id : string) (update_data : TripRoutes.TripExpenseUpdate)
    (tenant_id : string) (user : User)
| DeleteExpense (trip_id0 expense_id tenant_id : string) (user : User)
| GenerateInvoices (clock : Clock) (uuid4 : nat -> string) (trip_id0 tenant_id : string)
    (user : User).

(** The store a request leaves behind. *)
Definition serve (r : request) (s : Store) : Store :=
  match r with
  | CreateTrip clock new_id trip_data tenant_id user =>
      fst (TripRoutesRest.create_trip clock new_id trip_data tenant_id user s)
  | UpdateTrip clock tid u tenant_id user =>
      fst (TripRoutes.update_trip clock tid u tenant_id user s)
  | CloseTrip clock tid tenant_id user =>
      fst (TripRoutes.close_trip clock tid tenant_id user s)
  | AssignShipment rng tid sid tenant_id =>
      fst (TripRoutes.assign_shipment_to_trip rng tid sid tenant_id s)
  | UnassignShipment rng tid sid tenant_id =>
      fst (TripRoutes.unassign_shipment_from_trip rng tid sid tenant_id s)
  | RemoveParcel rng tid pid tenant_id user =>
      fst (TripRoutes.remove_parcel_from_trip rng tid pid tenant_id user s)
  | CreateExpense clock new_id tid expense_data tenant_id user =>
      fst (TripRoutes.create_trip_expense clock new_id tid expense_data tenant_id user s)
  | UpdateExpense tid eid u tenant_id user =>
      fst (TripRoutes.update_trip_expense tid eid u tenant_id user s)
  | DeleteExpense tid eid tenant_id user =>
      fst (TripRoutes.delete_trip_expense tid eid tenant_id user s)
  | GenerateInvoices clock uuid4 tid tenant_id user =>
      fst (TripRoutes.generate_trip_invoices clock uuid4 tid tenant_id user s)
  end.

(** The time a request stamps, when it stamps one. *)
Definition stamp_of (r : request) : option string :=
  match r with
  | UpdateTrip clock _ _ _ _ | CloseTrip clock _ _ _ => Some (now_iso clock)
  | _ => None
  end.

(** The requests served one after the other. *)
Definition serve_all (requests : list request) (s : Store) : Store :=
  fold_left (fun st r => serve r st) requests s.

(** ** Predicates on stores *)

Definition locked (t : Trip) : bool := truthy (trip_locked_at t).

(** Every trip that a tenant can address and that is locked in [c] can
    still be addressed, and is locked, in [c']. *)
Definition keeps_locks (c c' : list Trip) : Prop :=
  forall tid tenant_id t,
    find_one (trip_q tid tenant_id) c = Some t ->
    locked t = true ->
    exists t', find_one (trip_q tid tenant_id) c' = Some t' /\ locked t' = true.

(** The key the uniqueness check of trip numbers is about. *)
Definition number_key (t : Trip) : string * string := (trip_tenant_id t, trip_number t).

(** No two trips of a tenant carry the same number. *)
Definition numbers_unique (c : list Trip) : Prop := NoDup (map number_key c).

(** ** More example documents *)

Definition reopen_request : Server.TripUpdate :=
  Server.mkTripUpdate None None None None None None (Some TripStatus.planning).

(** The owner sets the status of the closed trip back to planning, a
    manager then tries to take the parcel off and the owner asks to close the
    trip again. *)
Definition after_closing : list request :=
  [UpdateTrip clock_2025 "t1" reopen_request "acme" owner_user;
   RemoveParcel (counting_rng 0) "t1" "s1" "acme" manager_user;
   CloseTrip clock_2025 "t1" "acme" owner_user].

Definition depart_request : Server.TripUpdate :=
  Server.mkTripUpdate None None None None None None (Some TripStatus.in_transit).

(** The open trip after it left on the first of June. *)
Definition departed_trip : Trip :=
  mkTrip "t1" "acme" "S12" ["Johannesburg"; "Harare"] "2025-06-02" None None None
         TripStatus.loading None (Some "2025-05-31T06:00:00+00:00") None
         "u-owner" "2025-05-30T10:00:00+00:00".

Definition departed_store : Store :=
  mkStore [] [] [parcel_1_on_trip] [piece_1; piece_2] [departed_trip] [] [] [] [].

Definition second_trip : ServerRest.TripCreate :=
  ServerRest.mkTripCreate "S13" ["Johannesburg"; "Lusaka"] "2025-06-09" None None None.

(** The trips of the tenant the next-number handler looks at, all of them. *)
Definition trips_numbered_S (tenant_id : string) (s : Store) : list Trip :=
  find (fun t => (trip_tenant_id t =? tenant_id)
                 && TripRoutesRest.matches_S_digits (trip_number t)) (trips s).

(** [expense_totals.get(category, 0)] on the dictionary a trip is returned
    with. *)
Definition category_total (category : ExpenseCategory.t)
  (expense_totals : list (ExpenseCategory.t * Q)) : Q :=
  match find_one (fun kv => ServerRest.category_eqb (fst kv) category) expense_totals with
  | Some kv => snd kv
  | None => 0%Q
  end.

(** The amounts of the expenses of one category, added up in the order of
    the list. *)
Definition spent_on (category : ExpenseCategory.t) (expenses : list TripExpense) : Q :=
  qsum (map exp_amount
          (find (fun e => ServerRest.category_eqb (exp_category e) category) expenses)).

Definition toll_paid : TripExpense :=
  mkTripExpense "e2" "t1" ExpenseCategory.tolls 150%Q "ZAR" "2025-06-01" None None
                "u-owner" "2025-06-01T09:00:00+00:00".

Definition refuel : TripExpense :=
  mkTripExpense "e3" "t1" ExpenseCategory.fuel 700%Q "ZAR" "2025-06-02" None None
                "u-owner" "2025-06-02T09:00:00+00:00".

(** The open trip with three expenses in two categories. *)
Definition expenses_store : Store :=
  mkStore [] [] [parcel_1_on_trip] [piece_1; piece_2] [open_trip]
          [fuel_expense; toll_paid; refuel] [] [] [].

(** ** The financial summary *)

(** The entry of the totals for a status. *)
Definition total_for (st : InvoiceStatus.t) (t : ServerRest.Totals) : Q :=
  match st with
  | InvoiceStatus.draft => ServerRest.draft_total t
  | InvoiceStatus.sent => ServerRest.sent_total t
  | InvoiceStatus.paid => ServerRest.paid_total t
  | InvoiceStatus.overdue => ServerRest.overdue_total t
  end.

(** The invoices the summary reads: the first 1000 of the tenant. *)
Definition summarised (tenant_id : string) (s : Store) : list Invoice :=
  to_list 1000 (find (ServerRest.of_tenant tenant_id) (invoices s)).

(** Those of them it counts under a status. *)
Definition counted_as (clock : Clock) (st : InvoiceStatus.t) (l : list Invoice)
  : list Invoice :=
  find (fun i => InvoiceStatus.eqb (ServerRest.effective_status clock i) st) l.

(** The figures of a summary, the list of recent invoices apart. *)
Definition figures (sm : ServerRest.Summary) : ServerRest.Totals * Q * Q * nat :=
  (ServerRest.invoice_totals sm, ServerRest.total_outstanding sm,
   ServerRest.total_received sm, ServerRest.invoice_count sm).

(** A stored invoice before and after a read that may have flipped it. *)
Definition flipped_or_same (clock : Clock) (a b : Invoice) : Prop :=
  b = a \/ (is_past_due clock a = true
            /\ b = set_invoice_status InvoiceStatus.overdue a).

(** ** Invoice generation, group by group *)

(** A client group that no invoice of the tenant covers yet. *)
Definition unbilled (tenant_id : string) (c : list Invoice) (g : string * list Shipment)
  : bool :=
  negb (Server.is_some
          (find_one (TripRoutes.existing_q tenant_id (fst g) (map shp_id (snd g))) c)).

(** The fields every generated invoice has. *)
Definition generated_for (clock : Clock) (tid tenant_id : string) (user : User) (i : Invoice)
  : Prop :=
  inv_tenant_id i = tenant_id /\ inv_trip_id i = Some tid
  /\ inv_status i = InvoiceStatus.draft /\ inv_adjustments i = None
  /\ inv_due_date i = in_30_days_iso clock /\ inv_created_by i = Some (user_id user)
  /\ inv_sent_at i = None /\ inv_paid_at i = None.

(** The parcels of a client among the parcels of a trip. *)
Definition parcels_of_client (cid : string) (parcels : list Shipment) : list Shipment :=
  find (fun sh => opt_eqb (shp_client_id sh) cid) parcels.

(** [client_parcels.get(cid, [])] *)
Definition group_of (cid : string) (client_parcels : list (string * list Shipment))
  : list Shipment :=
  match find_one (fun g => fst g =? cid) client_parcels with
  | Some g => snd g
  | None => []
  end.

(** A second parcel of the trip, of another client, and a third one without
    client. *)
Definition parcel_2_on_trip : Shipment :=
  mkShipment "s2" "acme" (Some "c2") (Some "t1") ShipmentStatus.staged "crates" "Harare" 1
             (Some 4%Q) None "u-owner" "2025-05-30T12:00:00+00:00".

Definition parcel_3_on_trip : Shipment :=
  mkShipment "s3" "acme" None (Some "t1") ShipmentStatus.staged "bags" "Harare" 1
             (Some 2%Q) None "u-owner" "2025-05-30T13:00:00+00:00".

Definition three_parcels_store : Store :=
  mkStore [acme_client] [] [parcel_1_on_trip; parcel_2_on_trip; parcel_3_on_trip] []
          [open_trip] [] [] [] [].

(** ** Barcodes of assigned pieces *)

(** The piece is one of those a handler read. *)
Definition read_by (pieces : list ShipmentPiece) (e : ShipmentPiece) : bool :=
  existsb (fun p => pc_id p =? pc_id e) pieces.

(** The barcode of a piece on a trip: trip number, position of the shipment
    on three digits, piece number on two. *)
Definition trip_barcode (number : string) (shipment_count : nat) (piece_number : Z)
  : string :=
  number ++ "-" ++ format_0d 3 (Z.of_nat shipment_count) ++ "-" ++ format_0d 2 piece_number.

(** ** Requests to the billing handlers *)

(** The requests that can write invoices, each with the inputs of its
    handler. *)
Inductive billing_request : Type :=
| CreateInvoice (clock : Clock) (current_year : nat) (calculate_due_date : Z -> string)
    (new_id : string) (invoice_data : ServerRest.InvoiceCreate) (tenant_id : string)
    (user : User)
| UpdateInvoice (clock : Clock) (invoice_id : string) (update_data : Server.InvoiceUpdate)
    (tenant_id : string) (user : User)
| DeleteInvoice (invoice_id tenant_id : string) (user : User)
| AddInvoiceItem (new_id invoice_id : string) (item_data : Server.InvoiceLineItemCreate)
    (tenant_id : string)
| DeleteInvoiceItem (invoice_id item_id0 tenant_id : string)
| CreatePayment (clock : Clock) (new_id : string) (payment_data : Server.PaymentCreate)
    (tenant_id : string) (user : User)
| DeletePayment (clock : Clock) (payment_id tenant_id : string) (user : User)
| GetInvoice (clock : Clock) (invoice_id tenant_id : string)
| ListInvoices (clock : Clock) (status client_id0 : option string) (tenant_id : string)
| GenerateTripInvoices (clock : Clock) (uuid4 : nat -> string) (trip_id0 tenant_id : string)
    (user : User).

(** The store a billing request leaves behind. *)
Definition serve_billing (r : billing_request) (s : Store) : Store :=
  match r with
  | CreateInvoice clock current_year calculate_due_date new_id invoice_data tenant_id user =>
      fst (ServerRest.create_invoice clock current_year calculate_due_date new_id
             invoice_data tenant_id user s)
  | UpdateInvoice clock iid u tenant_id user =>
      fst (Server.update_invoice clock iid u tenant_id user s)
  | DeleteInvoice iid tenant_id user =>
      fst (ServerRest.delete_invoice iid tenant_id user s)
  | AddInvoiceItem new_id iid item_data tenant_id =>
      fst (Server.add_invoice_item new_id iid item_data tenant_id s)
  | DeleteInvoiceItem iid item_id0 tenant_id =>
      fst (Server.delete_invoice_item iid item_id0 tenant_id s)
  | CreatePayment clock new_id payment_data tenant_id user =>
      fst (Server.create_payment clock new_id payment_data tenant_id user s)
  | DeletePayment clock pid tenant_id user =>
      fst (Server.delete_payment clock pid tenant_id user s)
  | GetInvoice clock iid tenant_id =>
      fst (Server.get_invoice clock iid tenant_id s)
  | ListInvoices clock status client_id0 tenant_id =>
      fst (Server.list_invoices clock status client_id0 tenant_id s)
  | GenerateTripInvoices clock uuid4 tid tenant_id user =>
      fst (TripRoutes.generate_trip_invoices clock uuid4 tid tenant_id user s)
  end.

(** The identifiers a request draws are new: not in use, and distinct from
    one another. *)
Definition draws_new_ids (r : billing_request) (s : Store) : Prop :=
  match r with
  | CreateInvoice _ _ _ new_id _ _ _ => ~ In new_id (map inv_id (invoices s))
  | GenerateTripInvoices _ uuid4 _ _ _ =>
      (forall k, ~ In (uuid4 k) (map inv_id (invoices s)))
      /\ (forall j k, uuid4 j = uuid4 k -> j = k)
  | _ => True
  end.

(** An invoice that stores adjustments has its total equal to its subtotal
    plus the adjustments. *)
Definition totals_add_up (i : Invoice) : Prop :=
  forall adjustments,
    inv_adjustments i = Some adjustments ->
    inv_total i = (inv_subtotal i + adjustments)%Q.

(** Distinct identifiers and totals that add up. *)
Definition sound_invoices (c : list Invoice) : Prop :=
  NoDup (map inv_id c) /\ Forall totals_add_up c.

(** A new invoice of 250 with a discount of 20. *)
Definition discounted : ServerRest.InvoiceCreate :=
  ServerRest.mkInvoiceCreate None "c1" 250%Q (- (20))%Q "ZAR".

Definition due_in (days : Z) : string :=
  if (days =? 30)%Z then "2025-07-01" else "2025-06-15".

(** ** Payments of an invoice as the read handler sees them *)

(** The late invoice with two part payments, the later one recorded first. *)
Definition part_payment_1 : Payment :=
  mkPayment "pay-1" "acme" "c1" (Some "inv9") 100%Q "2025-03-01"
            PaymentMethod.cash None None "u-owner" "2025-03-01T10:00:00+00:00".

Definition part_payment_2 : Payment :=
  mkPayment "pay-2" "acme" "c1" (Some "inv9") 60%Q "2025-02-01"
            PaymentMethod.cash None None "u-owner" "2025-03-02T10:00:00+00:00".

Definition part_paid_store : Store :=
  mkStore [acme_client] [] [] [] [] [] [draft_invoice; late_invoice] []
          [part_payment_1; part_payment_2].

(** A request that moves a shipment to another trip. *)
Definition move_to_t9 : Server.ShipmentUpdate :=
  Server.mkShipmentUpdate None None None None None None (Some "t9").

(** ** Invoice numbers of the server *)




(** ** Tenants *)

(** The tenant a request to the trip routes is made for. *)
Definition tenant_of (r : request) : string :=
  match r with
  | CreateTrip _ _ _ tenant_id _ | UpdateTrip _ _ _ tenant_id _
  | CloseTrip _ _ tenant_id _ | AssignShipment _ _ _ tenant_id
  | UnassignShipment _ _ _ tenant_id | RemoveParcel _ _ _ tenant_id _
  | CreateExpense _ _ _ _ tenant_id _ | UpdateExpense _ _ _ tenant_id _
  | DeleteExpense _ _ tenant_id _ | GenerateInvoices _ _ _ tenant_id _ => tenant_id
  end.


(** A trip and a parcel of another tenant beside those of the open store. *)
Definition other_trip : Trip :=
  mkTrip "t7" "globex" "S12" ["Durban"; "Maputo"] "2025-06-03" None None None
         TripStatus.loading None None None "u-globex" "2025-05-29T10:00:00+00:00".

Definition other_parcel : Shipment :=
  mkShipment "s7" "globex" (Some "c7") (Some "t7") ShipmentStatus.staged "drums" "Maputo" 1
             (Some 30%Q) None "u-globex" "2025-05-29T11:00:00+00:00".

Definition two_tenants_store : Store :=
  mkStore [] [] [parcel_1_on_trip; other_parcel] [piece_1; piece_2]
          [open_trip; other_trip] [fuel_expense] [] [] [].
From Stdlib Require PrimFloat.

(** * Conditions and examples of the statements on trips, invoices and payments *)

(** ** A shipment of another tenant on the trip *)

(** [update_shipment] writes any [trip_id] it is given: here the tenant of
    [other_parcel] puts it on trip ["t1"], which is a trip of ["acme"]. *)
Definition move_to_t1 : Server.ShipmentUpdate :=
  Server.mkShipmentUpdate None None None None None None (Some "t1").

Definition other_parcel_on_t1 : Shipment :=
  mkShipment "s7" "globex" (Some "c7") (Some "t1") ShipmentStatus.staged "drums" "Maputo" 1
             (Some 30%Q) None "u-globex" "2025-05-29T11:00:00+00:00".

(** ** Updating a closed trip to closed *)

(** The trip [t] after an update [u] that sets the status to closed while
    the trip is closed: the request fields that are not null are written, the
    status is closed, and [locked_at] and the two actual times are those of
    [t]. *)
Definition reclosed (u : Server.TripUpdate) (t : Trip) : Trip :=
  mkTrip (trip_id t) (trip_tenant_id t)
    (match Server.tu_trip_number u with Some n => n | None => trip_number t end)
    (match Server.tu_route u with Some r => r | None => trip_route t end)
    (match Server.tu_departure_date u with Some d => d | None => trip_departure_date t end)
    (match Server.tu_vehicle_id u with Some v => Some v | None => trip_vehicle_id t end)
    (match Server.tu_driver_id u with Some d => Some d | None => trip_driver_id t end)
    (match Server.tu_notes u with Some n => Some n | None => trip_notes t end)
    TripStatus.closed (trip_locked_at t) (trip_actual_departure t) (trip_actual_arrival t)
    (trip_created_by t) (trip_created_at t).

(** The request asks for a trip number that differs from the number of the
    trip [t] and that another trip of the tenant carries. *)
Definition asks_for_number_in_use (tid tenant_id : string) (u : Server.TripUpdate)
  (t : Trip) (s : Store) : Prop :=
  exists n other,
    Server.tu_trip_number u = Some n /\ n <> trip_number t
    /\ In other (trips s) /\ trip_tenant_id other = tenant_id
    /\ trip_number other = n /\ trip_id other <> tid.

(** An owner's update of the closed example trip: closed again, with a note. *)
Definition close_with_note : Server.TripUpdate :=
  Server.mkTripUpdate None None None None None (Some "delivered late")
                      (Some TripStatus.closed).

(** The same asking for the number of the second trip of the tenant. *)
Definition close_as_S13 : Server.TripUpdate :=
  Server.mkTripUpdate (Some "S13") None None None None None (Some TripStatus.closed).

Definition trip_S13 : Trip :=
  mkTrip "t2" "acme" "S13" ["Johannesburg"; "Lusaka"] "2025-06-09" None None None
         TripStatus.planning None None None "u-owner" "2025-05-30T12:00:00+00:00".

Definition locked_store_two_trips : Store :=
  mkStore [] [] [parcel_1_on_trip] [piece_1; piece_2] [closed_trip; trip_S13]
          [fuel_expense] [] [] [].

(** ** Amounts on which the sum of the handlers is exact *)

(** The handlers add amounts and compare them with totals in binary
    floating point, where a sum may differ from the sum of the decimal
    amounts that were sent. *)
Module Doubles.
Import PrimFloat.

(** [sum(p["amount"] for p in payments)] on doubles. *)
Definition float_sum (amounts : list float) : float :=
  fold_left PrimFloat.add amounts PrimFloat.zero.

(** The doubles nearest to 0.7, 0.1 and 0.8. *)
Definition f_0_7 : float := 0x1.6666666666666p-1%float.
Definition f_0_1 : float := 0x1.999999999999ap-4%float.
Definition f_0_8 : float := 0x1.999999999999ap-1%float.

End Doubles.

(** A whole number of absolute value at most 2^53: a double holds it
    exactly. *)
Definition whole (q : Q) : bool :=
  (Qden q =? 1)%positive && (Z.abs (Qnum q) <=? 2 ^ 53)%Z.

(** Adding [amounts] to [acc] one after the other, as [sum] does, meets
    whole numbers only: every floating-point addition is then exact, and the
    sum of the doubles is the sum of the numbers. *)
Fixpoint adds_exactly_from (acc : Q) (amounts : list Q) : bool :=
  match amounts with
  | [] => true
  | a :: rest => whole a && whole (acc + a) && adds_exactly_from (acc + a) rest
  end.

Definition adds_exactly (amounts : list Q) : bool := adds_exactly_from 0 amounts.

(** The amounts the payment handlers add up for an invoice: those of the
    first 100 payments recorded against it, in the order of the store. *)
Definition amounts_counted (invoice_id : string) (c : list Payment) : list Q :=
  map pay_amount
      (firstn 100
         (filter (fun p => match pay_invoice_id p with
                           | Some i => i =? invoice_id
                           | None => false
                           end) c)).

(** The document [create_payment] stores for a request. *)
Definition recorded_payment (clock : Clock) (new_id : string) (pd : Server.PaymentCreate)
  (tenant_id : string) (user : User) : Payment :=
  mkPayment new_id tenant_id (Server.pcr_client_id pd) (Server.pcr_invoice_id pd)
    (Server.pcr_amount pd) (Server.pcr_payment_date pd) (Server.pcr_payment_method pd)
    (Server.pcr_reference pd) (Server.pcr_notes pd) (user_id user) (now_iso clock).

(** The invoice [i] with another status and [paid_at], the rest as it is. *)
Definition with_status_and_paid_at (st : InvoiceStatus.t) (paid_at : option string)
  (i : Invoice) : Invoice :=
  mkInvoice (inv_id i) (inv_tenant_id i) (inv_client_id i) (inv_trip_id i)
    (inv_invoice_number i) (inv_shipment_ids i) (inv_subtotal i) (inv_adjustments i)
    (inv_vat i) (inv_total i) (inv_currency i) st (inv_issue_date i) (inv_due_date i)
    (inv_sent_at i) (inv_sent_by i) paid_at (inv_created_by i) (inv_created_at i).

(** A payment of 50 on the invoice of 101. *)
Definition pay_half : Server.PaymentCreate :=
  Server.mkPaymentCreate "c1" (Some "inv1") 50%Q "2025-06-01" PaymentMethod.cash None None.

(** The paid invoice with its payment of 101 and a later payment of 1. *)
Definition tip_payment : Payment :=
  mkPayment "pay-tip" "acme" "c1" (Some "inv1") 1%Q "2025-05-21"
            PaymentMethod.cash None None "u-owner" "2025-05-21T10:00:00+00:00".

Definition overpaid_store : Store :=
  mkStore [acme_client] [] [] [] [] [] [paid_invoice] [] [tip_payment; full_payment].

(** ** Invoices a list request returns *)

(** The invoice is neither paid nor overdue and its due date is before
    today (dates are compared as texts, as the handlers do). *)
Definition past_due (clock : Clock) (i : Invoice) : Prop :=
  inv_status i <> InvoiceStatus.paid /\ inv_status i <> InvoiceStatus.overdue
  /\ String.ltb (inv_due_date i) (today clock) = true.

(** The invoice passes the filters of a list request of the tenant: a
    status filter that is absent, empty or ["all"] lets every status
    through, any other only its own status; a client filter that is absent
    or empty lets every client through, any other only its own client. *)
Definition passes_filters (status client_id0 : option string) (tenant_id : string)
  (i : Invoice) : bool :=
  (inv_tenant_id i =? tenant_id)
  && match status with
     | None => true
     | Some st => (st =? EmptyString) || (st =? "all") || (st =? Server.status_name (inv_status i))
     end
  && match client_id0 with
     | None => true
     | Some c => (c =? EmptyString) || (c =? inv_client_id i)
     end.

(** The invoice with status overdue and the rest as it is. *)
Definition overdue_version (i : Invoice) : Invoice :=
  with_status_and_paid_at InvoiceStatus.overdue (inv_paid_at i) i.

(** 500 invoices of the tenant created after the late invoice. *)
Definition newer_invoice (k : nat) : Invoice :=
  mkInvoice ("n-" ++ str_nat k) "acme" "c1" None ("INV-2025-9" ++ str_nat k) None 10%Q
            (Some 0%Q) None 10%Q (Some "ZAR") InvoiceStatus.draft None "2025-12-31"
            None None None None "2025-05-01T09:00:00+00:00".

Definition long_list_store : Store :=
  mkStore [acme_client] [] [] [] [] [] (late_invoice :: map newer_invoice (seq 0 500)) [] [].

(** An invoice of another tenant under the identifier of the late invoice,
    stored before it. *)
Definition twin_invoice : Invoice :=
  mkInvoice "inv9" "globex" "c7" None "INV-2025-001" None 80%Q (Some 0%Q) None 80%Q
            (Some "USD") InvoiceStatus.paid None "2025-03-01" None None
            (Some "2025-02-20T10:00:00+00:00") None "2025-02-01T09:00:00+00:00".

Definition twin_store : Store :=
  mkStore [acme_client] [] [] [] [] [] [twin_invoice; late_invoice] [] [].

(** ** The unique index on barcodes *)

(** The texts of the list are pairwise different. *)
Fixpoint distinct (l : list string) : bool :=
  match l with
  | [] => true
  | x :: rest => negb (existsb (String.eqb x) rest) && distinct rest
  end.

(** The store keeps a unique index on the barcode of a piece: a write that
    gives a piece the barcode of another piece is refused and the request
    fails where it stands.  [before] is the collection as a request finds
    it, [after] the pieces of the shipment as the request leaves them when no
    write is refused.  The condition: the barcodes of [after] are pairwise
    different, and before the request none of them was on a piece other than
    the one that gets it.  Then, whatever the order of the writes, no piece
    carries the barcode a write is about to give to another piece, and no
    write is refused. *)
Definition barcodes_free (before after : list ShipmentPiece) : bool :=
  distinct (map pc_barcode after)
  && forallb (fun q =>
                forallb (fun p => negb (pc_barcode p =? pc_barcode q) || (pc_id p =? pc_id q))
                        before)
             after.

(** ** The unique index on invoice numbers *)

(** [INV-{year}-{n}], [n] on four digits at least. *)
Definition generated_number (year0 n : nat) : string :=
  "INV-" ++ str_nat year0 ++ "-" ++ zfill 4 (str_nat n).

(** The store keeps a unique index on the invoice number within a tenant:
    the insertion of an invoice under a number that an invoice of the tenant
    carries is refused and the request fails where it stands.  A request to
    generate the invoices of a trip inserts at most one invoice for each
    client group, under the numbers that follow the invoice count of the
    tenant.  The condition: none of these numbers is on an invoice of the
    tenant.  (It fails after an invoice was deleted: the count then leads to
    a number that was given before.) *)
Definition numbers_free (clock : Clock) (tid tenant_id : string) (s : Store) : bool :=
  forallb (fun k =>
             negb (existsb (fun i =>
                              (inv_tenant_id i =? tenant_id)
                              && (inv_invoice_number i
                                  =? generated_number (year clock)
                                       (tenant_count tenant_id (invoices s) + k + 1)))
                           (invoices s)))
          (seq 0 (List.length (groups_of tid tenant_id s))).

(** The tenant has one invoice, numbered 2 for 2025: the invoice numbered 1
    was deleted. *)
Definition invoice_number_2 : Invoice :=
  mkInvoice "inv-2" "acme" "c2" (Some "t0") "INV-2025-0002" (Some ["s-old"]) 500%Q None
            (Some 75%Q) 575%Q None InvoiceStatus.draft (Some "2025-05-01T09:00:00+00:00")
            "2025-05-31T09:00:00+00:00" None None None
            (Some "u-owner") "2025-05-01T09:00:00+00:00".

Definition after_deletion_store : Store :=
  mkStore [acme_client] [] [parcel_1_on_trip] [piece_1; piece_2] [open_trip] []
          [invoice_number_2] [] [].

(** ** Shipments on a trip *)

(** The number of shipments of the tenant whose [trip_id] is the trip. *)
Definition shipments_on_trip (tid tenant_id : string) (c : list Shipment) : nat :=
  List.length
    (filter (fun sh => match shp_trip_id sh with
                       | Some x => (x =? tid) && (shp_tenant_id sh =? tenant_id)
                       | None => false
                       end) c).

(** A write of [barcode] on the piece [pid] meets the index when another
    piece of the collection carries [barcode]. *)
Definition barcode_taken (pid barcode : string) (c : list ShipmentPiece) : bool :=
  existsb (fun p => (pc_barcode p =? barcode) && negb (pc_id p =? pid)) c.

(** The loop [rebarcode] on a collection that keeps the index: [None] as
    soon as a write is refused, the collection after the last write
    otherwise. *)
Fixpoint rebarcode_indexed (new_barcode : Rng -> ShipmentPiece -> string) (draws : nat)
  (rng : Rng) (pieces c : list ShipmentPiece) : option (list ShipmentPiece) :=
  match pieces with
  | [] => Some c
  | piece :: rest =>
      if barcode_taken (pc_id piece) (new_barcode rng piece) c then None
      else rebarcode_indexed new_barcode draws (advance draws rng) rest
             (update_one (piece_by_id (pc_id piece)) (set_barcode (new_barcode rng piece)) c)
  end.

(** The writes of the loop: the piece and the barcode it gets. *)
Fixpoint barcode_writes (new_barcode : Rng -> ShipmentPiece -> string) (draws : nat)
  (rng : Rng) (pieces : list ShipmentPiece) : list (string * string) :=
  match pieces with
  | [] => []
  | piece :: rest =>
      (pc_id piece, new_barcode rng piece)
        :: barcode_writes new_barcode draws (advance draws rng) rest
  end.

(** The piece [e] after the writes [w]. *)
Definition written (w : list (string * string)) (e : ShipmentPiece) : ShipmentPiece :=
  match List.find (fun x => fst x =? pc_id e) w with
  | Some x => set_barcode (snd x) e
  | None => e
  end.

(** * Facts about collections *)

(** Expose the plumbing of a handler: the store it reads and writes. *)
Ltac run_handler := unfold bind, get, modify.

Section CollectionFacts.
Context {D : Type}.
Implicit Types (q : D -> bool) (upd : D -> D) (c : list D) (d : D).

Lemma find_one_In q c d : find_one q c = Some d -> In d c /\ q d = true.
Proof. unfold find_one. apply find_some. Qed.

Lemma update_one_not_found q upd c : find_one q c = None -> update_one q upd c = c.
Proof.
  unfold find_one. induction c as [|e c IH]; simpl; auto.
  destruct (q e); [discriminate|]. intros H. now rewrite IH.
Qed.

Lemma update_one_found q upd c d :
  find_one q c = Some d -> update_one q upd c = update_one q (fun _ => upd d) c.
Proof.
  unfold find_one. induction c as [|e c IH]; simpl; [discriminate|].
  destruct (q e); intros H.
  - now inversion H.
  - now rewrite IH.
Qed.

Lemma update_one_same q c d : find_one q c = Some d -> update_one q (fun _ => d) c = c.
Proof.
  unfold find_one. induction c as [|e c IH]; simpl; [discriminate|].
  destruct (q e); intros H.
  - now inversion H.
  - now rewrite IH.
Qed.

Lemma find_one_update_one q upd c d :
  find_one q c = Some d -> q (upd d) = true ->
  find_one q (update_one q upd c) = Some (upd d).
Proof.
  unfold find_one. induction c as [|e c IH]; simpl; [discriminate|].
  destruct (q e) eqn:E; intros H Hq.
  - inversion H; subst. simpl. now rewrite Hq.
  - simpl. rewrite E. now apply IH.
Qed.

Lemma matched_count_found q c d : find_one q c = Some d -> matched_count q c = 1.
Proof.
  unfold find_one, matched_count. intros H.
  replace (existsb q c) with true; auto.
  symmetry. apply existsb_exists. exists d. now apply find_some in H.
Qed.

Lemma matched_count_not_found q c : find_one q c = None -> matched_count q c = 0.
Proof.
  unfold find_one, matched_count. intros H.
  destruct (existsb q c) eqn:E; auto.
  apply existsb_exists in E. destruct E as [x [Hin Hq]].
  now rewrite (find_none _ _ H x Hin) in Hq.
Qed.

End CollectionFacts.

Lemma store_eta (s : Store) :
  mkStore (clients s) (client_rates s) (shipments s) (shipment_pieces s) (trips s)
          (trip_expenses s) (invoices s) (invoice_line_items s) (payments s) = s.
Proof. now destruct s. Qed.

Lemma with_trips_same q t s :
  find_one q (trips s) = Some t -> with_trips (update_one q (fun _ => t)) s = s.
Proof. intros H. unfold with_trips. rewrite (update_one_same _ _ _ H). apply store_eta. Qed.

Lemma with_shipments_same q sh s :
  find_one q (shipments s) = Some sh -> with_shipments (update_one q (fun _ => sh)) s = s.
Proof.
  intros H. unfold with_shipments. rewrite (update_one_same _ _ _ H). apply store_eta.
Qed.

Section ScopedQueries.
Context {D : Type}.
Implicit Types (q : D -> bool) (upd : D -> D) (c : list D) (d : D).

(** A filter that only narrows [q1] and still accepts the first match of
    [q1] selects the same document. *)
Lemma find_one_scoped q1 q2 c d :
  (forall e, q2 e = true -> q1 e = true) ->
  find_one q1 c = Some d -> q2 d = true ->
  find_one q2 c = Some d.
Proof.
  intros Hsub. unfold find_one. induction c as [|e c IH]; simpl; [discriminate|].
  destruct (q1 e) eqn:E1; intros H Hq.
  - inversion H; subst. now rewrite Hq.
  - destruct (q2 e) eqn:E2; [apply Hsub in E2; congruence | auto].
Qed.

Lemma update_one_scoped q1 q2 upd c d :
  (forall e, q2 e = true -> q1 e = true) ->
  find_one q1 c = Some d -> q2 d = true ->
  update_one q2 upd c = update_one q1 upd c.
Proof.
  intros Hsub. unfold find_one. induction c as [|e c IH]; simpl; [discriminate|].
  destruct (q1 e) eqn:E1; intros H Hq.
  - inversion H; subst. now rewrite Hq.
  - destruct (q2 e) eqn:E2; [apply Hsub in E2; congruence |].
    now rewrite IH.
Qed.

End ScopedQueries.

Lemma invoice_q_narrows iid tenant_id (e : Invoice) :
  invoice_q iid tenant_id e = true -> invoice_by_id iid e = true.
Proof.
  unfold invoice_q, by_id_tenant, invoice_by_id. now intros H%andb_prop.
Qed.

Lemma invoice_q_of_by_id iid tenant_id (c : list Invoice) (inv : Invoice) :
  find_one (invoice_by_id iid) c = Some inv ->
  inv_tenant_id inv = tenant_id ->
  find_one (invoice_q iid tenant_id) c = Some inv.
Proof.
  intros H Ht. apply (find_one_scoped (invoice_by_id iid)); auto.
  - apply invoice_q_narrows.
  - apply find_one_In in H. destruct H as [_ H].
    unfold invoice_q, by_id_tenant. unfold invoice_by_id in H.
    now rewrite H, Ht, String.eqb_refl.
Qed.

Lemma firstn_whole {A : Type} (n : nat) (l : list A) :
  (List.length l <= n)%nat -> to_list n l = l.
Proof. apply firstn_all2. Qed.

(** ** Collections whose documents have distinct identifiers *)

Section UniqueIds.
Context {D : Type} (id_of : D -> string).
Implicit Types (upd : D -> D) (c : list D) (d : D).

Lemma no_other_with_id c d x :
  ~ In x (map id_of c) -> In d c -> (id_of d =? x) = false.
Proof.
  intros Hn Hin. apply String.eqb_neq. intros E. apply Hn. rewrite <- E. now apply in_map.
Qed.

Lemma find_one_unique c d :
  NoDup (map id_of c) -> In d c -> find_one (fun e => id_of e =? id_of d) c = Some d.
Proof.
  unfold find_one. induction c as [|e c IH]; simpl; [tauto|].
  intros Hnd [-> | Hin].
  - now rewrite String.eqb_refl.
  - inversion Hnd; subst. rewrite String.eqb_sym.
    rewrite (no_other_with_id c d (id_of e)); auto.
Qed.

Lemma update_one_unique x upd c :
  NoDup (map id_of c) ->
  update_one (fun e => id_of e =? x) upd c
  = map (fun e => if id_of e =? x then upd e else e) c.
Proof.
  induction c as [|e c IH]; simpl; auto.
  intros Hnd. inversion Hnd; subst.
  destruct (id_of e =? x) eqn:E.
  - f_equal. apply String.eqb_eq in E. subst x.
    rewrite <- (map_id c) at 1. apply map_ext_in.
    intros d Hd. now rewrite (no_other_with_id c d (id_of e)).
  - f_equal. auto.
Qed.

Lemma update_one_keeps_ids (q : D -> bool) upd c :
  (forall e, id_of (upd e) = id_of e) ->
  map id_of (update_one q upd c) = map id_of c.
Proof.
  intros Hid. induction c as [|e c IH]; simpl; auto.
  destruct (q e); simpl; [now rewrite Hid | now rewrite IH].
Qed.

Lemma update_one_In_unique x upd c d :
  NoDup (map id_of c) -> In d c ->
  In (if id_of d =? x then upd d else d) (update_one (fun e => id_of e =? x) upd c).
Proof.
  intros Hnd Hin. rewrite update_one_unique; auto.
  now apply (in_map (fun e => if id_of e =? x then upd e else e)).
Qed.

End UniqueIds.

Lemma In_insert_desc {D : Type} (key : D -> string) (d x : D) (l : list D) :
  In x (insert_desc key d l) <-> x = d \/ In x l.
Proof.
  induction l as [|e l IH]; simpl.
  - intuition.
  - destruct (String.ltb (key d) (key e)); simpl; rewrite ?IH; intuition.
Qed.

Lemma In_sort_desc {D : Type} (key : D -> string) (x : D) (l : list D) :
  In x (sort_desc key l) <-> In x l.
Proof.
  unfold sort_desc. induction l as [|e l IH]; simpl; [tauto|].
  rewrite In_insert_desc, IH. intuition.
Qed.

Lemma In_to_list {D : Type} (n : nat) (x : D) (l : list D) : In x (to_list n l) -> In x l.
Proof. unfold to_list. revert l. induction n; destruct l; simpl; intuition. Qed.

(** * Update requests *)

Lemma set_opt_field_none {A : Type} (req old : option A) :
  set_opt_field req old = None -> old = None.
Proof. destruct req; simpl; [discriminate | auto]. Qed.

Lemma trip_frame_refl clock u t : trip_frame clock u t t.
Proof. unfold trip_frame. repeat split; auto. Qed.

Lemma apply_trip_update_frame clock u locked_at departure arrival t :
  (locked_at = None \/ locked_at = Some (now_iso clock)) ->
  (departure = None \/ departure = Some (now_iso clock)) ->
  (arrival = None \/ arrival = Some (now_iso clock)) ->
  trip_frame clock u t (Server.apply_trip_update u locked_at departure arrival t).
Proof.
  intros Hl Hd Ha. unfold trip_frame, Server.apply_trip_update; simpl.
  repeat split;
    try (intros E; rewrite E; reflexivity);
    try (apply set_opt_field_none).
  - destruct Hl as [-> | ->]; simpl; auto.
  - destruct Hd as [-> | ->]; simpl; auto.
  - destruct Ha as [-> | ->]; simpl; auto.
Qed.

Lemma stamp_cases (b : bool) (v : string) :
  (if b then Some v else None) = None \/ (if b then Some v else None) = Some v.
Proof. destruct b; auto. Qed.

Lemma routes_update_trip_frame clock tid u tenant_id user s t :
  find_one (trip_q tid tenant_id) (trips s) = Some t ->
  exists t',
    fst (TripRoutes.update_trip clock tid u tenant_id user s)
    = with_trips (update_one (trip_q tid tenant_id) (fun _ => t')) s
    /\ trip_frame clock u t t'.
Proof.
  intros Hf. unfold TripRoutes.update_trip, bind, get. rewrite Hf.
  destruct (truthy (trip_locked_at t) && negb (is_owner user)).
  { exists t. simpl. split; [now rewrite with_trips_same | apply trip_frame_refl]. }
  destruct (Server.trip_number_taken tid tenant_id u t s).
  { exists t. simpl. split; [now rewrite with_trips_same | apply trip_frame_refl]. }
  destruct (Server.trip_update_nonempty u); simpl.
  - eexists. split.
    + unfold with_trips at 1. rewrite (update_one_found _ _ _ _ Hf). reflexivity.
    + apply apply_trip_update_frame; apply stamp_cases.
  - exists t. split; [now rewrite with_trips_same | apply trip_frame_refl].
Qed.

Lemma server_update_trip_frame clock tid u tenant_id user s t :
  find_one (trip_q tid tenant_id) (trips s) = Some t ->
  exists t',
    fst (Server.update_trip clock tid u tenant_id user s)
    = with_trips (update_one (trip_q tid tenant_id) (fun _ => t')) s
    /\ trip_frame clock u t t'.
Proof.
  intros Hf. unfold Server.update_trip, bind, get. rewrite Hf.
  destruct (truthy (trip_locked_at t) && negb (is_owner user)).
  { exists t. simpl. split; [now rewrite with_trips_same | apply trip_frame_refl]. }
  destruct (Server.trip_number_taken tid tenant_id u t s).
  { exists t. simpl. split; [now rewrite with_trips_same | apply trip_frame_refl]. }
  destruct (Server.trip_update_nonempty u); simpl.
  - eexists. split.
    + unfold with_trips at 1. rewrite (update_one_found _ _ _ _ Hf). reflexivity.
    + apply apply_trip_update_frame; auto using stamp_cases.
  - exists t. split; [now rewrite with_trips_same | apply trip_frame_refl].
Qed.

Lemma update_trip_not_found clock tid u tenant_id user s :
  find_one (trip_q tid tenant_id) (trips s) = None ->
  TripRoutes.update_trip clock tid u tenant_id user s = (s, HTTPException 404 "Trip not found")
  /\ Server.update_trip clock tid u tenant_id user s = (s, HTTPException 404 "Trip not found").
Proof.
  intros Hf. unfold TripRoutes.update_trip, Server.update_trip, bind, get.
  now rewrite Hf.
Qed.

Lemma shipment_frame_refl u sh : shipment_frame u sh sh.
Proof. unfold shipment_frame. repeat split; auto. Qed.

Lemma apply_shipment_update_frame u sh :
  shipment_frame u sh (Server.apply_shipment_update u sh).
Proof.
  unfold shipment_frame, Server.apply_shipment_update; simpl.
  repeat split;
    try (intros E; rewrite E; reflexivity);
    try (apply set_opt_field_none).
Qed.

Lemma update_shipment_frame sid u tenant_id s sh :
  find_one (shipment_q sid tenant_id) (shipments s) = Some sh ->
  exists sh',
    fst (Server.update_shipment sid u tenant_id s)
    = with_shipments (update_one (shipment_q sid tenant_id) (fun _ => sh')) s
    /\ shipment_frame u sh sh'.
Proof.
  intros Hf. unfold Server.update_shipment, bind, get.
  destruct (Server.shipment_update_nonempty u); simpl.
  - rewrite (matched_count_found _ _ _ Hf). simpl.
    eexists. split.
    + unfold with_shipments at 1. rewrite (update_one_found _ _ _ _ Hf). reflexivity.
    + apply apply_shipment_update_frame.
  - exists sh. split; [now rewrite with_shipments_same | apply shipment_frame_refl].
Qed.

Lemma update_shipment_not_found sid u tenant_id s :
  find_one (shipment_q sid tenant_id) (shipments s) = None ->
  fst (Server.update_shipment sid u tenant_id s) = s.
Proof.
  intros Hf. unfold Server.update_shipment, bind, get.
  destruct (Server.shipment_update_nonempty u); simpl; auto.
  rewrite (matched_count_not_found _ _ Hf). simpl.
  unfold with_shipments. rewrite (update_one_not_found _ _ _ Hf). apply store_eta.
Qed.

(** C10. A trip update and a shipment update leave every request field that
    is absent or null at its stored value, never turn a stored value into
    null, and change nothing but the non-null request fields and, for a trip,
    the timestamps [locked_at], [actual_departure] and [actual_arrival]
    derived from the status: the store after the request is the store before
    it with the addressed document replaced by one that differs from it in
    those fields only; a request that addresses no document changes nothing. *)
Theorem update_keeps_absent_fields :
  forall (clock : Clock) (tenant_id : string) (user : User) (s : Store),
    (forall tid u t,
        find_one (trip_q tid tenant_id) (trips s) = Some t ->
        exists t',
          fst (TripRoutes.update_trip clock tid u tenant_id user s)
          = with_trips (update_one (trip_q tid tenant_id) (fun _ => t')) s
          /\ trip_frame clock u t t')
    /\ (forall tid u t,
        find_one (trip_q tid tenant_id) (trips s) = Some t ->
        exists t',
          fst (Server.update_trip clock tid u tenant_id user s)
          = with_trips (update_one (trip_q tid tenant_id) (fun _ => t')) s
          /\ trip_frame clock u t t')
    /\ (forall tid u,
        find_one (trip_q tid tenant_id) (trips s) = None ->
        fst (TripRoutes.update_trip clock tid u tenant_id user s) = s
        /\ fst (Server.update_trip clock tid u tenant_id user s) = s)
    /\ (forall sid u sh,
        find_one (shipment_q sid tenant_id) (shipments s) = Some sh ->
        exists sh',
          fst (Server.update_shipment sid u tenant_id s)
          = with_shipments (update_one (shipment_q sid tenant_id) (fun _ => sh')) s
          /\ shipment_frame u sh sh')
    /\ (forall sid u,
        find_one (shipment_q sid tenant_id) (shipments s) = None ->
        fst (Server.update_shipment sid u tenant_id s) = s).
Proof.
  intros clock tenant_id user s. repeat split.
  - intros; now apply routes_update_trip_frame.
  - intros; now apply server_update_trip_frame.
  - now rewrite (proj1 (update_trip_not_found clock tid u tenant_id user s H)).
  - now rewrite (proj2 (update_trip_not_found clock tid u tenant_id user s H)).
  - intros; now apply update_shipment_frame.
  - intros; now apply update_shipment_not_found.
Qed.

(** The frame on an example: a manager sets the vehicle and the status of
    the open trip, and the trip keeps its number, route and dates. *)
Lemma update_keeps_absent_fields_example :
  exists t',
    fst (TripRoutes.update_trip clock_2025 "t1" dispatch_request "acme" manager_user open_store)
    = with_trips (update_one (trip_q "t1" "acme") (fun _ => t')) open_store
    /\ trip_frame clock_2025 dispatch_request open_trip t'.
Proof.
  apply (proj1 (update_keeps_absent_fields clock_2025 "acme" manager_user open_store)
               "t1" dispatch_request open_trip).
  reflexivity.
Defined.
(** * Deleting a trip *)

Lemma on_trip_true tid tenant_id (sh : Shipment) :
  on_trip tid tenant_id sh = true
  <-> shp_trip_id sh = Some tid /\ shp_tenant_id sh = tenant_id.
Proof.
  unfold on_trip. rewrite andb_true_iff, String.eqb_eq.
  destruct (shp_trip_id sh) as [x|]; simpl.
  - rewrite String.eqb_eq. split; intros [H1 H2]; split; congruence.
  - split; intros [H1 H2]; discriminate.
Qed.

Lemma update_many_cascade tid tenant_id (c : list Shipment) :
  Forall2 (after_trip_deletion tid tenant_id) c
    (update_many (on_trip tid tenant_id)
                 (set_shipment_trip None ShipmentStatus.warehouse) c).
Proof.
  induction c as [|sh c IH]; simpl; constructor; auto.
  unfold after_trip_deletion.
  destruct (on_trip tid tenant_id sh) eqn:Hon.
  - split; [reflexivity|].
    apply on_trip_true in Hon. destruct Hon as [H1 H2]. intros [H|H]; contradiction.
  - split; [|reflexivity].
    intros H1 H2. assert (on_trip tid tenant_id sh = true) by now apply on_trip_true.
    congruence.
Qed.

Lemma delete_many_expenses tid (c : list TripExpense) (e : TripExpense) :
  In e (delete_many (expense_of_trip tid) c) <-> In e c /\ exp_trip_id e <> tid.
Proof.
  unfold delete_many, expense_of_trip. rewrite filter_In.
  rewrite negb_true_iff, String.eqb_neq. tauto.
Qed.

Lemma may_delete_guard (t : Trip) (user : User) :
  truthy (trip_locked_at t) = false \/ is_owner user = true ->
  truthy (trip_locked_at t) && negb (is_owner user) = false.
Proof. intros [-> | ->]; simpl; auto using andb_false_r. Qed.

(** C9, as the handlers have it.  Deleting an unlocked trip, or any trip as
    owner, succeeds.  Shipment by shipment, in the order of the store: a
    shipment of the tenant of the request whose [trip_id] is the trip gets
    [trip_id] null and status [warehouse] and keeps its other fields; every
    other shipment stays as it is, among them a shipment of another tenant
    whose [trip_id] is the trip.  An expense remains exactly when it is not
    an expense of the trip, and the collection of pieces, so every barcode,
    is unchanged: nothing is regenerated. *)
Theorem delete_trip_cascade :
  forall (tid tenant_id : string) (user : User) (s : Store) (t : Trip),
    find_one (trip_q tid tenant_id) (trips s) = Some t ->
    truthy (trip_locked_at t) = false \/ is_owner user = true ->
    exists s',
      TripRoutes.delete_trip tid tenant_id user s = (s', Ok "Trip deleted")
      /\ Server.delete_trip tid tenant_id user s = (s', Ok "Trip deleted")
      /\ Forall2 (after_trip_deletion tid tenant_id) (shipments s) (shipments s')
      /\ (forall e, In e (trip_expenses s') <-> In e (trip_expenses s) /\ exp_trip_id e <> tid)
      /\ shipment_pieces s' = shipment_pieces s
      /\ trips s' = delete_one (trip_q tid tenant_id) (trips s).
Proof.
  intros tid tenant_id user s t Hf Hguard.
  apply may_delete_guard in Hguard.
  unfold TripRoutes.delete_trip, Server.delete_trip, bind, get, modify.
  rewrite Hf, Hguard. simpl.
  eexists. split; [reflexivity|]. split; [reflexivity|]. simpl.
  split; [apply update_many_cascade|].
  split; [intros e; apply delete_many_expenses|].
  split; reflexivity.
Qed.

(** The cascade on the locked example trip, deleted by the owner. *)
Lemma delete_trip_cascade_example :
  exists s',
    TripRoutes.delete_trip "t1" "acme" owner_user locked_store = (s', Ok "Trip deleted")
    /\ Server.delete_trip "t1" "acme" owner_user locked_store = (s', Ok "Trip deleted")
    /\ Forall2 (after_trip_deletion "t1" "acme") (shipments locked_store) (shipments s')
    /\ (forall e, In e (trip_expenses s')
                  <-> In e (trip_expenses locked_store) /\ exp_trip_id e <> "t1")
    /\ shipment_pieces s' = shipment_pieces locked_store
    /\ trips s' = delete_one (trip_q "t1" "acme") (trips locked_store).
Proof.
  apply (delete_trip_cascade "t1" "acme" owner_user locked_store closed_trip).
  - reflexivity.
  - right. reflexivity.
Defined.

(** C9 as stated fails for a shipment of another tenant.  The tenant
    ["globex"] puts its parcel on trip ["t1"] of ["acme"] with
    [update_shipment], which takes any [trip_id]; ["acme"] then deletes the
    trip, in either module; the parcel of ["acme"] is back in the warehouse
    and the parcel of ["globex"] is still assigned to the deleted trip, with
    its status. *)
Lemma foreign_shipment_stays_on_deleted_trip :
  exists s1 s2,
    Server.update_shipment "s7" move_to_t1 "globex" two_tenants_store
    = (s1, Ok (Some other_parcel_on_t1))
    /\ TripRoutes.delete_trip "t1" "acme" owner_user s1 = (s2, Ok "Trip deleted")
    /\ Server.delete_trip "t1" "acme" owner_user s1 = (s2, Ok "Trip deleted")
    /\ find_one (trip_q "t1" "acme") (trips s2) = None
    /\ shipments s1 = [parcel_1_on_trip; other_parcel_on_t1]
    /\ shipments s2 = [parcel_1; other_parcel_on_t1]
    /\ shp_trip_id other_parcel_on_t1 = Some "t1"
    /\ shp_status other_parcel_on_t1 = ShipmentStatus.staged.
Proof.
  do 2 eexists. split; [vm_compute; reflexivity|].
  split; [vm_compute; reflexivity|].
  repeat split; vm_compute; reflexivity.
Qed.

(** * The lock of a closed trip *)

Lemma expense_eta (e : TripExpense) :
  mkTripExpense (exp_id e) (exp_trip_id e) (exp_category e) (exp_amount e) (exp_currency e)
    (exp_expense_date e) (exp_description e) (exp_receipt_url e) (exp_created_by e)
    (exp_created_at e) = e.
Proof. now destruct e. Qed.

Lemma apply_empty_expense_update u e :
  TripRoutes.expense_update_nonempty u = false -> TripRoutes.apply_expense_update u e = e.
Proof.
  destruct u as [a b c d f g]; unfold TripRoutes.expense_update_nonempty; simpl.
  destruct a, b, c, d, f, g; simpl; try discriminate. intros _. apply expense_eta.
Qed.

Lemma owner_updates_expense tid eid u tenant_id user s t e :
  find_one (trip_q tid tenant_id) (trips s) = Some t ->
  is_owner user = true ->
  find_one (expense_q eid tid) (trip_expenses s) = Some e ->
  TripRoutes.update_trip_expense tid eid u tenant_id user s
  = (if TripRoutes.expense_update_nonempty u
     then with_trip_expenses (update_one (expense_q eid tid) (TripRoutes.apply_expense_update u)) s
     else s,
     Ok (Some (TripRoutes.apply_expense_update u e))).
Proof.
  intros Ht Ho He. unfold TripRoutes.update_trip_expense, bind, get, modify.
  rewrite Ht, Ho, andb_false_r.
  destruct (TripRoutes.expense_update_nonempty u) eqn:Hu; simpl.
  - rewrite (matched_count_found _ _ _ He). simpl.
    rewrite (find_one_update_one _ _ _ _ He); auto.
    apply find_one_In in He. apply He.
  - rewrite He. now rewrite apply_empty_expense_update.
Qed.

Lemma owner_deletes_expense tid eid tenant_id user s t e :
  find_one (trip_q tid tenant_id) (trips s) = Some t ->
  is_owner user = true ->
  find_one (expense_q eid tid) (trip_expenses s) = Some e ->
  TripRoutes.delete_trip_expense tid eid tenant_id user s
  = (with_trip_expenses (delete_one (expense_q eid tid)) s, Ok "Expense deleted").
Proof.
  intros Ht Ho He. unfold TripRoutes.delete_trip_expense, bind, get, modify.
  rewrite Ht, Ho, andb_false_r. simpl.
  unfold deleted_count. fold (matched_count (expense_q eid tid) (trip_expenses s)).
  now rewrite (matched_count_found _ _ _ He).
Qed.

(** C1, as the handlers have it.  On a trip whose [locked_at] is set: an
    expense update and an expense deletion by an actor who is not owner fail
    with 403 and leave the store unchanged, and by an owner they succeed when
    the expense exists; a shipment assignment, a shipment unassignment and a
    parcel removal fail with 403 and leave the store unchanged whoever asks,
    the owner included. *)
Theorem locked_trip_gate :
  forall (tenant_id tid : string) (s : Store) (t : Trip),
    find_one (trip_q tid tenant_id) (trips s) = Some t ->
    truthy (trip_locked_at t) = true ->
    (forall user eid u,
        is_owner user = false ->
        TripRoutes.update_trip_expense tid eid u tenant_id user s
        = (s, HTTPException 403 "Trip is locked. Only owner can edit expenses.")
        /\ TripRoutes.delete_trip_expense tid eid tenant_id user s
           = (s, HTTPException 403 "Trip is locked. Only owner can delete expenses."))
    /\ (forall user eid u e,
        is_owner user = true ->
        find_one (expense_q eid tid) (trip_expenses s) = Some e ->
        (exists s', TripRoutes.update_trip_expense tid eid u tenant_id user s
                    = (s', Ok (Some (TripRoutes.apply_expense_update u e))))
        /\ (exists s', TripRoutes.delete_trip_expense tid eid tenant_id user s
                       = (s', Ok "Expense deleted")))
    /\ (forall rng sid user,
        get_tenant_id user = Ok tenant_id ->
        TripRoutes.assign_shipment_to_trip rng tid sid tenant_id s
        = (s, HTTPException 403 "Cannot modify shipments on a locked trip")
        /\ TripRoutes.unassign_shipment_from_trip rng tid sid tenant_id s
           = (s, HTTPException 403 "Cannot modify shipments on a locked trip")
        /\ TripRoutes.remove_parcel_from_trip rng tid sid tenant_id user s
           = (s, HTTPException 403 "Cannot modify closed trip")).
Proof.
  intros tenant_id tid s t Ht Hl. repeat split.
  - unfold TripRoutes.update_trip_expense, bind, get. now rewrite Ht, Hl, H.
  - unfold TripRoutes.delete_trip_expense, bind, get. now rewrite Ht, Hl, H.
  - eexists. eapply owner_updates_expense; eauto.
  - eexists. eapply owner_deletes_expense; eauto.
  - unfold TripRoutes.assign_shipment_to_trip, bind, get. now rewrite Ht, Hl.
  - unfold TripRoutes.unassign_shipment_from_trip, bind, get. now rewrite Ht, Hl.
  - unfold TripRoutes.remove_parcel_from_trip, bind, get. now rewrite Ht, Hl.
Qed.

(** The gate on the locked example trip. *)
Lemma locked_trip_gate_example :
  (exists s', TripRoutes.update_trip_expense "t1" "e1" fix_expense "acme" owner_user locked_store
              = (s', Ok (Some (TripRoutes.apply_expense_update fix_expense fuel_expense))))
  /\ TripRoutes.delete_trip_expense "t1" "e1" "acme" manager_user locked_store
     = (locked_store, HTTPException 403 "Trip is locked. Only owner can delete expenses.").
Proof.
  pose proof (locked_trip_gate "acme" "t1" locked_store closed_trip eq_refl eq_refl)
    as [Hno [Hyes _]].
  split.
  - apply (Hyes owner_user "e1" fix_expense fuel_expense); reflexivity.
  - apply (Hno manager_user "e1" fix_expense). reflexivity.
Defined.

(** C1 as stated fails: the owner of the tenant asks to take the parcel off
    the locked trip, the parcel is on that trip, and the request is refused
    with 403 like anybody else's. *)
Lemma owner_unassign_on_locked_trip_refused :
  find_one (trip_q "t1" "acme") (trips locked_store) = Some closed_trip
  /\ truthy (trip_locked_at closed_trip) = true
  /\ is_owner owner_user = true
  /\ get_tenant_id owner_user = Ok "acme"
  /\ find_one (TripRoutes.assigned_q "s1" "acme" "t1") (shipments locked_store)
     = Some parcel_1_on_trip
  /\ TripRoutes.unassign_shipment_from_trip (constant_rng 0) "t1" "s1" "acme" locked_store
     = (locked_store, HTTPException 403 "Cannot modify shipments on a locked trip")
  /\ TripRoutes.assign_shipment_to_trip (constant_rng 0) "t1" "s1" "acme" locked_store
     = (locked_store, HTTPException 403 "Cannot modify shipments on a locked trip").
Proof. repeat split. Qed.

(** Expense creation has no lock check at all: on the locked trip a manager's
    request inserts the expense. *)
Lemma create_trip_expense_ignores_lock :
  TripRoutes.create_trip_expense clock_2025 "e2" "t1" toll_expense "acme" manager_user
    locked_store
  = (with_trip_expenses
       (insert_one (mkTripExpense "e2" "t1" ExpenseCategory.tolls 120%Q "ZAR" "2025-06-01"
                      None None "u-manager" "2025-06-01T08:00:00+00:00"))
       locked_store,
     Ok (mkTripExpense "e2" "t1" ExpenseCategory.tolls 120%Q "ZAR" "2025-06-01"
           None None "u-manager" "2025-06-01T08:00:00+00:00")).
Proof. reflexivity. Qed.

(** * Invoice totals *)

Lemma find_invoice_after_update iid upd (c : list Invoice) (inv : Invoice) :
  find_one (invoice_by_id iid) c = Some inv ->
  inv_id (upd inv) = inv_id inv ->
  find_one (invoice_by_id iid) (update_one (invoice_by_id iid) upd c) = Some (upd inv).
Proof.
  intros H Hid. apply find_one_update_one; auto.
  apply find_one_In in H. destruct H as [_ H].
  unfold invoice_by_id in *. now rewrite Hid.
Qed.

Lemma add_item_effect new_id iid item_data tenant_id s inv adj :
  find_one (invoice_by_id iid) (invoices s) = Some inv ->
  inv_tenant_id inv = tenant_id ->
  inv_adjustments inv = Some adj ->
  inv_status inv = InvoiceStatus.draft ->
  let item :=
    mkInvoiceLineItem new_id iid (Server.ic_shipment_id item_data)
      (Server.ic_description item_data) (Server.ic_quantity item_data)
      (Server.ic_weight item_data) (Server.ic_rate item_data)
      (Server.item_amount_of item_data) in
  let s1 := with_invoice_line_items (insert_one item) s in
  let sub := qsum (map item_amount (Server.all_items iid s1)) in
  Server.add_invoice_item new_id iid item_data tenant_id s
  = (with_invoices (update_one (invoice_by_id iid) (set_invoice_totals sub (sub + adj)%Q)) s1,
     Ok item).
Proof.
  intros Hf Ht Ha Hs. cbv zeta.
  unfold Server.add_invoice_item, bind, get, modify.
  rewrite (invoice_q_of_by_id _ _ _ _ Hf Ht), Hs. simpl.
  unfold Server.recompute_totals, bind, get, modify. now rewrite Ha.
Qed.

Lemma delete_item_effect iid item_id0 tenant_id s inv adj item :
  find_one (invoice_by_id iid) (invoices s) = Some inv ->
  inv_tenant_id inv = tenant_id ->
  inv_adjustments inv = Some adj ->
  inv_status inv = InvoiceStatus.draft ->
  find_one (Server.item_q item_id0 iid) (invoice_line_items s) = Some item ->
  let s1 := with_invoice_line_items (delete_one (Server.item_q item_id0 iid)) s in
  let sub := qsum (map item_amount (Server.all_items iid s1)) in
  Server.delete_invoice_item iid item_id0 tenant_id s
  = (with_invoices (update_one (invoice_by_id iid) (set_invoice_totals sub (sub + adj)%Q)) s1,
     Ok "Item deleted").
Proof.
  intros Hf Ht Ha Hs Hi. cbv zeta.
  unfold Server.delete_invoice_item, bind, get, modify.
  rewrite (invoice_q_of_by_id _ _ _ _ Hf Ht), Hs. simpl.
  unfold deleted_count. fold (matched_count (Server.item_q item_id0 iid) (invoice_line_items s)).
  rewrite (matched_count_found _ _ _ Hi). simpl.
  unfold Server.recompute_totals, bind, get, modify. now rewrite Ha.
Qed.

Lemma update_invoice_effect clock iid u tenant_id user s inv adj :
  find_one (invoice_by_id iid) (invoices s) = Some inv ->
  inv_tenant_id inv = tenant_id ->
  inv_adjustments inv = Some adj ->
  exists inv',
    Server.update_invoice clock iid u tenant_id user s
    = (with_invoices (update_one (invoice_by_id iid) (fun _ => inv')) s, Ok (Some inv'))
    /\ inv_id inv' = inv_id inv
    /\ inv_tenant_id inv' = inv_tenant_id inv
    /\ totals_consistent inv'.
Proof.
  intros Hf Ht Ha.
  pose proof (invoice_q_of_by_id _ _ _ _ Hf Ht) as Hq.
  unfold Server.update_invoice, bind, get, modify. rewrite Hq, Ha.
  match goal with
  | |- context [update_one _ ?f] => set (upd := f)
  end.
  exists (upd inv). simpl.
  rewrite (find_one_update_one _ _ _ _ Hq).
  2:{ apply find_one_In in Hq. apply Hq. }
  split; [|split; [reflexivity|split; [reflexivity|]]].
  - assert (Hupd : update_one (invoice_q iid tenant_id) upd (invoices s)
                   = update_one (invoice_by_id iid) (fun _ => upd inv) (invoices s)).
    { rewrite (update_one_scoped (invoice_by_id iid) (invoice_q iid tenant_id) upd _ inv
                 (invoice_q_narrows iid tenant_id) Hf (proj2 (find_one_In _ _ _ Hq))).
      now apply update_one_found. }
    unfold ret, with_invoices. now rewrite Hupd.
  - unfold totals_consistent, upd, Server.apply_invoice_update; simpl.
    rewrite Ha.
    exists (set_field (Server.iu_adjustments u) adj).
    split; [|reflexivity].
    destruct (Server.iu_adjustments u); reflexivity.
Qed.

(** C4, as the handlers have it.  For an invoice that stores its
    adjustments: after a line item is added to it or deleted from it (the
    invoice being a draft) and after any field update, the stored total is
    the stored subtotal plus the stored adjustments; after an item mutation
    the subtotal is the sum of the amounts of the first 100 line items the
    store returns for the invoice, which is the sum over all its line items
    when it has at most 100. *)
Theorem total_is_subtotal_plus_adjustments :
  forall (clock : Clock) (tenant_id iid : string) (user : User) (s : Store)
         (inv : Invoice) (adj : Q),
    find_one (invoice_by_id iid) (invoices s) = Some inv ->
    inv_tenant_id inv = tenant_id ->
    inv_adjustments inv = Some adj ->
    (forall new_id item_data,
        inv_status inv = InvoiceStatus.draft ->
        exists s' item inv',
          Server.add_invoice_item new_id iid item_data tenant_id s = (s', Ok item)
          /\ find_one (invoice_by_id iid) (invoices s') = Some inv'
          /\ totals_consistent inv'
          /\ inv_subtotal inv' = qsum (map item_amount (Server.all_items iid s'))
          /\ ((List.length (every_item iid s') <= 100)%nat ->
              inv_subtotal inv' = qsum (map item_amount (every_item iid s'))))
    /\ (forall item_id0 item,
        inv_status inv = InvoiceStatus.draft ->
        find_one (Server.item_q item_id0 iid) (invoice_line_items s) = Some item ->
        exists s' inv',
          Server.delete_invoice_item iid item_id0 tenant_id s = (s', Ok "Item deleted")
          /\ find_one (invoice_by_id iid) (invoices s') = Some inv'
          /\ totals_consistent inv'
          /\ inv_subtotal inv' = qsum (map item_amount (Server.all_items iid s'))
          /\ ((List.length (every_item iid s') <= 100)%nat ->
              inv_subtotal inv' = qsum (map item_amount (every_item iid s'))))
    /\ (forall u,
        exists s' inv',
          Server.update_invoice clock iid u tenant_id user s = (s', Ok (Some inv'))
          /\ find_one (invoice_by_id iid) (invoices s') = Some inv'
          /\ totals_consistent inv').
Proof.
  intros clock tenant_id iid user s inv adj Hf Ht Ha. repeat split.
  - intros new_id item_data Hs.
    rewrite (add_item_effect new_id iid item_data tenant_id s inv adj Hf Ht Ha Hs).
    do 3 eexists. split; [reflexivity|]. simpl.
    split; [apply find_invoice_after_update; [exact Hf | reflexivity]|].
    split; [exists adj; simpl; auto|].
    split; [reflexivity|].
    intros Hlen. simpl. unfold Server.all_items. simpl.
    unfold every_item in *. simpl in Hlen. now rewrite firstn_whole.
  - intros item_id0 item Hs Hi.
    rewrite (delete_item_effect iid item_id0 tenant_id s inv adj item Hf Ht Ha Hs Hi).
    do 2 eexists. split; [reflexivity|]. simpl.
    split; [apply find_invoice_after_update; [exact Hf | reflexivity]|].
    split; [exists adj; simpl; auto|].
    split; [reflexivity|].
    intros Hlen. simpl. unfold Server.all_items. simpl.
    unfold every_item in *. simpl in Hlen. now rewrite firstn_whole.
  - intros u.
    destruct (update_invoice_effect clock iid u tenant_id user s inv adj Hf Ht Ha)
      as [inv' [Heq [Hid [_ Hc]]]].
    rewrite Heq. do 2 eexists. split; [reflexivity|]. simpl. split; auto.
    apply (find_invoice_after_update iid (fun _ => inv') _ inv); auto.
Qed.

(** The totals of the small example invoice after one more carton. *)
Lemma total_is_subtotal_plus_adjustments_example :
  exists s' item inv',
    Server.add_invoice_item "item-2" "inv1" one_carton "acme" small_store = (s', Ok item)
    /\ find_one (invoice_by_id "inv1") (invoices s') = Some inv'
    /\ totals_consistent inv'
    /\ inv_subtotal inv' = qsum (map item_amount (Server.all_items "inv1" s'))
    /\ ((List.length (every_item "inv1" s') <= 100)%nat ->
        inv_subtotal inv' = qsum (map item_amount (every_item "inv1" s'))).
Proof.
  apply (proj1 (total_is_subtotal_plus_adjustments clock_2025 "acme" "inv1" owner_user
                  small_store draft_invoice 0%Q eq_refl eq_refl eq_refl)
               "item-2" one_carton).
  reflexivity.
Defined.

(** C4 as stated fails on its subtotal: the draft invoice has 100 items of
    amount 1, an item of amount 1 is added, and the stored subtotal is 100
    while the amounts of its 101 items sum to 101. *)
Lemma subtotal_misses_item_101 :
  exists s' item inv',
    Server.add_invoice_item "item-100" "inv1" one_carton "acme" crowded_store = (s', Ok item)
    /\ find_one (invoice_by_id "inv1") (invoices s') = Some inv'
    /\ List.length (every_item "inv1" s') = 101%nat
    /\ Qeq_bool (inv_subtotal inv') 100 = true
    /\ Qeq_bool (qsum (map item_amount (every_item "inv1" s'))) 101 = true
    /\ Qeq_bool (inv_subtotal inv') (qsum (map item_amount (every_item "inv1" s'))) = false.
Proof.
  do 3 eexists. split; [vm_compute; reflexivity|].
  split; [vm_compute; reflexivity|].
  repeat split; vm_compute; reflexivity.
Qed.

(** An invoice written by [generate_trip_invoices] has no [adjustments]:
    adding a line item to it inserts the item, then fails on the missing key
    and leaves the totals of the invoice as they were. *)
Lemma item_on_generated_invoice_fails :
  Server.add_invoice_item "item-0" "inv-wide" one_carton "acme" covered_store
  = (with_invoice_line_items
       (insert_one (mkInvoiceLineItem "item-0" "inv-wide" None "carton" 1 None 1%Q
                      (inject_Z 1 * 1)%Q))
       covered_store,
     HTTPException 500 "Internal Server Error").
Proof. reflexivity. Qed.

(** * Payments against an invoice *)

Lemma truthy_some (x : string) : x <> EmptyString -> truthy (Some x) = true.
Proof. intros H. simpl. apply negb_true_iff. now apply String.eqb_neq. Qed.

Lemma create_payment_effect clock new_id pd tenant_id user s client iid inv :
  find_one (client_q (Server.pcr_client_id pd) tenant_id) (clients s) = Some client ->
  Server.pcr_invoice_id pd = Some iid ->
  iid <> EmptyString ->
  find_one (invoice_by_id iid) (invoices s) = Some inv ->
  inv_tenant_id inv = tenant_id ->
  let payment :=
    mkPayment new_id tenant_id (Server.pcr_client_id pd) (Some iid) (Server.pcr_amount pd)
      (Server.pcr_payment_date pd) (Server.pcr_payment_method pd) (Server.pcr_reference pd)
      (Server.pcr_notes pd) (user_id user) (now_iso clock) in
  let s1 := with_payments (insert_one payment) s in
  Server.create_payment clock new_id pd tenant_id user s
  = (if Qle_bool (inv_total inv) (Server.total_paid iid s1)
     then with_invoices
            (update_one (invoice_by_id iid)
               (set_invoice_status_paid_at InvoiceStatus.paid (Some (now_iso clock)))) s1
     else s1,
     Ok payment).
Proof.
  intros Hc Hi Hne Hf Ht. cbv zeta.
  unfold Server.create_payment, bind, get, modify.
  unfold client_q in Hc. rewrite Hc, Hi, (truthy_some _ Hne).
  rewrite (invoice_q_of_by_id _ _ _ _ Hf Ht). simpl.
  rewrite Hf.
  now destruct (Qle_bool (inv_total inv) _).
Qed.

Lemma delete_payment_effect clock pid tenant_id user s p iid inv :
  may_delete_payments user = true ->
  find_one (Server.payment_q pid tenant_id) (payments s) = Some p ->
  pay_invoice_id p = Some iid ->
  iid <> EmptyString ->
  find_one (invoice_by_id iid) (invoices s) = Some inv ->
  inv_status inv = InvoiceStatus.paid ->
  let s1 := with_payments (delete_one (Server.payment_q pid tenant_id)) s in
  let new_status :=
    if String.ltb (inv_due_date inv) (today clock)
    then InvoiceStatus.overdue else InvoiceStatus.sent in
  Server.delete_payment clock pid tenant_id user s
  = (if Server.Qlt_bool (Server.total_paid iid s1) (inv_total inv)
     then with_invoices
            (update_one (invoice_by_id iid) (set_invoice_status_paid_at new_status None)) s1
     else s1,
     Ok "Payment deleted").
Proof.
  intros Hr Hp Hi Hne Hf Hs. cbv zeta.
  unfold Server.delete_payment. unfold may_delete_payments in Hr. rewrite Hr. simpl.
  run_handler. rewrite Hp, Hi, (truthy_some _ Hne). simpl.
  rewrite Hf, Hs. simpl.
  now destruct (Server.Qlt_bool _ _).
Qed.

(** The sum the handlers compare with the total runs over [amounts_counted]. *)
Lemma total_paid_counted iid s :
  Server.total_paid iid s = qsum (amounts_counted iid (payments s)).
Proof. reflexivity. Qed.

Lemma Qlt_bool_true (a b : Q) : (a < b)%Q -> Server.Qlt_bool a b = true.
Proof.
  intros H. unfold Server.Qlt_bool. apply negb_true_iff.
  destruct (Qle_bool b a) eqn:E; [|reflexivity].
  apply Qle_bool_iff in E. exfalso. now apply (Qlt_not_le a b).
Qed.

Lemma Qlt_bool_false (a b : Q) : ~ (a < b)%Q -> Server.Qlt_bool a b = false.
Proof.
  intros H. unfold Server.Qlt_bool. apply negb_false_iff.
  apply Qle_bool_iff. now apply Qnot_lt_le.
Qed.

Lemma Qle_bool_false (a b : Q) : ~ (a <= b)%Q -> Qle_bool a b = false.
Proof.
  intros H. destruct (Qle_bool a b) eqn:E; [|reflexivity].
  apply Qle_bool_iff in E. contradiction.
Qed.

(** The payment a request addresses, given by its place in the collection. *)
Lemma find_payment_at pid tenant_id (before after : list Payment) (p : Payment) :
  (forall x, In x before -> pay_id x <> pid \/ pay_tenant_id x <> tenant_id) ->
  pay_id p = pid -> pay_tenant_id p = tenant_id ->
  find_one (Server.payment_q pid tenant_id) (before ++ p :: after)%list = Some p
  /\ delete_one (Server.payment_q pid tenant_id) (before ++ p :: after)%list
     = (before ++ after)%list.
Proof.
  intros Hb Hid Hten.
  assert (Hp : Server.payment_q pid tenant_id p = true).
  { unfold Server.payment_q, by_id_tenant. now rewrite Hid, Hten, !String.eqb_refl. }
  unfold find_one. induction before as [|x before IH]; simpl.
  - now rewrite Hp.
  - assert (Hx : Server.payment_q pid tenant_id x = false).
    { unfold Server.payment_q, by_id_tenant. apply andb_false_iff.
      destruct (Hb x (or_introl eq_refl)) as [H|H]; [left|right];
        now apply String.eqb_neq. }
    rewrite Hx. destruct IH as [IH1 IH2].
    + intros y Hy. apply Hb. now right.
    + split; [exact IH1 | now rewrite IH2].
Qed.

(** C3, as the handlers have it, for an invoice whose total is a whole
    number and payments whose amounts are whole numbers that add up in whole
    numbers of at most 2^53, so that the floating-point sum of the handlers
    is the sum of the amounts.  The amounts counted are those of the first
    100 payments the store returns for the invoice (all of them when there
    are at most 100).  Recording a payment against the invoice, after which
    the counted amounts add up to at least the total, sets the status to
    paid and stamps [paid_at] with the time of the request; when they add up
    to less, the invoices stay as they are.  Deleting a payment of the
    invoice while it is paid, after which the counted amounts add up to less
    than the total, sets the status to overdue when the due date is before
    today and to sent otherwise, and clears [paid_at]; when they still reach
    the total, the invoices stay as they are. *)
Theorem payments_settle_and_reopen :
  forall (clock : Clock) (tenant_id iid : string) (s : Store) (inv : Invoice),
    find_one (invoice_by_id iid) (invoices s) = Some inv ->
    inv_tenant_id inv = tenant_id ->
    iid <> EmptyString ->
    whole (inv_total inv) = true ->
    (forall new_id pd user client,
        find_one (client_q (Server.pcr_client_id pd) tenant_id) (clients s) = Some client ->
        Server.pcr_invoice_id pd = Some iid ->
        let payment := recorded_payment clock new_id pd tenant_id user in
        let amounts := amounts_counted iid (payments s ++ [payment])%list in
        adds_exactly amounts = true ->
        (inv_total inv <= qsum amounts)%Q ->
        exists s',
          Server.create_payment clock new_id pd tenant_id user s = (s', Ok payment)
          /\ payments s' = (payments s ++ [payment])%list
          /\ find_one (invoice_by_id iid) (invoices s')
             = Some (with_status_and_paid_at InvoiceStatus.paid (Some (now_iso clock)) inv))
    /\ (forall new_id pd user client,
        find_one (client_q (Server.pcr_client_id pd) tenant_id) (clients s) = Some client ->
        Server.pcr_invoice_id pd = Some iid ->
        let payment := recorded_payment clock new_id pd tenant_id user in
        let amounts := amounts_counted iid (payments s ++ [payment])%list in
        adds_exactly amounts = true ->
        (qsum amounts < inv_total inv)%Q ->
        exists s',
          Server.create_payment clock new_id pd tenant_id user s = (s', Ok payment)
          /\ payments s' = (payments s ++ [payment])%list
          /\ invoices s' = invoices s)
    /\ (forall pid user p before after,
        may_delete_payments user = true ->
        payments s = (before ++ p :: after)%list ->
        (forall x, In x before -> pay_id x <> pid \/ pay_tenant_id x <> tenant_id) ->
        pay_id p = pid -> pay_tenant_id p = tenant_id ->
        pay_invoice_id p = Some iid ->
        inv_status inv = InvoiceStatus.paid ->
        let amounts := amounts_counted iid (before ++ after)%list in
        adds_exactly amounts = true ->
        (qsum amounts < inv_total inv)%Q ->
        exists s',
          Server.delete_payment clock pid tenant_id user s = (s', Ok "Payment deleted")
          /\ payments s' = (before ++ after)%list
          /\ find_one (invoice_by_id iid) (invoices s')
             = Some (with_status_and_paid_at
                       (if String.ltb (inv_due_date inv) (today clock)
                        then InvoiceStatus.overdue else InvoiceStatus.sent)
                       None inv))
    /\ (forall pid user p before after,
        may_delete_payments user = true ->
        payments s = (before ++ p :: after)%list ->
        (forall x, In x before -> pay_id x <> pid \/ pay_tenant_id x <> tenant_id) ->
        pay_id p = pid -> pay_tenant_id p = tenant_id ->
        pay_invoice_id p = Some iid ->
        inv_status inv = InvoiceStatus.paid ->
        let amounts := amounts_counted iid (before ++ after)%list in
        adds_exactly amounts = true ->
        (inv_total inv <= qsum amounts)%Q ->
        exists s',
          Server.delete_payment clock pid tenant_id user s = (s', Ok "Payment deleted")
          /\ payments s' = (before ++ after)%list
          /\ invoices s' = invoices s).
Proof.
  intros clock tenant_id iid s inv Hf Ht Hne Hwhole.
  assert (Hrec : forall new_id pd user client,
             find_one (client_q (Server.pcr_client_id pd) tenant_id) (clients s)
             = Some client ->
             Server.pcr_invoice_id pd = Some iid ->
             Server.create_payment clock new_id pd tenant_id user s
             = (let payment := recorded_payment clock new_id pd tenant_id user in
                let s1 := with_payments (fun c => (c ++ [payment])%list) s in
                (if Qle_bool (inv_total inv)
                      (qsum (amounts_counted iid (payments s ++ [payment])%list))
                 then with_invoices
                        (update_one (invoice_by_id iid)
                           (with_status_and_paid_at InvoiceStatus.paid
                              (Some (now_iso clock)))) s1
                 else s1,
                 Ok payment))).
  { intros new_id pd user client Hc Hi.
    rewrite (create_payment_effect clock new_id pd tenant_id user s client iid inv
               Hc Hi Hne Hf Ht).
    unfold recorded_payment. rewrite Hi. reflexivity. }
  assert (Hdel : forall pid user p before after,
             may_delete_payments user = true ->
             payments s = (before ++ p :: after)%list ->
             (forall x, In x before -> pay_id x <> pid \/ pay_tenant_id x <> tenant_id) ->
             pay_id p = pid -> pay_tenant_id p = tenant_id ->
             pay_invoice_id p = Some iid ->
             inv_status inv = InvoiceStatus.paid ->
             Server.delete_payment clock pid tenant_id user s
             = (let s1 := with_payments (fun _ => (before ++ after)%list) s in
                (if Server.Qlt_bool (qsum (amounts_counted iid (before ++ after)%list))
                      (inv_total inv)
                 then with_invoices
                        (update_one (invoice_by_id iid)
                           (with_status_and_paid_at
                              (if String.ltb (inv_due_date inv) (today clock)
                               then InvoiceStatus.overdue else InvoiceStatus.sent)
                              None)) s1
                 else s1,
                 Ok "Payment deleted"))).
  { intros pid user p before after Hr Hpay Hb Hid Hten Hi Hs.
    destruct (find_payment_at pid tenant_id before after p Hb Hid Hten) as [Hfind Hrest].
    rewrite <- Hpay in Hfind, Hrest.
    rewrite (delete_payment_effect clock pid tenant_id user s p iid inv
               Hr Hfind Hi Hne Hf Hs).
    cbv zeta. rewrite total_paid_counted. unfold with_payments. simpl.
    rewrite Hrest. reflexivity. }
  split; [|split; [|split]].
  - intros new_id pd user client Hc Hi payment amounts _ Hle.
    rewrite (Hrec new_id pd user client Hc Hi). cbv zeta.
    fold payment. fold amounts.
    rewrite (proj2 (Qle_bool_iff _ _) Hle).
    eexists. split; [reflexivity|]. split; [reflexivity|].
    simpl. now apply find_invoice_after_update.
  - intros new_id pd user client Hc Hi payment amounts _ Hlt.
    rewrite (Hrec new_id pd user client Hc Hi). cbv zeta.
    fold payment. fold amounts.
    rewrite (Qle_bool_false _ _ (Qlt_not_le _ _ Hlt)).
    eexists. split; [reflexivity|]. split; reflexivity.
  - intros pid user p before after Hr Hpay Hb Hid Hten Hi Hs amounts _ Hlt.
    rewrite (Hdel pid user p before after Hr Hpay Hb Hid Hten Hi Hs). cbv zeta.
    fold amounts. rewrite (Qlt_bool_true _ _ Hlt).
    eexists. split; [reflexivity|]. split; [reflexivity|].
    simpl. now apply find_invoice_after_update.
  - intros pid user p before after Hr Hpay Hb Hid Hten Hi Hs amounts _ Hle.
    rewrite (Hdel pid user p before after Hr Hpay Hb Hid Hten Hi Hs). cbv zeta.
    fold amounts. rewrite (Qlt_bool_false _ _ (Qle_not_lt _ _ Hle)).
    eexists. split; [reflexivity|]. split; reflexivity.
Qed.

(** Paying the example invoice of 101 in full marks it paid and paying 50
    leaves it sent; deleting the payment of 101 of the paid example invoice
    reopens it as overdue, its due date being past, and deleting a later
    payment of 1 beside the payment of 101 leaves it paid. *)
Lemma payments_settle_and_reopen_example :
  (exists s',
     Server.create_payment clock_2025 "pay-1" pay_all "acme" owner_user billed_store
     = (s', Ok (recorded_payment clock_2025 "pay-1" pay_all "acme" owner_user))
     /\ payments s' = [recorded_payment clock_2025 "pay-1" pay_all "acme" owner_user]
     /\ find_one (invoice_by_id "inv1") (invoices s')
        = Some (with_status_and_paid_at InvoiceStatus.paid (Some (now_iso clock_2025))
                  sent_invoice))
  /\ (exists s',
        Server.create_payment clock_2025 "pay-1" pay_half "acme" owner_user billed_store
        = (s', Ok (recorded_payment clock_2025 "pay-1" pay_half "acme" owner_user))
        /\ payments s' = [recorded_payment clock_2025 "pay-1" pay_half "acme" owner_user]
        /\ invoices s' = [sent_invoice])
  /\ (exists s',
        Server.delete_payment clock_2025 "pay-full" "acme" owner_user settled_store
        = (s', Ok "Payment deleted")
        /\ payments s' = []
        /\ find_one (invoice_by_id "inv1") (invoices s')
           = Some (with_status_and_paid_at InvoiceStatus.overdue None paid_invoice))
  /\ (exists s',
        Server.delete_payment clock_2025 "pay-tip" "acme" owner_user overpaid_store
        = (s', Ok "Payment deleted")
        /\ payments s' = [full_payment]
        /\ invoices s' = [paid_invoice]).
Proof.
  assert (Hne : "inv1" <> EmptyString) by discriminate.
  split; [|split; [|split]].
  - apply (proj1 (payments_settle_and_reopen clock_2025 "acme" "inv1" billed_store
                    sent_invoice eq_refl eq_refl Hne eq_refl)
                 "pay-1" pay_all owner_user acme_client eq_refl eq_refl eq_refl).
    vm_compute. discriminate.
  - apply (proj1 (proj2 (payments_settle_and_reopen clock_2025 "acme" "inv1" billed_store
                           sent_invoice eq_refl eq_refl Hne eq_refl))
                 "pay-1" pay_half owner_user acme_client eq_refl eq_refl eq_refl).
    vm_compute. reflexivity.
  - apply (proj1 (proj2 (proj2 (payments_settle_and_reopen clock_2025 "acme" "inv1"
                                  settled_store paid_invoice eq_refl eq_refl Hne eq_refl)))
                 "pay-full" owner_user full_payment [] [] eq_refl eq_refl).
    + intros x [].
    + reflexivity.
    + reflexivity.
    + reflexivity.
    + reflexivity.
    + reflexivity.
    + vm_compute. reflexivity.
  - apply (proj2 (proj2 (proj2 (payments_settle_and_reopen clock_2025 "acme" "inv1"
                                  overpaid_store paid_invoice eq_refl eq_refl Hne eq_refl)))
                 "pay-tip" owner_user tip_payment [] [full_payment] eq_refl eq_refl).
    + intros x [].
    + reflexivity.
    + reflexivity.
    + reflexivity.
    + reflexivity.
    + reflexivity.
    + vm_compute. discriminate.
Defined.

(** C3 as stated fails on the recording side: the invoice of 101 has 100
    payments of 1, a payment of 1 is recorded, the ledger now sums to the
    total, and the invoice stays as it was, sent and without [paid_at]. *)
Lemma payment_101_does_not_settle :
  exists s' payment,
    Server.create_payment clock_2025 "pay-100" pay_one "acme" owner_user instalment_store
    = (s', Ok payment)
    /\ List.length (ledger "inv1" s') = 101%nat
    /\ Qle_bool (inv_total sent_invoice) (qsum (map pay_amount (ledger "inv1" s'))) = true
    /\ find_one (invoice_by_id "inv1") (invoices s') = Some sent_invoice
    /\ inv_status sent_invoice = InvoiceStatus.sent
    /\ inv_paid_at sent_invoice = None.
Proof.
  do 2 eexists. split; [vm_compute; reflexivity|].
  repeat split; vm_compute; reflexivity.
Qed.

(** On doubles the amounts 0.7 and 0.1 add up to less than 0.8: with
    amounts that are not whole numbers the sum of the handlers can fall
    short of a total that the decimal amounts reach. *)
Lemma float_sum_falls_short :
  PrimFloat.ltb (Doubles.float_sum [Doubles.f_0_7; Doubles.f_0_1]) Doubles.f_0_8 = true.
Proof. vm_compute. reflexivity. Qed.

(** * The overdue flip of the read handlers *)

Lemma with_invoices_id (s : Store) : with_invoices (fun c => c) s = s.
Proof. unfold with_invoices. apply store_eta. Qed.

Lemma list_invoices_loop_effect clock (listed : list Invoice) :
  forall s,
    Server.list_invoices_loop clock listed s
    = (with_invoices (fun c => fold_left (flip_step clock) listed c) s,
       Ok (map (reported clock s) listed)).
Proof.
  induction listed as [|i listed IH]; intros s.
  - simpl. unfold ret. now rewrite with_invoices_id.
  - simpl. unfold bind at 1. unfold reported at 1. unfold flip_step at 2.
    destruct (is_past_due clock i); unfold bind, get, modify, ret; simpl; rewrite IH;
      reflexivity.
Qed.

Lemma set_overdue_twice (i : Invoice) :
  set_invoice_status InvoiceStatus.overdue (set_invoice_status InvoiceStatus.overdue i)
  = set_invoice_status InvoiceStatus.overdue i.
Proof. reflexivity. Qed.

Lemma flip_step_ids clock c i : map inv_id (flip_step clock c i) = map inv_id c.
Proof.
  unfold flip_step. destruct (is_past_due clock i); auto.
  now apply (update_one_keeps_ids inv_id).
Qed.

Lemma flip_fold_ids clock listed :
  forall c, map inv_id (fold_left (flip_step clock) listed c) = map inv_id c.
Proof.
  induction listed as [|i listed IH]; intros c; simpl; auto.
  now rewrite IH, flip_step_ids.
Qed.

(** A document of the collection is, after a turn, itself or its overdue
    version; an overdue version stays. *)
Lemma flip_step_In clock c i d :
  NoDup (map inv_id c) -> In d c ->
  In d (flip_step clock c i)
  \/ In (set_invoice_status InvoiceStatus.overdue d) (flip_step clock c i).
Proof.
  intros Hnd Hin. unfold flip_step. destruct (is_past_due clock i); auto.
  pose proof (update_one_In_unique inv_id (inv_id i)
                (set_invoice_status InvoiceStatus.overdue) c d Hnd Hin) as H.
  unfold invoice_by_id. destruct (inv_id d =? inv_id i); auto.
Qed.

Lemma flip_step_hit clock c i :
  NoDup (map inv_id c) -> In i c -> is_past_due clock i = true ->
  In (set_invoice_status InvoiceStatus.overdue i) (flip_step clock c i).
Proof.
  intros Hnd Hin Hp. unfold flip_step. rewrite Hp.
  pose proof (update_one_In_unique inv_id (inv_id i)
                (set_invoice_status InvoiceStatus.overdue) c i Hnd Hin) as H.
  now rewrite String.eqb_refl in H.
Qed.

Lemma flipped_stays clock listed (d : Invoice) :
  forall c,
    NoDup (map inv_id c) ->
    In (set_invoice_status InvoiceStatus.overdue d) c ->
    In (set_invoice_status InvoiceStatus.overdue d) (fold_left (flip_step clock) listed c).
Proof.
  induction listed as [|i listed IH]; intros c Hnd Hin; simpl; auto.
  apply IH.
  - now rewrite flip_step_ids.
  - destruct (flip_step_In clock c i _ Hnd Hin) as [H | H]; auto.
Qed.

Lemma listed_gets_flipped clock listed (inv : Invoice) :
  is_past_due clock inv = true ->
  In inv listed ->
  forall c,
    NoDup (map inv_id c) -> In inv c ->
    In (set_invoice_status InvoiceStatus.overdue inv) (fold_left (flip_step clock) listed c).
Proof.
  intros Hp. induction listed as [|i listed IH]; intros Hl c Hnd Hin; simpl; [destruct Hl|].
  destruct Hl as [-> | Hl].
  - apply flipped_stays; [now rewrite flip_step_ids | now apply flip_step_hit].
  - destruct (flip_step_In clock c i inv Hnd Hin) as [H | H].
    + apply IH; auto. now rewrite flip_step_ids.
    + apply flipped_stays; auto. now rewrite flip_step_ids.
Qed.

Lemma listed_In status client_id0 tenant_id s (inv : Invoice) :
  In inv (Server.listed_invoices status client_id0 tenant_id s) ->
  In inv (invoices s) /\ inv_tenant_id inv = tenant_id.
Proof.
  unfold Server.listed_invoices. intros H%In_to_list.
  apply In_sort_desc in H. unfold find in H. apply filter_In in H.
  destruct H as [Hin Hq]. split; auto.
  unfold Server.list_query in Hq.
  apply andb_prop in Hq. destruct Hq as [Hq _].
  apply andb_prop in Hq. destruct Hq as [Hq _].
  now apply String.eqb_eq.
Qed.

Lemma find_scoped_unique tenant_id (c : list Invoice) (d : Invoice) :
  NoDup (map inv_id c) -> In d c -> inv_tenant_id d = tenant_id ->
  find_one (invoice_q (inv_id d) tenant_id) c = Some d.
Proof.
  intros Hnd Hin Ht. apply invoice_q_of_by_id; auto.
  now apply (find_one_unique inv_id).
Qed.

Lemma insert_desc_length {D : Type} (key : D -> string) (d : D) (l : list D) :
  List.length (insert_desc key d l) = S (List.length l).
Proof.
  induction l as [|e l IH]; simpl; auto.
  destruct (String.ltb (key d) (key e)); simpl; auto.
Qed.

Lemma sort_desc_length {D : Type} (key : D -> string) (l : list D) :
  List.length (sort_desc key l) = List.length l.
Proof.
  unfold sort_desc. induction l as [|e l IH]; simpl; auto.
  now rewrite insert_desc_length, IH.
Qed.

Lemma past_due_check clock (i : Invoice) : past_due clock i <-> is_past_due clock i = true.
Proof.
  unfold past_due, is_past_due. rewrite andb_true_iff, negb_true_iff, orb_false_iff.
  destruct (inv_status i); simpl; intuition congruence.
Qed.

(** The query of [list_invoices] lets through the invoices that pass the
    filters. *)
Lemma list_query_passes status client_id0 tenant_id (i : Invoice) :
  Server.list_query status client_id0 tenant_id i
  = passes_filters status client_id0 tenant_id i.
Proof.
  unfold Server.list_query, passes_filters. f_equal; [f_equal|].
  - destruct status as [st|]; [|reflexivity].
    rewrite (String.eqb_sym st (Server.status_name (inv_status i))).
    destruct (st =? EmptyString), (st =? "all"); reflexivity.
  - destruct client_id0 as [c|]; [|reflexivity].
    simpl. destruct (c =? EmptyString); reflexivity.
Qed.

(** A request with at most 500 matches lists every invoice that passes its
    filters. *)
Lemma passing_invoice_is_listed status client_id0 tenant_id s (inv : Invoice) :
  In inv (invoices s) ->
  passes_filters status client_id0 tenant_id inv = true ->
  (List.length (filter (passes_filters status client_id0 tenant_id) (invoices s)) <= 500)%nat ->
  In inv (Server.listed_invoices status client_id0 tenant_id s).
Proof.
  intros Hin Hpass Hlen. unfold Server.listed_invoices.
  assert (Hq : find (Server.list_query status client_id0 tenant_id) (invoices s)
               = filter (passes_filters status client_id0 tenant_id) (invoices s)).
  { unfold find. apply filter_ext. intros i. apply list_query_passes. }
  rewrite Hq, firstn_whole.
  - apply In_sort_desc. apply filter_In. now split.
  - now rewrite sort_desc_length.
Qed.

(** C6, as the handlers have it, in a store whose invoices have distinct
    identifiers.  An invoice of the tenant that is neither paid nor overdue
    and whose due date is before today is stored as overdue after
    [get_invoice] on it, which reports it as overdue, and after a
    [list_invoices] request of the tenant whose filters it passes and that
    has at most 500 matches, which returns it as overdue; every invoice
    keeps its place and its identifier. *)
Theorem past_due_invoice_flips_on_read :
  forall (clock : Clock) (tenant_id : string) (s : Store) (inv : Invoice),
    NoDup (map inv_id (invoices s)) ->
    In inv (invoices s) ->
    inv_tenant_id inv = tenant_id ->
    past_due clock inv ->
    (exists s' detail,
        Server.get_invoice clock (inv_id inv) tenant_id s = (s', Ok detail)
        /\ Server.det_invoice detail = overdue_version inv
        /\ inv_status (Server.det_invoice detail) = InvoiceStatus.overdue
        /\ find_one (fun i => inv_id i =? inv_id inv) (invoices s') = Some (overdue_version inv)
        /\ map inv_id (invoices s') = map inv_id (invoices s))
    /\ (forall status client_id0,
        passes_filters status client_id0 tenant_id inv = true ->
        (List.length (filter (passes_filters status client_id0 tenant_id) (invoices s))
         <= 500)%nat ->
        exists s' out,
          Server.list_invoices clock status client_id0 tenant_id s = (s', Ok out)
          /\ In (overdue_version inv, Server.client_name_of (inv_client_id inv) s) out
          /\ find_one (fun i => inv_id i =? inv_id inv) (invoices s')
             = Some (overdue_version inv)
          /\ map inv_id (invoices s') = map inv_id (invoices s)).
Proof.
  intros clock tenant_id s inv Hnd Hin Hten Hdue.
  apply past_due_check in Hdue. rename Hdue into Hp.
  assert (Hf : find_one (invoice_q (inv_id inv) tenant_id) (invoices s) = Some inv)
    by now apply find_scoped_unique.
  split.
  - unfold Server.get_invoice, bind, get, modify, ret. rewrite Hf, Hp. simpl.
    do 2 eexists. split; [reflexivity|]. simpl. repeat split.
    + apply (find_one_unique inv_id _ (overdue_version inv)).
      * unfold invoice_by_id. now rewrite (update_one_keeps_ids inv_id).
      * pose proof (update_one_In_unique inv_id (inv_id inv)
                      (set_invoice_status InvoiceStatus.overdue) _ inv Hnd Hin) as H.
        now rewrite String.eqb_refl in H.
    + now apply (update_one_keeps_ids inv_id).
  - intros status client_id0 Hpass Hlen.
    pose proof (passing_invoice_is_listed status client_id0 tenant_id s inv Hin Hpass Hlen)
      as Hl.
    unfold Server.list_invoices, bind, get. rewrite list_invoices_loop_effect.
    do 2 eexists. split; [reflexivity|]. split; [|split].
    + apply in_map_iff. exists inv. split; auto. unfold reported. now rewrite Hp.
    + simpl. apply (find_one_unique inv_id _ (overdue_version inv)).
      * now rewrite flip_fold_ids.
      * now apply listed_gets_flipped.
    + simpl. apply flip_fold_ids.
Qed.

(** The example of the specification: due on 2025-01-01, status sent, read
    on 2025-06-01 by [get_invoice], or listed by a request for the invoices
    with status sent. *)
Lemma past_due_invoice_flips_on_read_example :
  (exists s' detail,
      Server.get_invoice clock_2025 "inv9" "acme" late_store = (s', Ok detail)
      /\ Server.det_invoice detail = overdue_version late_invoice
      /\ inv_status (Server.det_invoice detail) = InvoiceStatus.overdue
      /\ find_one (fun i => inv_id i =? "inv9") (invoices s') = Some (overdue_version late_invoice)
      /\ map inv_id (invoices s') = ["inv1"; "inv9"])
  /\ (exists s' out,
        Server.list_invoices clock_2025 (Some "sent") None "acme" late_store = (s', Ok out)
        /\ In (overdue_version late_invoice, "Acme Retail") out
        /\ find_one (fun i => inv_id i =? "inv9") (invoices s')
           = Some (overdue_version late_invoice)
        /\ map inv_id (invoices s') = ["inv1"; "inv9"]).
Proof.
  assert (Hnd : NoDup (map inv_id (invoices late_store))).
  { simpl. repeat constructor; simpl; intuition discriminate. }
  assert (Hin : In late_invoice (invoices late_store)) by (simpl; auto).
  assert (Hdue : past_due clock_2025 late_invoice).
  { unfold past_due. simpl. repeat split; discriminate. }
  destruct (past_due_invoice_flips_on_read clock_2025 "acme" late_store late_invoice
              Hnd Hin eq_refl Hdue) as [Hget Hlist].
  split; [exact Hget|].
  apply (Hlist (Some "sent") None); [reflexivity|].
  simpl. repeat constructor.
Defined.

(** C6 as stated fails for list requests.  A list request for the drafts of
    the tenant does not return the late invoice, which is sent, and leaves it
    stored as sent.  A list request without filters of a tenant with 501
    invoices returns the 500 newest; the late invoice is the oldest and is
    left stored as sent. *)
Lemma list_request_leaves_late_invoice_sent :
  (exists s' out,
      Server.list_invoices clock_2025 (Some "draft") None "acme" late_store = (s', Ok out)
      /\ map inv_id (map fst out) = ["inv1"]
      /\ find_one (fun i => inv_id i =? "inv9") (invoices s') = Some late_invoice)
  /\ (exists s' out,
        Server.list_invoices clock_2025 None None "acme" long_list_store = (s', Ok out)
        /\ List.length out = 500%nat
        /\ existsb (fun i => inv_id i =? "inv9") (map fst out) = false
        /\ find_one (fun i => inv_id i =? "inv9") (invoices s') = Some late_invoice)
  /\ inv_status late_invoice = InvoiceStatus.sent
  /\ is_past_due clock_2025 late_invoice = true.
Proof.
  split; [|split; [|split; reflexivity]].
  - do 2 eexists. split; [vm_compute; reflexivity|].
    split; vm_compute; reflexivity.
  - do 2 eexists. split; [vm_compute; reflexivity|].
    repeat split; vm_compute; reflexivity.
Qed.

(** Where two invoices carry the same identifier the flip, written by
    identifier alone, goes to the first of them: [get_invoice] of ["acme"]
    reports its late invoice as overdue, the stored invoice stays sent, and
    the paid invoice of ["globex"] stored before it becomes overdue. *)
Lemma flip_goes_to_first_invoice_with_the_id :
  exists s' detail,
    Server.get_invoice clock_2025 "inv9" "acme" twin_store = (s', Ok detail)
    /\ inv_status (Server.det_invoice detail) = InvoiceStatus.overdue
    /\ invoices s' = [set_invoice_status InvoiceStatus.overdue twin_invoice; late_invoice].
Proof.
  do 2 eexists. split; [vm_compute; reflexivity|].
  split; vm_compute; reflexivity.
Qed.

(** * Assignment and unassignment of a shipment *)

(** ** The form of the temporary barcodes *)

Lemma pick_digit (n : nat) : is_digit (pick digits n) = true.
Proof.
  unfold pick. change (String.length digits) with 10%nat.
  pose proof (Nat.mod_upper_bound n 10 ltac:(discriminate)) as H.
  destruct (n mod 10)%nat as [|[|[|[|[|[|[|[|[|[|k]]]]]]]]]]; try reflexivity; lia.
Qed.

Lemma pick_upper_hex (n : nat) : is_upper_hex (pick hexdigits_upper n) = true.
Proof.
  unfold pick. change (String.length hexdigits_upper) with 16%nat.
  pose proof (Nat.mod_upper_bound n 16 ltac:(discriminate)) as H.
  destruct (n mod 16)%nat
    as [|[|[|[|[|[|[|[|[|[|[|[|[|[|[|[|k]]]]]]]]]]]]]]]]; try reflexivity; lia.
Qed.

Lemma random_choices_length population k :
  forall rng, String.length (random_choices population k rng) = k.
Proof. induction k; intros rng; simpl; auto. Qed.

Lemma random_choices_class (p : ascii -> bool) population k :
  (forall n, p (pick population n) = true) ->
  forall rng, string_forallb p (random_choices population k rng) = true.
Proof.
  intros Hp. induction k; intros rng; simpl; auto.
  now rewrite Hp, IHk.
Qed.

Lemma substring_whole (s : string) : substring 0 (String.length s) s = s.
Proof. induction s; simpl; auto. now rewrite IHs. Qed.

Lemma prefix_empty (s : string) : String.prefix EmptyString s = true.
Proof. now destruct s. Qed.

Lemma temp_with_random (p : ascii -> bool) population k rng :
  (forall n, p (pick population n) = true) ->
  temp_with p k ("TEMP-" ++ random_choices population k rng) = true.
Proof.
  intros Hp. unfold temp_with.
  pose proof (random_choices_length population k rng) as Hlen.
  pose proof (random_choices_class p population k Hp rng) as Hcl.
  remember (random_choices population k rng) as r eqn:Hr. clear Hr.
  assert (Hsub : substring 5 k ("TEMP-" ++ r) = r).
  { simpl. rewrite <- Hlen. apply substring_whole. }
  rewrite Hsub, Hcl. simpl. now rewrite prefix_empty, Hlen, Nat.eqb_refl.
Qed.

Lemma unassigned_barcode_form rng piece_number :
  temp_form (Server.generate_barcode rng None 0 piece_number) = true.
Proof.
  unfold temp_form, Server.generate_barcode. simpl truthy. cbv iota.
  apply temp_with_random. apply pick_digit.
Qed.

Lemma removed_barcode_form rng :
  temp_hex_form ("TEMP-" ++ uuid4_hex8_upper rng) = true.
Proof.
  unfold temp_hex_form, uuid4_hex8_upper. apply temp_with_random. apply pick_upper_hex.
Qed.

(** ** The loop over the pieces *)

Lemma with_shipment_pieces_id (s : Store) : with_shipment_pieces (fun c => c) s = s.
Proof. unfold with_shipment_pieces. apply store_eta. Qed.

Lemma rebarcode_effect new_barcode draws pieces :
  forall rng s,
    TripRoutes.rebarcode new_barcode draws rng pieces s
    = (with_shipment_pieces (rebarcode_pieces new_barcode draws rng pieces) s, Ok tt).
Proof.
  induction pieces as [|piece rest IH]; intros rng s.
  - simpl. unfold ret. now rewrite with_shipment_pieces_id.
  - simpl. unfold bind, modify. now rewrite IH.
Qed.

Lemma same_piece_refl p : same_piece p p.
Proof. unfold same_piece. auto. Qed.

Lemma same_piece_trans p q r : same_piece p q -> same_piece q r -> same_piece p r.
Proof. unfold same_piece. intuition congruence. Qed.

Lemma Forall2_same_refl c : Forall2 same_piece c c.
Proof. induction c; constructor; auto using same_piece_refl. Qed.

Lemma Forall2_same_trans a :
  forall b c, Forall2 same_piece a b -> Forall2 same_piece b c -> Forall2 same_piece a c.
Proof.
  induction a as [|x a IH]; intros b c Hab Hbc; inversion Hab; subst;
    inversion Hbc; subst; constructor; eauto using same_piece_trans.
Qed.

Lemma update_barcode_same q barcode c :
  Forall2 same_piece c (update_one q (set_barcode barcode) c).
Proof.
  induction c as [|p c IH]; simpl; [constructor|].
  destruct (q p); constructor; auto using same_piece_refl, Forall2_same_refl.
  unfold same_piece. simpl. auto.
Qed.

Lemma rebarcode_same new_barcode draws pieces :
  forall rng c, Forall2 same_piece c (rebarcode_pieces new_barcode draws rng pieces c).
Proof.
  induction pieces as [|piece rest IH]; intros rng c; simpl.
  - apply Forall2_same_refl.
  - eapply Forall2_same_trans; [apply update_barcode_same | apply IH].
Qed.

Lemma same_ids a b : Forall2 same_piece a b -> map pc_id b = map pc_id a.
Proof.
  induction 1 as [|p p' a b Hp _ IH]; simpl; auto.
  destruct Hp as [Hid _]. now rewrite Hid, IH.
Qed.

Lemma same_filter sid a b :
  Forall2 same_piece a b ->
  Forall2 same_piece (find (piece_of sid) a) (find (piece_of sid) b).
Proof.
  unfold find. induction 1 as [|p p' a b Hp _ IH]; simpl; [constructor|].
  assert (E : piece_of sid p' = piece_of sid p).
  { unfold piece_of. destruct Hp as [_ [Hs _]]. now rewrite Hs. }
  rewrite E. destruct (piece_of sid p); auto.
Qed.

Lemma same_to_list n :
  forall a b, Forall2 same_piece a b -> Forall2 same_piece (to_list n a) (to_list n b).
Proof.
  unfold to_list. induction n; intros a b H; simpl; [constructor|].
  inversion H; subst; constructor; auto.
Qed.

Lemma pieces_of_same sid s s' :
  Forall2 same_piece (shipment_pieces s) (shipment_pieces s') ->
  map pc_id (TripRoutes.pieces_of sid s') = map pc_id (TripRoutes.pieces_of sid s).
Proof.
  intros H. unfold TripRoutes.pieces_of. apply same_ids.
  now apply same_to_list, same_filter.
Qed.

(** After the loop, in a collection of distinct identifiers: a piece whose
    identifier was in the list carries a barcode of the class [good], any
    other piece is as it was. *)
Lemma rebarcode_marks (good : string -> bool) new_barcode draws pieces :
  (forall r p, good (new_barcode r p) = true) ->
  forall rng c,
    NoDup (map pc_id c) ->
    forall p',
      In p' (rebarcode_pieces new_barcode draws rng pieces c) ->
      (In (pc_id p') (map pc_id pieces) -> good (pc_barcode p') = true)
      /\ (~ In (pc_id p') (map pc_id pieces) -> In p' c).
Proof.
  intros Hgood. induction pieces as [|piece rest IH]; intros rng c Hnd p' Hin; simpl in *.
  - split; [tauto | auto].
  - set (b := new_barcode rng piece) in *.
    set (c1 := update_one (piece_by_id (pc_id piece)) (set_barcode b) c) in *.
    assert (Hnd1 : NoDup (map pc_id c1)).
    { unfold c1, piece_by_id. now rewrite (update_one_keeps_ids pc_id). }
    destruct (IH (advance draws rng) c1 Hnd1 p' Hin) as [Hmarked Hkept].
    assert (Hc1 : In p' c1 ->
                  (pc_id p' = pc_id piece /\ pc_barcode p' = b)
                  \/ (pc_id p' <> pc_id piece /\ In p' c)).
    { unfold c1, piece_by_id. rewrite (update_one_unique pc_id); auto.
      intros [e [He Hine]]%in_map_iff.
      destruct (pc_id e =? pc_id piece) eqn:E; subst p'.
      - left. apply String.eqb_eq in E. simpl. auto.
      - right. apply String.eqb_neq in E. auto. }
    destruct (in_dec string_dec (pc_id p') (map pc_id rest)) as [Hr | Hr].
    + split; [auto | tauto].
    + destruct (Hc1 (Hkept Hr)) as [[Hid Hb] | [Hid Hc]].
      * split; [intros _; rewrite Hb; apply Hgood |].
        intros Hn. exfalso. apply Hn. left. now symmetry.
      * split; [intros [E | E]; [congruence | tauto] | auto].
Qed.

Lemma rebarcoded_pieces_form (good : string -> bool) new_barcode draws rng sid s :
  (forall r p, good (new_barcode r p) = true) ->
  NoDup (map pc_id (shipment_pieces s)) ->
  forall p,
    In p (TripRoutes.pieces_of sid
            (with_shipment_pieces
               (rebarcode_pieces new_barcode draws rng (TripRoutes.pieces_of sid s)) s)) ->
    good (pc_barcode p) = true.
Proof.
  intros Hgood Hnd p Hin.
  set (pieces := TripRoutes.pieces_of sid s) in *.
  set (s' := with_shipment_pieces (rebarcode_pieces new_barcode draws rng pieces) s) in *.
  assert (Hsame : Forall2 same_piece (shipment_pieces s) (shipment_pieces s')).
  { unfold s'. simpl. apply rebarcode_same. }
  assert (Hid : In (pc_id p) (map pc_id pieces)).
  { unfold pieces. rewrite <- (pieces_of_same sid s s' Hsame). now apply in_map. }
  assert (Hc : In p (shipment_pieces s')).
  { unfold TripRoutes.pieces_of in Hin. apply In_to_list in Hin.
    unfold find in Hin. now apply filter_In in Hin. }
  unfold s' in Hc. simpl in Hc.
  now apply (rebarcode_marks good new_barcode draws pieces Hgood rng _ Hnd p Hc).
Qed.

(** ** The three handlers on an unlocked trip *)

Lemma assign_effect rng tid sid tenant_id s t sh :
  find_one (trip_q tid tenant_id) (trips s) = Some t ->
  truthy (trip_locked_at t) = false ->
  find_one (shipment_q sid tenant_id) (shipments s) = Some sh ->
  exists new_barcode draws,
    let s0 := with_shipments
                (update_one (shipment_q sid tenant_id)
                   (set_shipment_trip (Some tid) ShipmentStatus.staged)) s in
    TripRoutes.assign_shipment_to_trip rng tid sid tenant_id s
    = (with_shipment_pieces
         (rebarcode_pieces new_barcode draws rng (TripRoutes.pieces_of sid s0)) s0,
       Ok "Shipment assigned to trip").
Proof.
  intros Ht Hl Hs. do 2 eexists. cbv zeta.
  unfold TripRoutes.assign_shipment_to_trip, bind, get, modify.
  rewrite Ht, Hl, (matched_count_found _ _ _ Hs). simpl.
  rewrite rebarcode_effect. reflexivity.
Qed.

Lemma unassign_effect rng tid sid tenant_id s t sh :
  find_one (trip_q tid tenant_id) (trips s) = Some t ->
  truthy (trip_locked_at t) = false ->
  find_one (TripRoutes.assigned_q sid tenant_id tid) (shipments s) = Some sh ->
  let s0 := with_shipments
              (update_one (TripRoutes.assigned_q sid tenant_id tid)
                 (set_shipment_trip None ShipmentStatus.warehouse)) s in
  TripRoutes.unassign_shipment_from_trip rng tid sid tenant_id s
  = (with_shipment_pieces
       (rebarcode_pieces
          (fun r piece => TripRoutes.generate_barcode r None 0 (pc_piece_number piece))
          6 rng (TripRoutes.pieces_of sid s0)) s0,
     Ok "Shipment removed from trip").
Proof.
  intros Ht Hl Hs. cbv zeta.
  unfold TripRoutes.unassign_shipment_from_trip, bind, get, modify.
  rewrite Ht, Hl, (matched_count_found _ _ _ Hs). simpl.
  rewrite rebarcode_effect. reflexivity.
Qed.

Lemma remove_effect rng tid sid tenant_id user s t sh :
  find_one (trip_q tid tenant_id) (trips s) = Some t ->
  truthy (trip_locked_at t) = false ->
  find_one (fun e => (shp_id e =? sid) && opt_eqb (shp_trip_id e) tid) (shipments s)
  = Some sh ->
  let s0 := with_shipments
              (update_one (fun e => shp_id e =? sid)
                 (set_shipment_trip None ShipmentStatus.warehouse)) s in
  TripRoutes.remove_parcel_from_trip rng tid sid tenant_id user s
  = (with_shipment_pieces
       (rebarcode_pieces (fun r _ => "TEMP-" ++ uuid4_hex8_upper r)
          8 rng (TripRoutes.pieces_of sid s0)) s0,
     Ok "Parcel removed from trip").
Proof.
  intros Ht Hl Hs. cbv zeta.
  unfold TripRoutes.remove_parcel_from_trip, bind, get, modify.
  rewrite Ht, Hl, Hs. simpl.
  rewrite rebarcode_effect. reflexivity.
Qed.

Lemma shipment_q_fields sid tenant_id (sh : Shipment) :
  shipment_q sid tenant_id sh = true -> shp_id sh = sid /\ shp_tenant_id sh = tenant_id.
Proof.
  unfold shipment_q, by_id_tenant. intros [H1 H2]%andb_prop.
  now apply String.eqb_eq in H1, H2.
Qed.

Lemma assigned_q_narrows sid tenant_id tid (e : Shipment) :
  TripRoutes.assigned_q sid tenant_id tid e = true -> shipment_q sid tenant_id e = true.
Proof. unfold TripRoutes.assigned_q. now intros [H _]%andb_prop. Qed.

Lemma shipment_q_narrows sid tenant_id (e : Shipment) :
  shipment_q sid tenant_id e = true -> (shp_id e =? sid) = true.
Proof. unfold shipment_q, by_id_tenant. now intros [H _]%andb_prop. Qed.

Lemma on_this_trip_narrows sid tid (e : Shipment) :
  (shp_id e =? sid) && opt_eqb (shp_trip_id e) tid = true -> (shp_id e =? sid) = true.
Proof. now intros [H _]%andb_prop. Qed.

(** C7, as the handlers have it.  In a store whose shipments and whose
    pieces have distinct identifiers, take a shipment of the tenant and an
    unlocked trip, and let no write of a barcode meet the unique index of
    the store ([barcodes_free], for each request).  Assigning the shipment to
    the trip succeeds, and unassigning it right after, by either endpoint,
    succeeds and leaves the shipment with [trip_id] null and status
    warehouse; each of the pieces the handler reads (the first 100 of the
    shipment) then carries ["TEMP-"] and six decimal digits after
    [unassign_shipment_from_trip], and ["TEMP-"] and eight upper-case
    hexadecimal digits after [remove_parcel_from_trip]. *)
Theorem assign_then_unassign :
  forall (rng1 rng2 : Rng) (tid sid tenant_id : string) (user : User) (s : Store)
         (t : Trip) (sh : Shipment),
    NoDup (map shp_id (shipments s)) ->
    NoDup (map pc_id (shipment_pieces s)) ->
    find_one (trip_q tid tenant_id) (trips s) = Some t ->
    truthy (trip_locked_at t) = false ->
    find_one (shipment_q sid tenant_id) (shipments s) = Some sh ->
    let s1 := fst (TripRoutes.assign_shipment_to_trip rng1 tid sid tenant_id s) in
    barcodes_free (shipment_pieces s) (TripRoutes.pieces_of sid s1) = true ->
    TripRoutes.assign_shipment_to_trip rng1 tid sid tenant_id s
    = (s1, Ok "Shipment assigned to trip")
    /\ (let s2 := fst (TripRoutes.unassign_shipment_from_trip rng2 tid sid tenant_id s1) in
        barcodes_free (shipment_pieces s1) (TripRoutes.pieces_of sid s2) = true ->
        TripRoutes.unassign_shipment_from_trip rng2 tid sid tenant_id s1
        = (s2, Ok "Shipment removed from trip")
        /\ find_one (shipment_q sid tenant_id) (shipments s2)
           = Some (set_shipment_trip None ShipmentStatus.warehouse sh)
        /\ forall p, In p (TripRoutes.pieces_of sid s2) -> temp_form (pc_barcode p) = true)
    /\ (let s2 := fst (TripRoutes.remove_parcel_from_trip rng2 tid sid tenant_id user s1) in
        barcodes_free (shipment_pieces s1) (TripRoutes.pieces_of sid s2) = true ->
        TripRoutes.remove_parcel_from_trip rng2 tid sid tenant_id user s1
        = (s2, Ok "Parcel removed from trip")
        /\ find_one (shipment_q sid tenant_id) (shipments s2)
           = Some (set_shipment_trip None ShipmentStatus.warehouse sh)
        /\ forall p, In p (TripRoutes.pieces_of sid s2) -> temp_hex_form (pc_barcode p) = true).
Proof.
  intros rng1 rng2 tid sid tenant_id user s t sh Hnds Hndp Ht Hl Hs.
  destruct (assign_effect rng1 tid sid tenant_id s t sh Ht Hl Hs) as [nb [draws Ha]].
  cbv zeta in Ha. rewrite Ha. clear Ha. cbv zeta. cbn [fst].
  set (A := set_shipment_trip (Some tid) ShipmentStatus.staged).
  set (U := set_shipment_trip None ShipmentStatus.warehouse).
  set (s0 := with_shipments (update_one (shipment_q sid tenant_id) A) s).
  set (s1 := with_shipment_pieces (rebarcode_pieces nb draws rng1 (TripRoutes.pieces_of sid s0)) s0).
  intros _.
  destruct (find_one_In _ _ _ Hs) as [_ Hq].
  destruct (shipment_q_fields _ _ _ Hq) as [Hid Hten].
  assert (HqA : shipment_q sid tenant_id (A sh) = true) by exact Hq.
  assert (F1 : find_one (shipment_q sid tenant_id) (shipments s1) = Some (A sh)).
  { unfold s1, s0. simpl. now apply find_one_update_one. }
  assert (Ht1 : find_one (trip_q tid tenant_id) (trips s1) = Some t) by exact Ht.
  assert (Hndp1 : NoDup (map pc_id (shipment_pieces s1))).
  { unfold s1. simpl. now rewrite (same_ids _ _ (rebarcode_same nb draws _ rng1 _)). }
  assert (Hnds1 : NoDup (map shp_id (shipments s1))).
  { unfold s1, s0. simpl. now rewrite (update_one_keeps_ids shp_id). }
  split; [reflexivity|]. split.
  - assert (HaA : TripRoutes.assigned_q sid tenant_id tid (A sh) = true).
    { unfold TripRoutes.assigned_q. rewrite HqA. simpl. apply String.eqb_refl. }
    assert (F2 : find_one (TripRoutes.assigned_q sid tenant_id tid) (shipments s1)
                 = Some (A sh)).
    { exact (find_one_scoped (shipment_q sid tenant_id) _ _ _
               (assigned_q_narrows sid tenant_id tid) F1 HaA). }
    rewrite (unassign_effect rng2 tid sid tenant_id s1 t (A sh) Ht1 Hl F2).
    cbn [fst]. intros _. split; [reflexivity|]. split.
    + change (find_one (shipment_q sid tenant_id)
                (update_one (TripRoutes.assigned_q sid tenant_id tid) U (shipments s1))
              = Some (U (A sh))).
      rewrite (update_one_scoped (shipment_q sid tenant_id)
                 (TripRoutes.assigned_q sid tenant_id tid) U _ (A sh)
                 (assigned_q_narrows sid tenant_id tid) F1 HaA).
      now apply (find_one_update_one (shipment_q sid tenant_id) U _ (A sh)).
    + apply rebarcoded_pieces_form; auto.
      intros r p. apply unassigned_barcode_form.
  - set (B := fun e : Shipment => shp_id e =? sid).
    set (R := fun e : Shipment => (shp_id e =? sid) && opt_eqb (shp_trip_id e) tid).
    assert (G2 : find_one B (shipments s1) = Some (A sh)).
    { destruct (find_one_In _ _ _ F1) as [Hin _].
      pose proof (find_one_unique shp_id _ _ Hnds1 Hin) as H.
      simpl in H. unfold B. now rewrite <- Hid. }
    assert (HR : R (A sh) = true).
    { unfold R. simpl. now rewrite Hid, !String.eqb_refl. }
    assert (G3 : find_one R (shipments s1) = Some (A sh)).
    { exact (find_one_scoped B R _ _ (fun e => on_this_trip_narrows sid tid e) G2 HR). }
    rewrite (remove_effect rng2 tid sid tenant_id user s1 t (A sh) Ht1 Hl G3).
    cbn [fst]. intros _. split; [reflexivity|]. split.
    + change (find_one (shipment_q sid tenant_id) (update_one B U (shipments s1))
              = Some (U (A sh))).
      assert (HB : B (U (A sh)) = true).
      { unfold B. simpl. now rewrite Hid, String.eqb_refl. }
      exact (find_one_scoped B (shipment_q sid tenant_id) _ _
               (shipment_q_narrows sid tenant_id)
               (find_one_update_one B U _ (A sh) G2 HB) HqA).
    + apply rebarcoded_pieces_form; auto.
      intros r p. apply removed_barcode_form.
Qed.

(** The parcel of the example store goes on the open trip and off again:
    its two pieces get the barcodes of the trip, then two different
    temporary barcodes. *)
Lemma assign_then_unassign_example :
  exists s1,
    TripRoutes.assign_shipment_to_trip (counting_rng 0) "t1" "s1" "acme" open_store
    = (s1, Ok "Shipment assigned to trip")
    /\ map pc_barcode (TripRoutes.pieces_of "s1" s1) = ["S12-001-01"; "S12-001-02"]
    /\ (exists s2,
          TripRoutes.unassign_shipment_from_trip (counting_rng 3) "t1" "s1" "acme" s1
          = (s2, Ok "Shipment removed from trip")
          /\ find_one (shipment_q "s1" "acme") (shipments s2)
             = Some (set_shipment_trip None ShipmentStatus.warehouse parcel_1)
          /\ forall p, In p (TripRoutes.pieces_of "s1" s2) ->
                       temp_form (pc_barcode p) = true)
    /\ (exists s2,
          TripRoutes.remove_parcel_from_trip (counting_rng 3) "t1" "s1" "acme" manager_user s1
          = (s2, Ok "Parcel removed from trip")
          /\ find_one (shipment_q "s1" "acme") (shipments s2)
             = Some (set_shipment_trip None ShipmentStatus.warehouse parcel_1)
          /\ forall p, In p (TripRoutes.pieces_of "s1" s2) ->
                       temp_hex_form (pc_barcode p) = true).
Proof.
  assert (Hs : NoDup (map shp_id (shipments open_store))).
  { simpl. repeat constructor; simpl; intuition discriminate. }
  assert (Hp : NoDup (map pc_id (shipment_pieces open_store))).
  { simpl. repeat constructor; simpl; intuition discriminate. }
  destruct (assign_then_unassign (counting_rng 0) (counting_rng 3) "t1" "s1" "acme"
              manager_user open_store open_trip parcel_1 Hs Hp eq_refl eq_refl eq_refl
              eq_refl) as [Hassign [Hunassign Hremove]].
  eexists. split; [exact Hassign|]. split; [reflexivity|]. split.
  - eexists. exact (Hunassign eq_refl).
  - eexists. exact (Hremove eq_refl).
Defined.

(** C7 as stated fails for the parcel removal: after assignment and removal
    the two pieces of the parcel carry ["TEMP-"] and eight hexadecimal
    digits, which is not the six-digit form. *)
Lemma removal_barcodes_are_not_six_digits :
  exists s1 s2,
    TripRoutes.assign_shipment_to_trip (counting_rng 0) "t1" "s1" "acme" open_store
    = (s1, Ok "Shipment assigned to trip")
    /\ TripRoutes.remove_parcel_from_trip (counting_rng 10) "t1" "s1" "acme" manager_user s1
       = (s2, Ok "Parcel removed from trip")
    /\ find_one (shipment_q "s1" "acme") (shipments s2) = Some parcel_1
    /\ map pc_barcode (TripRoutes.pieces_of "s1" s2) = ["TEMP-ABCDEF01"; "TEMP-23456789"]
    /\ map temp_form (map pc_barcode (TripRoutes.pieces_of "s1" s2)) = [false; false].
Proof.
  do 2 eexists. split; [vm_compute; reflexivity|].
  split; [vm_compute; reflexivity|].
  repeat split; vm_compute; reflexivity.
Qed.

(** Where the draws repeat, the two pieces of the parcel would get the same
    temporary barcode: the condition on the barcodes fails, and the store
    refuses the second write. *)
Lemma equal_draws_give_equal_barcodes :
  exists s1 s2,
    TripRoutes.assign_shipment_to_trip (counting_rng 0) "t1" "s1" "acme" open_store
    = (s1, Ok "Shipment assigned to trip")
    /\ TripRoutes.unassign_shipment_from_trip (constant_rng 0) "t1" "s1" "acme" s1
       = (s2, Ok "Shipment removed from trip")
    /\ map pc_barcode (TripRoutes.pieces_of "s1" s2) = ["TEMP-000000"; "TEMP-000000"]
    /\ barcodes_free (shipment_pieces s1) (TripRoutes.pieces_of "s1" s2) = false.
Proof.
  do 2 eexists. split; [vm_compute; reflexivity|].
  split; [vm_compute; reflexivity|].
  split; vm_compute; reflexivity.
Qed.
(** * The unique index on barcodes *)

(** Under [barcodes_free] the loop of the handlers and the loop on a
    collection that keeps the index do the same: no write is refused. *)

Lemma distinct_NoDup (l : list string) : distinct l = true -> NoDup l.
Proof.
  induction l as [|x l IH]; simpl; intros H; constructor.
  - apply andb_prop in H. destruct H as [H _]. apply negb_true_iff in H.
    intros Hin. assert (E : existsb (String.eqb x) l = true).
    { apply existsb_exists. exists x. split; [exact Hin | apply String.eqb_refl]. }
    congruence.
  - apply IH. now apply andb_prop in H.
Qed.

Lemma barcode_writes_ids nb draws pieces :
  forall rng, map fst (barcode_writes nb draws rng pieces) = map pc_id pieces.
Proof. induction pieces as [|p rest IH]; intros rng; simpl; [|rewrite IH]; reflexivity. Qed.

Lemma written_miss (w : list (string * string)) (e : ShipmentPiece) :
  ~ In (pc_id e) (map fst w) -> written w e = e.
Proof.
  intros Hn. unfold written.
  destruct (List.find (fun x => fst x =? pc_id e) w) as [x|] eqn:Hf; [|reflexivity].
  apply find_some in Hf. destruct Hf as [Hin Hx]. apply String.eqb_eq in Hx.
  exfalso. apply Hn. rewrite <- Hx. now apply in_map.
Qed.

Lemma written_cons pid b (w : list (string * string)) (e : ShipmentPiece) :
  written ((pid, b) :: w) e = if pc_id e =? pid then set_barcode b e else written w e.
Proof.
  unfold written. simpl. rewrite (String.eqb_sym pid (pc_id e)).
  now destruct (pc_id e =? pid).
Qed.

(** The collection after the loop: every piece after the writes. *)
Lemma rebarcode_pieces_written nb draws pieces :
  forall rng c,
    NoDup (map pc_id c) -> NoDup (map pc_id pieces) ->
    rebarcode_pieces nb draws rng pieces c
    = map (written (barcode_writes nb draws rng pieces)) c.
Proof.
  induction pieces as [|p rest IH]; intros rng c Hc Hp; simpl.
  - rewrite <- (map_id c) at 1. apply map_ext. intros e. reflexivity.
  - inversion Hp as [|? ? Hfresh Hrest]; subst.
    rewrite IH; auto.
    + unfold piece_by_id. rewrite (update_one_unique pc_id); auto. rewrite map_map.
      apply map_ext. intros e. rewrite written_cons.
      destruct (pc_id e =? pc_id p) eqn:E; [|reflexivity].
      apply written_miss. rewrite barcode_writes_ids. simpl.
      apply String.eqb_eq in E. now rewrite E.
    + unfold piece_by_id. now rewrite (update_one_keeps_ids pc_id).
Qed.

Lemma written_same (w : list (string * string)) (e : ShipmentPiece) :
  pc_id (written w e) = pc_id e /\ pc_shipment_id (written w e) = pc_shipment_id e.
Proof. unfold written. now destruct (List.find _ w). Qed.

Lemma filter_written sid (w : list (string * string)) (c : list ShipmentPiece) :
  find (piece_of sid) (map (written w) c) = map (written w) (find (piece_of sid) c).
Proof.
  unfold find. induction c as [|e c IH]; simpl; auto.
  assert (E : piece_of sid (written w e) = piece_of sid e).
  { unfold piece_of. now rewrite (proj2 (written_same w e)). }
  rewrite E. destruct (piece_of sid e); simpl; now rewrite IH.
Qed.

Lemma written_pieces nb draws pieces :
  forall rng,
    NoDup (map pc_id pieces) ->
    map (fun a => (pc_id a, pc_barcode a))
        (map (written (barcode_writes nb draws rng pieces)) pieces)
    = barcode_writes nb draws rng pieces.
Proof.
  induction pieces as [|p rest IH]; intros rng Hp; simpl; auto.
  inversion Hp as [|? ? Hfresh Hrest]; subst.
  rewrite written_cons, String.eqb_refl. simpl. f_equal.
  rewrite <- (IH (advance draws rng) Hrest) at 2.
  rewrite !map_map. apply map_ext_in. intros e He. rewrite written_cons.
  destruct (pc_id e =? pc_id p) eqn:E; [|reflexivity].
  apply String.eqb_eq in E. exfalso. apply Hfresh. rewrite <- E. now apply in_map.
Qed.

Lemma NoDup_filter_ids (q : ShipmentPiece -> bool) (c : list ShipmentPiece) :
  NoDup (map pc_id c) -> NoDup (map pc_id (filter q c)).
Proof.
  induction c as [|e c IH]; simpl; intros H; [constructor|].
  inversion H as [|? ? Hn Hc]; subst. destruct (q e); simpl; auto.
  constructor; auto. intros Hin. apply Hn.
  apply in_map_iff in Hin. destruct Hin as [x [Hx Hf]]. apply filter_In in Hf.
  rewrite <- Hx. apply in_map. tauto.
Qed.

Lemma NoDup_firstn_ids (n : nat) (c : list ShipmentPiece) :
  NoDup (map pc_id c) -> NoDup (map pc_id (firstn n c)).
Proof.
  revert c. induction n as [|n IH]; intros c H; simpl; [constructor|].
  destruct c as [|e c]; simpl; [constructor|].
  inversion H as [|? ? Hn Hc]; subst. constructor; auto.
  intros Hin. apply Hn. apply in_map_iff in Hin. destruct Hin as [x [Hx Hf]].
  rewrite <- Hx. apply in_map. now apply (In_to_list n).
Qed.

(** The loop on a collection that keeps the index, when the barcodes
    written are pairwise different and none of them is on another piece of
    the collection. *)
Lemma indexed_loop_passes nb draws pieces :
  forall rng c,
    NoDup (map pc_id c) ->
    NoDup (map snd (barcode_writes nb draws rng pieces)) ->
    (forall pid b q, In (pid, b) (barcode_writes nb draws rng pieces) ->
                     In q c -> pc_barcode q = b -> pc_id q = pid) ->
    rebarcode_indexed nb draws rng pieces c = Some (rebarcode_pieces nb draws rng pieces c).
Proof.
  induction pieces as [|p rest IH]; intros rng c Hc Hnd Hfree; simpl; auto.
  simpl in Hnd. inversion Hnd as [|? ? Hb Hrest]; subst.
  assert (Hpass : barcode_taken (pc_id p) (nb rng p) c = false).
  { unfold barcode_taken. destruct (existsb _ c) eqn:E; [|reflexivity].
    apply existsb_exists in E. destruct E as [q [Hq Hx]].
    apply andb_prop in Hx. destruct Hx as [H1 H2].
    apply String.eqb_eq in H1. apply negb_true_iff, String.eqb_neq in H2.
    exfalso. apply H2. apply (Hfree (pc_id p) (nb rng p) q); simpl; auto. }
  rewrite Hpass. apply IH.
  - unfold piece_by_id. now rewrite (update_one_keeps_ids pc_id).
  - exact Hrest.
  - intros pid b q Hw Hq Hbq.
    unfold piece_by_id in Hq. rewrite (update_one_unique pc_id) in Hq; auto.
    apply in_map_iff in Hq. destruct Hq as [e [He Hin]].
    destruct (pc_id e =? pc_id p) eqn:E; subst q.
    + simpl in Hbq. exfalso. apply Hb. rewrite Hbq.
      change b with (snd (pid, b)). now apply in_map.
    + apply (Hfree pid b e); simpl; auto.
Qed.

(** The condition of the statements is enough: when the pieces of the
    shipment, as the loop leaves them, carry pairwise different barcodes
    that were on no other piece, the loop on a collection that keeps the
    index refuses no write and ends on the same collection. *)
Lemma free_barcodes_pass_the_index nb draws rng sid (c : list ShipmentPiece) :
  NoDup (map pc_id c) ->
  let pieces := to_list 100 (find (piece_of sid) c) in
  let c' := rebarcode_pieces nb draws rng pieces c in
  barcodes_free c (to_list 100 (find (piece_of sid) c')) = true ->
  rebarcode_indexed nb draws rng pieces c = Some c'.
Proof.
  intros Hc pieces c' Hfree.
  assert (Hp : NoDup (map pc_id pieces)).
  { unfold pieces, to_list, find. now apply NoDup_firstn_ids, NoDup_filter_ids. }
  set (w := barcode_writes nb draws rng pieces).
  assert (Hafter : to_list 100 (find (piece_of sid) c') = map (written w) pieces).
  { unfold c'. rewrite (rebarcode_pieces_written nb draws pieces rng c Hc Hp).
    fold w. rewrite filter_written. unfold to_list, pieces, to_list.
    apply firstn_map. }
  assert (Hw : map (fun a => (pc_id a, pc_barcode a)) (map (written w) pieces) = w)
    by now apply written_pieces.
  rewrite Hafter in Hfree. unfold barcodes_free in Hfree.
  apply andb_prop in Hfree. destruct Hfree as [Hd Hall].
  apply indexed_loop_passes; auto; fold w.
  - apply distinct_NoDup in Hd.
    replace (map snd w) with (map pc_barcode (map (written w) pieces)); [exact Hd|].
    rewrite <- Hw at 2. now rewrite !map_map.
  - intros pid b q Hin Hq Hb. rewrite <- Hw in Hin.
    apply in_map_iff in Hin. destruct Hin as [a [Ha Hina]].
    injection Ha as Hida Hba.
    rewrite forallb_forall in Hall. specialize (Hall a Hina).
    rewrite forallb_forall in Hall. specialize (Hall q Hq).
    rewrite Hb, Hba, String.eqb_refl in Hall. simpl in Hall.
    rewrite <- Hida. now apply String.eqb_eq.
Qed.

(** * Invoice generation *)

Lemma count_insert_one (q : Invoice -> bool) (d : Invoice) (c : list Invoice) :
  count_documents q (insert_one d c) = (count_documents q c + (if q d then 1 else 0))%nat.
Proof.
  unfold count_documents, insert_one. rewrite filter_app, length_app. simpl.
  now destruct (q d).
Qed.

Lemma find_one_app_l {D : Type} (q : D -> bool) (c more : list D) (d : D) :
  find_one q c = Some d -> find_one q (c ++ more)%list = Some d.
Proof.
  unfold find_one. induction c as [|e c IH]; simpl; [discriminate|].
  destruct (q e); auto.
Qed.

Lemma find_one_insert_hit {D : Type} (q : D -> bool) (c : list D) (d : D) :
  q d = true -> exists e, find_one q (insert_one d c) = Some e.
Proof.
  intros Hq. unfold find_one, insert_one. induction c as [|e c IH]; simpl.
  - rewrite Hq. eauto.
  - destruct (q e); eauto.
Qed.

Lemma all_in_self (ids : list string) : ids <> [] -> TripRoutes.all_in ids (Some ids) = true.
Proof.
  intros Hne. unfold TripRoutes.all_in. destruct ids as [|x ids]; [congruence|].
  apply forallb_forall. intros y Hy. apply existsb_exists. exists y.
  split; [exact Hy | apply String.eqb_refl].
Qed.

(** The document the loop inserts for a group has the tenant, the client and
    the shipment identifiers of the group, and the next number. *)
Lemma new_invoice_fields clock new_id tid tenant_id user cid ships s :
  let doc := fst (TripRoutes.new_invoice clock new_id tid tenant_id user cid ships s) in
  let created := snd (TripRoutes.new_invoice clock new_id tid tenant_id user cid ships s) in
  inv_tenant_id doc = tenant_id
  /\ inv_client_id doc = cid
  /\ inv_shipment_ids doc = Some (map shp_id ships)
  /\ TripRoutes.ci_invoice_number created
     = TripRoutes.invoice_number_of (year clock) (tenant_count tenant_id (invoices s)).
Proof. cbv zeta. unfold TripRoutes.new_invoice. simpl. auto. Qed.

Lemma new_invoice_matches clock new_id tid tenant_id user cid ships s :
  ships <> [] ->
  TripRoutes.existing_q tenant_id cid (map shp_id ships)
    (fst (TripRoutes.new_invoice clock new_id tid tenant_id user cid ships s)) = true.
Proof.
  intros Hne.
  destruct (new_invoice_fields clock new_id tid tenant_id user cid ships s)
    as [Ht [Hc [Hi _]]].
  unfold TripRoutes.existing_q. rewrite Ht, Hc, Hi, !String.eqb_refl. simpl.
  apply all_in_self. destruct ships; [congruence | discriminate].
Qed.

(** ** The loop over the client groups *)

(** What a run of the loop does: it appends documents of the tenant to the
    invoices, one for each summary it reports; the numbers it reports count
    on from the tenant's invoice count; afterwards every group it saw has a
    matching invoice. *)
Lemma generate_loop_effect clock uuid4 tid tenant_id user groups :
  forall acc s,
    Forall (fun g => snd g <> []) groups ->
    exists added new,
      TripRoutes.generate_loop clock uuid4 tid tenant_id user groups acc s
      = (with_invoices (fun c => (c ++ added)%list) s, Ok (acc ++ new)%list)
      /\ tenant_count tenant_id (invoices s ++ added)%list
         = (tenant_count tenant_id (invoices s) + List.length new)%nat
      /\ map TripRoutes.ci_invoice_number new
         = map (fun k => TripRoutes.invoice_number_of (year clock)
                           (tenant_count tenant_id (invoices s) + k))
               (seq 0 (List.length new))
      /\ (forall cid ships,
             In (cid, ships) groups ->
             exists i, find_one (TripRoutes.existing_q tenant_id cid (map shp_id ships))
                                (invoices s ++ added)%list = Some i).
Proof.
  induction groups as [|[cid ships] rest IH]; intros acc s Hne.
  - exists [], []. simpl. unfold ret. rewrite !app_nil_r.
    assert (E : with_invoices (fun c => (c ++ [])%list) s = s).
    { unfold with_invoices. rewrite app_nil_r. apply store_eta. }
    rewrite E. repeat split; auto. intros cid ships [].
  - inversion Hne as [|g gs Hships Hrest]; subst. simpl in Hships.
    cbn [TripRoutes.generate_loop]. unfold bind at 1. unfold get at 1.
    destruct (find_one (TripRoutes.existing_q tenant_id cid (map shp_id ships)) (invoices s))
      as [existing|] eqn:Hex.
    + destruct (IH acc s Hrest) as [added [new [Hrun [Hcount [Hnum Hgroups]]]]].
      exists added, new. rewrite Hrun. repeat split; auto.
      intros cid' ships' [E | Hin]; [|now apply Hgroups].
      inversion E; subst. exists existing. now apply find_one_app_l.
    + destruct (TripRoutes.new_invoice clock (uuid4 (List.length acc)) tid tenant_id user
                  cid ships s) as [doc created] eqn:Hdoc.
      pose proof (new_invoice_fields clock (uuid4 (List.length acc)) tid tenant_id user
                    cid ships s) as Hfields.
      pose proof (new_invoice_matches clock (uuid4 (List.length acc)) tid tenant_id user
                    cid ships s Hships) as Hmatch.
      rewrite Hdoc in Hfields, Hmatch. cbv zeta in Hfields. simpl in Hfields, Hmatch.
      destruct Hfields as [Hten [_ [_ Hnumber]]].
      unfold bind, modify.
      destruct (IH (acc ++ [created])%list (with_invoices (insert_one doc) s) Hrest)
        as [added [new [Hrun [Hcount [Hnum Hgroups]]]]].
      rewrite Hrun. simpl invoices in *. unfold insert_one in *.
      assert (Hone : tenant_count tenant_id (invoices s ++ [doc])%list
                     = S (tenant_count tenant_id (invoices s))).
      { unfold tenant_count. change (invoices s ++ [doc])%list with (insert_one doc (invoices s)).
        rewrite count_insert_one, Hten, String.eqb_refl. lia. }
      exists (doc :: added), (created :: new). repeat split.
      * f_equal; [|now rewrite <- app_assoc].
        unfold with_invoices. simpl. f_equal. now rewrite <- app_assoc.
      * change (doc :: added) with ([doc] ++ added)%list. rewrite app_assoc.
        rewrite Hcount, Hone. simpl. lia.
      * simpl. rewrite Nat.add_0_r. f_equal; [exact Hnumber|].
        rewrite Hnum, Hone, <- seq_shift, map_map.
        apply map_ext. intros k. f_equal. lia.
      * intros cid' ships' [E | Hin].
        -- inversion E; subst.
           destruct (find_one_insert_hit _ (invoices s) doc Hmatch) as [e He].
           exists e. change (doc :: added) with ([doc] ++ added)%list. rewrite app_assoc.
           now apply find_one_app_l.
        -- change (doc :: added) with ([doc] ++ added)%list. rewrite app_assoc.
           now apply Hgroups.
Qed.

(** A run over groups that all have a matching invoice creates nothing. *)
Lemma generate_loop_idle clock uuid4 tid tenant_id user groups :
  forall acc s,
    (forall cid ships,
        In (cid, ships) groups ->
        exists i, find_one (TripRoutes.existing_q tenant_id cid (map shp_id ships))
                           (invoices s) = Some i) ->
    TripRoutes.generate_loop clock uuid4 tid tenant_id user groups acc s = (s, Ok acc).
Proof.
  induction groups as [|[cid ships] rest IH]; intros acc s Hall; simpl; auto.
  unfold bind, get.
  destruct (Hall cid ships (or_introl eq_refl)) as [i Hi]. rewrite Hi.
  apply IH. intros cid' ships' Hin. apply Hall. now right.
Qed.

Lemma add_parcel_nonempty cid parcel groups :
  Forall (fun g : string * list Shipment => snd g <> []) groups ->
  Forall (fun g : string * list Shipment => snd g <> []) (TripRoutes.add_parcel cid parcel groups).
Proof.
  induction 1 as [|[k ps] rest Hg Hrest IH]; simpl.
  - repeat constructor. discriminate.
  - destruct (k =? cid); constructor; auto. simpl. now destruct ps.
Qed.

Lemma group_by_client_nonempty parcels :
  Forall (fun g : string * list Shipment => snd g <> []) (TripRoutes.group_by_client parcels).
Proof.
  unfold TripRoutes.group_by_client.
  assert (H : forall groups,
             Forall (fun g : string * list Shipment => snd g <> []) groups ->
             Forall (fun g : string * list Shipment => snd g <> [])
               (fold_left
                  (fun client_parcels parcel =>
                     if truthy (shp_client_id parcel) then
                       match shp_client_id parcel with
                       | Some cid => TripRoutes.add_parcel cid parcel client_parcels
                       | None => client_parcels
                       end
                     else client_parcels) parcels groups)).
  { induction parcels as [|p parcels IH]; intros groups Hg; simpl; auto.
    apply IH. destruct (truthy (shp_client_id p)); auto.
    destruct (shp_client_id p); auto using add_parcel_nonempty. }
  apply H. constructor.
Qed.

Lemma generate_effect clock uuid4 tid tenant_id user s t :
  find_one (trip_q tid tenant_id) (trips s) = Some t ->
  exists added out,
    TripRoutes.generate_trip_invoices clock uuid4 tid tenant_id user s
    = (with_invoices (fun c => (c ++ added)%list) s, Ok out)
    /\ map TripRoutes.ci_invoice_number out
       = map (fun k => TripRoutes.invoice_number_of (year clock)
                         (tenant_count tenant_id (invoices s) + k))
             (seq 0 (List.length out))
    /\ (forall cid ships,
           In (cid, ships) (groups_of tid tenant_id s) ->
           exists i, find_one (TripRoutes.existing_q tenant_id cid (map shp_id ships))
                              (invoices s ++ added)%list = Some i).
Proof.
  intros Ht. unfold TripRoutes.generate_trip_invoices, bind, get. rewrite Ht.
  destruct (generate_loop_effect clock uuid4 tid tenant_id user
              (groups_of tid tenant_id s) [] s (group_by_client_nonempty _))
    as [added [new [Hrun [_ [Hnum Hgroups]]]]].
  exists added, new. unfold groups_of in Hrun. rewrite Hrun. auto.
Qed.

(** * The handlers on the examples of the specification *)

(** Trip S12: one invoice per client, numbered in order, with the totals of
    the specification (1437.5 and 460). *)
Example generate_for_s12 :
  let '(s', out) :=
    TripRoutes.generate_trip_invoices clock_2025 uuid_supply "t1" "acme" owner_user s12_store in
  match out with
  | Ok created =>
      map TripRoutes.ci_invoice_number created = ["INV-2025-0001"; "INV-2025-0002"]
      /\ map TripRoutes.ci_client_name created = ["Acme Retail"; "Beta Traders"]
      /\ map (fun c => Qeq_bool (TripRoutes.ci_total c) (14375 # 10)
                       || Qeq_bool (TripRoutes.ci_total c) 460) created = [true; true]
      /\ map (fun i => (inv_shipment_ids i, Qred (inv_subtotal i), option_map Qred (inv_vat i),
                        Qred (inv_total i))) (invoices s')
         = [(Some ["a"; "c"], 1250%Q, Some (375 # 2)%Q, (2875 # 2)%Q);
            (Some ["b"], 400%Q, Some 60%Q, 460%Q)]
  | HTTPException _ _ => False
  end.
Proof. vm_compute. repeat split. Qed.

(** The number generator of the server looks at the numbers of the current
    year only: with one invoice of 2024 the first number of 2025 is 001. *)
Example server_number_restarts_each_year :
  Server.generate_invoice_number 2025 "acme" second_year_store
  = (second_year_store, Ok "INV-2025-001")
  /\ Server.generate_invoice_number 2024 "acme" second_year_store
     = (second_year_store, Ok "INV-2024-002").
Proof. split; reflexivity. Qed.

(** The barcode of a piece on a trip, and of a piece in the warehouse. *)
Example barcode_forms :
  Server.generate_barcode (counting_rng 0) (Some "S12") 3 7 = "S12-003-07"
  /\ Server.generate_barcode (counting_rng 4) None 0 7 = "TEMP-456789".
Proof. split; reflexivity. Qed.

(** Deleting the full payment of the settled example invoice, which was due
    on 2025-05-15, on 2025-06-01: the invoice becomes overdue. *)
Example delete_reopens_as_overdue :
  let s' := fst (Server.delete_payment clock_2025 "pay-full" "acme" owner_user settled_store) in
  option_map (fun i => (inv_status i, inv_paid_at i))
             (find_one (invoice_by_id "inv1") (invoices s'))
  = Some (InvoiceStatus.overdue, None).
Proof. reflexivity. Qed.

(** * Locks last *)

Lemma find_one_update_one_other {D : Type} (q q2 : D -> bool) (upd : D -> D)
  (c : list D) (d : D) :
  (forall e, q (upd e) = q e) ->
  find_one q c = Some d ->
  find_one q (update_one q2 upd c) = Some d
  \/ find_one q (update_one q2 upd c) = Some (upd d).
Proof.
  intros Hq. unfold find_one. induction c as [|e c IH]; simpl; [discriminate|].
  destruct (q e) eqn:E; intros H.
  - inversion H; subst. destruct (q2 d); simpl.
    + rewrite Hq, E. now right.
    + rewrite E. now left.
  - destruct (q2 e); simpl.
    + rewrite Hq, E. now left.
    + rewrite E. auto.
Qed.

Lemma keeps_locks_refl c : keeps_locks c c.
Proof. intros tid tenant_id t Hf Hl. eauto. Qed.

Lemma keeps_locks_trans a b c : keeps_locks a b -> keeps_locks b c -> keeps_locks a c.
Proof.
  intros Hab Hbc tid tenant_id t Hf Hl.
  destruct (Hab tid tenant_id t Hf Hl) as [t' [Hf' Hl']]. eauto.
Qed.

Lemma keeps_locks_insert c (t0 : Trip) : keeps_locks c (insert_one t0 c).
Proof.
  intros tid tenant_id t Hf Hl. exists t. split; auto.
  unfold insert_one. now apply find_one_app_l.
Qed.

Lemma keeps_locks_update (q2 : Trip -> bool) (upd : Trip -> Trip) c :
  (forall e, trip_id (upd e) = trip_id e /\ trip_tenant_id (upd e) = trip_tenant_id e) ->
  (forall e, locked e = true -> locked (upd e) = true) ->
  keeps_locks c (update_one q2 upd c).
Proof.
  intros Hid Hlock tid tenant_id t Hf Hl.
  destruct (find_one_update_one_other (trip_q tid tenant_id) q2 upd c t) as [H | H]; auto.
  - intros e. unfold trip_q, by_id_tenant. destruct (Hid e) as [-> ->]. reflexivity.
  - eauto.
  - eauto.
Qed.

Lemma locked_stamp (now : string) : now <> EmptyString -> truthy (Some now) = true.
Proof. intros H. simpl. apply negb_true_iff. now apply String.eqb_neq. Qed.

(** The trips after an update request: untouched, or the addressed one
    rewritten with the request fields and the stamps. *)
Lemma update_trip_trips clock tid u tenant_id user s :
  trips (fst (TripRoutes.update_trip clock tid u tenant_id user s)) = trips s
  \/ exists locked_at departure arrival,
       (locked_at = None \/ locked_at = Some (now_iso clock))
       /\ trips (fst (TripRoutes.update_trip clock tid u tenant_id user s))
          = update_one (trip_q tid tenant_id)
              (Server.apply_trip_update u locked_at departure arrival) (trips s).
Proof.
  unfold TripRoutes.update_trip, bind, get.
  destruct (find_one (trip_q tid tenant_id) (trips s)) as [t|]; [|now left].
  destruct (truthy (trip_locked_at t) && negb (is_owner user)); [now left|].
  destruct (Server.trip_number_taken tid tenant_id u t s); [now left|].
  destruct (Server.trip_update_nonempty u); simpl; [|now left].
  right. do 3 eexists. split; [|reflexivity]. apply stamp_cases.
Qed.

Lemma update_trip_keeps_locks clock tid u tenant_id user s :
  now_iso clock <> EmptyString ->
  keeps_locks (trips s) (trips (fst (TripRoutes.update_trip clock tid u tenant_id user s))).
Proof.
  intros Hnow.
  destruct (update_trip_trips clock tid u tenant_id user s)
    as [-> | [la [dep [arr [Hla ->]]]]]; [apply keeps_locks_refl|].
  apply keeps_locks_update.
  - intros e. split; reflexivity.
  - intros e He. unfold locked, Server.apply_trip_update in *. simpl.
    destruct Hla as [-> | ->]; simpl set_opt_field; auto using locked_stamp.
Qed.

Lemma close_trip_trips clock tid tenant_id user s :
  trips (fst (TripRoutes.close_trip clock tid tenant_id user s)) = trips s
  \/ trips (fst (TripRoutes.close_trip clock tid tenant_id user s))
     = update_one (fun t => trip_id t =? tid) (TripRoutes.set_closed (now_iso clock)) (trips s).
Proof.
  unfold TripRoutes.close_trip.
  destruct (negb (is_owner user)); [now left|].
  unfold bind, get.
  destruct (find_one (trip_q tid tenant_id) (trips s)) as [t|]; [|now left].
  destruct (truthy (trip_locked_at t)); [now left|].
  now right.
Qed.

Lemma close_trip_keeps_locks clock tid tenant_id user s :
  now_iso clock <> EmptyString ->
  keeps_locks (trips s) (trips (fst (TripRoutes.close_trip clock tid tenant_id user s))).
Proof.
  intros Hnow.
  destruct (close_trip_trips clock tid tenant_id user s) as [-> | ->];
    [apply keeps_locks_refl|].
  apply keeps_locks_update.
  - intros e. split; reflexivity.
  - intros e _. unfold locked. simpl trip_locked_at. now apply locked_stamp.
Qed.

Lemma create_trip_trips clock new_id trip_data tenant_id user s :
  trips (fst (ServerRest.create_trip clock new_id trip_data tenant_id user s)) = trips s
  \/ trips (fst (ServerRest.create_trip clock new_id trip_data tenant_id user s))
     = insert_one (ServerRest.new_trip clock new_id trip_data tenant_id user) (trips s).
Proof.
  unfold ServerRest.create_trip, bind, get.
  destruct (find_one _ (trips s)); [now left | now right].
Qed.

(** The handlers of shipments, expenses and invoices leave the trips alone. *)
Lemma assign_trips rng tid sid tenant_id s :
  trips (fst (TripRoutes.assign_shipment_to_trip rng tid sid tenant_id s)) = trips s.
Proof.
  unfold TripRoutes.assign_shipment_to_trip, bind, get, modify.
  destruct (find_one (trip_q tid tenant_id) (trips s)) as [t|]; [|reflexivity].
  destruct (truthy (trip_locked_at t)); [reflexivity|].
  destruct (Nat.eqb _ 0); [reflexivity|].
  rewrite rebarcode_effect. reflexivity.
Qed.

Lemma unassign_trips rng tid sid tenant_id s :
  trips (fst (TripRoutes.unassign_shipment_from_trip rng tid sid tenant_id s)) = trips s.
Proof.
  unfold TripRoutes.unassign_shipment_from_trip, bind, get, modify.
  destruct (find_one (trip_q tid tenant_id) (trips s)) as [t|]; [|reflexivity].
  destruct (truthy (trip_locked_at t)); [reflexivity|].
  destruct (Nat.eqb _ 0); [reflexivity|].
  rewrite rebarcode_effect. reflexivity.
Qed.

Lemma remove_trips rng tid pid tenant_id user s :
  trips (fst (TripRoutes.remove_parcel_from_trip rng tid pid tenant_id user s)) = trips s.
Proof.
  unfold TripRoutes.remove_parcel_from_trip, bind, get, modify.
  destruct (find_one (trip_q tid tenant_id) (trips s)) as [t|]; [|reflexivity].
  destruct (truthy (trip_locked_at t)); [reflexivity|].
  destruct (find_one _ (shipments s)); [|reflexivity].
  rewrite rebarcode_effect. reflexivity.
Qed.

Lemma create_expense_trips clock new_id tid data tenant_id user s :
  trips (fst (TripRoutes.create_trip_expense clock new_id tid data tenant_id user s))
  = trips s.
Proof.
  unfold TripRoutes.create_trip_expense, bind, get, modify.
  destruct (find_one (trip_q tid tenant_id) (trips s)); reflexivity.
Qed.

Lemma update_expense_trips tid eid u tenant_id user s :
  trips (fst (TripRoutes.update_trip_expense tid eid u tenant_id user s)) = trips s.
Proof.
  unfold TripRoutes.update_trip_expense, bind, get, modify.
  destruct (find_one (trip_q tid tenant_id) (trips s)) as [t|]; [|reflexivity].
  destruct (truthy (trip_locked_at t) && negb (is_owner user)); [reflexivity|].
  destruct (TripRoutes.expense_update_nonempty u); [|reflexivity].
  destruct (Nat.eqb _ 0); reflexivity.
Qed.

Lemma delete_expense_trips tid eid tenant_id user s :
  trips (fst (TripRoutes.delete_trip_expense tid eid tenant_id user s)) = trips s.
Proof.
  unfold TripRoutes.delete_trip_expense, bind, get, modify.
  destruct (find_one (trip_q tid tenant_id) (trips s)) as [t|]; [|reflexivity].
  destruct (truthy (trip_locked_at t) && negb (is_owner user)); [reflexivity|].
  destruct (Nat.eqb _ 0); reflexivity.
Qed.

Lemma generate_trips clock uuid4 tid tenant_id user s :
  trips (fst (TripRoutes.generate_trip_invoices clock uuid4 tid tenant_id user s)) = trips s.
Proof.
  destruct (find_one (trip_q tid tenant_id) (trips s)) as [t|] eqn:Ht.
  - destruct (generate_effect clock uuid4 tid tenant_id user s t Ht)
      as [added [out [Hrun _]]].
    now rewrite Hrun.
  - unfold TripRoutes.generate_trip_invoices, bind, get. now rewrite Ht.
Qed.

Lemma serve_keeps_locks r s :
  stamp_of r <> Some EmptyString ->
  keeps_locks (trips s) (trips (serve r s)).
Proof.
  intros Hstamp. destruct r; simpl serve; simpl in Hstamp.
  - destruct (create_trip_trips clock new_id trip_data tenant_id user s) as [H | H];
      unfold TripRoutesRest.create_trip; rewrite H;
      [apply keeps_locks_refl | apply keeps_locks_insert].
  - apply update_trip_keeps_locks. congruence.
  - apply close_trip_keeps_locks. congruence.
  - rewrite assign_trips. apply keeps_locks_refl.
  - rewrite unassign_trips. apply keeps_locks_refl.
  - rewrite remove_trips. apply keeps_locks_refl.
  - rewrite create_expense_trips. apply keeps_locks_refl.
  - rewrite update_expense_trips. apply keeps_locks_refl.
  - rewrite delete_expense_trips. apply keeps_locks_refl.
  - rewrite generate_trips. apply keeps_locks_refl.
Qed.

(** X1. Whatever requests the trip routes serve after a trip is locked,
    deletion apart and every stamp being a non-empty time, the trip can
    still be addressed by its tenant and is still locked: no update, no
    re-opening of the status, no close and no other handler clears
    [locked_at]. *)
Theorem locked_trip_stays_locked :
  forall (requests : list request) (tid tenant_id : string) (s : Store) (t : Trip),
    Forall (fun r => stamp_of r <> Some EmptyString) requests ->
    find_one (trip_q tid tenant_id) (trips s) = Some t ->
    locked t = true ->
    exists t',
      find_one (trip_q tid tenant_id) (trips (serve_all requests s)) = Some t'
      /\ locked t' = true.
Proof.
  intros requests tid tenant_id s t Hstamps. revert s t.
  induction Hstamps as [|r requests Hr _ IH]; intros s t Hf Hl.
  - simpl. eauto.
  - unfold serve_all in *. simpl.
    destruct (serve_keeps_locks r s Hr tid tenant_id t Hf Hl) as [t1 [Hf1 Hl1]].
    eauto.
Qed.

(** The lock on the example: re-opened, attacked and closed again. *)
Lemma locked_trip_stays_locked_example :
  exists t',
    find_one (trip_q "t1" "acme") (trips (serve_all after_closing locked_store)) = Some t'
    /\ locked t' = true.
Proof.
  apply (locked_trip_stays_locked after_closing "t1" "acme" locked_store closed_trip).
  - repeat constructor; discriminate.
  - reflexivity.
  - reflexivity.
Defined.

(** * Departure and arrival are stamped once *)

Lemma trip_q_after_update tid tenant_id u la dep arr (t : Trip) :
  trip_q tid tenant_id (Server.apply_trip_update u la dep arr t) = trip_q tid tenant_id t.
Proof. reflexivity. Qed.

(** X2. An update of a trip through the trip routes leaves a departure
    time and an arrival time that are set exactly as they are, whatever the
    request; and a successful update that moves the status to in_transit (to
    delivered) from another status, with no departure (arrival) time set,
    stamps it with the time of the request. *)
Theorem departure_and_arrival_stamped_once :
  forall (clock : Clock) (tid tenant_id : string) (u : Server.TripUpdate) (user : User)
         (s : Store) (t : Trip),
    find_one (trip_q tid tenant_id) (trips s) = Some t ->
    exists t',
      find_one (trip_q tid tenant_id)
               (trips (fst (TripRoutes.update_trip clock tid u tenant_id user s))) = Some t'
      /\ (truthy (trip_actual_departure t) = true ->
          trip_actual_departure t' = trip_actual_departure t)
      /\ (truthy (trip_actual_arrival t) = true ->
          trip_actual_arrival t' = trip_actual_arrival t)
      /\ (forall r,
             snd (TripRoutes.update_trip clock tid u tenant_id user s) = Ok r ->
             r = Some t'
             /\ (Server.status_is u TripStatus.in_transit = true ->
                 TripStatus.eqb (trip_status t) TripStatus.in_transit = false ->
                 truthy (trip_actual_departure t) = false ->
                 trip_actual_departure t' = Some (now_iso clock))
             /\ (Server.status_is u TripStatus.delivered = true ->
                 TripStatus.eqb (trip_status t) TripStatus.delivered = false ->
                 truthy (trip_actual_arrival t) = false ->
                 trip_actual_arrival t' = Some (now_iso clock))).
Proof.
  intros clock tid tenant_id u user s t Hf.
  unfold TripRoutes.update_trip, bind, get. rewrite Hf.
  destruct (truthy (trip_locked_at t) && negb (is_owner user)).
  { exists t. simpl. repeat split; auto; discriminate. }
  destruct (Server.trip_number_taken tid tenant_id u t s).
  { exists t. simpl. repeat split; auto; discriminate. }
  destruct (Server.trip_update_nonempty u) eqn:Hne; simpl.
  - unfold ret. simpl.
    rewrite (find_one_update_one _ _ _ _ Hf)
      by (rewrite trip_q_after_update; exact (proj2 (find_one_In _ _ _ Hf))).
    eexists. split; [reflexivity|]. simpl. repeat split.
    + intros Hd. rewrite Hd, !andb_false_r. reflexivity.
    + intros Ha. rewrite Ha, !andb_false_r. reflexivity.
    + congruence.
    + intros H1 H2 H3. rewrite H1, H2, H3. reflexivity.
    + intros H1 H2 H3. rewrite H1, H2, H3. reflexivity.
  - unfold ret. simpl. rewrite Hf. exists t. repeat split; auto.
    + congruence.
    + intros H1. exfalso. unfold Server.status_is in H1.
      unfold Server.trip_update_nonempty in Hne.
      destruct (Server.tu_status u); [|discriminate].
      rewrite !orb_true_r in Hne. discriminate.
    + intros H1. exfalso. unfold Server.status_is in H1.
      unfold Server.trip_update_nonempty in Hne.
      destruct (Server.tu_status u); [|discriminate].
      rewrite !orb_true_r in Hne. discriminate.
Qed.

(** The trip that left on 31 May is sent to in_transit again on 1 June. *)
Lemma departure_and_arrival_stamped_once_example :
  exists t',
    find_one (trip_q "t1" "acme")
             (trips (fst (TripRoutes.update_trip clock_2025 "t1" depart_request "acme"
                            manager_user departed_store))) = Some t'
    /\ (truthy (trip_actual_departure departed_trip) = true ->
        trip_actual_departure t' = trip_actual_departure departed_trip)
    /\ (truthy (trip_actual_arrival departed_trip) = true ->
        trip_actual_arrival t' = trip_actual_arrival departed_trip)
    /\ (forall r,
           snd (TripRoutes.update_trip clock_2025 "t1" depart_request "acme" manager_user
                  departed_store) = Ok r ->
           r = Some t'
           /\ (Server.status_is depart_request TripStatus.in_transit = true ->
               TripStatus.eqb (trip_status departed_trip) TripStatus.in_transit = false ->
               truthy (trip_actual_departure departed_trip) = false ->
               trip_actual_departure t' = Some (now_iso clock_2025))
           /\ (Server.status_is depart_request TripStatus.delivered = true ->
               TripStatus.eqb (trip_status departed_trip) TripStatus.delivered = false ->
               truthy (trip_actual_arrival departed_trip) = false ->
               trip_actual_arrival t' = Some (now_iso clock_2025))).
Proof.
  apply (departure_and_arrival_stamped_once clock_2025 "t1" "acme" depart_request
           manager_user departed_store departed_trip).
  reflexivity.
Defined.

(** * Closing an open trip *)

Lemma trip_q_fields tid tenant_id (t : Trip) :
  trip_q tid tenant_id t = true -> trip_id t = tid /\ trip_tenant_id t = tenant_id.
Proof.
  unfold trip_q, by_id_tenant. intros H. apply andb_prop in H. destruct H as [H1 H2].
  split; now apply String.eqb_eq.
Qed.

Lemma trip_q_narrows tid tenant_id (e : Trip) :
  trip_q tid tenant_id e = true -> (trip_id e =? tid) = true.
Proof. unfold trip_q, by_id_tenant. now intros H%andb_prop. Qed.

(** In a collection with distinct identifiers the tenant's trip is the one
    a filter on the identifier alone selects. *)
Lemma find_trip_by_id tid tenant_id (c : list Trip) (t : Trip) :
  NoDup (map trip_id c) ->
  find_one (trip_q tid tenant_id) c = Some t ->
  find_one (fun e => trip_id e =? tid) c = Some t.
Proof.
  intros Hnd Hf. destruct (find_one_In _ _ _ Hf) as [Hin Hq].
  destruct (trip_q_fields _ _ _ Hq) as [Hid _]. rewrite <- Hid.
  now apply (find_one_unique trip_id).
Qed.

Lemma update_trip_by_id tid tenant_id upd (c : list Trip) (t : Trip) :
  NoDup (map trip_id c) ->
  find_one (trip_q tid tenant_id) c = Some t ->
  update_one (fun e => trip_id e =? tid) upd c = update_one (trip_q tid tenant_id) upd c.
Proof.
  intros Hnd Hf. symmetry.
  apply (update_one_scoped (fun e => trip_id e =? tid) (trip_q tid tenant_id) upd c t).
  - apply trip_q_narrows.
  - now apply (find_trip_by_id tid tenant_id).
  - exact (proj2 (find_one_In _ _ _ Hf)).
Qed.

(** X3. In a store whose trip ids are distinct, an owner's request to
    close a trip of the tenant that is not locked succeeds and returns the
    time of the request; afterwards the trip has status closed and that time
    as locked_at with every other field as before, every other trip and
    every other collection is unchanged, and (the time being a non-empty
    text) a second close request is answered 400 and an assignment of a
    shipment to the trip 403, both leaving the store as it is. *)
Theorem close_trip_locks_the_trip :
  forall (clock : Clock) (tid tenant_id : string) (user : User) (s : Store) (t : Trip),
    NoDup (map trip_id (trips s)) ->
    find_one (trip_q tid tenant_id) (trips s) = Some t ->
    locked t = false ->
    is_owner user = true ->
    now_iso clock <> EmptyString ->
    exists s',
      TripRoutes.close_trip clock tid tenant_id user s = (s', Ok (now_iso clock))
      /\ find_one (trip_q tid tenant_id) (trips s')
         = Some (TripRoutes.set_closed (now_iso clock) t)
      /\ trips s'
         = map (fun e => if trip_id e =? tid then TripRoutes.set_closed (now_iso clock) e
                         else e) (trips s)
      /\ with_trips (fun _ => trips s) s' = s
      /\ (forall clock2 user2,
             is_owner user2 = true ->
             TripRoutes.close_trip clock2 tid tenant_id user2 s'
             = (s', HTTPException 400 "Trip is already closed"))
      /\ (forall rng sid,
             TripRoutes.assign_shipment_to_trip rng tid sid tenant_id s'
             = (s', HTTPException 403 "Cannot modify shipments on a locked trip")).
Proof.
  intros clock tid tenant_id user s t Hnd Hf Hl Hown Hnow.
  unfold locked in Hl.
  assert (Hfind : find_one (trip_q tid tenant_id)
                    (update_one (fun e => trip_id e =? tid)
                       (TripRoutes.set_closed (now_iso clock)) (trips s))
                  = Some (TripRoutes.set_closed (now_iso clock) t)).
  { rewrite (update_trip_by_id tid tenant_id _ _ t Hnd Hf).
    apply find_one_update_one; auto.
    exact (proj2 (find_one_In _ _ _ Hf)). }
  exists (with_trips (update_one (fun e => trip_id e =? tid)
                        (TripRoutes.set_closed (now_iso clock))) s).
  split; [|split; [|split; [|split; [|split]]]].
  - unfold TripRoutes.close_trip. rewrite Hown. unfold negb, bind, get, modify.
    rewrite Hf, Hl. reflexivity.
  - exact Hfind.
  - unfold with_trips. simpl trips. now apply (update_one_unique trip_id).
  - unfold with_trips. simpl. apply store_eta.
  - intros clock2 user2 Hown2. unfold TripRoutes.close_trip. rewrite Hown2.
    unfold negb, bind, get.
    change (trips (with_trips (update_one (fun e => trip_id e =? tid)
                                 (TripRoutes.set_closed (now_iso clock))) s))
      with (update_one (fun e => trip_id e =? tid)
              (TripRoutes.set_closed (now_iso clock)) (trips s)).
    rewrite Hfind. cbn [trip_locked_at TripRoutes.set_closed].
    rewrite (locked_stamp _ Hnow). reflexivity.
  - intros rng sid. unfold TripRoutes.assign_shipment_to_trip, bind, get.
    change (trips (with_trips (update_one (fun e => trip_id e =? tid)
                                 (TripRoutes.set_closed (now_iso clock))) s))
      with (update_one (fun e => trip_id e =? tid)
              (TripRoutes.set_closed (now_iso clock)) (trips s)).
    rewrite Hfind. cbn [trip_locked_at TripRoutes.set_closed].
    rewrite (locked_stamp _ Hnow). reflexivity.
Qed.

(** The owner closes the open trip S12. *)
Lemma close_trip_locks_the_trip_example :
  exists s',
    TripRoutes.close_trip clock_2025 "t1" "acme" owner_user open_store
    = (s', Ok (now_iso clock_2025))
    /\ find_one (trip_q "t1" "acme") (trips s')
       = Some (TripRoutes.set_closed (now_iso clock_2025) open_trip)
    /\ trips s'
       = map (fun e => if trip_id e =? "t1"
                       then TripRoutes.set_closed (now_iso clock_2025) e else e)
             (trips open_store)
    /\ with_trips (fun _ => trips open_store) s' = open_store
    /\ (forall clock2 user2,
           is_owner user2 = true ->
           TripRoutes.close_trip clock2 "t1" "acme" user2 s'
           = (s', HTTPException 400 "Trip is already closed"))
    /\ (forall rng sid,
           TripRoutes.assign_shipment_to_trip rng "t1" sid "acme" s'
           = (s', HTTPException 403 "Cannot modify shipments on a locked trip")).
Proof.
  apply (close_trip_locks_the_trip clock_2025 "t1" "acme" owner_user open_store open_trip).
  - vm_compute. repeat constructor. intros [].
  - reflexivity.
  - reflexivity.
  - reflexivity.
  - discriminate.
Defined.
(** * Closing a closed trip *)

Lemma trip_eta (t : Trip) :
  mkTrip (trip_id t) (trip_tenant_id t) (trip_number t) (trip_route t)
    (trip_departure_date t) (trip_vehicle_id t) (trip_driver_id t) (trip_notes t)
    (trip_status t) (trip_locked_at t) (trip_actual_departure t) (trip_actual_arrival t)
    (trip_created_by t) (trip_created_at t) = t.
Proof. now destruct t. Qed.

Lemma is_some_find_one {D : Type} (q : D -> bool) (c : list D) :
  Server.is_some (find_one q c) = true <-> exists d, In d c /\ q d = true.
Proof.
  unfold find_one. split.
  - destruct (List.find q c) as [d|] eqn:Hf; [|discriminate].
    intros _. exists d. now apply find_some in Hf.
  - intros [d [Hin Hq]]. destruct (List.find q c) as [d'|] eqn:Hf; [reflexivity|].
    rewrite (find_none _ _ Hf d Hin) in Hq. discriminate.
Qed.

(** The check of the trip number in [update_trip], in words. *)
Lemma trip_number_taken_iff tid tenant_id u t s :
  Server.trip_number_taken tid tenant_id u t s = true
  <-> asks_for_number_in_use tid tenant_id u t s.
Proof.
  unfold Server.trip_number_taken, asks_for_number_in_use.
  destruct (Server.tu_trip_number u) as [n|].
  - destruct (n =? trip_number t) eqn:En; simpl.
    + apply String.eqb_eq in En. split; [discriminate|].
      intros [n' [other [Hn [Hne _]]]]. inversion Hn; subst. contradiction.
    + apply String.eqb_neq in En. rewrite is_some_find_one. split.
      * intros [d [Hin Hq]].
        apply andb_prop in Hq. destruct Hq as [Hq H3].
        apply andb_prop in Hq. destruct Hq as [H1 H2].
        apply String.eqb_eq in H1, H2. apply negb_true_iff, String.eqb_neq in H3.
        exists n, d. repeat split; auto.
      * intros [n' [other [Hn [_ [Hin [H1 [H2 H3]]]]]]].
        exists other. split; [exact Hin|].
        assert (E : (trip_number other =? n) = true) by (apply String.eqb_eq; congruence).
        apply String.eqb_eq in H1. apply String.eqb_neq in H3.
        now rewrite H1, E, H3.
  - split; [discriminate|]. intros [n [other [Hn _]]]. discriminate.
Qed.

Lemma apply_closed_update u t :
  Server.tu_status u = Some TripStatus.closed ->
  Server.apply_trip_update u None None None t = reclosed u t.
Proof.
  intros Hs. unfold Server.apply_trip_update, reclosed, set_field, set_opt_field.
  now rewrite Hs.
Qed.

Lemma reclosed_by_status_alone t :
  trip_status t = TripStatus.closed -> reclosed close_request t = t.
Proof. intros H. unfold reclosed, close_request. simpl. rewrite <- H. apply trip_eta. Qed.

Lemma map_replace_same tid (c : list Trip) (t : Trip) :
  NoDup (map trip_id c) -> In t c -> trip_id t = tid ->
  map (fun e => if trip_id e =? tid then t else e) c = c.
Proof.
  intros Hnd Hin Hid. rewrite <- (map_id c) at 2. apply map_ext_in.
  intros e He. destruct (trip_id e =? tid) eqn:E; [|reflexivity].
  apply String.eqb_eq in E.
  assert (Hf : find_one (fun x => trip_id x =? trip_id e) c = Some e)
    by now apply (find_one_unique trip_id).
  assert (Hg : find_one (fun x => trip_id x =? trip_id t) c = Some t)
    by now apply (find_one_unique trip_id).
  rewrite E in Hf. rewrite Hid in Hg. congruence.
Qed.

(** An owner's update of a closed trip to closed: refused when the number
    it asks for is in use, applied otherwise. *)
Lemma owner_reclose_by_update clock tid tenant_id user s t u :
  NoDup (map trip_id (trips s)) ->
  find_one (trip_q tid tenant_id) (trips s) = Some t ->
  trip_status t = TripStatus.closed ->
  is_owner user = true ->
  Server.tu_status u = Some TripStatus.closed ->
  let s' := with_trips (map (fun e => if trip_id e =? tid then reclosed u t else e)) s in
  let answer :=
    if Server.trip_number_taken tid tenant_id u t s
    then (s, HTTPException 400 "Trip number already exists for this tenant")
    else (s', Ok (Some (reclosed u t))) in
  TripRoutes.update_trip clock tid u tenant_id user s = answer
  /\ Server.update_trip clock tid u tenant_id user s = answer.
Proof.
  intros Hnd Ht Hs Ho Hu. cbv zeta.
  assert (Hne : Server.trip_update_nonempty u = true).
  { unfold Server.trip_update_nonempty. rewrite Hu. simpl. now rewrite !orb_true_r. }
  assert (Hup : update_one (trip_q tid tenant_id)
                  (Server.apply_trip_update u None None None) (trips s)
                = map (fun e => if trip_id e =? tid then reclosed u t else e) (trips s)).
  { rewrite (update_one_found _ _ _ _ Ht), (apply_closed_update u t Hu).
    rewrite <- (update_trip_by_id tid tenant_id _ _ t Hnd Ht).
    now apply (update_one_unique trip_id). }
  assert (Hfind : find_one (trip_q tid tenant_id)
                    (update_one (trip_q tid tenant_id)
                       (Server.apply_trip_update u None None None) (trips s))
                  = Some (reclosed u t)).
  { rewrite <- (apply_closed_update u t Hu).
    apply find_one_update_one; [exact Ht|].
    exact (proj2 (find_one_In _ _ _ Ht)). }
  unfold TripRoutes.update_trip, Server.update_trip, bind, get, modify, when_.
  rewrite Ht, Ho, andb_false_r. simpl.
  destruct (Server.trip_number_taken tid tenant_id u t s); [auto|].
  unfold Server.status_is. rewrite Hu, Hs, Hne. simpl.
  unfold ret. rewrite Hfind. unfold with_trips. rewrite Hup. auto.
Qed.

(** C2, as the handlers have it.  On a trip that is closed, with [locked_at]
    set, in a store whose trip ids are distinct.  The close endpoint answers
    an owner with 400 "Trip is already closed" and anybody else with 403, the
    store unchanged.  An update that sets the status to closed, whatever else
    it carries, is never refused as already closed.  From an owner it is
    handled as any update: when it asks for a trip number another trip of the
    tenant carries it is refused with 400 "Trip number already exists for
    this tenant" and nothing changes; otherwise it succeeds, writes the
    request fields that are not null on the trip, leaves the status closed
    and [locked_at] as stamped, leaves every other trip and collection
    alone, and returns the stored trip; when the status is its only field
    the store is unchanged and the trip is returned as it was.  From anybody
    else it fails with the 403 of a locked trip and nothing changes. *)
Theorem closing_a_closed_trip :
  forall (clock : Clock) (tid tenant_id : string) (user : User) (s : Store) (t : Trip),
    NoDup (map trip_id (trips s)) ->
    find_one (trip_q tid tenant_id) (trips s) = Some t ->
    truthy (trip_locked_at t) = true ->
    trip_status t = TripStatus.closed ->
    (is_owner user = true ->
       TripRoutes.close_trip clock tid tenant_id user s
       = (s, HTTPException 400 "Trip is already closed")
       /\ (forall u,
             Server.tu_status u = Some TripStatus.closed ->
             (asks_for_number_in_use tid tenant_id u t s ->
                TripRoutes.update_trip clock tid u tenant_id user s
                = (s, HTTPException 400 "Trip number already exists for this tenant")
                /\ Server.update_trip clock tid u tenant_id user s
                   = (s, HTTPException 400 "Trip number already exists for this tenant"))
             /\ (~ asks_for_number_in_use tid tenant_id u t s ->
                 exists s',
                   TripRoutes.update_trip clock tid u tenant_id user s
                   = (s', Ok (Some (reclosed u t)))
                   /\ Server.update_trip clock tid u tenant_id user s
                      = (s', Ok (Some (reclosed u t)))
                   /\ find_one (trip_q tid tenant_id) (trips s') = Some (reclosed u t)
                   /\ trips s'
                      = map (fun e => if trip_id e =? tid then reclosed u t else e) (trips s)
                   /\ with_trips (fun _ => trips s) s' = s
                   /\ (u = close_request -> s' = s /\ reclosed u t = t))))
    /\ (is_owner user = false ->
       TripRoutes.close_trip clock tid tenant_id user s
       = (s, HTTPException 403 "Only owner can close trips")
       /\ (forall u,
             TripRoutes.update_trip clock tid u tenant_id user s
             = (s, HTTPException 403 "Trip is locked. Only owner can modify.")
             /\ Server.update_trip clock tid u tenant_id user s
                = (s, HTTPException 403 "Trip is locked. Only owner can modify."))).
Proof.
  intros clock tid tenant_id user s t Hnd Ht Hl Hs. split; intros Ho.
  - split.
    + unfold TripRoutes.close_trip. rewrite Ho. simpl.
      unfold bind, get. now rewrite Ht, Hl.
    + intros u Hu.
      pose proof (owner_reclose_by_update clock tid tenant_id user s t u Hnd Ht Hs Ho Hu)
        as Hrun. cbv zeta in Hrun.
      destruct (find_one_In _ _ _ Ht) as [Hin Hq].
      destruct (trip_q_fields _ _ _ Hq) as [Hid _].
      split.
      * intros Huse. apply trip_number_taken_iff in Huse. now rewrite Huse in Hrun.
      * intros Hfree.
        destruct (Server.trip_number_taken tid tenant_id u t s) eqn:Htaken.
        { exfalso. apply Hfree. now apply trip_number_taken_iff. }
        destruct Hrun as [Hr1 Hr2]. eexists. split; [exact Hr1|]. split; [exact Hr2|].
        split.
        { simpl. rewrite <- (update_one_unique trip_id tid (fun _ => reclosed u t) _ Hnd).
          rewrite (update_trip_by_id tid tenant_id _ _ t Hnd Ht).
          exact (find_one_update_one (trip_q tid tenant_id) (fun _ => reclosed u t)
                   (trips s) t Ht Hq). }
        split; [reflexivity|]. split; [unfold with_trips; simpl; apply store_eta|].
        intros ->. rewrite (reclosed_by_status_alone t Hs). split; [|reflexivity].
        unfold with_trips. rewrite (map_replace_same tid _ t Hnd Hin Hid). apply store_eta.
  - split.
    + unfold TripRoutes.close_trip. now rewrite Ho.
    + intros u. unfold TripRoutes.update_trip, Server.update_trip.
      unfold bind, get. rewrite Ht, Hl, !Ho. simpl. auto.
Qed.

(** The owner and the closed example trip: the close endpoint answers 400; an
    update that closes it again with a note succeeds and stores the note,
    [locked_at] staying as stamped; an update that closes it again under the
    number of the tenant's other trip is refused for the number. *)
Lemma closing_a_closed_trip_example :
  TripRoutes.close_trip clock_2025 "t1" "acme" owner_user locked_store_two_trips
  = (locked_store_two_trips, HTTPException 400 "Trip is already closed")
  /\ (exists s',
        TripRoutes.update_trip clock_2025 "t1" close_with_note "acme" owner_user
          locked_store_two_trips
        = (s', Ok (Some (reclosed close_with_note closed_trip)))
        /\ trip_notes (reclosed close_with_note closed_trip) = Some "delivered late"
        /\ trip_locked_at (reclosed close_with_note closed_trip) = trip_locked_at closed_trip)
  /\ TripRoutes.update_trip clock_2025 "t1" close_as_S13 "acme" owner_user
       locked_store_two_trips
     = (locked_store_two_trips,
        HTTPException 400 "Trip number already exists for this tenant").
Proof.
  assert (Hnd : NoDup (map trip_id (trips locked_store_two_trips))).
  { simpl. repeat constructor; simpl; intuition discriminate. }
  destruct (proj1 (closing_a_closed_trip clock_2025 "t1" "acme" owner_user
                     locked_store_two_trips closed_trip Hnd eq_refl eq_refl eq_refl)
                  eq_refl) as [Hclose Hupdate].
  split; [exact Hclose|]. split.
  - destruct (proj2 (Hupdate close_with_note eq_refl)) as [s' [Hrun _]].
    + intros [n [other [Hn _]]]. discriminate.
    + exists s'. split; [exact Hrun|]. split; reflexivity.
  - apply (proj1 (Hupdate close_as_S13 eq_refl)).
    exists "S13", trip_S13. repeat split; simpl; auto; discriminate.
Defined.

(** C2 as stated fails: the owner sends an update with status closed to the
    closed trip and gets the trip back, no error, nothing changed. *)
Lemma reclose_by_update_succeeds_silently :
  find_one (trip_q "t1" "acme") (trips locked_store) = Some closed_trip
  /\ trip_status closed_trip = TripStatus.closed
  /\ truthy (trip_locked_at closed_trip) = true
  /\ is_owner owner_user = true
  /\ TripRoutes.update_trip clock_2025 "t1" close_request "acme" owner_user locked_store
     = (locked_store, Ok (Some closed_trip))
  /\ Server.update_trip clock_2025 "t1" close_request "acme" owner_user locked_store
     = (locked_store, Ok (Some closed_trip)).
Proof. repeat split. Qed.

(** * Trip numbers stay unique within a tenant *)

Lemma NoDup_snoc {A : Type} (l : list A) (a : A) :
  NoDup l -> ~ In a l -> NoDup (l ++ [a]).
Proof.
  induction l as [|x l IH]; simpl; intros Hnd Hn.
  - constructor; [tauto | constructor].
  - inversion Hnd; subst. constructor.
    + rewrite in_app_iff. simpl. intros [H | [H | []]]; [tauto | subst; tauto].
    + apply IH; tauto.
Qed.

(** Two documents of a collection with distinct keys that agree on the key
    are the same document. *)
Lemma NoDup_map_eq {A K : Type} (f : A -> K) (l : list A) (a b : A) :
  NoDup (map f l) -> In a l -> In b l -> f a = f b -> a = b.
Proof.
  induction l as [|x l IH]; simpl; [tauto|].
  intros Hnd Ha Hb E. inversion Hnd as [|? ? Hx Hl]; subst.
  destruct Ha as [-> | Ha], Hb as [-> | Hb]; auto.
  - exfalso. apply Hx. rewrite E. now apply in_map.
  - exfalso. apply Hx. rewrite <- E. now apply in_map.
Qed.

(** Rewriting the document with identifier [x] keeps the keys distinct when
    its new key [v] is the key of no other document. *)
Lemma NoDup_key_update {A K : Type} (id_of : A -> string) (f : A -> K) (x : string)
  (g : A -> A) (v : K) (c : list A) :
  NoDup (map id_of c) -> NoDup (map f c) ->
  (forall e, In e c -> id_of e = x -> f (g e) = v) ->
  (forall e, In e c -> id_of e <> x -> f e <> v) ->
  NoDup (map f (map (fun e => if id_of e =? x then g e else e) c)).
Proof.
  induction c as [|e c IH]; simpl; intros Hid Hf Hnew Hother; [constructor|].
  inversion Hid as [|? ? He Hc]; subst. inversion Hf as [|? ? Hfe Hfc]; subst.
  destruct (id_of e =? x) eqn:E.
  - apply String.eqb_eq in E.
    assert (Hsame : map (fun e0 => if id_of e0 =? x then g e0 else e0) c = c).
    { rewrite <- (map_id c) at 2. apply map_ext_in. intros d Hd.
      rewrite (no_other_with_id id_of c d x); auto. now rewrite <- E. }
    rewrite Hsame. constructor; auto.
    rewrite (Hnew e (or_introl eq_refl) E). intros Hin.
    apply in_map_iff in Hin. destruct Hin as [d [Hd Hin]].
    apply (Hother d (or_intror Hin)); auto.
    intros Hx. apply He. rewrite E, <- Hx. now apply in_map.
  - apply String.eqb_neq in E. constructor.
    + intros Hin. rewrite map_map in Hin. apply in_map_iff in Hin.
      destruct Hin as [d [Hd Hin]].
      destruct (id_of d =? x) eqn:Ed.
      * apply String.eqb_eq in Ed.
        rewrite (Hnew d (or_intror Hin) Ed) in Hd.
        apply (Hother e (or_introl eq_refl) E). now symmetry.
      * apply Hfe. rewrite <- Hd. now apply in_map.
    + apply IH; auto.
Qed.

Lemma number_q_key tenant_id number (t : Trip) :
  number_key t = (tenant_id, number) -> ServerRest.number_q tenant_id number t = true.
Proof.
  unfold number_key, ServerRest.number_q. intros H. inversion H.
  now rewrite !String.eqb_refl.
Qed.

(** The trips after [create_trip] keep distinct identifiers and numbers. *)
Lemma create_trip_keeps_unique clock new_id trip_data tenant_id user s :
  NoDup (map trip_id (trips s)) -> numbers_unique (trips s) ->
  ~ In new_id (map trip_id (trips s)) ->
  NoDup (map trip_id (trips (fst (ServerRest.create_trip clock new_id trip_data tenant_id
                                    user s))))
  /\ numbers_unique (trips (fst (ServerRest.create_trip clock new_id trip_data tenant_id
                                   user s))).
Proof.
  intros Hid Hnum Hfresh. unfold ServerRest.create_trip, bind, get, modify.
  destruct (find_one _ (trips s)) eqn:Hf; simpl; [now split|].
  unfold insert_one, numbers_unique. rewrite !map_app. simpl. split.
  - now apply NoDup_snoc.
  - apply NoDup_snoc; auto. intros Hin. apply in_map_iff in Hin.
    destruct Hin as [d [Hd Hin]].
    pose proof (find_none _ _ Hf d Hin) as Hq.
    rewrite (number_q_key tenant_id (ServerRest.tc_trip_number trip_data) d Hd) in Hq.
    discriminate.
Qed.

(** The [$set] of an accepted update keeps distinct identifiers and numbers. *)
Lemma apply_update_keeps_unique tid tenant_id u la dep arr (s : Store) (t : Trip) :
  NoDup (map trip_id (trips s)) -> numbers_unique (trips s) ->
  find_one (trip_q tid tenant_id) (trips s) = Some t ->
  Server.trip_number_taken tid tenant_id u t s = false ->
  NoDup (map trip_id (update_one (trip_q tid tenant_id)
                        (Server.apply_trip_update u la dep arr) (trips s)))
  /\ numbers_unique (update_one (trip_q tid tenant_id)
                       (Server.apply_trip_update u la dep arr) (trips s)).
Proof.
  intros Hid Hnum Hf Hfree. split.
  - rewrite (update_one_keeps_ids trip_id); auto.
  - destruct (find_one_In _ _ _ Hf) as [Hin Hq].
    destruct (trip_q_fields _ _ _ Hq) as [Htid Hten].
    rewrite <- (update_trip_by_id tid tenant_id _ _ t Hid Hf).
    rewrite (update_one_unique trip_id); auto.
    unfold numbers_unique.
    apply (NoDup_key_update trip_id number_key tid _
             (tenant_id, set_field (Server.tu_trip_number u) (trip_number t))); auto.
    + intros e He Heid. assert (e = t) as ->.
      { apply (NoDup_map_eq trip_id (trips s)); auto. congruence. }
      unfold number_key. simpl. now rewrite Hten.
    + intros e He Heid Hkey. unfold Server.trip_number_taken in Hfree.
      destruct (Server.tu_trip_number u) as [n|]; simpl in Hkey.
      * destruct (n =? trip_number t) eqn:En; unfold negb in Hfree.
        -- apply String.eqb_eq in En. subst n. apply Heid.
           assert (e = t) as ->; auto.
           apply (NoDup_map_eq number_key (trips s)); auto.
           unfold number_key in *. now rewrite Hten.
        -- match type of Hfree with
           | Server.is_some ?x = false => destruct x eqn:Hnone; [discriminate|]
           end.
           pose proof (find_none _ _ Hnone e He) as Hq2. simpl in Hq2.
           unfold number_key in Hkey. inversion Hkey as [[H1 H2]].
           rewrite H1, H2, !String.eqb_refl in Hq2. simpl in Hq2.
           destruct (trip_id e =? tid) eqn:Ee; [|discriminate].
           apply String.eqb_eq in Ee. contradiction.
      * apply Heid. assert (e = t) as ->; auto.
        apply (NoDup_map_eq number_key (trips s)); auto.
        unfold number_key in *. now rewrite Hten.
Qed.

(** X4. In a store where trip ids are distinct and no two trips of a
    tenant carry the same trip number, creating a trip (under an id not in
    use) and updating a trip, through the trip routes or through the server,
    leave a store with the same two properties, whether the request succeeds
    or is refused. *)
Theorem trip_numbers_stay_unique :
  forall (s : Store),
    NoDup (map trip_id (trips s)) ->
    numbers_unique (trips s) ->
    (forall clock new_id trip_data tenant_id user,
        ~ In new_id (map trip_id (trips s)) ->
        NoDup (map trip_id (trips (fst (TripRoutesRest.create_trip clock new_id trip_data
                                          tenant_id user s))))
        /\ numbers_unique (trips (fst (TripRoutesRest.create_trip clock new_id trip_data
                                         tenant_id user s))))
    /\ (forall clock tid u tenant_id user,
           NoDup (map trip_id (trips (fst (TripRoutes.update_trip clock tid u tenant_id
                                             user s))))
           /\ numbers_unique (trips (fst (TripRoutes.update_trip clock tid u tenant_id
                                            user s))))
    /\ (forall clock tid u tenant_id user,
           NoDup (map trip_id (trips (fst (Server.update_trip clock tid u tenant_id
                                             user s))))
           /\ numbers_unique (trips (fst (Server.update_trip clock tid u tenant_id
                                            user s)))).
Proof.
  intros s Hid Hnum. split; [|split].
  - intros. now apply create_trip_keeps_unique.
  - intros clock tid u tenant_id user.
    unfold TripRoutes.update_trip, bind, get.
    destruct (find_one (trip_q tid tenant_id) (trips s)) as [t|] eqn:Hf; [|now split].
    destruct (truthy (trip_locked_at t) && negb (is_owner user)); [now split|].
    destruct (Server.trip_number_taken tid tenant_id u t s) eqn:Hfree; [now split|].
    destruct (Server.trip_update_nonempty u); simpl; [|now split].
    now apply (apply_update_keeps_unique tid tenant_id u _ _ _ s t).
  - intros clock tid u tenant_id user.
    unfold Server.update_trip, bind, get.
    destruct (find_one (trip_q tid tenant_id) (trips s)) as [t|] eqn:Hf; [|now split].
    destruct (truthy (trip_locked_at t) && negb (is_owner user)); [now split|].
    destruct (Server.trip_number_taken tid tenant_id u t s) eqn:Hfree; [now split|].
    destruct (Server.trip_update_nonempty u); simpl; [|now split].
    now apply (apply_update_keeps_unique tid tenant_id u _ _ _ s t).
Qed.

(** A second trip S13 is created beside S12. *)
Lemma trip_numbers_stay_unique_example :
  NoDup (map trip_id (trips (fst (TripRoutesRest.create_trip clock_2025 "t2" second_trip
                                    "acme" owner_user open_store))))
  /\ numbers_unique (trips (fst (TripRoutesRest.create_trip clock_2025 "t2" second_trip
                                   "acme" owner_user open_store))).
Proof.
  refine (proj1 (trip_numbers_stay_unique open_store _ _)
            clock_2025 "t2" second_trip "acme" owner_user _).
  - simpl. constructor; [intros [] | constructor].
  - unfold numbers_unique. simpl. constructor; [intros [] | constructor].
  - simpl. intros [H | []]. discriminate.
Defined.

(** * The next trip number *)

Lemma parse_digits_of_uint (d : Decimal.uint) (acc : nat) :
  Server.parse_digits acc (NilEmpty.string_of_uint d) = Some (Nat.of_uint_acc d acc).
Proof.
  revert acc. induction d; intros acc; simpl NilEmpty.string_of_uint;
    [reflexivity | ..].
  all: cbn [Server.parse_digits].
  all: match goal with |- context [nat_of_ascii ?c] =>
         let v := eval vm_compute in (nat_of_ascii c) in
         change (nat_of_ascii c) with v end.
  all: match goal with |- context [(48 <=? ?n)%nat && (?n <=? 57)%nat] =>
         change ((48 <=? n)%nat && (n <=? 57)%nat) with true end.
  all: cbv iota; rewrite IHd; cbn [Nat.of_uint_acc]; rewrite Nat.tail_mul_spec.
  all: match goal with |- context [(?n - 48)%nat] =>
         let v := eval vm_compute in (n - 48)%nat in change (n - 48)%nat with v end.
  all: f_equal; f_equal; lia.
Qed.

Lemma str_nat_not_empty (n : nat) : str_nat n <> EmptyString.
Proof.
  unfold str_nat. intros H.
  destruct (Nat.to_uint n) eqn:E; try discriminate.
  pose proof (DecimalNat.Unsigned.of_to n) as Hn. rewrite E in Hn. simpl in Hn.
  subst n. discriminate.
Qed.

(** [int(str(n)) == n]. *)
Lemma int_of_str_nat (n : nat) : Server.int_of_string (str_nat n) = Some n.
Proof.
  unfold Server.int_of_string. pose proof (str_nat_not_empty n) as Hne.
  destruct (str_nat n) eqn:E; [congruence|]. rewrite <- E. unfold str_nat.
  rewrite parse_digits_of_uint. f_equal. apply DecimalNat.Unsigned.of_to.
Qed.

Lemma string_of_uint_digits (d : Decimal.uint) :
  string_forallb is_digit (NilEmpty.string_of_uint d) = true.
Proof. induction d; simpl; auto. Qed.

Lemma chomp_digits (s : string) :
  string_forallb is_digit s = true -> TripRoutesRest.chomp s = s.
Proof.
  induction s as [|c s IH]; simpl; auto.
  intros H. apply andb_prop in H. destruct H as [Hc Hs].
  destruct s as [|c' s'].
  - destruct (Ascii.eqb c TripRoutesRest.newline) eqn:E; auto.
    apply Ascii.eqb_eq in E. subst c. discriminate.
  - now rewrite IH.
Qed.

Lemma S_number_matches (n : nat) :
  String.length (str_nat n) <= 4 ->
  TripRoutesRest.matches_S_digits ("S" ++ str_nat n) = true.
Proof.
  intros Hn. change ("S" ++ str_nat n) with (String "S" (str_nat n)).
  unfold TripRoutesRest.matches_S_digits.
  rewrite (chomp_digits (str_nat n)) by apply string_of_uint_digits.
  assert (H1 : (1 <=? String.length (str_nat n))%nat = true).
  { apply Nat.leb_le. pose proof (str_nat_not_empty n) as Hne.
    destruct (str_nat n); [congruence | simpl; lia]. }
  assert (H2 : (String.length (str_nat n) <=? 4)%nat = true) by now apply Nat.leb_le.
  rewrite Ascii.eqb_refl, H1, H2. apply string_of_uint_digits.
Qed.

Lemma number_after_S_number (n : nat) :
  TripRoutesRest.number_after_S ("S" ++ str_nat n) = Some n.
Proof.
  change ("S" ++ str_nat n) with (String "S" (str_nat n)).
  unfold TripRoutesRest.number_after_S.
  rewrite (chomp_digits (str_nat n)) by apply string_of_uint_digits.
  apply int_of_str_nat.
Qed.

(** The loop keeps a number at least as large as each one it has read. *)
Lemma max_num_loop (listed : list Trip) (start : nat) :
  start <= fold_left
             (fun max_num trip =>
                match TripRoutesRest.number_after_S (trip_number trip) with
                | Some num => if (max_num <? num)%nat then num else max_num
                | None => max_num
                end) listed start
  /\ forall t num, In t listed ->
       TripRoutesRest.number_after_S (trip_number t) = Some num ->
       num <= fold_left
                (fun max_num trip =>
                   match TripRoutesRest.number_after_S (trip_number trip) with
                   | Some num => if (max_num <? num)%nat then num else max_num
                   | None => max_num
                   end) listed start.
Proof.
  revert start. induction listed as [|e listed IH]; intros start; simpl.
  - split; [lia | tauto].
  - set (next := match TripRoutesRest.number_after_S (trip_number e) with
                 | Some num => if (start <? num)%nat then num else start
                 | None => start
                 end).
    assert (Hnext : start <= next
                    /\ forall num, TripRoutesRest.number_after_S (trip_number e) = Some num ->
                                   num <= next).
    { subst next. destruct (TripRoutesRest.number_after_S (trip_number e)) as [k|].
      - destruct (start <? k)%nat eqn:E.
        + apply Nat.ltb_lt in E. split; [lia|]. intros num H. inversion H. lia.
        + apply Nat.ltb_ge in E. split; [lia|]. intros num H. inversion H. lia.
      - split; [lia | discriminate]. }
    destruct (IH next) as [H1 H2]. destruct Hnext as [H3 H4]. split; [lia|].
    intros t num [-> | Hin] Hnum.
    + specialize (H4 num Hnum). lia.
    + eauto.
Qed.

(** X5. When the tenant has at most 1000 trips numbered S and one to four
    digits, and the largest of these numbers plus one is still written with
    at most four digits, the number proposed by get_next_trip_number is S
    followed by that largest number plus one, no trip of the tenant carries
    it, and a request to create a trip under it is not refused: the trip is
    inserted and returned.  The handler itself leaves the store unchanged. *)
Theorem next_trip_number_is_free :
  forall (tenant_id : string) (s : Store),
    List.length (trips_numbered_S tenant_id s) <= 1000 ->
    String.length (str_nat (TripRoutesRest.max_num_of (trips_numbered_S tenant_id s) + 1))
    <= 4 ->
    exists next_number,
      TripRoutesRest.get_next_trip_number tenant_id s = (s, Ok next_number)
      /\ next_number
         = "S" ++ str_nat (TripRoutesRest.max_num_of (trips_numbered_S tenant_id s) + 1)
      /\ (forall t, In t (trips s) -> trip_tenant_id t = tenant_id ->
                    trip_number t <> next_number)
      /\ (forall clock new_id data user,
             ServerRest.tc_trip_number data = next_number ->
             TripRoutesRest.create_trip clock new_id data tenant_id user s
             = (with_trips (insert_one (ServerRest.new_trip clock new_id data tenant_id user)) s,
                Ok (ServerRest.new_trip clock new_id data tenant_id user))).
Proof.
  intros tenant_id s Hcap Hmax.
  assert (Hlisted : TripRoutesRest.numbered_trips tenant_id s = trips_numbered_S tenant_id s).
  { unfold TripRoutesRest.numbered_trips. now apply firstn_whole. }
  set (m := TripRoutesRest.max_num_of (trips_numbered_S tenant_id s)) in *.
  assert (Hfree : forall t, In t (trips s) -> trip_tenant_id t = tenant_id ->
                            trip_number t <> "S" ++ str_nat (m + 1)).
  { intros t Hin Hten Hnum.
    assert (Hl : In t (trips_numbered_S tenant_id s)).
    { unfold trips_numbered_S, find. apply filter_In. split; auto.
      rewrite Hten, Hnum, String.eqb_refl. now apply S_number_matches. }
    pose proof (proj2 (max_num_loop (trips_numbered_S tenant_id s) 0) t (m + 1) Hl) as Hle.
    rewrite Hnum in Hle. specialize (Hle (number_after_S_number (m + 1))).
    fold (TripRoutesRest.max_num_of (trips_numbered_S tenant_id s)) in Hle.
    fold m in Hle. lia. }
  exists ("S" ++ str_nat (m + 1)). split; [|split; [|split]].
  - unfold TripRoutesRest.get_next_trip_number, bind, get, ret. now rewrite Hlisted.
  - reflexivity.
  - exact Hfree.
  - intros clock new_id data user Hdata.
    unfold TripRoutesRest.create_trip, ServerRest.create_trip, bind, get, modify, ret.
    destruct (find_one (ServerRest.number_q tenant_id (ServerRest.tc_trip_number data))
                       (trips s)) as [t|] eqn:Hf; [|reflexivity].
    exfalso. destruct (find_one_In _ _ _ Hf) as [Hin Hq].
    unfold ServerRest.number_q in Hq. apply andb_prop in Hq. destruct Hq as [H1 H2].
    apply String.eqb_eq in H1, H2. apply (Hfree t Hin H1). congruence.
Qed.

(** The open trip is S12: the next number is S13. *)
Lemma next_trip_number_is_free_example :
  exists next_number,
    TripRoutesRest.get_next_trip_number "acme" open_store = (open_store, Ok next_number)
    /\ next_number
       = "S" ++ str_nat (TripRoutesRest.max_num_of (trips_numbered_S "acme" open_store) + 1)
    /\ (forall t, In t (trips open_store) -> trip_tenant_id t = "acme" ->
                  trip_number t <> next_number)
    /\ (forall clock new_id data user,
           ServerRest.tc_trip_number data = next_number ->
           TripRoutesRest.create_trip clock new_id data "acme" user open_store
           = (with_trips (insert_one (ServerRest.new_trip clock new_id data "acme" user))
                open_store,
              Ok (ServerRest.new_trip clock new_id data "acme" user))).
Proof.
  apply (next_trip_number_is_free "acme" open_store).
  - vm_compute. lia.
  - vm_compute. lia.
Defined.

(** * Deleting shipments and invoices *)

Section DeleteFacts.
Context {D : Type} (id_of : D -> string).
Implicit Types (q : D -> bool) (c : list D) (d e : D).

Lemma delete_one_not_found q c : find_one q c = None -> delete_one q c = c.
Proof.
  unfold find_one. induction c as [|x c IH]; simpl; auto.
  destruct (q x); [discriminate|]. intros H. now rewrite IH.
Qed.

Lemma deleted_count_found q c d : find_one q c = Some d -> deleted_count q c = 1.
Proof. apply matched_count_found. Qed.

Lemma deleted_count_not_found q c : find_one q c = None -> deleted_count q c = 0.
Proof. apply matched_count_not_found. Qed.

(** What [delete_one] leaves of a collection with distinct identifiers:
    every document but the first match. *)
Lemma In_delete_one q c d :
  NoDup (map id_of c) -> find_one q c = Some d ->
  forall e, In e (delete_one q c) <-> In e c /\ id_of e <> id_of d.
Proof.
  unfold find_one. induction c as [|x c IH]; simpl; [discriminate|].
  intros Hnd Hf e. inversion Hnd as [|? ? Hx Hc]; subst.
  destruct (q x) eqn:E.
  - inversion Hf; subst. split.
    + intros Hin. split; auto. intros Heq. apply Hx. rewrite <- Heq. now apply in_map.
    + intros [[-> | Hin] Hne]; [congruence | auto].
  - simpl. rewrite (IH Hc Hf e). split.
    + intros [-> | [Hin Hne]]; [|tauto]. split; auto.
      intros Heq. apply Hx. rewrite Heq. apply in_map.
      now apply (find_some _ _ Hf).
    + tauto.
Qed.

End DeleteFacts.

Lemma In_delete_many {D : Type} (q : D -> bool) (c : list D) (e : D) :
  In e (delete_many q c) <-> In e c /\ q e = false.
Proof. unfold delete_many. rewrite filter_In, negb_true_iff. tauto. Qed.

Lemma shipment_q_id sid tenant_id (sh : Shipment) :
  shipment_q sid tenant_id sh = true -> shp_id sh = sid.
Proof.
  unfold shipment_q, by_id_tenant. intros H. apply andb_prop in H.
  now apply String.eqb_eq.
Qed.

Lemma invoice_q_id iid tenant_id (inv : Invoice) :
  invoice_q iid tenant_id inv = true -> inv_id inv = iid.
Proof.
  unfold invoice_q, by_id_tenant. intros H. apply andb_prop in H.
  now apply String.eqb_eq.
Qed.

(** X6. Deleting a shipment the tenant does not have is answered 404 and
    changes nothing.  Deleting one it has, in a store whose shipment ids are
    distinct, removes that shipment and every piece that carries its id, and
    nothing else: the other shipments and pieces, the trips and the invoice
    line items (also those that name the shipment) stay; a second request is
    answered 404. *)
Theorem delete_shipment_cascade :
  forall (sid tenant_id : string) (s : Store),
    (find_one (shipment_q sid tenant_id) (shipments s) = None ->
     ServerRest.delete_shipment sid tenant_id s
     = (s, HTTPException 404 "Shipment not found"))
    /\ (forall sh,
           NoDup (map shp_id (shipments s)) ->
           find_one (shipment_q sid tenant_id) (shipments s) = Some sh ->
           exists s',
             ServerRest.delete_shipment sid tenant_id s = (s', Ok "Shipment deleted")
             /\ (forall e, In e (shipments s') <-> In e (shipments s) /\ shp_id e <> sid)
             /\ (forall p, In p (shipment_pieces s')
                           <-> In p (shipment_pieces s) /\ pc_shipment_id p <> sid)
             /\ with_shipments (fun _ => shipments s)
                  (with_shipment_pieces (fun _ => shipment_pieces s) s') = s
             /\ ServerRest.delete_shipment sid tenant_id s'
                = (s', HTTPException 404 "Shipment not found")).
Proof.
  intros sid tenant_id s. split.
  - intros Hf. unfold ServerRest.delete_shipment, bind, get, modify.
    rewrite (deleted_count_not_found _ _ Hf). simpl.
    unfold raise, with_shipments. rewrite (delete_one_not_found _ _ Hf).
    now rewrite store_eta.
  - intros sh Hnd Hf.
    destruct (find_one_In _ _ _ Hf) as [Hin Hq].
    pose proof (shipment_q_id _ _ _ Hq) as Hid.
    assert (Hleft : forall e, In e (delete_one (shipment_q sid tenant_id) (shipments s))
                              <-> In e (shipments s) /\ shp_id e <> sid).
    { intros e. rewrite (In_delete_one shp_id _ _ sh Hnd Hf). now rewrite Hid. }
    assert (Hgone : find_one (shipment_q sid tenant_id)
                      (delete_one (shipment_q sid tenant_id) (shipments s)) = None).
    { destruct (find_one _ (delete_one _ _)) as [e|] eqn:He; auto.
      destruct (find_one_In _ _ _ He) as [Hine Hqe].
      apply Hleft in Hine. destruct Hine as [_ Hne].
      now apply shipment_q_id in Hqe. }
    exists (with_shipment_pieces (delete_many (piece_of sid))
              (with_shipments (delete_one (shipment_q sid tenant_id)) s)).
    split; [|split; [|split; [|split]]].
    + unfold ServerRest.delete_shipment, bind, get, modify.
      rewrite (deleted_count_found _ _ _ Hf). reflexivity.
    + exact Hleft.
    + intros p. unfold with_shipment_pieces, with_shipments. simpl shipment_pieces.
      rewrite In_delete_many. unfold piece_of. now rewrite String.eqb_neq.
    + unfold with_shipment_pieces, with_shipments. simpl. apply store_eta.
    + unfold ServerRest.delete_shipment, bind, get, modify.
      change (shipments (with_shipment_pieces (delete_many (piece_of sid))
                           (with_shipments (delete_one (shipment_q sid tenant_id)) s)))
        with (delete_one (shipment_q sid tenant_id) (shipments s)).
      rewrite (deleted_count_not_found _ _ Hgone). simpl.
      unfold raise, with_shipments, with_shipment_pieces. simpl.
      now rewrite (delete_one_not_found _ _ Hgone).
Qed.

(** The parcel of two pieces is deleted from the open store. *)
Lemma delete_shipment_cascade_example :
  exists s',
    ServerRest.delete_shipment "s1" "acme" open_store = (s', Ok "Shipment deleted")
    /\ (forall e, In e (shipments s') <-> In e (shipments open_store) /\ shp_id e <> "s1")
    /\ (forall p, In p (shipment_pieces s')
                  <-> In p (shipment_pieces open_store) /\ pc_shipment_id p <> "s1")
    /\ with_shipments (fun _ => shipments open_store)
         (with_shipment_pieces (fun _ => shipment_pieces open_store) s') = open_store
    /\ ServerRest.delete_shipment "s1" "acme" s'
       = (s', HTTPException 404 "Shipment not found").
Proof.
  refine (proj2 (delete_shipment_cascade "s1" "acme" open_store) parcel_1 _ _).
  - simpl. constructor; [intros [] | constructor].
  - reflexivity.
Defined.

(** X7. In a store whose invoice ids are distinct, a request to delete an
    invoice of the tenant that is not a draft, from a user who is not the
    owner, is answered 403 and changes nothing; the request for a draft, or
    from the owner, removes the invoice and every line item that carries its
    id and nothing else: the payments recorded against the invoice stay in
    the store, and reading the invoice afterwards is answered 404. *)
Theorem delete_invoice_cascade :
  forall (iid tenant_id : string) (user : User) (s : Store) (inv : Invoice),
    NoDup (map inv_id (invoices s)) ->
    find_one (invoice_q iid tenant_id) (invoices s) = Some inv ->
    (InvoiceStatus.eqb (inv_status inv) InvoiceStatus.draft = false ->
     is_owner user = false ->
     ServerRest.delete_invoice iid tenant_id user s
     = (s, HTTPException 403 "Only owner can delete non-draft invoices"))
    /\ (InvoiceStatus.eqb (inv_status inv) InvoiceStatus.draft = true
        \/ is_owner user = true ->
        exists s',
          ServerRest.delete_invoice iid tenant_id user s = (s', Ok "Invoice deleted")
          /\ (forall e, In e (invoices s') <-> In e (invoices s) /\ inv_id e <> iid)
          /\ (forall it, In it (invoice_line_items s')
                         <-> In it (invoice_line_items s) /\ item_invoice_id it <> iid)
          /\ with_invoices (fun _ => invoices s)
               (with_invoice_line_items (fun _ => invoice_line_items s) s') = s
          /\ (forall clock,
                 Server.get_invoice clock iid tenant_id s'
                 = (s', HTTPException 404 "Invoice not found"))).
Proof.
  intros iid tenant_id user s inv Hnd Hf. split.
  - intros Hst Hown. unfold ServerRest.delete_invoice, bind, get.
    now rewrite Hf, Hst, Hown.
  - intros Hmay.
    destruct (find_one_In _ _ _ Hf) as [Hin Hq].
    pose proof (invoice_q_id _ _ _ Hq) as Hid.
    assert (Hleft : forall e, In e (delete_one (invoice_q iid tenant_id) (invoices s))
                              <-> In e (invoices s) /\ inv_id e <> iid).
    { intros e. rewrite (In_delete_one inv_id _ _ inv Hnd Hf). now rewrite Hid. }
    assert (Hgone : find_one (invoice_q iid tenant_id)
                      (delete_one (invoice_q iid tenant_id) (invoices s)) = None).
    { destruct (find_one _ (delete_one _ _)) as [e|] eqn:He; auto.
      destruct (find_one_In _ _ _ He) as [Hine Hqe].
      apply Hleft in Hine. destruct Hine as [_ Hne].
      now apply invoice_q_id in Hqe. }
    exists (with_invoices (delete_one (invoice_q iid tenant_id))
              (with_invoice_line_items (delete_many (item_of iid)) s)).
    split; [|split; [|split; [|split]]].
    + unfold ServerRest.delete_invoice, bind, get, modify. rewrite Hf.
      assert (Hguard : negb (InvoiceStatus.eqb (inv_status inv) InvoiceStatus.draft)
                       && negb (is_owner user) = false).
      { destruct Hmay as [-> | ->]; simpl; auto using andb_false_r. }
      now rewrite Hguard.
    + exact Hleft.
    + intros it. unfold with_invoices, with_invoice_line_items. simpl invoice_line_items.
      rewrite In_delete_many. unfold item_of. now rewrite String.eqb_neq.
    + unfold with_invoices, with_invoice_line_items. simpl. apply store_eta.
    + intros clock. unfold Server.get_invoice, bind, get.
      change (invoices (with_invoices (delete_one (invoice_q iid tenant_id))
                          (with_invoice_line_items (delete_many (item_of iid)) s)))
        with (delete_one (invoice_q iid tenant_id) (invoices s)).
      now rewrite Hgone.
Qed.

(** A manager deletes the draft invoice of the billed store. *)
Lemma delete_invoice_cascade_example :
  exists s',
    ServerRest.delete_invoice "inv1" "acme" manager_user small_store
    = (s', Ok "Invoice deleted")
    /\ (forall e, In e (invoices s') <-> In e (invoices small_store) /\ inv_id e <> "inv1")
    /\ (forall it, In it (invoice_line_items s')
                   <-> In it (invoice_line_items small_store)
                       /\ item_invoice_id it <> "inv1")
    /\ with_invoices (fun _ => invoices small_store)
         (with_invoice_line_items (fun _ => invoice_line_items small_store) s')
       = small_store
    /\ (forall clock,
           Server.get_invoice clock "inv1" "acme" s'
           = (s', HTTPException 404 "Invoice not found")).
Proof.
  refine (proj2 (delete_invoice_cascade "inv1" "acme" manager_user small_store
                   draft_invoice _ _) _).
  - simpl. constructor; [intros [] | constructor].
  - reflexivity.
  - left. reflexivity.
Defined.

(** * Scanning and loading pieces *)

(** A rewrite of the documents that the filter does not see. *)
Lemma find_one_map {D : Type} (q : D -> bool) (g : D -> D) (c : list D) :
  (forall e, q (g e) = q e) ->
  find_one q (map g c) = option_map g (find_one q c).
Proof.
  intros Hq. unfold find_one. induction c as [|e c IH]; simpl; auto.
  rewrite Hq. now destruct (q e).
Qed.

Lemma scan_barcode_reads barcode tenant_id s scan s1 :
  ServerRest.scan_barcode barcode tenant_id s = (s1, Ok scan) ->
  s1 = s
  /\ find_one (ServerRest.by_barcode barcode) (shipment_pieces s) = Some (ServerRest.scan_piece scan)
  /\ find_one (shipment_q (pc_shipment_id (ServerRest.scan_piece scan)) tenant_id) (shipments s)
     = Some (ServerRest.scan_shipment scan)
  /\ ServerRest.scan_client scan
     = find_one (fun c => opt_eqb (shp_client_id (ServerRest.scan_shipment scan)) (client_id c))
         (clients s).
Proof.
  unfold ServerRest.scan_barcode, bind, get.
  destruct (find_one (ServerRest.by_barcode barcode) (shipment_pieces s)) as [piece|];
    [|discriminate].
  destruct (find_one (shipment_q (pc_shipment_id piece) tenant_id) (shipments s))
    as [shipment|] eqn:Hs; [|discriminate].
  unfold ret. intros H. inversion H; subst. simpl. auto.
Qed.

(** X8. In a store whose piece ids are distinct, when a scan of a barcode
    by a tenant returns a piece, marking that piece as loaded for the same
    tenant succeeds, stamps loaded_at with the time of the request and
    changes nothing else, so that the same scan afterwards returns the piece
    with the stamp, with the same shipment and client; and the request of a
    tenant that has no shipment with the piece's shipment id is answered 403
    and changes nothing. *)
Theorem loaded_piece_scans_back :
  forall (clock : Clock) (barcode tenant_id : string) (s : Store) (scan : ServerRest.Scan),
    NoDup (map pc_id (shipment_pieces s)) ->
    ServerRest.scan_barcode barcode tenant_id s = (s, Ok scan) ->
    (exists s',
        ServerRest.mark_piece_loaded clock (pc_id (ServerRest.scan_piece scan)) tenant_id s
        = (s', Ok "Piece marked as loaded")
        /\ ServerRest.scan_barcode barcode tenant_id s'
           = (s', Ok (ServerRest.mkScan
                        (ServerRest.set_loaded_at (Some (now_iso clock))
                           (ServerRest.scan_piece scan))
                        (ServerRest.scan_shipment scan) (ServerRest.scan_client scan)))
        /\ shipment_pieces s'
           = map (fun p => if pc_id p =? pc_id (ServerRest.scan_piece scan)
                           then ServerRest.set_loaded_at (Some (now_iso clock)) p else p)
                 (shipment_pieces s)
        /\ with_shipment_pieces (fun _ => shipment_pieces s) s' = s)
    /\ (forall other,
           find_one (shipment_q (pc_shipment_id (ServerRest.scan_piece scan)) other)
                    (shipments s) = None ->
           ServerRest.mark_piece_loaded clock (pc_id (ServerRest.scan_piece scan)) other s
           = (s, HTTPException 403 "Access denied")).
Proof.
  intros clock barcode tenant_id s scan Hnd Hscan.
  destruct (scan_barcode_reads _ _ _ _ _ Hscan) as [_ [Hp [Hs Hc]]].
  destruct scan as [piece shipment client]. simpl in *.
  destruct (find_one_In _ _ _ Hp) as [Hin Hb].
  assert (Hbyid : find_one (piece_by_id (pc_id piece)) (shipment_pieces s) = Some piece).
  { now apply (find_one_unique pc_id). }
  split.
  - exists (with_shipment_pieces
              (update_one (piece_by_id (pc_id piece))
                          (ServerRest.set_loaded_at (Some (now_iso clock)))) s).
    assert (Hmap : update_one (piece_by_id (pc_id piece))
                     (ServerRest.set_loaded_at (Some (now_iso clock))) (shipment_pieces s)
                   = map (fun p => if pc_id p =? pc_id piece
                                   then ServerRest.set_loaded_at (Some (now_iso clock)) p
                                   else p) (shipment_pieces s)).
    { now apply (update_one_unique pc_id). }
    split; [|split; [|split]].
    + unfold ServerRest.mark_piece_loaded, bind, get, modify. now rewrite Hbyid, Hs.
    + unfold ServerRest.scan_barcode, bind, get.
      change (shipment_pieces
                (with_shipment_pieces
                   (update_one (piece_by_id (pc_id piece))
                      (ServerRest.set_loaded_at (Some (now_iso clock)))) s))
        with (update_one (piece_by_id (pc_id piece))
                (ServerRest.set_loaded_at (Some (now_iso clock))) (shipment_pieces s)).
      rewrite Hmap, find_one_map, Hp.
      * cbn [option_map]. cbv beta. rewrite String.eqb_refl.
        change (pc_shipment_id (ServerRest.set_loaded_at (Some (now_iso clock)) piece))
          with (pc_shipment_id piece).
        change (shipments
                  (with_shipment_pieces
                     (update_one (piece_by_id (pc_id piece))
                        (ServerRest.set_loaded_at (Some (now_iso clock)))) s))
          with (shipments s).
        rewrite Hs. unfold ret. now rewrite Hc.
      * intros e. now destruct (pc_id e =? pc_id piece).
    + exact Hmap.
    + unfold with_shipment_pieces. simpl. apply store_eta.
  - intros other Hnone. unfold ServerRest.mark_piece_loaded, bind, get.
    now rewrite Hbyid, Hnone.
Qed.

(** The first piece of the parcel is scanned, loaded and scanned again. *)
Lemma loaded_piece_scans_back_example :
  exists s',
    ServerRest.mark_piece_loaded clock_2025 "p1" "acme" open_store
    = (s', Ok "Piece marked as loaded")
    /\ ServerRest.scan_barcode "TEMP-000111" "acme" s'
       = (s', Ok (ServerRest.mkScan
                    (ServerRest.set_loaded_at (Some (now_iso clock_2025)) piece_1)
                    parcel_1 None))
    /\ shipment_pieces s'
       = map (fun p => if pc_id p =? "p1"
                       then ServerRest.set_loaded_at (Some (now_iso clock_2025)) p else p)
             (shipment_pieces open_store)
    /\ with_shipment_pieces (fun _ => shipment_pieces open_store) s' = open_store.
Proof.
  refine (proj1 (loaded_piece_scans_back clock_2025 "TEMP-000111" "acme" open_store
                   (ServerRest.mkScan piece_1 parcel_1 None) _ _)).
  - simpl. constructor; [intros [H | []]; discriminate |].
    constructor; [intros [] | constructor].
  - reflexivity.
Defined.

(** * The expense totals of a trip *)

Lemma qsum_snoc (l : list Q) (x : Q) : qsum (l ++ [x]) = (qsum l + x)%Q.
Proof. unfold qsum. now rewrite fold_left_app. Qed.

Lemma category_eqb_eq (a b : ExpenseCategory.t) :
  ServerRest.category_eqb a b = true <-> a = b.
Proof. destruct a, b; simpl; split; intros H; try reflexivity; discriminate. Qed.

Lemma category_eqb_refl (a : ExpenseCategory.t) : ServerRest.category_eqb a a = true.
Proof. now apply category_eqb_eq. Qed.

Lemma category_eqb_neq (a b : ExpenseCategory.t) :
  ServerRest.category_eqb a b = false <-> a <> b.
Proof.
  rewrite <- category_eqb_eq. destruct (ServerRest.category_eqb a b); split; congruence.
Qed.

Lemma expense_totals_snoc (l : list TripExpense) (x : TripExpense) :
  ServerRest.expense_totals_of (l ++ [x])
  = (ServerRest.add_amount (exp_category x) (exp_amount x)
       (fst (ServerRest.expense_totals_of l)),
     (snd (ServerRest.expense_totals_of l) + exp_amount x)%Q).
Proof. unfold ServerRest.expense_totals_of. now rewrite fold_left_app. Qed.

(** [add_amount] is the dictionary update [d[k] = d.get(k, 0) + amount]. *)
Lemma category_total_add category c a m :
  category_total category (ServerRest.add_amount c a m)
  = if ServerRest.category_eqb c category then (category_total category m + a)%Q
    else category_total category m.
Proof.
  unfold category_total, find_one. induction m as [|[k v] m IH]; simpl.
  - now destruct (ServerRest.category_eqb c category).
  - destruct (ServerRest.category_eqb k c) eqn:Ekc; simpl.
    + apply category_eqb_eq in Ekc. subst k.
      now destruct (ServerRest.category_eqb c category).
    + destruct (ServerRest.category_eqb k category) eqn:Ek; auto.
      apply category_eqb_eq in Ek. subst k.
      destruct (ServerRest.category_eqb c category) eqn:Ec; auto.
      apply category_eqb_eq in Ec. subst c.
      rewrite category_eqb_refl in Ekc. discriminate.
Qed.

Lemma keys_add k c a m :
  In k (map fst (ServerRest.add_amount c a m)) <-> k = c \/ In k (map fst m).
Proof.
  induction m as [|[k0 v] m IH]; simpl.
  - intuition.
  - destruct (ServerRest.category_eqb k0 c) eqn:E; simpl.
    + apply category_eqb_eq in E. subst k0. intuition.
    + rewrite IH. intuition.
Qed.

Lemma keys_add_NoDup c a m :
  NoDup (map fst m) -> NoDup (map fst (ServerRest.add_amount c a m)).
Proof.
  induction m as [|[k0 v] m IH]; simpl; intros Hnd.
  - constructor; [tauto | constructor].
  - inversion Hnd as [|? ? Hk Hm]; subst.
    destruct (ServerRest.category_eqb k0 c) eqn:E; simpl.
    + now constructor.
    + constructor; auto. rewrite keys_add. intros [-> | H]; [|tauto].
      now rewrite category_eqb_refl in E.
Qed.

Lemma spent_on_snoc category l x :
  spent_on category (l ++ [x])
  = if ServerRest.category_eqb (exp_category x) category
    then (spent_on category l + exp_amount x)%Q else spent_on category l.
Proof.
  unfold spent_on, find. rewrite filter_app. cbn [filter].
  destruct (ServerRest.category_eqb (exp_category x) category).
  - rewrite map_app. cbn [map]. now rewrite qsum_snoc.
  - now rewrite app_nil_r.
Qed.

(** The loop of [get_trip] over any list of expenses. *)
Lemma expense_totals_loop (expenses : list TripExpense) :
  snd (ServerRest.expense_totals_of expenses) = qsum (map exp_amount expenses)
  /\ NoDup (map fst (fst (ServerRest.expense_totals_of expenses)))
  /\ (forall category,
         category_total category (fst (ServerRest.expense_totals_of expenses))
         = spent_on category expenses)
  /\ (forall category,
         In category (map fst (fst (ServerRest.expense_totals_of expenses)))
         <-> exists e, In e expenses /\ exp_category e = category).
Proof.
  induction expenses as [|x l IH] using rev_ind.
  - simpl. repeat split; try reflexivity; try constructor; try tauto.
    intros [e [[] _]].
  - destruct IH as [Htot [Hnd [Hcat Hkeys]]].
    rewrite expense_totals_snoc. simpl fst. simpl snd.
    split; [|split; [|split]].
    + rewrite map_app. cbn [map]. now rewrite qsum_snoc, Htot.
    + now apply keys_add_NoDup.
    + intros category. now rewrite category_total_add, spent_on_snoc, Hcat.
    + intros category. rewrite keys_add, Hkeys. split.
      * intros [-> | [e [He Hc]]].
        -- exists x. split; auto. apply in_or_app. right. now left.
        -- exists e. split; auto. apply in_or_app. now left.
      * intros [e [He Hc]]. apply in_app_or in He. destruct He as [He | [-> | []]].
        -- right. eauto.
        -- now left.
Qed.

(** X9. Reading a trip of the tenant, with get_trip of the server or of
    the trip routes, leaves the store unchanged and returns
    the trip with totals computed from the expenses it returns: the total of
    all expenses is their amounts added up in the order returned, the
    dictionary of totals has one entry for each category that occurs among
    them and no other, and each entry is the amounts of the expenses of its
    category added up in the order returned; every expense returned carries
    the trip id and every shipment returned is one of the tenant's on the
    trip.  The sums are those the handler computes, addition by addition:
    nothing is claimed on how the entries add up to the total, which in
    floating point depends on the order of the additions. *)
Theorem trip_expense_totals :
  forall (get_trip : string -> string -> handler Store ServerRest.TripDetail)
         (tid tenant_id : string) (s : Store) (t : Trip),
    get_trip = ServerRest.get_trip \/ get_trip = TripRoutesRest.get_trip ->
    find_one (trip_q tid tenant_id) (trips s) = Some t ->
    exists detail,
      get_trip tid tenant_id s = (s, Ok detail)
      /\ ServerRest.td_trip detail = t
      /\ ServerRest.td_total_expenses detail
         = qsum (map exp_amount (ServerRest.td_expenses detail))
      /\ NoDup (map fst (ServerRest.td_expense_totals detail))
      /\ (forall category,
             category_total category (ServerRest.td_expense_totals detail)
             = spent_on category (ServerRest.td_expenses detail))
      /\ (forall category,
             In category (map fst (ServerRest.td_expense_totals detail))
             <-> exists e, In e (ServerRest.td_expenses detail)
                           /\ exp_category e = category)
      /\ (forall e, In e (ServerRest.td_expenses detail) ->
                    In e (trip_expenses s) /\ exp_trip_id e = tid)
      /\ (forall sh, In sh (ServerRest.td_shipments detail) ->
                     In sh (shipments s)
                     /\ shp_trip_id sh = Some tid /\ shp_tenant_id sh = tenant_id).
Proof.
  intros get_trip tid tenant_id s t Hget Hf.
  assert (Hsame : get_trip = ServerRest.get_trip) by (destruct Hget; assumption).
  subst get_trip.
  unfold ServerRest.get_trip, bind, get. rewrite Hf. unfold ret.
  eexists. split; [reflexivity|]. simpl.
  set (expenses := to_list 100 (sort_desc exp_expense_date
                                  (find (expense_of_trip tid) (trip_expenses s)))).
  destruct (expense_totals_loop expenses) as [H1 [H3 [H4 H5]]].
  split; [reflexivity|]. split; [exact H1|]. split; [exact H3|].
  split; [exact H4|]. split; [exact H5|]. split.
  - intros e He. apply In_to_list, In_sort_desc in He. unfold find in He.
    apply filter_In in He. destruct He as [He Hq]. split; auto.
    unfold expense_of_trip in Hq. now apply String.eqb_eq.
  - intros sh Hsh. apply In_to_list in Hsh. unfold find in Hsh.
    apply filter_In in Hsh. destruct Hsh as [Hin Hon]. split; [exact Hin|].
    now apply on_trip_true.
Qed.

(** The trip with two fuel expenses and one toll. *)
Lemma trip_expense_totals_example :
  exists detail,
    TripRoutesRest.get_trip "t1" "acme" expenses_store = (expenses_store, Ok detail)
    /\ ServerRest.td_trip detail = open_trip
    /\ ServerRest.td_total_expenses detail
       = qsum (map exp_amount (ServerRest.td_expenses detail))
    /\ NoDup (map fst (ServerRest.td_expense_totals detail))
    /\ (forall category,
           category_total category (ServerRest.td_expense_totals detail)
           = spent_on category (ServerRest.td_expenses detail))
    /\ (forall category,
           In category (map fst (ServerRest.td_expense_totals detail))
           <-> exists e, In e (ServerRest.td_expenses detail)
                         /\ exp_category e = category)
    /\ (forall e, In e (ServerRest.td_expenses detail) ->
                  In e (trip_expenses expenses_store) /\ exp_trip_id e = "t1")
    /\ (forall sh, In sh (ServerRest.td_shipments detail) ->
                   In sh (shipments expenses_store)
                   /\ shp_trip_id sh = Some "t1" /\ shp_tenant_id sh = "acme").
Proof.
  apply (trip_expense_totals TripRoutesRest.get_trip "t1" "acme" expenses_store open_trip).
  - now right.
  - reflexivity.
Defined.

(** * The financial summary *)

Lemma total_for_add clock st acc inv :
  total_for st (ServerRest.add_total clock acc inv)
  = if InvoiceStatus.eqb (ServerRest.effective_status clock inv) st
    then (total_for st acc + inv_total inv)%Q else total_for st acc.
Proof.
  unfold ServerRest.add_total.
  destruct (ServerRest.effective_status clock inv), st; reflexivity.
Qed.

(** The loop of the summary, for one status: the totals of the invoices
    counted under it are added to the accumulator one after the other. *)
Lemma totals_loop clock st (l : list Invoice) :
  forall acc,
    total_for st (fold_left (ServerRest.add_total clock) l acc)
    = fold_left Qplus (map inv_total (counted_as clock st l)) (total_for st acc).
Proof.
  induction l as [|i l IH]; intros acc; simpl.
  - reflexivity.
  - rewrite IH, total_for_add. unfold counted_as, find. simpl.
    now destruct (InvoiceStatus.eqb (ServerRest.effective_status clock i) st).
Qed.

(** X10. The financial summary leaves the store unchanged and is computed
    from the first 1000 invoices of the tenant: the total of each status is
    the totals of the invoices counted under it, added up from 0 in the
    order read, where an invoice that is neither paid nor overdue and past
    its due date counts as overdue whatever its stored status; the
    outstanding amount is the sent total plus the overdue total; the count
    is the number of invoices read.  The sums are those the handler
    computes, addition by addition. *)
Theorem summary_totals_by_status :
  forall (clock : Clock) (tenant_id : string) (s : Store),
    exists sm,
      ServerRest.get_financial_summary clock tenant_id s = (s, Ok sm)
      /\ (forall st,
             total_for st (ServerRest.invoice_totals sm)
             = qsum (map inv_total (counted_as clock st (summarised tenant_id s))))
      /\ ServerRest.total_outstanding sm
         = (ServerRest.sent_total (ServerRest.invoice_totals sm)
            + ServerRest.overdue_total (ServerRest.invoice_totals sm))%Q
      /\ ServerRest.invoice_count sm = List.length (summarised tenant_id s).
Proof.
  intros clock tenant_id s.
  unfold ServerRest.get_financial_summary, bind, get, ret.
  eexists. split; [reflexivity|]. simpl.
  fold (summarised tenant_id s). split; [|split]; try reflexivity.
  intros st. rewrite totals_loop. now destruct st.
Qed.

(** ** Reads do not move the figures *)

Lemma flipped_effective clock a b :
  flipped_or_same clock a b ->
  ServerRest.effective_status clock b = ServerRest.effective_status clock a
  /\ inv_total b = inv_total a /\ inv_tenant_id b = inv_tenant_id a
  /\ inv_id b = inv_id a.
Proof.
  intros [-> | [Hp ->]]; auto.
  unfold ServerRest.effective_status. rewrite Hp. repeat split.
Qed.

Lemma flipped_add_total clock acc a b :
  flipped_or_same clock a b ->
  ServerRest.add_total clock acc b = ServerRest.add_total clock acc a.
Proof.
  intros H. destruct (flipped_effective clock a b H) as [He [Ht _]].
  unfold ServerRest.add_total. now rewrite He, Ht.
Qed.

Lemma flipped_filter clock tenant_id c c' :
  Forall2 (flipped_or_same clock) c c' ->
  Forall2 (flipped_or_same clock) (find (ServerRest.of_tenant tenant_id) c)
          (find (ServerRest.of_tenant tenant_id) c').
Proof.
  unfold find. induction 1 as [|a b c c' Hab Hc IH]; cbn [filter]; [constructor|].
  destruct (flipped_effective clock a b Hab) as [_ [_ [Ht _]]].
  assert (Heq : ServerRest.of_tenant tenant_id b = ServerRest.of_tenant tenant_id a)
    by (unfold ServerRest.of_tenant; now rewrite Ht).
  rewrite Heq. destruct (ServerRest.of_tenant tenant_id a); auto.
Qed.

Lemma flipped_to_list clock n c c' :
  Forall2 (flipped_or_same clock) c c' ->
  Forall2 (flipped_or_same clock) (to_list n c) (to_list n c').
Proof.
  unfold to_list. intros H. revert n.
  induction H as [|a b c c' Hab Hc IH]; intros [|n]; simpl; constructor; auto.
Qed.

Lemma flipped_fold clock c c' :
  Forall2 (flipped_or_same clock) c c' ->
  forall acc,
    fold_left (ServerRest.add_total clock) c' acc
    = fold_left (ServerRest.add_total clock) c acc.
Proof.
  induction 1 as [|a b c c' Hab Hc IH]; intros acc; simpl; auto.
  now rewrite (flipped_add_total clock acc a b Hab), IH.
Qed.

Lemma flipped_length clock c c' :
  Forall2 (flipped_or_same clock) c c' -> List.length c' = List.length c.
Proof. induction 1; simpl; auto. Qed.

Lemma flipped_refl clock c : Forall2 (flipped_or_same clock) c c.
Proof. induction c; constructor; auto. now left. Qed.

(** The figures of the summary are the same on two versions of the invoices
    that differ by flips. *)
Lemma figures_of_flipped clock tenant_id s s' :
  Forall2 (flipped_or_same clock) (invoices s) (invoices s') ->
  payments s' = payments s ->
  exists sm sm',
    ServerRest.get_financial_summary clock tenant_id s = (s, Ok sm)
    /\ ServerRest.get_financial_summary clock tenant_id s' = (s', Ok sm')
    /\ figures sm' = figures sm.
Proof.
  intros Hrel Hpay. unfold ServerRest.get_financial_summary, bind, get, ret.
  eexists. eexists. split; [reflexivity|]. split; [reflexivity|].
  unfold figures. simpl.
  pose proof (flipped_to_list clock 1000 _ _ (flipped_filter clock tenant_id _ _ Hrel))
    as Hl.
  rewrite (flipped_fold clock _ _ Hl), (flipped_length clock _ _ Hl), Hpay.
  reflexivity.
Qed.

(** One flip of a past-due document, by identifier, on a version of the
    collection that differs from [c0] by flips. *)
Lemma flipped_step clock (i : Invoice) (c0 c : list Invoice) :
  (forall a, In a c0 -> inv_id a = inv_id i -> is_past_due clock a = true) ->
  Forall2 (flipped_or_same clock) c0 c ->
  Forall2 (flipped_or_same clock) c0
    (map (fun e => if inv_id e =? inv_id i
                   then set_invoice_status InvoiceStatus.overdue e else e) c).
Proof.
  intros Hdue H. induction H as [|a b c0 c Hab Hc IH]; simpl; constructor.
  - destruct (flipped_effective clock a b Hab) as [_ [_ [_ Hid]]].
    destruct (inv_id b =? inv_id i) eqn:E; auto.
    apply String.eqb_eq in E. right. split.
    + apply Hdue; [now left | congruence].
    + destruct Hab as [-> | [_ ->]]; reflexivity.
  - apply IH. intros a0 Ha0. apply Hdue. now right.
Qed.

Lemma flipped_ids clock c0 c :
  Forall2 (flipped_or_same clock) c0 c -> map inv_id c = map inv_id c0.
Proof.
  induction 1 as [|a b c0 c Hab Hc IH]; simpl; auto.
  destruct (flipped_effective clock a b Hab) as [_ [_ [_ Hid]]]. now rewrite Hid, IH.
Qed.

Lemma flipped_flip_step clock (i : Invoice) (c0 c : list Invoice) :
  NoDup (map inv_id c0) -> In i c0 ->
  Forall2 (flipped_or_same clock) c0 c ->
  Forall2 (flipped_or_same clock) c0 (flip_step clock c i).
Proof.
  intros Hnd Hin Hrel. unfold flip_step. destruct (is_past_due clock i) eqn:Hp; auto.
  unfold invoice_by_id. rewrite (update_one_unique inv_id).
  - apply flipped_step; auto. intros a Ha Hid.
    now rewrite (NoDup_map_eq inv_id c0 a i Hnd Ha Hin Hid).
  - now rewrite (flipped_ids clock c0 c Hrel).
Qed.

Lemma flipped_flip_fold clock (listed c0 : list Invoice) :
  NoDup (map inv_id c0) -> (forall i, In i listed -> In i c0) ->
  forall c,
    Forall2 (flipped_or_same clock) c0 c ->
    Forall2 (flipped_or_same clock) c0 (fold_left (flip_step clock) listed c).
Proof.
  intros Hnd. induction listed as [|i listed IH]; intros Hl c Hrel; simpl; auto.
  apply IH.
  - intros j Hj. apply Hl. now right.
  - apply flipped_flip_step; auto. apply Hl. now left.
Qed.

(** X11. In a store whose invoice ids are distinct, reading an invoice
    with get_invoice or listing invoices with list_invoices, which may store
    invoices as overdue, does not change the figures of the financial
    summary taken with the same clock, for any tenant: the four totals, the
    outstanding amount, the amount received and the invoice count are the
    same before and after the read. *)
Theorem reads_keep_the_summary :
  forall (clock : Clock) (tenant_id : string) (s : Store),
    NoDup (map inv_id (invoices s)) ->
    (forall iid reader,
        exists sm sm',
          ServerRest.get_financial_summary clock tenant_id s = (s, Ok sm)
          /\ ServerRest.get_financial_summary clock tenant_id
               (fst (Server.get_invoice clock iid reader s))
             = (fst (Server.get_invoice clock iid reader s), Ok sm')
          /\ figures sm' = figures sm)
    /\ (forall status client_id0 reader,
           exists sm sm',
             ServerRest.get_financial_summary clock tenant_id s = (s, Ok sm)
             /\ ServerRest.get_financial_summary clock tenant_id
                  (fst (Server.list_invoices clock status client_id0 reader s))
                = (fst (Server.list_invoices clock status client_id0 reader s), Ok sm')
             /\ figures sm' = figures sm).
Proof.
  intros clock tenant_id s Hnd. split.
  - intros iid reader. apply figures_of_flipped.
    + unfold Server.get_invoice, bind, get.
      destruct (find_one (invoice_q iid reader) (invoices s)) as [inv|] eqn:Hf;
        [|apply flipped_refl].
      destruct (find_one_In _ _ _ Hf) as [Hin Hq].
      pose proof (invoice_q_id _ _ _ Hq) as Hid.
      destruct (is_past_due clock inv) eqn:Hp; unfold modify, ret; simpl;
        [|apply flipped_refl].
      unfold invoice_by_id. rewrite (update_one_unique inv_id); auto.
      rewrite <- Hid. apply flipped_step; [|apply flipped_refl].
      intros a Ha Ha_id. now rewrite (NoDup_map_eq inv_id (invoices s) a inv Hnd Ha Hin Ha_id).
    + unfold Server.get_invoice, bind, get.
      destruct (find_one (invoice_q iid reader) (invoices s)) as [inv|]; auto.
      destruct (is_past_due clock inv); reflexivity.
  - intros status client_id0 reader. apply figures_of_flipped.
    + unfold Server.list_invoices, bind, get. rewrite list_invoices_loop_effect.
      simpl. apply flipped_flip_fold; auto; [|apply flipped_refl].
      intros i Hi. now apply (listed_In status client_id0 reader s i).
    + unfold Server.list_invoices, bind, get. rewrite list_invoices_loop_effect.
      reflexivity.
Qed.

(** The late invoice is read, then the summary is taken. *)
Lemma reads_keep_the_summary_example :
  exists sm sm',
    ServerRest.get_financial_summary clock_2025 "acme" late_store = (late_store, Ok sm)
    /\ ServerRest.get_financial_summary clock_2025 "acme"
         (fst (Server.get_invoice clock_2025 "inv9" "acme" late_store))
       = (fst (Server.get_invoice clock_2025 "inv9" "acme" late_store), Ok sm')
    /\ figures sm' = figures sm.
Proof.
  refine (proj1 (reads_keep_the_summary clock_2025 "acme" late_store _) "inv9" "acme").
  simpl. constructor; [intros [H | []]; discriminate |].
  constructor; [intros [] | constructor].
Defined.

(** * One invoice for each client that is not billed yet *)

Lemma find_one_snoc_miss {D : Type} (q : D -> bool) (c : list D) (d : D) :
  q d = false -> find_one q (c ++ [d])%list = find_one q c.
Proof.
  intros Hq. unfold find_one. induction c as [|e c IH]; simpl.
  - now rewrite Hq.
  - now destruct (q e).
Qed.

Lemma new_invoice_generated clock new_id tid tenant_id user cid ships s :
  let doc := fst (TripRoutes.new_invoice clock new_id tid tenant_id user cid ships s) in
  generated_for clock tid tenant_id user doc
  /\ inv_id doc = new_id /\ inv_client_id doc = cid
  /\ inv_shipment_ids doc = Some (map shp_id ships)
  /\ inv_invoice_number doc
     = TripRoutes.ci_invoice_number
         (snd (TripRoutes.new_invoice clock new_id tid tenant_id user cid ships s)).
Proof. cbv zeta. unfold TripRoutes.new_invoice, generated_for. simpl. repeat split. Qed.

(** An invoice of another client does not change whether a group is billed. *)
Lemma unbilled_other_client tenant_id (c : list Invoice) (doc : Invoice)
  (g : string * list Shipment) :
  inv_client_id doc <> fst g ->
  unbilled tenant_id (c ++ [doc])%list g = unbilled tenant_id c g.
Proof.
  intros Hne. unfold unbilled. rewrite find_one_snoc_miss; auto.
  unfold TripRoutes.existing_q.
  apply String.eqb_neq in Hne. rewrite Hne. now rewrite andb_false_r.
Qed.

(** The loop over groups of distinct clients: one document for each group
    that the invoices at the start do not cover, in the order of the groups. *)
Lemma generate_loop_clients clock uuid4 tid tenant_id user groups :
  forall acc s,
    NoDup (map fst groups) ->
    exists added new,
      TripRoutes.generate_loop clock uuid4 tid tenant_id user groups acc s
      = (with_invoices (fun c => (c ++ added)%list) s, Ok (acc ++ new)%list)
      /\ map inv_client_id added
         = map fst (List.filter (unbilled tenant_id (invoices s)) groups)
      /\ map inv_shipment_ids added
         = map (fun g => Some (map shp_id (snd g)))
               (List.filter (unbilled tenant_id (invoices s)) groups)
      /\ Forall (generated_for clock tid tenant_id user) added
      /\ map inv_id added = map uuid4 (seq (List.length acc) (List.length added))
      /\ map inv_invoice_number added = map TripRoutes.ci_invoice_number new.
Proof.
  induction groups as [|[cid ships] rest IH]; intros acc s Hnd.
  - exists [], []. simpl. unfold ret. rewrite !app_nil_r.
    assert (E : with_invoices (fun c => (c ++ [])%list) s = s).
    { unfold with_invoices. rewrite app_nil_r. apply store_eta. }
    rewrite E. repeat split; auto.
  - simpl in Hnd. inversion Hnd as [|? ? Hcid Hrest]; subst.
    cbn [TripRoutes.generate_loop]. unfold bind at 1. unfold get at 1.
    assert (Hu : unbilled tenant_id (invoices s) (cid, ships)
                 = negb (Server.is_some
                           (find_one (TripRoutes.existing_q tenant_id cid (map shp_id ships))
                                     (invoices s)))) by reflexivity.
    cbn [List.filter]. rewrite Hu. clear Hu.
    destruct (find_one (TripRoutes.existing_q tenant_id cid (map shp_id ships)) (invoices s))
      as [existing|] eqn:Hex; cbn [Server.is_some negb].
    + destruct (IH acc s Hrest) as [added [new H]]. exists added, new. exact H.
    + destruct (TripRoutes.new_invoice clock (uuid4 (List.length acc)) tid tenant_id user
                  cid ships s) as [doc created] eqn:Hdoc.
      pose proof (new_invoice_generated clock (uuid4 (List.length acc)) tid tenant_id user
                    cid ships s) as Hfields.
      rewrite Hdoc in Hfields. cbv zeta in Hfields. cbn [fst snd] in Hfields.
      destruct Hfields as [Hgen [Hid [Hclient [Hships Hnumber]]]].
      unfold bind, modify.
      destruct (IH (acc ++ [created])%list (with_invoices (insert_one doc) s) Hrest)
        as [added [new [Hrun [Hc [Hs [Hall [Hids Hnums]]]]]]].
      rewrite Hrun.
      change (invoices (with_invoices (insert_one doc) s))
        with (invoices s ++ [doc])%list in *.
      assert (Hfilter : List.filter (unbilled tenant_id (invoices s ++ [doc])%list) rest
                        = List.filter (unbilled tenant_id (invoices s)) rest).
      { apply filter_ext_in. intros g Hg. apply unbilled_other_client.
        rewrite Hclient. intros E. apply Hcid. rewrite E. now apply in_map. }
      rewrite Hfilter in Hc, Hs.
      exists (doc :: added), (created :: new). split; [|split; [|split; [|split; [|split]]]].
      * f_equal; [|now rewrite <- app_assoc].
        unfold with_invoices, insert_one. simpl. f_equal. now rewrite <- app_assoc.
      * simpl. now rewrite Hclient, Hc.
      * simpl. now rewrite Hships, Hs.
      * now constructor.
      * simpl. rewrite Hid. f_equal. rewrite Hids, length_app. simpl.
        now rewrite Nat.add_1_r.
      * simpl. now rewrite Hnumber, Hnums.
Qed.

(** ** The groups are the clients of the parcels *)

Lemma add_parcel_keys k cid parcel groups :
  In k (map fst (TripRoutes.add_parcel cid parcel groups)) <-> k = cid \/ In k (map fst groups).
Proof.
  induction groups as [|[k0 ps] groups IH]; simpl.
  - intuition.
  - destruct (k0 =? cid) eqn:E; simpl.
    + apply String.eqb_eq in E. subst k0. intuition.
    + rewrite IH. intuition.
Qed.

Lemma add_parcel_NoDup cid parcel groups :
  NoDup (map fst groups) -> NoDup (map fst (TripRoutes.add_parcel cid parcel groups)).
Proof.
  induction groups as [|[k0 ps] groups IH]; simpl; intros Hnd.
  - constructor; [tauto | constructor].
  - inversion Hnd as [|? ? Hk Hg]; subst.
    destruct (k0 =? cid) eqn:E; simpl.
    + now constructor.
    + constructor; auto. rewrite add_parcel_keys. intros [-> | H]; [|tauto].
      now rewrite String.eqb_refl in E.
Qed.

Lemma group_of_add k cid parcel groups :
  group_of k (TripRoutes.add_parcel cid parcel groups)
  = if cid =? k then (group_of k groups ++ [parcel])%list else group_of k groups.
Proof.
  unfold group_of, find_one. induction groups as [|[k0 ps] groups IH]; simpl.
  - now destruct (cid =? k).
  - destruct (k0 =? cid) eqn:E; simpl.
    + apply String.eqb_eq in E. subst k0. now destruct (cid =? k).
    + destruct (k0 =? k) eqn:Ek; auto.
      apply String.eqb_eq in Ek. subst k0. now rewrite String.eqb_sym, E.
Qed.

Lemma group_by_client_snoc parcels parcel :
  TripRoutes.group_by_client (parcels ++ [parcel])
  = if truthy (shp_client_id parcel) then
      match shp_client_id parcel with
      | Some cid => TripRoutes.add_parcel cid parcel (TripRoutes.group_by_client parcels)
      | None => TripRoutes.group_by_client parcels
      end
    else TripRoutes.group_by_client parcels.
Proof. unfold TripRoutes.group_by_client. now rewrite fold_left_app. Qed.

Lemma parcels_of_client_snoc k parcels parcel :
  parcels_of_client k (parcels ++ [parcel])
  = if opt_eqb (shp_client_id parcel) k then (parcels_of_client k parcels ++ [parcel])%list
    else parcels_of_client k parcels.
Proof.
  unfold parcels_of_client, find. rewrite filter_app. cbn [List.filter].
  destruct (opt_eqb (shp_client_id parcel) k); [reflexivity | now rewrite app_nil_r].
Qed.

(** The dictionary built by the grouping loop: its keys are distinct and
    non-empty, and the group of a key is the list of the parcels of that
    client, in the order they were read. *)
Lemma group_by_client_groups (parcels : list Shipment) :
  NoDup (map fst (TripRoutes.group_by_client parcels))
  /\ (forall k, In k (map fst (TripRoutes.group_by_client parcels)) -> k <> EmptyString)
  /\ (forall k, k <> EmptyString ->
                group_of k (TripRoutes.group_by_client parcels)
                = parcels_of_client k parcels).
Proof.
  induction parcels as [|x l IH] using rev_ind.
  - split; [constructor|]. split; [intros k []|]. reflexivity.
  - destruct IH as [Hnd [Hkeys Hgroups]]. rewrite group_by_client_snoc.
    destruct (shp_client_id x) as [cid|] eqn:Ec; cbn [truthy].
    + destruct (cid =? EmptyString) eqn:Ee; cbn [negb].
      * apply String.eqb_eq in Ee. subst cid.
        split; [auto|]. split; [auto|]. intros k Hk.
        rewrite (Hgroups k Hk), parcels_of_client_snoc, Ec. cbn [opt_eqb].
        assert (E : (EmptyString =? k) = false) by (apply String.eqb_neq; congruence).
        now rewrite E.
      * apply String.eqb_neq in Ee.
        split; [now apply add_parcel_NoDup|]. split.
        -- intros k Hk. apply add_parcel_keys in Hk. destruct Hk as [-> | Hk]; auto.
        -- intros k Hk. rewrite group_of_add, (Hgroups k Hk), parcels_of_client_snoc, Ec.
           reflexivity.
    + split; [auto|]. split; [auto|]. intros k Hk.
      now rewrite (Hgroups k Hk), parcels_of_client_snoc, Ec.
Qed.

Lemma group_of_In k ships (groups : list (string * list Shipment)) :
  NoDup (map fst groups) -> In (k, ships) groups -> group_of k groups = ships.
Proof.
  unfold group_of, find_one. induction groups as [|[k0 ps] groups IH]; simpl; [tauto|].
  intros Hnd [E | Hin].
  - inversion E; subst. now rewrite String.eqb_refl.
  - inversion Hnd as [|? ? Hk Hg]; subst.
    destruct (k0 =? k) eqn:Ek; auto.
    apply String.eqb_eq in Ek. subst k0. exfalso. apply Hk.
    change k with (fst (k, ships)). now apply in_map.
Qed.

(** * The barcodes written by an assignment *)

Lemma rebarcode_pieces_ext new_barcode new_barcode' draws pieces :
  (forall r p, new_barcode r p = new_barcode' r p) ->
  forall rng c,
    rebarcode_pieces new_barcode draws rng pieces c
    = rebarcode_pieces new_barcode' draws rng pieces c.
Proof.
  intros Hext. induction pieces as [|p rest IH]; intros rng c; simpl; auto.
  now rewrite Hext, IH.
Qed.

Lemma set_barcode_twice b b' (p : ShipmentPiece) :
  set_barcode b (set_barcode b' p) = set_barcode b p.
Proof. reflexivity. Qed.

(** The loop with a barcode that depends on the piece number only: every
    stored piece that was read gets the barcode of its number. *)
Lemma rebarcode_by_number (f : Z -> string) draws pieces :
  forall rng c,
    NoDup (map pc_id c) ->
    (forall p e, In p pieces -> In e c -> pc_id e = pc_id p ->
                 pc_piece_number e = pc_piece_number p) ->
    rebarcode_pieces (fun _ p => f (pc_piece_number p)) draws rng pieces c
    = map (fun e => if read_by pieces e then set_barcode (f (pc_piece_number e)) e else e) c.
Proof.
  induction pieces as [|p rest IH]; intros rng c Hnd Hnum; simpl.
  - rewrite <- (map_id c) at 1. now apply map_ext.
  - set (c1 := update_one (piece_by_id (pc_id p)) (set_barcode (f (pc_piece_number p))) c).
    assert (Hc1 : c1 = map (fun e => if pc_id e =? pc_id p
                                     then set_barcode (f (pc_piece_number p)) e else e) c).
    { unfold c1, piece_by_id. now apply (update_one_unique pc_id). }
    rewrite IH.
    + rewrite Hc1, map_map. apply map_ext_in. intros e He. unfold read_by. simpl.
      rewrite (String.eqb_sym (pc_id p) (pc_id e)).
      destruct (pc_id e =? pc_id p) eqn:E; simpl.
      * apply String.eqb_eq in E.
        rewrite (Hnum p e (or_introl eq_refl) He E).
        now destruct (existsb _ rest).
      * reflexivity.
    + unfold c1, piece_by_id. now rewrite (update_one_keeps_ids pc_id).
    + intros q e Hq He Hid. rewrite Hc1 in He. apply in_map_iff in He.
      destruct He as [e0 [<- He0]].
      assert (Hid0 : pc_id e0 = pc_id q).
      { destruct (pc_id e0 =? pc_id p); exact Hid. }
      rewrite <- (Hnum q e0 (or_intror Hq) He0 Hid0).
      now destruct (pc_id e0 =? pc_id p).
Qed.

Lemma trip_barcode_generated rng number count piece_number :
  number <> EmptyString ->
  TripRoutes.generate_barcode rng (Some number) (Z.of_nat count) piece_number
  = trip_barcode number count piece_number.
Proof.
  intros Hn. unfold TripRoutes.generate_barcode, Server.generate_barcode.
  now rewrite (truthy_some number Hn).
Qed.

(** X13. In a store whose piece ids are distinct, take a shipment of the
    tenant and an unlocked trip of the tenant whose trip number is not
    empty, and let no write of a barcode meet the unique index of the store
    ([barcodes_free]).  Assigning the shipment to the trip succeeds, sets the
    shipment's trip and the status staged, and gives every piece read for
    the shipment (its first 100) the barcode made of the trip number, the
    number of shipments of the tenant on the trip after the assignment on
    three digits and the piece's own number on two; every other piece and
    every other field of a piece is as before, and no random draw is used. *)
Theorem assignment_writes_trip_barcodes :
  forall (rng : Rng) (tid sid tenant_id : string) (s : Store) (t : Trip) (sh : Shipment),
    NoDup (map pc_id (shipment_pieces s)) ->
    find_one (trip_q tid tenant_id) (trips s) = Some t ->
    locked t = false ->
    trip_number t <> EmptyString ->
    find_one (shipment_q sid tenant_id) (shipments s) = Some sh ->
    barcodes_free (shipment_pieces s)
      (TripRoutes.pieces_of sid (fst (TripRoutes.assign_shipment_to_trip rng tid sid
                                        tenant_id s))) = true ->
    exists s',
      TripRoutes.assign_shipment_to_trip rng tid sid tenant_id s
      = (s', Ok "Shipment assigned to trip")
      /\ shipments s'
         = update_one (shipment_q sid tenant_id)
             (set_shipment_trip (Some tid) ShipmentStatus.staged) (shipments s)
      /\ shipment_pieces s'
         = map (fun e =>
                  if read_by (TripRoutes.pieces_of sid s) e
                  then set_barcode
                         (trip_barcode (trip_number t)
                            (shipments_on_trip tid tenant_id (shipments s'))
                            (pc_piece_number e)) e
                  else e)
               (shipment_pieces s)
      /\ with_shipments (fun _ => shipments s)
           (with_shipment_pieces (fun _ => shipment_pieces s) s') = s.
Proof.
  intros rng tid sid tenant_id s t sh Hnd Ht Hl Hnum Hs _. unfold locked in Hl.
  set (s0 := with_shipments
               (update_one (shipment_q sid tenant_id)
                  (set_shipment_trip (Some tid) ShipmentStatus.staged)) s).
  set (count := count_documents (on_trip tid tenant_id) (shipments s0)).
  assert (Hrun : TripRoutes.assign_shipment_to_trip rng tid sid tenant_id s
                 = (with_shipment_pieces
                      (rebarcode_pieces
                         (fun _ p => trip_barcode (trip_number t) count (pc_piece_number p))
                         0 rng (TripRoutes.pieces_of sid s0)) s0,
                    Ok "Shipment assigned to trip")).
  { unfold TripRoutes.assign_shipment_to_trip, bind, get, modify.
    rewrite Ht, Hl, (matched_count_found _ _ _ Hs). cbn [Nat.eqb].
    rewrite rebarcode_effect. fold s0. fold count.
    rewrite (truthy_some _ Hnum). unfold ret, with_shipment_pieces.
    rewrite (rebarcode_pieces_ext _
               (fun _ p => trip_barcode (trip_number t) count (pc_piece_number p)));
      [reflexivity|].
    intros r p. now apply trip_barcode_generated. }
  assert (Hcount : shipments_on_trip tid tenant_id (shipments s0) = count).
  { unfold count, shipments_on_trip, count_documents. f_equal. apply filter_ext.
    intros e. unfold on_trip. now destruct (shp_trip_id e). }
  eexists. split; [exact Hrun|].
  split; [reflexivity|]. split.
  - change (shipments
              (with_shipment_pieces
                 (rebarcode_pieces
                    (fun _ p => trip_barcode (trip_number t) count (pc_piece_number p))
                    0 rng (TripRoutes.pieces_of sid s0)) s0))
      with (shipments s0).
    rewrite Hcount.
    change (shipment_pieces
              (with_shipment_pieces
                 (rebarcode_pieces
                    (fun _ p => trip_barcode (trip_number t) count (pc_piece_number p))
                    0 rng (TripRoutes.pieces_of sid s0)) s0))
      with (rebarcode_pieces
              (fun _ p => trip_barcode (trip_number t) count (pc_piece_number p))
              0 rng (TripRoutes.pieces_of sid s) (shipment_pieces s)).
    rewrite (rebarcode_by_number (trip_barcode (trip_number t) count)); auto.
    intros p e Hp He Hid.
    assert (Hin : In p (shipment_pieces s)).
    { unfold TripRoutes.pieces_of in Hp. apply In_to_list in Hp. unfold find in Hp.
      now apply filter_In in Hp. }
    now rewrite (NoDup_map_eq pc_id (shipment_pieces s) e p Hnd He Hin Hid).
  - unfold with_shipments, with_shipment_pieces. simpl. apply store_eta.
Qed.

(** The parcel of two pieces is assigned to trip S12 as its first shipment:
    the pieces become S12-001-01 and S12-001-02. *)
Lemma assignment_writes_trip_barcodes_example :
  exists s',
    TripRoutes.assign_shipment_to_trip (constant_rng 0) "t1" "s1" "acme" open_store
    = (s', Ok "Shipment assigned to trip")
    /\ shipments s'
       = update_one (shipment_q "s1" "acme")
           (set_shipment_trip (Some "t1") ShipmentStatus.staged) (shipments open_store)
    /\ shipment_pieces s'
       = map (fun e =>
                if read_by (TripRoutes.pieces_of "s1" open_store) e
                then set_barcode
                       (trip_barcode (trip_number open_trip)
                          (shipments_on_trip "t1" "acme" (shipments s'))
                          (pc_piece_number e)) e
                else e)
             (shipment_pieces open_store)
    /\ with_shipments (fun _ => shipments open_store)
         (with_shipment_pieces (fun _ => shipment_pieces open_store) s') = open_store.
Proof.
  apply (assignment_writes_trip_barcodes (constant_rng 0) "t1" "s1" "acme" open_store
           open_trip parcel_1).
  - simpl. constructor; [intros [H | []]; discriminate |].
    constructor; [intros [] | constructor].
  - reflexivity.
  - reflexivity.
  - discriminate.
  - reflexivity.
  - reflexivity.
Defined.

(** * The totals of the stored invoices add up *)

Lemma sound_update (q : Invoice -> bool) (g : Invoice -> Invoice) (c : list Invoice) :
  sound_invoices c ->
  (forall e, inv_id (g e) = inv_id e) ->
  (forall e, In e c -> q e = true -> totals_add_up e -> totals_add_up (g e)) ->
  sound_invoices (update_one q g c).
Proof.
  intros [Hnd Hall] Hid Hg. split.
  - now rewrite (update_one_keeps_ids inv_id).
  - clear Hnd. induction c as [|e c IH]; simpl; auto.
    inversion Hall as [|? ? He Hc]; subst.
    destruct (q e) eqn:E; constructor; auto.
    + apply Hg; auto. now left.
    + apply IH; auto. intros e0 He0. apply Hg. now right.
Qed.

(** A write of the status and the payment time leaves the totals alone. *)
Lemma sound_status_update (q : Invoice -> bool) (g : Invoice -> Invoice) (c : list Invoice) :
  sound_invoices c ->
  (forall e, inv_id (g e) = inv_id e /\ inv_subtotal (g e) = inv_subtotal e
             /\ inv_adjustments (g e) = inv_adjustments e /\ inv_total (g e) = inv_total e) ->
  sound_invoices (update_one q g c).
Proof.
  intros Hs Hg. apply sound_update; auto.
  - intros e. apply Hg.
  - intros e _ _ He adj. destruct (Hg e) as [_ [H1 [H2 H3]]].
    rewrite H1, H2, H3. apply He.
Qed.

Lemma sound_insert (d : Invoice) (c : list Invoice) :
  sound_invoices c -> ~ In (inv_id d) (map inv_id c) -> totals_add_up d ->
  sound_invoices (insert_one d c).
Proof.
  intros [Hnd Hall] Hfresh Hd. unfold insert_one. split.
  - rewrite map_app. simpl. now apply NoDup_snoc.
  - apply Forall_app. split; auto.
Qed.

Lemma sound_delete (q : Invoice -> bool) (c : list Invoice) :
  sound_invoices c -> sound_invoices (delete_one q c).
Proof.
  intros [Hnd Hall]. induction c as [|e c IH]; simpl; [now split|].
  inversion Hnd as [|? ? He Hc]; subst. inversion Hall as [|? ? Pe Pc]; subst.
  destruct (q e); [now split|].
  destruct (IH Hc Pc) as [Hnd' Hall']. split; [|now constructor].
  simpl. constructor; auto. intros Hin. apply He.
  clear - Hin. induction c as [|x c IH]; simpl in *; [tauto|].
  destruct (q x); simpl in *; tauto.
Qed.

Lemma sound_flip_fold clock (listed : list Invoice) :
  forall c, sound_invoices c -> sound_invoices (fold_left (flip_step clock) listed c).
Proof.
  induction listed as [|i listed IH]; intros c Hs; simpl; auto.
  apply IH. unfold flip_step. destruct (is_past_due clock i); auto.
  apply sound_status_update; [assumption | intros e; repeat split].
Qed.

Lemma NoDup_map_injective {A B : Type} (f : A -> B) (l : list A) :
  (forall j k, f j = f k -> j = k) -> NoDup l -> NoDup (map f l).
Proof.
  intros Hinj. induction 1 as [|x l Hx Hl IH]; simpl; constructor; auto.
  intros Hin. apply in_map_iff in Hin. destruct Hin as [y [E Hy]].
  apply Hinj in E. now subst y.
Qed.

(** The write of the recomputed totals, on the invoice that was read. *)
Lemma sound_recompute iid tenant_id (inv : Invoice) (s s1 : Store) :
  sound_invoices (invoices s) ->
  invoices s1 = invoices s ->
  find_one (invoice_q iid tenant_id) (invoices s) = Some inv ->
  sound_invoices (invoices (fst (Server.recompute_totals iid inv s1))).
Proof.
  intros Hs H1 Hf. unfold Server.recompute_totals, bind, get, modify.
  destruct (inv_adjustments inv) as [adj|] eqn:Ha; simpl; rewrite H1; auto.
  destruct (find_one_In _ _ _ Hf) as [Hin Hq].
  pose proof (invoice_q_id _ _ _ Hq) as Hid.
  apply sound_update; auto.
  intros e He Hqe _ adj' Hadj'. simpl in *.
  unfold invoice_by_id in Hqe. apply String.eqb_eq in Hqe.
  assert (e = inv) as ->.
  { apply (NoDup_map_eq inv_id (invoices s)); auto; [apply Hs | congruence]. }
  congruence.
Qed.

(** X14. In a store where invoice ids are distinct and every invoice that
    stores adjustments has a total equal to its subtotal plus the
    adjustments, every request to a handler that writes invoices leaves a
    store with the same two properties, whether it succeeds or fails:
    creating, updating and deleting an invoice, adding and deleting a line
    item, recording and deleting a payment, reading and listing invoices,
    and generating the invoices of a trip, provided the ids drawn for new
    invoices are not in use and distinct. *)
Theorem billing_keeps_totals :
  forall (r : billing_request) (s : Store),
    sound_invoices (invoices s) ->
    draws_new_ids r s ->
    sound_invoices (invoices (serve_billing r s)).
Proof.
  intros r s Hs Hnew. destruct r; simpl serve_billing; simpl in Hnew.
  - (* create_invoice *)
    unfold ServerRest.create_invoice, bind, get, modify.
    destruct (find_one _ (clients s)); [|exact Hs].
    unfold Server.generate_invoice_number, bind, get.
    destruct (find_one (fun _ => true) _) as [last|].
    + destruct (Server.int_of_string _); [|exact Hs]. unfold ret. simpl.
      apply sound_insert; auto. intros adj H. simpl in *. congruence.
    + unfold ret. simpl. apply sound_insert; auto. intros adj H. simpl in *. congruence.
  - (* update_invoice *)
    unfold Server.update_invoice, bind, get, modify.
    destruct (find_one (invoice_q invoice_id tenant_id) (invoices s)) as [inv|] eqn:Hf;
      [|exact Hs].
    destruct (inv_adjustments inv) as [stored|] eqn:Ha; [|exact Hs].
    unfold ret. simpl.
    destruct (find_one_In _ _ _ Hf) as [Hin Hq].
    pose proof (invoice_q_id _ _ _ Hq) as Hid.
    apply sound_update; auto.
    intros e He Hqe _ adj Hadj.
    assert (e = inv) as ->.
    { apply (NoDup_map_eq inv_id (invoices s)); auto; [apply Hs|].
      apply invoice_q_id in Hqe. congruence. }
    simpl in *. rewrite Ha in Hadj.
    destruct (Server.iu_adjustments update_data); simpl in *; congruence.
  - (* delete_invoice *)
    unfold ServerRest.delete_invoice, bind, get, modify.
    destruct (find_one (invoice_q invoice_id tenant_id) (invoices s)) as [inv|];
      [|exact Hs].
    destruct (negb _ && negb _); [exact Hs|]. simpl. now apply sound_delete.
  - (* add_invoice_item *)
    unfold Server.add_invoice_item. unfold bind at 1. unfold get at 1.
    destruct (find_one (invoice_q invoice_id tenant_id) (invoices s)) as [inv|] eqn:Hf;
      [|exact Hs].
    destruct (negb _); [exact Hs|].
    unfold bind at 1. unfold modify at 1. unfold bind.
    match goal with
    | |- context [Server.recompute_totals invoice_id inv ?s1] =>
        pose proof (sound_recompute invoice_id tenant_id inv s s1 Hs eq_refl Hf) as H;
        destruct (Server.recompute_totals invoice_id inv s1) as [s2 [u|code detail]]
    end; exact H.
  - (* delete_invoice_item *)
    unfold Server.delete_invoice_item. unfold bind at 1. unfold get at 1.
    destruct (find_one (invoice_q invoice_id tenant_id) (invoices s)) as [inv|] eqn:Hf;
      [|exact Hs].
    destruct (negb _); [exact Hs|].
    destruct (Nat.eqb _ 0); [exact Hs|].
    unfold bind at 1. unfold modify at 1. unfold bind.
    match goal with
    | |- context [Server.recompute_totals invoice_id inv ?s1] =>
        pose proof (sound_recompute invoice_id tenant_id inv s s1 Hs eq_refl Hf) as H;
        destruct (Server.recompute_totals invoice_id inv s1) as [s2 [u|code detail]]
    end; exact H.
  - (* create_payment *)
    unfold Server.create_payment, bind, get, modify.
    destruct (find_one _ (clients s)); [|exact Hs].
    destruct (truthy (Server.pcr_invoice_id payment_data)); [|exact Hs].
    destruct (Server.pcr_invoice_id payment_data) as [iid|]; [|exact Hs].
    destruct (find_one (invoice_q iid tenant_id) (invoices s)); [|exact Hs].
    simpl.
    destruct (find_one (invoice_by_id iid) (invoices s)) as [inv|]; [|exact Hs].
    destruct (Qle_bool _ _); simpl; [|exact Hs].
    apply sound_status_update; [assumption | intros e; repeat split].
  - (* delete_payment *)
    unfold Server.delete_payment.
    destruct (negb _); [exact Hs|].
    unfold bind, get, modify.
    destruct (find_one _ (payments s)) as [p|]; [|exact Hs].
    destruct (truthy (pay_invoice_id p)); [|exact Hs].
    destruct (pay_invoice_id p) as [iid|]; [|exact Hs].
    simpl.
    destruct (find_one (invoice_by_id iid) (invoices s)) as [inv|]; [|exact Hs].
    destruct (InvoiceStatus.eqb _ _); [|exact Hs].
    destruct (Server.Qlt_bool _ _); simpl; [|exact Hs].
    apply sound_status_update; [assumption | intros e; repeat split].
  - (* get_invoice *)
    unfold Server.get_invoice, bind, get, modify.
    destruct (find_one (invoice_q invoice_id tenant_id) (invoices s)) as [inv|];
      [|exact Hs].
    destruct (is_past_due clock inv); simpl; [|exact Hs].
    apply sound_status_update; [assumption | intros e; repeat split].
  - (* list_invoices *)
    unfold Server.list_invoices, bind, get. rewrite list_invoices_loop_effect. simpl.
    now apply sound_flip_fold.
  - (* generate_trip_invoices *)
    destruct (find_one (trip_q trip_id0 tenant_id) (trips s)) as [t|] eqn:Ht.
    + destruct (group_by_client_groups
                  (to_list 500 (find (on_trip trip_id0 tenant_id) (shipments s))))
        as [Hkeys _].
      destruct (generate_loop_clients clock uuid4 trip_id0 tenant_id user
                  (groups_of trip_id0 tenant_id s) [] s Hkeys)
        as [added [new [Hrun [_ [_ [Hall [Hids _]]]]]]].
      unfold TripRoutes.generate_trip_invoices, bind, get. rewrite Ht.
      fold (groups_of trip_id0 tenant_id s). rewrite Hrun. simpl.
      destruct Hs as [Hnd Htot]. destruct Hnew as [Hfresh Hinj]. split.
      * rewrite map_app, Hids. simpl seq.
        clear - Hnd Hfresh Hinj. generalize (List.length added) as n.
        assert (Hseq : forall n, NoDup (map uuid4 (seq 0 n))).
        { intros n. apply NoDup_map_injective; [exact Hinj | apply seq_NoDup]. }
        intros n. specialize (Hseq n). revert Hseq.
        generalize (seq 0 n) as ks. intros ks Hks.
        induction (invoices s) as [|e c IH]; simpl; auto.
        inversion Hnd as [|? ? He Hc]; subst. constructor.
        -- rewrite in_app_iff. intros [H | H]; [tauto|].
           apply in_map_iff in H. destruct H as [k [Hk _]].
           apply (Hfresh k). left. now symmetry.
        -- apply IH; auto. intros k Hk. apply (Hfresh k). now right.
      * apply Forall_app. split; auto.
        eapply Forall_impl; [|exact Hall].
        intros i [_ [_ [_ [Hadj _]]]] adj H. congruence.
    + unfold TripRoutes.generate_trip_invoices, bind, get. now rewrite Ht.
Qed.

(** An invoice with a discount is created beside the draft. *)
Lemma billing_keeps_totals_example :
  sound_invoices
    (invoices (serve_billing
                 (CreateInvoice clock_2025 2025 due_in "inv2" discounted "acme" owner_user)
                 small_store)).
Proof.
  apply (billing_keeps_totals
           (CreateInvoice clock_2025 2025 due_in "inv2" discounted "acme" owner_user)
           small_store).
  - split.
    + simpl. constructor; [intros [] | constructor].
    + simpl. constructor; [|constructor]. intros adj H. inversion H. reflexivity.
  - simpl. intros [H | []]. discriminate.
Defined.

(** * Reading an invoice *)

Lemma find_invoice_q_after_flip iid tenant_id (c : list Invoice) (inv : Invoice) :
  NoDup (map inv_id c) ->
  find_one (invoice_q iid tenant_id) c = Some inv ->
  find_one (invoice_q iid tenant_id)
           (update_one (invoice_by_id iid) (set_invoice_status InvoiceStatus.overdue) c)
  = Some (set_invoice_status InvoiceStatus.overdue inv).
Proof.
  intros Hnd Hf. destruct (find_one_In _ _ _ Hf) as [Hin Hq].
  pose proof (invoice_q_id _ _ _ Hq) as Hid.
  assert (Hby : find_one (invoice_by_id iid) c = Some inv).
  { unfold invoice_by_id. rewrite <- Hid. now apply (find_one_unique inv_id). }
  rewrite <- (update_one_scoped (invoice_by_id iid) (invoice_q iid tenant_id) _ c inv
                (invoice_q_narrows iid tenant_id) Hby Hq).
  now apply find_one_update_one.
Qed.

(** X15. In a store whose invoice ids are distinct, reading an invoice a
    second time with the same clock writes nothing and returns what the
    first read returned: after the first read the store is a fixed point of
    get_invoice, whether the invoice exists or not and whether the first
    read stored it as overdue or not. *)
Theorem second_read_is_the_same :
  forall (clock : Clock) (iid tenant_id : string) (s : Store),
    NoDup (map inv_id (invoices s)) ->
    Server.get_invoice clock iid tenant_id
      (fst (Server.get_invoice clock iid tenant_id s))
    = Server.get_invoice clock iid tenant_id s.
Proof.
  intros clock iid tenant_id s Hnd.
  unfold Server.get_invoice at 2 3. unfold bind, get.
  destruct (find_one (invoice_q iid tenant_id) (invoices s)) as [inv|] eqn:Hf.
  - destruct (is_past_due clock inv) eqn:Hp; unfold modify, ret; cbn [fst].
    + unfold Server.get_invoice, bind, get.
      change (invoices (with_invoices
                          (update_one (invoice_by_id iid)
                             (set_invoice_status InvoiceStatus.overdue)) s))
        with (update_one (invoice_by_id iid)
                (set_invoice_status InvoiceStatus.overdue) (invoices s)).
      rewrite (find_invoice_q_after_flip iid tenant_id _ inv Hnd Hf).
      assert (Hno : is_past_due clock (set_invoice_status InvoiceStatus.overdue inv) = false).
      { reflexivity. }
      rewrite Hno. reflexivity.
    + unfold Server.get_invoice, bind, get. rewrite Hf, Hp. reflexivity.
  - unfold raise. cbn [fst]. unfold Server.get_invoice, bind, get. now rewrite Hf.
Qed.

(** The late invoice is read twice. *)
Lemma second_read_is_the_same_example :
  Server.get_invoice clock_2025 "inv9" "acme"
    (fst (Server.get_invoice clock_2025 "inv9" "acme" late_store))
  = Server.get_invoice clock_2025 "inv9" "acme" late_store.
Proof.
  apply (second_read_is_the_same clock_2025 "inv9" "acme" late_store).
  simpl. constructor; [intros [H | []]; discriminate |].
  constructor; [intros [] | constructor].
Defined.

(** ** The amount paid, as read and as recorded *)

Lemma insert_desc_perm {D : Type} (key : D -> string) (d : D) (l : list D) :
  Permutation (insert_desc key d l) (d :: l).
Proof.
  induction l as [|e l IH]; simpl; auto.
  destruct (String.ltb (key d) (key e)); auto.
  eapply perm_trans; [apply perm_skip, IH | apply perm_swap].
Qed.

Lemma sort_desc_perm {D : Type} (key : D -> string) (l : list D) :
  Permutation (sort_desc key l) l.
Proof.
  unfold sort_desc. induction l as [|e l IH]; simpl; auto.
  eapply perm_trans; [apply insert_desc_perm | now apply perm_skip].
Qed.

(** X16. For an invoice of the tenant with at most 100 payments recorded
    against its id, all of them of the tenant, the payments get_invoice
    returns are the payments create_payment and delete_payment count, in
    another order; the amount paid it reports is the amounts of the payments
    it returns, added up from 0 in the order returned, and the balance it
    reports is the invoice total minus that amount.  The sum is the one the
    handler computes, addition by addition: in floating point it may differ
    from the sum of the same amounts in the order of the store. *)
Theorem reported_payments_are_the_ledger :
  forall (clock : Clock) (iid tenant_id : string) (s : Store) (inv : Invoice),
    find_one (invoice_q iid tenant_id) (invoices s) = Some inv ->
    List.length (ledger iid s) <= 100 ->
    (forall p, In p (ledger iid s) -> pay_tenant_id p = tenant_id) ->
    exists s' detail,
      Server.get_invoice clock iid tenant_id s = (s', Ok detail)
      /\ Permutation (Server.det_payments detail) (ledger iid s)
      /\ Server.det_total_paid detail
         = qsum (map pay_amount (Server.det_payments detail))
      /\ Server.det_balance_due detail
         = (inv_total inv - Server.det_total_paid detail)%Q.
Proof.
  intros clock iid tenant_id s inv Hf Hcap Hten.
  set (paid := to_list 100
                 (sort_desc pay_payment_date
                    (find (fun p => payment_of iid p && (pay_tenant_id p =? tenant_id))
                          (payments s)))).
  assert (Hsame : find (fun p => payment_of iid p && (pay_tenant_id p =? tenant_id))
                       (payments s) = ledger iid s).
  { unfold ledger, find. apply filter_ext_in_iff. intros p Hp.
    destruct (payment_of iid p) eqn:E; auto. simpl.
    apply String.eqb_eq. apply Hten. unfold ledger, find. apply filter_In. auto. }
  assert (Hperm : Permutation paid (ledger iid s)).
  { unfold paid. rewrite Hsame. rewrite firstn_whole.
    - apply sort_desc_perm.
    - now rewrite (Permutation_length (sort_desc_perm pay_payment_date (ledger iid s))). }
  unfold Server.get_invoice, bind, get. rewrite Hf. fold paid.
  destruct (is_past_due clock inv); unfold modify, ret; do 2 eexists;
    (split; [reflexivity|]); simpl; (split; [exact Hperm|]); split; reflexivity.
Qed.

(** Two part payments on the late invoice, listed latest first. *)
Lemma reported_payments_are_the_ledger_example :
  exists s' detail,
    Server.get_invoice clock_2025 "inv9" "acme" part_paid_store = (s', Ok detail)
    /\ Permutation (Server.det_payments detail) (ledger "inv9" part_paid_store)
    /\ Server.det_total_paid detail
       = qsum (map pay_amount (Server.det_payments detail))
    /\ Server.det_balance_due detail
       = (inv_total late_invoice - Server.det_total_paid detail)%Q.
Proof.
  apply (reported_payments_are_the_ledger clock_2025 "inv9" "acme" part_paid_store
           late_invoice).
  - reflexivity.
  - simpl. lia.
  - intros p [<- | [<- | []]]; reflexivity.
Defined.

(** * What a shipment update answers *)

Lemma shipment_q_after_update sid tenant_id u (sh : Shipment) :
  shipment_q sid tenant_id (Server.apply_shipment_update u sh) = shipment_q sid tenant_id sh.
Proof. reflexivity. Qed.

(** X17. update_shipment looks at the shipment only: with no field in the
    request it changes nothing and answers the stored shipment, or null when
    the tenant has no such shipment (not 404); with a field and no such
    shipment it answers 404 and changes nothing; with a field and a shipment
    it answers the shipment as stored after the update and changes that
    shipment only, whatever the trip the shipment is on or is moved to and
    whether that trip is locked: trips and pieces, so barcodes, are as
    before. *)
Theorem shipment_update_answers :
  forall (sid tenant_id : string) (u : Server.ShipmentUpdate) (s : Store),
    (Server.shipment_update_nonempty u = false ->
     Server.update_shipment sid u tenant_id s
     = (s, Ok (find_one (shipment_q sid tenant_id) (shipments s))))
    /\ (Server.shipment_update_nonempty u = true ->
        find_one (shipment_q sid tenant_id) (shipments s) = None ->
        Server.update_shipment sid u tenant_id s
        = (s, HTTPException 404 "Shipment not found"))
    /\ (forall sh,
           Server.shipment_update_nonempty u = true ->
           find_one (shipment_q sid tenant_id) (shipments s) = Some sh ->
           Server.update_shipment sid u tenant_id s
           = (with_shipments
                (update_one (shipment_q sid tenant_id) (Server.apply_shipment_update u)) s,
              Ok (Some (Server.apply_shipment_update u sh)))).
Proof.
  intros sid tenant_id u s. split; [|split].
  - intros He. unfold Server.update_shipment, bind, get, ret. now rewrite He.
  - intros Hne Hf. unfold Server.update_shipment, bind, get, modify. rewrite Hne.
    rewrite (matched_count_not_found _ _ Hf). simpl.
    unfold raise, with_shipments. rewrite (update_one_not_found _ _ _ Hf).
    now rewrite store_eta.
  - intros sh Hne Hf. unfold Server.update_shipment, bind, get, modify. rewrite Hne.
    rewrite (matched_count_found _ _ _ Hf). simpl. unfold ret.
    rewrite (find_one_update_one _ _ _ _ Hf); auto.
    rewrite shipment_q_after_update. exact (proj2 (find_one_In _ _ _ Hf)).
Qed.

(** The parcel on the closed trip is moved to another trip. *)
Lemma shipment_update_answers_example :
  Server.update_shipment "s1" move_to_t9 "acme" locked_store
  = (with_shipments
       (update_one (shipment_q "s1" "acme") (Server.apply_shipment_update move_to_t9))
       locked_store,
     Ok (Some (Server.apply_shipment_update move_to_t9 parcel_1_on_trip))).
Proof.
  apply (proj2 (proj2 (shipment_update_answers "s1" "acme" move_to_t9 locked_store))
           parcel_1_on_trip).
  - reflexivity.
  - reflexivity.
Defined.

(** * The next invoice number of the server *)

(** ** The order of strings *)









(** ** The first document of a descending sort *)



(** ** Numbers of three digits *)

Lemma parse_leading_zeros (k : nat) (s : string) :
  Server.parse_digits 0 (repeat_char "0"%char k ++ s) = Server.parse_digits 0 s.
Proof. induction k as [|k IH]; simpl; auto. Qed.

Lemma int_of_zfill (width n : nat) :
  Server.int_of_string (zfill width (str_nat n)) = Some n.
Proof.
  pose proof (int_of_str_nat n) as H. pose proof (str_nat_not_empty n) as Hne.
  unfold Server.int_of_string in *. unfold zfill.
  destruct (str_nat n) as [|c s] eqn:E; [congruence|].
  destruct (repeat_char "0"%char (width - String.length (String c s)) ++ String c s)
    as [|c' s'] eqn:E'.
  - destruct (width - String.length (String c s)); discriminate.
  - rewrite <- E', parse_leading_zeros. exact H.
Qed.









(** * Generated invoices and the unique index on invoice numbers *)

Lemma append_inv_head (a x y : string) : a ++ x = a ++ y -> x = y.
Proof. induction a as [|c a IH]; simpl; intros H; [exact H | inversion H; auto]. Qed.

(** Different counts give different numbers. *)
Lemma generated_number_inj (year0 j k : nat) :
  generated_number year0 j = generated_number year0 k -> j = k.
Proof.
  unfold generated_number. intros H.
  apply append_inv_head, append_inv_head, append_inv_head in H.
  pose proof (int_of_zfill 4 j) as Hj. rewrite H, int_of_zfill in Hj. congruence.
Qed.

Lemma invoice_number_generated (year0 count : nat) :
  TripRoutes.invoice_number_of year0 count = generated_number year0 (count + 1).
Proof. reflexivity. Qed.

(** A run of the handler on a trip of the tenant, in one statement: the
    documents it appends, one for each group the invoices did not cover, and
    the numbers it reports. *)
Lemma generate_run clock uuid4 tid tenant_id user s t :
  find_one (trip_q tid tenant_id) (trips s) = Some t ->
  exists added out,
    TripRoutes.generate_trip_invoices clock uuid4 tid tenant_id user s
    = (with_invoices (fun c => (c ++ added)%list) s, Ok out)
    /\ map TripRoutes.ci_invoice_number out
       = map (fun k => generated_number (year clock)
                         (tenant_count tenant_id (invoices s) + k + 1))
             (seq 0 (List.length out))
    /\ (List.length out <= List.length (groups_of tid tenant_id s))%nat
    /\ map inv_client_id added
       = map fst (List.filter (unbilled tenant_id (invoices s)) (groups_of tid tenant_id s))
    /\ map inv_shipment_ids added
       = map (fun g => Some (map shp_id (snd g)))
             (List.filter (unbilled tenant_id (invoices s)) (groups_of tid tenant_id s))
    /\ Forall (generated_for clock tid tenant_id user) added
    /\ map inv_id added = map uuid4 (seq 0 (List.length added))
    /\ map inv_invoice_number added = map TripRoutes.ci_invoice_number out
    /\ (forall cid ships,
           In (cid, ships) (groups_of tid tenant_id s) ->
           exists i, find_one (TripRoutes.existing_q tenant_id cid (map shp_id ships))
                              (invoices s ++ added)%list = Some i).
Proof.
  intros Ht.
  destruct (group_by_client_groups (to_list 500 (find (on_trip tid tenant_id) (shipments s))))
    as [Hnd _].
  fold (groups_of tid tenant_id s) in Hnd.
  destruct (generate_loop_clients clock uuid4 tid tenant_id user (groups_of tid tenant_id s)
              [] s Hnd) as [added [new [Hrun [Hc [Hs [Hall [Hids Hnums]]]]]]].
  destruct (generate_effect clock uuid4 tid tenant_id user s t Ht)
    as [added' [out [Hrun' [Hnum Hgroups]]]].
  assert (Hsame : with_invoices (fun c => (c ++ added')%list) s
                  = with_invoices (fun c => (c ++ added)%list) s /\ out = new).
  { unfold TripRoutes.generate_trip_invoices, bind, get in Hrun'. rewrite Ht in Hrun'.
    fold (groups_of tid tenant_id s) in Hrun'. rewrite Hrun in Hrun'.
    simpl in Hrun'. inversion Hrun'. split; congruence. }
  destruct Hsame as [Hstore ->].
  assert (Hadded : added' = added).
  { apply (f_equal invoices) in Hstore. simpl in Hstore.
    now apply app_inv_head in Hstore. }
  subst added'.
  exists added, new. rewrite Hrun'.
  split; [reflexivity|]. split.
  { rewrite Hnum. apply map_ext. intros k. apply invoice_number_generated. }
  split.
  { rewrite <- (length_map TripRoutes.ci_invoice_number), <- Hnums, length_map.
    rewrite <- (length_map inv_client_id), Hc, length_map. apply filter_length_le. }
  repeat split; auto.
Qed.

(** Under [numbers_free] no invoice of the tenant carries a number of the
    run. *)
Lemma free_numbers_are_new clock tid tenant_id s (numbers : list string) (n : nat) :
  numbers_free clock tid tenant_id s = true ->
  (n <= List.length (groups_of tid tenant_id s))%nat ->
  numbers = map (fun k => generated_number (year clock)
                            (tenant_count tenant_id (invoices s) + k + 1)) (seq 0 n) ->
  forall i, In i (invoices s) -> inv_tenant_id i = tenant_id ->
            ~ In (inv_invoice_number i) numbers.
Proof.
  intros Hfree Hn -> i Hin Hten Hnum.
  apply in_map_iff in Hnum. destruct Hnum as [k [Hk Hseq]].
  apply in_seq in Hseq.
  unfold numbers_free in Hfree. rewrite forallb_forall in Hfree.
  assert (Hkin : In k (seq 0 (List.length (groups_of tid tenant_id s)))).
  { apply in_seq. lia. }
  specialize (Hfree k Hkin). apply negb_true_iff in Hfree.
  assert (Hex : existsb (fun i0 =>
                           (inv_tenant_id i0 =? tenant_id)
                           && (inv_invoice_number i0
                               =? generated_number (year clock)
                                    (tenant_count tenant_id (invoices s) + k + 1)))
                        (invoices s) = true).
  { apply existsb_exists. exists i. split; [exact Hin|].
    now rewrite Hten, <- Hk, !String.eqb_refl. }
  congruence.
Qed.

Lemma generated_numbers_differ (year0 count n : nat) :
  NoDup (map (fun k => generated_number year0 (count + k + 1)) (seq 0 n)).
Proof.
  apply NoDup_map_injective; [|apply seq_NoDup].
  intros j k H. apply generated_number_inj in H. lia.
Qed.

(** C8, as the handler has it.  On a trip of the tenant, when none of the
    numbers the request can write is on an invoice of the tenant
    ([numbers_free]: the unique index of the store then lets every insertion
    through), generating the invoices of the trip succeeds, and the [k]-th
    invoice it creates (from 0) is numbered [INV-{year}-{N}] with [N] padded
    with zeros to four digits and equal to the number of invoices the tenant
    had before the request, of whatever year, plus [k] plus one: the tenant's
    invoice count at the moment the invoice is created, plus one.  The
    numbers are pairwise different, none was on an invoice of the tenant
    before, and they are the numbers of the documents appended to the
    invoices. *)
Theorem generated_invoice_numbers :
  forall (clock : Clock) (uuid4 : nat -> string) (tid tenant_id : string) (user : User)
         (s : Store) (t : Trip),
    find_one (trip_q tid tenant_id) (trips s) = Some t ->
    numbers_free clock tid tenant_id s = true ->
    exists s' out,
      TripRoutes.generate_trip_invoices clock uuid4 tid tenant_id user s = (s', Ok out)
      /\ map TripRoutes.ci_invoice_number out
         = map (fun k => generated_number (year clock)
                           (tenant_count tenant_id (invoices s) + k + 1))
               (seq 0 (List.length out))
      /\ NoDup (map TripRoutes.ci_invoice_number out)
      /\ (forall i, In i (invoices s) -> inv_tenant_id i = tenant_id ->
                    ~ In (inv_invoice_number i) (map TripRoutes.ci_invoice_number out))
      /\ map inv_invoice_number (skipn (List.length (invoices s)) (invoices s'))
         = map TripRoutes.ci_invoice_number out.
Proof.
  intros clock uuid4 tid tenant_id user s t Ht Hfree.
  destruct (generate_run clock uuid4 tid tenant_id user s t Ht)
    as [added [out [Hrun [Hnum [Hlen [_ [_ [_ [_ [Hnums _]]]]]]]]]].
  rewrite Hrun. do 2 eexists. split; [reflexivity|]. split; [exact Hnum|]. split.
  { rewrite Hnum. apply generated_numbers_differ. }
  split.
  { now apply (free_numbers_are_new clock tid tenant_id s _ (List.length out)). }
  simpl. rewrite skipn_app, skipn_all, Nat.sub_diag. simpl. exact Hnums.
Qed.

(** The numbers on the example trip, in a store without invoices. *)
Lemma generated_invoice_numbers_example :
  exists s' out,
    TripRoutes.generate_trip_invoices clock_2025 uuid_supply "t1" "acme" owner_user loaded_store
    = (s', Ok out)
    /\ map TripRoutes.ci_invoice_number out
       = map (fun k => generated_number (year clock_2025)
                         (tenant_count "acme" (invoices loaded_store) + k + 1))
             (seq 0 (List.length out))
    /\ NoDup (map TripRoutes.ci_invoice_number out)
    /\ (forall i, In i (invoices loaded_store) -> inv_tenant_id i = "acme" ->
                  ~ In (inv_invoice_number i) (map TripRoutes.ci_invoice_number out))
    /\ map inv_invoice_number (skipn (List.length (invoices loaded_store)) (invoices s'))
       = map TripRoutes.ci_invoice_number out.
Proof.
  apply (generated_invoice_numbers clock_2025 uuid_supply "t1" "acme" owner_user
           loaded_store open_trip).
  - reflexivity.
  - reflexivity.
Defined.

(** C8 as stated fails: the tenant has one invoice, numbered in 2024, and
    none numbered in 2025; the invoice generated in 2025 gets the number 2,
    not the count for 2025 plus one. *)
Lemma number_counts_other_years :
  exists s' out,
    TripRoutes.generate_trip_invoices clock_2025 uuid_supply "t1" "acme" owner_user
      second_year_store = (s', Ok out)
    /\ map TripRoutes.ci_invoice_number out = ["INV-2025-0002"]
    /\ count_for_year (year clock_2025) "acme" (invoices second_year_store) = 0%nat
    /\ TripRoutes.invoice_number_of (year clock_2025)
         (count_for_year (year clock_2025) "acme" (invoices second_year_store))
       = "INV-2025-0001".
Proof.
  do 2 eexists. split; [vm_compute; reflexivity|].
  repeat split; vm_compute; reflexivity.
Qed.

(** After a deletion the count leads to a number that is taken: the tenant
    has one invoice, numbered 2, and the number computed for the next one is
    2 again; the condition on the numbers fails, and the store refuses the
    insertion. *)
Lemma count_repeats_a_number_after_deletion :
  tenant_count "acme" (invoices after_deletion_store) = 1%nat
  /\ TripRoutes.invoice_number_of (year clock_2025)
       (tenant_count "acme" (invoices after_deletion_store))
     = inv_invoice_number invoice_number_2
  /\ numbers_free clock_2025 "t1" "acme" after_deletion_store = false.
Proof. repeat split; vm_compute; reflexivity. Qed.

(** C5, as the handler has it.  On a trip of the tenant, when the unique
    index lets the insertions of the first run through ([numbers_free]),
    generating the invoices of the trip and then generating them again, the
    shipments untouched in between, creates no invoice the second time and
    leaves the store as the first run left it: every client group is skipped
    because the tenant has an invoice of that client whose [shipment_ids]
    hold every shipment of the group. *)
Theorem second_generation_creates_nothing :
  forall (clock1 clock2 : Clock) (uuid1 uuid2 : nat -> string) (user1 user2 : User)
         (tid tenant_id : string) (s : Store) (t : Trip),
    find_one (trip_q tid tenant_id) (trips s) = Some t ->
    numbers_free clock1 tid tenant_id s = true ->
    exists s1 out1,
      TripRoutes.generate_trip_invoices clock1 uuid1 tid tenant_id user1 s = (s1, Ok out1)
      /\ shipments s1 = shipments s
      /\ TripRoutes.generate_trip_invoices clock2 uuid2 tid tenant_id user2 s1 = (s1, Ok [])
      /\ (forall cid ships,
             In (cid, ships) (groups_of tid tenant_id s1) ->
             exists i, In i (invoices s1)
                       /\ inv_tenant_id i = tenant_id /\ inv_client_id i = cid
                       /\ exists ids, inv_shipment_ids i = Some ids
                                      /\ forall sh, In sh ships -> In (shp_id sh) ids).
Proof.
  intros clock1 clock2 uuid1 uuid2 user1 user2 tid tenant_id s t Ht _.
  destruct (generate_effect clock1 uuid1 tid tenant_id user1 s t Ht)
    as [added [out [Hrun [_ Hgroups]]]].
  rewrite Hrun. do 2 eexists. split; [reflexivity|]. split; [reflexivity|].
  split.
  - unfold TripRoutes.generate_trip_invoices, bind, get.
    change (trips (with_invoices (fun c => (c ++ added)%list) s)) with (trips s).
    rewrite Ht. now apply generate_loop_idle.
  - intros cid ships Hin. destruct (Hgroups cid ships Hin) as [i Hi].
    apply find_one_In in Hi. destruct Hi as [Hi Hq]. exists i. split; [exact Hi|].
    unfold TripRoutes.existing_q in Hq.
    apply andb_prop in Hq. destruct Hq as [Hq Hall].
    apply andb_prop in Hq. destruct Hq as [H1 H2].
    apply String.eqb_eq in H1, H2. split; [exact H1|]. split; [exact H2|].
    unfold TripRoutes.all_in in Hall.
    destruct (map shp_id ships) as [|x ids0] eqn:Hids.
    + destruct ships; [|discriminate].
      pose proof (group_by_client_nonempty
                    (to_list 500 (find (on_trip tid tenant_id) (shipments s)))) as Hne.
      rewrite Forall_forall in Hne. specialize (Hne _ Hin). simpl in Hne. congruence.
    + destruct (inv_shipment_ids i) as [arr|]; [|discriminate].
      exists arr. split; [reflexivity|]. intros sh Hsh.
      rewrite forallb_forall in Hall.
      assert (Hx : In (shp_id sh) (x :: ids0)) by (rewrite <- Hids; now apply in_map).
      specialize (Hall _ Hx). apply existsb_exists in Hall.
      destruct Hall as [y [Hy E]]. apply String.eqb_eq in E. now subst y.
Qed.

(** Two runs on the example trip. *)
Lemma second_generation_creates_nothing_example :
  exists s1 out1,
    TripRoutes.generate_trip_invoices clock_2025 uuid_supply "t1" "acme" owner_user
      loaded_store = (s1, Ok out1)
    /\ shipments s1 = shipments loaded_store
    /\ TripRoutes.generate_trip_invoices clock_2025 uuid_supply "t1" "acme" manager_user s1
       = (s1, Ok [])
    /\ (forall cid ships,
           In (cid, ships) (groups_of "t1" "acme" s1) ->
           exists i, In i (invoices s1)
                     /\ inv_tenant_id i = "acme" /\ inv_client_id i = cid
                     /\ exists ids, inv_shipment_ids i = Some ids
                                    /\ forall sh, In sh ships -> In (shp_id sh) ids).
Proof.
  apply (second_generation_creates_nothing clock_2025 clock_2025 uuid_supply uuid_supply
           owner_user manager_user "t1" "acme" loaded_store open_trip).
  - reflexivity.
  - reflexivity.
Defined.

(** C5 as stated fails in its reason: the client's group is the parcel s1,
    the tenant has an invoice of that client for s1 and s2, both runs skip the
    group, and no invoice has exactly the shipments of the group. *)
Lemma skipped_without_exact_match :
  exists s1,
    TripRoutes.generate_trip_invoices clock_2025 uuid_supply "t1" "acme" owner_user
      covered_store = (s1, Ok [])
    /\ TripRoutes.generate_trip_invoices clock_2025 uuid_supply "t1" "acme" owner_user s1
       = (s1, Ok [])
    /\ map (fun g => (fst g, map shp_id (snd g))) (groups_of "t1" "acme" s1) = [("c1", ["s1"])]
    /\ existsb (exact_match "acme" "c1" ["s1"]) (invoices s1) = false
    /\ existsb (TripRoutes.existing_q "acme" "c1" ["s1"]) (invoices s1) = true.
Proof.
  eexists. split; [vm_compute; reflexivity|].
  repeat split; vm_compute; reflexivity.
Qed.

(** X12. On a trip of the tenant, when the unique index lets the
    insertions through ([numbers_free]), generating the invoices of the trip
    succeeds and appends to the invoices exactly one document for each client
    group of the trip that no invoice of the tenant covered at the start of
    the request, in the order of the groups; each client has at most one
    group, made of all the parcels read for the trip that carry its
    (non-empty) client id, so no two of the new invoices are for the same
    client; every new document is a draft of the tenant linked to the trip,
    with the ids of the group's parcels, the id drawn for it, the number
    reported for it, which no invoice of the tenant carried and no other new
    document carries, no adjustments, due in thirty days; nothing but the
    invoices changes. *)
Theorem one_invoice_per_unbilled_client :
  forall (clock : Clock) (uuid4 : nat -> string) (tid tenant_id : string) (user : User)
         (s : Store) (t : Trip),
    find_one (trip_q tid tenant_id) (trips s) = Some t ->
    numbers_free clock tid tenant_id s = true ->
    exists added out,
      TripRoutes.generate_trip_invoices clock uuid4 tid tenant_id user s
      = (with_invoices (fun c => (c ++ added)%list) s, Ok out)
      /\ map inv_client_id added
         = map fst (List.filter (unbilled tenant_id (invoices s)) (groups_of tid tenant_id s))
      /\ map inv_shipment_ids added
         = map (fun g => Some (map shp_id (snd g)))
               (List.filter (unbilled tenant_id (invoices s)) (groups_of tid tenant_id s))
      /\ NoDup (map inv_client_id added)
      /\ Forall (generated_for clock tid tenant_id user) added
      /\ map inv_id added = map uuid4 (seq 0 (List.length added))
      /\ map inv_invoice_number added = map TripRoutes.ci_invoice_number out
      /\ NoDup (map inv_invoice_number added)
      /\ (forall i, In i (invoices s) -> inv_tenant_id i = tenant_id ->
                    ~ In (inv_invoice_number i) (map inv_invoice_number added))
      /\ (forall cid ships,
             In (cid, ships) (groups_of tid tenant_id s) ->
             cid <> EmptyString
             /\ ships = parcels_of_client cid
                          (to_list 500 (find (on_trip tid tenant_id) (shipments s)))).
Proof.
  intros clock uuid4 tid tenant_id user s t Ht Hfree.
  destruct (group_by_client_groups (to_list 500 (find (on_trip tid tenant_id) (shipments s))))
    as [Hnd [Hkeys Hgroups]].
  fold (groups_of tid tenant_id s) in Hnd, Hkeys, Hgroups.
  destruct (generate_run clock uuid4 tid tenant_id user s t Ht)
    as [added [out [Hrun [Hnum [Hlen [Hc [Hs [Hall [Hids [Hnums _]]]]]]]]]].
  exists added, out.
  split; [exact Hrun|]. split; [exact Hc|]. split; [exact Hs|]. split.
  { rewrite Hc. clear - Hnd. induction (groups_of tid tenant_id s) as [|g l IH]; simpl.
    + constructor.
    + inversion Hnd as [|? ? Hg Hl]; subst.
      destruct (unbilled tenant_id (invoices s) g); simpl; auto.
      constructor; auto. intros Hin. apply Hg.
      apply in_map_iff in Hin. destruct Hin as [g' [E Hg']].
      apply filter_In in Hg'. rewrite <- E. apply in_map. tauto. }
  split; [exact Hall|]. split; [exact Hids|]. split; [exact Hnums|]. split.
  { rewrite Hnums, Hnum. apply generated_numbers_differ. }
  split.
  { rewrite Hnums.
    now apply (free_numbers_are_new clock tid tenant_id s _ (List.length out)). }
  intros cid ships Hin.
  assert (Hk : cid <> EmptyString).
  { apply Hkeys. change cid with (fst (cid, ships)). now apply in_map. }
  split; auto. rewrite <- (Hgroups cid Hk). symmetry. now apply group_of_In.
Qed.

(** Three parcels on the trip: two clients, one parcel without client. *)
Lemma one_invoice_per_unbilled_client_example :
  exists added out,
    TripRoutes.generate_trip_invoices clock_2025 uuid_supply "t1" "acme" owner_user
      three_parcels_store
    = (with_invoices (fun c => (c ++ added)%list) three_parcels_store, Ok out)
    /\ map inv_client_id added
       = map fst (List.filter (unbilled "acme" (invoices three_parcels_store))
                    (groups_of "t1" "acme" three_parcels_store))
    /\ map inv_shipment_ids added
       = map (fun g => Some (map shp_id (snd g)))
             (List.filter (unbilled "acme" (invoices three_parcels_store))
                (groups_of "t1" "acme" three_parcels_store))
    /\ NoDup (map inv_client_id added)
    /\ Forall (generated_for clock_2025 "t1" "acme" owner_user) added
    /\ map inv_id added = map uuid_supply (seq 0 (List.length added))
    /\ map inv_invoice_number added = map TripRoutes.ci_invoice_number out
    /\ NoDup (map inv_invoice_number added)
    /\ (forall i, In i (invoices three_parcels_store) -> inv_tenant_id i = "acme" ->
                  ~ In (inv_invoice_number i) (map inv_invoice_number added))
    /\ (forall cid ships,
           In (cid, ships) (groups_of "t1" "acme" three_parcels_store) ->
           cid <> EmptyString
           /\ ships = parcels_of_client cid
                        (to_list 500 (find (on_trip "t1" "acme")
                                        (shipments three_parcels_store)))).
Proof.
  apply (one_invoice_per_unbilled_client clock_2025 uuid_supply "t1" "acme" owner_user
           three_parcels_store open_trip).
  - reflexivity.
  - reflexivity.
Defined.

(** * Requests of one tenant and documents of another *)






Lemma rebarcode_shipments new_barcode draws pieces rng (s : Store) :
  shipments (fst (TripRoutes.rebarcode new_barcode draws rng pieces s)) = shipments s.
Proof. now rewrite rebarcode_effect. Qed.




(** * A payment recorded and deleted again *)

Lemma find_one_snoc_hit {D : Type} (q : D -> bool) (c : list D) (d : D) :
  (forall e, In e c -> q e = false) -> q d = true ->
  find_one q (c ++ [d])%list = Some d.
Proof.
  intros Hc Hd. unfold find_one. induction c as [|x c IH]; simpl.
  - now rewrite Hd.
  - rewrite (Hc x (or_introl eq_refl)). apply IH. intros e He. apply Hc. now right.
Qed.

Lemma delete_one_snoc {D : Type} (q : D -> bool) (c : list D) (d : D) :
  (forall e, In e c -> q e = false) -> q d = true ->
  delete_one q (c ++ [d])%list = c.
Proof.
  intros Hc Hd. induction c as [|x c IH]; simpl.
  - now rewrite Hd.
  - rewrite (Hc x (or_introl eq_refl)). f_equal. apply IH. intros e He. apply Hc. now right.
Qed.

Lemma update_one_twice {D : Type} (q : D -> bool) (g1 g2 : D -> D) (c : list D) :
  (forall e, q (g1 e) = q e) ->
  update_one q g2 (update_one q g1 c) = update_one q (fun e => g2 (g1 e)) c.
Proof.
  intros Hq. induction c as [|x c IH]; simpl; auto.
  destruct (q x) eqn:E; simpl.
  - now rewrite Hq, E.
  - now rewrite E, IH.
Qed.

Lemma total_paid_payments iid (s s' : Store) :
  payments s' = payments s -> Server.total_paid iid s' = Server.total_paid iid s.
Proof. intros H. unfold Server.total_paid. now rewrite H. Qed.

(** The sum the handlers look at, after one more payment of the invoice. *)
Lemma total_paid_after_insert iid (p : Payment) (s : Store) :
  pay_invoice_id p = Some iid ->
  List.length (ledger iid s) < 100 ->
  Server.total_paid iid (with_payments (insert_one p) s)
  = (Server.total_paid iid s + pay_amount p)%Q.
Proof.
  intros Hp Hlen. unfold Server.total_paid, with_payments, insert_one. simpl payments.
  unfold ledger in Hlen. unfold find in *. rewrite filter_app. cbn [List.filter].
  assert (Hq : payment_of iid p = true).
  { unfold payment_of. rewrite Hp. simpl. apply String.eqb_refl. }
  rewrite Hq, !firstn_whole.
  - rewrite map_app. cbn [map]. apply qsum_snoc.
  - lia.
  - rewrite length_app. simpl. lia.
Qed.

(** The two requests one after the other, with the sum of the handlers
    written [total_paid]. *)
Lemma record_then_delete :
  forall (clock clock2 : Clock) (new_id : string) (pd : Server.PaymentCreate)
         (tenant_id : string) (user deleter : User) (s : Store) (client : Client)
         (iid : string) (inv : Invoice),
    ~ In new_id (map pay_id (payments s)) ->
    NoDup (map inv_id (invoices s)) ->
    find_one (client_q (Server.pcr_client_id pd) tenant_id) (clients s) = Some client ->
    Server.pcr_invoice_id pd = Some iid ->
    iid <> EmptyString ->
    find_one (invoice_q iid tenant_id) (invoices s) = Some inv ->
    InvoiceStatus.eqb (inv_status inv) InvoiceStatus.paid = false ->
    List.length (ledger iid s) < 100 ->
    Qle_bool (inv_total inv) (Server.total_paid iid s) = false ->
    may_delete_payments deleter = true ->
    exists s1 payment s2,
      Server.create_payment clock new_id pd tenant_id user s = (s1, Ok payment)
      /\ Server.delete_payment clock2 new_id tenant_id deleter s1
         = (s2, Ok "Payment deleted")
      /\ with_invoices (fun _ => invoices s) s2 = s
      /\ (Qle_bool (inv_total inv) (Server.total_paid iid s + Server.pcr_amount pd) = false ->
          s2 = s)
      /\ (Qle_bool (inv_total inv) (Server.total_paid iid s + Server.pcr_amount pd) = true ->
          invoices s2
          = update_one (invoice_by_id iid)
              (set_invoice_status_paid_at
                 (if String.ltb (inv_due_date inv) (today clock2)
                  then InvoiceStatus.overdue else InvoiceStatus.sent) None)
              (invoices s)).
Proof.
  intros clock clock2 new_id pd tenant_id user deleter s client iid inv
         Hfresh Hnd Hclient Hiid Hne Hf Hunpaid Hlen Hopen Hrole.
  destruct (find_one_In _ _ _ Hf) as [Hin Hq].
  pose proof (invoice_q_id _ _ _ Hq) as Hid.
  assert (Hten : inv_tenant_id inv = tenant_id).
  { unfold invoice_q, by_id_tenant in Hq. apply andb_prop in Hq.
    now apply String.eqb_eq. }
  assert (Hby : find_one (invoice_by_id iid) (invoices s) = Some inv).
  { unfold invoice_by_id. rewrite <- Hid. now apply (find_one_unique inv_id). }
  set (payment := mkPayment new_id tenant_id (Server.pcr_client_id pd) (Some iid)
                    (Server.pcr_amount pd) (Server.pcr_payment_date pd)
                    (Server.pcr_payment_method pd) (Server.pcr_reference pd)
                    (Server.pcr_notes pd) (user_id user) (now_iso clock)).
  set (s1a := with_payments (insert_one payment) s).
  pose proof (create_payment_effect clock new_id pd tenant_id user s client iid inv
                Hclient Hiid Hne Hby Hten) as Hcreate.
  cbv zeta in Hcreate. fold payment in Hcreate. fold s1a in Hcreate.
  assert (Hsum : Server.total_paid iid s1a
                 = (Server.total_paid iid s + Server.pcr_amount pd)%Q).
  { unfold s1a. now rewrite total_paid_after_insert. }
  rewrite Hsum in Hcreate.
  assert (Hmiss : forall e, In e (payments s) -> Server.payment_q new_id tenant_id e = false).
  { intros e He. unfold Server.payment_q, by_id_tenant.
    rewrite (no_other_with_id pay_id (payments s) e new_id Hfresh He). reflexivity. }
  assert (Hhit : Server.payment_q new_id tenant_id payment = true).
  { unfold Server.payment_q, by_id_tenant. simpl. now rewrite !String.eqb_refl. }
  assert (Hfound : find_one (Server.payment_q new_id tenant_id) (payments s ++ [payment])%list
                   = Some payment) by now apply find_one_snoc_hit.
  assert (Hdel : delete_one (Server.payment_q new_id tenant_id) (payments s ++ [payment])%list
                 = payments s) by now apply delete_one_snoc.
  destruct (Qle_bool (inv_total inv) (Server.total_paid iid s + Server.pcr_amount pd))
    eqn:Hsettle.
  - (* the payment settled the invoice *)
    set (s1 := with_invoices
                 (update_one (invoice_by_id iid)
                    (set_invoice_status_paid_at InvoiceStatus.paid (Some (now_iso clock))))
                 s1a) in *.
    assert (Hby1 : find_one (invoice_by_id iid) (invoices s1)
                   = Some (set_invoice_status_paid_at InvoiceStatus.paid
                             (Some (now_iso clock)) inv)).
    { unfold s1. simpl. now apply find_invoice_after_update. }
    pose proof (delete_payment_effect clock2 new_id tenant_id deleter s1 payment iid _
                  Hrole Hfound eq_refl Hne Hby1 eq_refl) as Hdelete.
    cbv zeta in Hdelete.
    set (s1b := with_payments (delete_one (Server.payment_q new_id tenant_id)) s1) in *.
    assert (Hpay : payments s1b = payments s) by exact Hdel.
    rewrite (total_paid_payments iid s s1b Hpay) in Hdelete.
    assert (Hlt : Server.Qlt_bool (Server.total_paid iid s)
                    (inv_total (set_invoice_status_paid_at InvoiceStatus.paid
                                  (Some (now_iso clock)) inv)) = true).
    { unfold Server.Qlt_bool. simpl inv_total. now rewrite Hopen. }
    rewrite Hlt in Hdelete.
    do 3 eexists. split; [exact Hcreate|]. split; [exact Hdelete|].
    assert (Hinv : invoices
                     (with_invoices
                        (update_one (invoice_by_id iid)
                           (set_invoice_status_paid_at
                              (if String.ltb
                                    (inv_due_date
                                       (set_invoice_status_paid_at InvoiceStatus.paid
                                          (Some (now_iso clock)) inv)) (today clock2)
                               then InvoiceStatus.overdue else InvoiceStatus.sent) None))
                        s1b)
                   = update_one (invoice_by_id iid)
                       (set_invoice_status_paid_at
                          (if String.ltb (inv_due_date inv) (today clock2)
                           then InvoiceStatus.overdue else InvoiceStatus.sent) None)
                       (invoices s)).
    { unfold s1b, s1, s1a. simpl. now rewrite update_one_twice. }
    split; [|split; [discriminate | intros _; exact Hinv]].
    assert (Heta : mkStore (clients s) (client_rates s) (shipments s) (shipment_pieces s)
                     (trips s) (trip_expenses s) (invoices s) (invoice_line_items s)
                     (payments s1b) = s) by (rewrite Hpay; apply store_eta).
    exact Heta.
  - (* it did not *)
    assert (Hdelete : Server.delete_payment clock2 new_id tenant_id deleter s1a
                      = (s, Ok "Payment deleted")).
    { unfold Server.delete_payment. unfold may_delete_payments in Hrole. rewrite Hrole.
      cbn [negb]. unfold bind, get, modify. cbv beta.
      change (payments s1a) with (payments s ++ [payment])%list. rewrite Hfound.
      change (pay_invoice_id payment) with (Some iid). rewrite (truthy_some _ Hne).
      change (invoices (with_payments (delete_one (Server.payment_q new_id tenant_id)) s1a))
        with (invoices s).
      rewrite Hby, Hunpaid. unfold ret. f_equal.
      assert (Heta : mkStore (clients s) (client_rates s) (shipments s) (shipment_pieces s)
                       (trips s) (trip_expenses s) (invoices s) (invoice_line_items s)
                       (delete_one (Server.payment_q new_id tenant_id)
                          (payments s ++ [payment])%list) = s)
        by (rewrite Hdel; apply store_eta).
      exact Heta. }
    do 3 eexists. split; [exact Hcreate|]. split; [exact Hdelete|].
    split; [|split; [reflexivity | discriminate]].
    unfold with_invoices. apply store_eta.
Qed.

(** X20. A payment recorded against an invoice of the tenant that is not
    paid and not yet covered by its payments (fewer than 100 of them), under
    an id not in use, and then deleted by an owner or finance user; the total
    and the amounts are whole numbers that add up in whole numbers of at most
    2^53, so that the floating-point sums of the handlers are the sums of the
    amounts.  The payments and every collection but the invoices are as
    before.  When the payment did not cover the total, the invoices are as
    before too; when it did, the invoice is not given back its former
    status: it is left sent, or overdue when its due date is before the day
    of the deletion, with paid_at cleared, whatever its status was before the
    payment. *)
Theorem payment_recorded_then_deleted :
  forall (clock clock2 : Clock) (new_id : string) (pd : Server.PaymentCreate)
         (tenant_id : string) (user deleter : User) (s : Store) (client : Client)
         (iid : string) (inv : Invoice),
    ~ In new_id (map pay_id (payments s)) ->
    NoDup (map inv_id (invoices s)) ->
    find_one (client_q (Server.pcr_client_id pd) tenant_id) (clients s) = Some client ->
    Server.pcr_invoice_id pd = Some iid ->
    iid <> EmptyString ->
    In inv (invoices s) -> inv_id inv = iid -> inv_tenant_id inv = tenant_id ->
    inv_status inv <> InvoiceStatus.paid ->
    List.length (ledger iid s) < 100 ->
    let payment := recorded_payment clock new_id pd tenant_id user in
    let amounts := amounts_counted iid (payments s ++ [payment])%list in
    whole (inv_total inv) = true ->
    adds_exactly amounts = true ->
    (qsum (amounts_counted iid (payments s)) < inv_total inv)%Q ->
    may_delete_payments deleter = true ->
    exists s1 s2,
      Server.create_payment clock new_id pd tenant_id user s = (s1, Ok payment)
      /\ Server.delete_payment clock2 new_id tenant_id deleter s1
         = (s2, Ok "Payment deleted")
      /\ with_invoices (fun _ => invoices s) s2 = s
      /\ invoices s2
         = if Qle_bool (inv_total inv) (qsum amounts)
           then map (fun i =>
                       if inv_id i =? iid
                       then with_status_and_paid_at
                              (if String.ltb (inv_due_date inv) (today clock2)
                               then InvoiceStatus.overdue else InvoiceStatus.sent) None i
                       else i)
                    (invoices s)
           else invoices s.
Proof.
  intros clock clock2 new_id pd tenant_id user deleter s client iid inv
         Hfresh Hnd Hclient Hiid Hne Hin Hid Hten Hunpaid Hlen payment amounts
         _ _ Hopen Hrole.
  assert (Hf : find_one (invoice_q iid tenant_id) (invoices s) = Some inv).
  { rewrite <- Hid. now apply find_scoped_unique. }
  assert (Hst : InvoiceStatus.eqb (inv_status inv) InvoiceStatus.paid = false).
  { destruct (inv_status inv); try reflexivity. congruence. }
  assert (Hopen' : Qle_bool (inv_total inv) (Server.total_paid iid s) = false).
  { rewrite total_paid_counted. apply Qle_bool_false. now apply Qlt_not_le. }
  destruct (record_then_delete clock clock2 new_id pd tenant_id user deleter s client iid
              inv Hfresh Hnd Hclient Hiid Hne Hf Hst Hlen Hopen' Hrole)
    as [s1 [payment' [s2 [Hc [Hd [Hrest [Hno Hyes]]]]]]].
  assert (Hpay : payment' = payment).
  { assert (Hby : find_one (invoice_by_id iid) (invoices s) = Some inv).
    { unfold invoice_by_id. rewrite <- Hid. now apply (find_one_unique inv_id). }
    rewrite (create_payment_effect clock new_id pd tenant_id user s client iid inv
               Hclient Hiid Hne Hby Hten) in Hc.
    cbv zeta in Hc. inversion Hc. unfold payment, recorded_payment. now rewrite Hiid. }
  subst payment'.
  assert (Hsum : qsum amounts = (Server.total_paid iid s + Server.pcr_amount pd)%Q).
  { change (qsum amounts)
      with (Server.total_paid iid (with_payments (insert_one payment) s)).
    now rewrite total_paid_after_insert. }
  exists s1, s2. split; [exact Hc|]. split; [exact Hd|]. split; [exact Hrest|].
  rewrite Hsum.
  destruct (Qle_bool (inv_total inv) (Server.total_paid iid s + Server.pcr_amount pd)).
  - rewrite (Hyes eq_refl). unfold invoice_by_id.
    rewrite (update_one_unique inv_id); auto.
  - now rewrite (Hno eq_refl).
Qed.

(** The draft of 100 is paid in full and the payment is deleted the same
    day: the invoice is left sent. *)
Lemma payment_recorded_then_deleted_example :
  exists s1 s2,
    Server.create_payment clock_2025 "pay-9" pay_all "acme" owner_user small_store
    = (s1, Ok (recorded_payment clock_2025 "pay-9" pay_all "acme" owner_user))
    /\ Server.delete_payment clock_2025 "pay-9" "acme" owner_user s1
       = (s2, Ok "Payment deleted")
    /\ with_invoices (fun _ => invoices small_store) s2 = small_store
    /\ invoices s2 = [with_status_and_paid_at InvoiceStatus.sent None draft_invoice].
Proof.
  apply (payment_recorded_then_deleted clock_2025 clock_2025 "pay-9" pay_all "acme"
           owner_user owner_user small_store acme_client "inv1" draft_invoice).
  - simpl. tauto.
  - simpl. constructor; [intros [] | constructor].
  - reflexivity.
  - reflexivity.
  - discriminate.
  - simpl. auto.
  - reflexivity.
  - reflexivity.
  - discriminate.
  - simpl. lia.
  - reflexivity.
  - reflexivity.
  - reflexivity.
  - reflexivity.
Defined.
